(* ===== verification/_CoqProject ===== *)
-Q . S2P
Prelude.v
Machine.v
UInt128.v
Poly1305.v
CounterMode.v
Salsa20.v
Chacha20.v
Curve25519.v
FieldProofs.v
LadderProofs.v
NaCl.v
SHA2.v
SHA2Proofs.v
HMAC.v
AEAD.v
BignumQ.v
Ed25519.v
Ed25519Proofs.v
Ed25519Sign.v
Prime25519.v
Edwards.v
Ed25519Group.v
Montgomery.v
X25519Group.v
Blake2b.v
Midl.v
MidlSort.v
Weierstrass.v
Jacobian.v
UECC.v
UECCVli.v
UECCField.v
Prime256.v
UECCPoints.v
UECCMult.v
BaseOrder.v
UECCOdd.v
UECCKeys.v
UECCSign.v
UECCKeygen.v
UECCVerify.v
