(* ===== verification/Prelude.v ===== *)
(** * A verification of the C core of the Tezos node

    ** The program

    The node is written in OCaml; the code it trusts most is C, under
    src/vendors: the HACL* cryptographic library behind the peer-to-peer layer
    (ocaml-hacl), the BLAKE2b hash that names blocks and operations
    (ocaml-blake2), the signatures over the NIST curve P-256 (micro-ecc, in
    ocaml-uecc), and LMDB, the store of the chain (ocaml-lmdb).  The sockets
    of lib_p2p encrypt every message with the boxes of NaCl.c, under a key
    agreed by X25519.  This development models these libraries and proves that
    each function computes what its standard or its header says.

      - [Prelude] (this file): buffers, bounded loops, blocks of a message,
        tactics.
      - [Machine]: words of 8, 32 and 64 bits, loads and stores, constant-time
        masks (kremlib.h, kremlib_base.h).
      - [UInt128]: the type class of 128-bit integers, with the two back ends
        of the source as instances: [Native] (the macros of kremlib.h) and
        [FStar] (FStar.c).  The code that multiplies limbs is written, and
        proved, against the class.
      - [Poly1305]: Hacl_Poly1305_64.c (module [Poly1305_64]).
      - [CounterMode]: the key stream and the counter-mode loop shared by the
        ciphers, behind the record [BlockCipher].
      - [Salsa20], [Chacha20]: Hacl_Salsa20.c and Hacl_Chacha20.c.
      - [Curve25519]: Hacl_Curve25519.c; [FieldProofs] and [LadderProofs] its
        arithmetic and its ladder.
      - [NaCl]: Hacl_Policies.c and NaCl.c, which call all of the above, and the
        stubs of hacl_stubs.c through which OCaml calls them.
      - [SHA2], [SHA2Proofs]: Hacl_SHA2_256.c, Hacl_SHA2_512.c, Hacl_SHA2_384.c.
      - [HMAC]: Hacl_HMAC_SHA2_256.c.
      - [AEAD]: AEAD_Poly1305_64.c and Hacl_Chacha20Poly1305.c.
      - [BignumQ]: the scalars of Hacl_Ed25519.c, modulo the order of the base
        point; [Ed25519]: the rest of that file; [Ed25519Proofs] its points and
        their encoding, [Ed25519Sign] signing and verification.
      - [Prime25519], [Edwards], [Ed25519Group]: 2^255 - 19 is prime; the group
        of the twisted Edwards curve; the code computes in that group.
      - [Montgomery], [X25519Group]: the map to the u-coordinates of X25519; the
        ladder of Hacl_Curve25519.c multiplies in the same group.
      - [Blake2b]: blake2b-ref.c with its stubs.
      - [Midl], [MidlSort]: midl.c, the lists of page numbers of LMDB, over an
        abstract allocator (class [Allocator]); merge and sort in [MidlSort].
        A sum of [int] indices that overflows has no value ([None]).
      - [UECC]: uECC.c with the curve secp256r1 of curve-specific.h and 64-bit
        words.  [UECCVli]: its multi-precision arithmetic, [UECCField]: the
        field of P-256.
      - [Weierstrass], [Jacobian]: the group of a short Weierstrass curve, with
        associativity, and the formulas in Jacobian and co-Z coordinates, both
        over any prime field.  [Prime256]: p and n of P-256 are prime;
        [BaseOrder]: n is the order of its base point; [UECCOdd]: no point of
        it has the ordinate 0, so that every point can be doubled.
      - [UECCPoints], [UECCMult]: the point operations and the ladder of uECC.c
        in that group; [UECCKeys], [UECCKeygen]: checking, compressing and
        making keys, shared secrets; [UECCSign], [UECCVerify]: ECDSA.

    ** How the code is modelled

    A C function is a Rocq function of the same name.  A buffer is a list of
    integers; a function that writes to buffers returns them, in the order of
    its arguments, and its C result last.  A pointer into a buffer is the rest
    of the list from that offset ([drop]), or a slice of it where the code
    writes through it.  Reads [b.[i]], writes [b.[i <- v]], [memcpy] ([blit])
    and [for] loops ([for_]) keep the shape of the source; arithmetic is
    written in the scopes [u8], [u32], [u64], where [+], [-], [*] and [<<] wrap.
    Recursive C functions are structural fixpoints on their counter.  Loops
    that have no counter carry fuel: the searches of midl.c as much as the
    list is long, and its sort twice the number of identifiers plus two, which
    is shown to suffice (a turn either closes a segment or splits one and
    drops its pivot).  The inversion of uECC.c has 128 turns for each word and one, since
    each turn takes a bit off one of two numbers; its count of bits has 64, and
    the corrections of the fast reduction 16, more than the sums and
    differences it accumulates can need.
    The tries of its random loops are those of the source.  The random number
    generator is a parameter, a function on a state of its own; the theorems
    that use it assume that it fills the buffer it is given (fills).

    The peer-to-peer layer encrypts with one buffer for message and
    ciphertext.  The definitions named [_inplace] model these calls: each byte
    is overwritten as it is read.

    ** What the theorems show

    Each component has a specification module ([Salsa20_Spec],
    [Poly1305_Spec], [Curve25519_Spec], [SHA2_Spec], ...) that states the
    published definition over integers and lists, and a refinement theorem for
    each entry point of the code.  The theorems that close a file, numbered
    C1, C2, ..., are its main results:

      - boxes: round trips, in place and between two parties with the key pairs
        the code computes, which rests on the agreement of their X25519 secrets;
        acceptance of exactly the right tag; rejection leaves the output alone;
      - signatures: key generation, signing and verification are those of RFC
        8032, and every signature the code makes verifies under the public key
        of its secret, which rests on the group law, the order of the base
        point and the decoding of encoded points;
      - P-256: public keys are the multiples of the base point in the group of
        the curve, for all private keys but 1, n - 2 and n - 1, which are
        refused; both parties of a Diffie-Hellman exchange get one secret,
        unless a public key has the abscissa 0 or a random draw fails; a
        signature solves the equation of ECDSA, verification decides it for
        every valid public key and accepts what signing makes.  The code adds
        points with formulas that have no case for equal or opposite points:
        the ladder is shown to meet none, while for verification this is a
        hypothesis on the points that it adds ([regular_points], in numbers
        [verify_regular]), since there are scalars that break it
        ([verify_irregular_2]);
      - primitives: X25519, Poly1305, Salsa20, HSalsa20, ChaCha20, SHA-2, HMAC
        and the AEAD refine their specifications;
      - equivalences: incremental and one-shot interfaces, in-place and
        separate buffers, one-call and two-step boxes, the two 128-bit back
        ends;
      - lists: the sort of fewer than 2^30 identifiers returns a sorted
        permutation, its stack stays within its array and its indices within
        [int], which they leave for INT_MAX identifiers; merge, search,
        insertion and the appends do what they say on every branch, and an
        append fails exactly when the memory it needs is refused;
      - bounds: limb bounds that exclude overflow in the field
        multiplications, and the behaviour at the limits (masks at 2^63,
        messages of more than 4 GiB, whose last bytes Poly1305_64 leaves out
        of the tag).

    Lengths: where nothing else is said messages are assumed shorter than 2^32
    bytes, the range in which the 32-bit lengths and offsets of the source are
    exact.

    ** What is not modelled

    The 32-bit Poly1305; secp256k1; of micro-ecc the other curves, the 8- and
    32-bit variants and deterministic signing; the B+tree of LMDB (mdb.c),
    which rests on mmap, file locks and shared memory; reading the random
    device (Hacl_Unverified_Random.c), which is I/O; the OCaml code.
    Constant-time execution is not a property of the model. *)

From stdpp Require Import base list numbers.
From Stdlib Require Import ZArith Lia Btauto.

Local Open Scope Z_scope.

(** ** Buffers

    A C array is a list of integers; [b.[i]] is a read and [b.[i <- v]] a
    write.  Out-of-range accesses do not occur in the modelled code: each
    theorem fixes the lengths of the buffers it is about. *)

Declare Scope buf_scope.
Delimit Scope buf_scope with buf.

Notation "b .[ i ]" := (b !!! (i%nat)) (at level 1, left associativity, format "b .[ i ]") : buf_scope.
Notation "b .[ i <- v ]" := (<[ (i%nat) := v ]> b)
  (at level 1, left associativity, format "b .[ i  <-  v ]") : buf_scope.

(** [memcpy(dst + off, src, length src)] *)
Definition blit {A} (dst : list A) (off : nat) (src : list A) : list A :=
  take off dst ++ src ++ drop (off + length src) dst.

(** The buffer [b + off] seen as [len] cells. *)
Definition slice {A} (b : list A) (off len : nat) : list A := take len (drop off b).

(** [for (i = lo; i < hi; i++) st = body i st] *)
Definition for_ {St} (lo hi : nat) (body : nat -> St -> St) (st : St) : St :=
  fold_left (fun s i => body i s) (seq lo (hi - lo)) st.

Lemma for_nil {St} lo hi (body : nat -> St -> St) st :
  (hi <= lo)%nat -> for_ lo hi body st = st.
Proof. intros. unfold for_. now replace (hi - lo)%nat with 0%nat by lia. Qed.

Lemma for_last {St} lo n (body : nat -> St -> St) st :
  (lo <= n)%nat -> for_ lo (S n) body st = body n (for_ lo n body st).
Proof.
  intros. unfold for_. replace (S n - lo)%nat with (S (n - lo)) by lia.
  rewrite seq_S, fold_left_app. cbn. now replace (lo + (n - lo))%nat with n by lia.
Qed.

(** Invariant rule for counted loops. *)
Lemma for_ind {St} (P : nat -> St -> Prop) lo hi (body : nat -> St -> St) st :
  (lo <= hi)%nat ->
  P lo st ->
  (forall i s, (lo <= i < hi)%nat -> P i s -> P (S i) (body i s)) ->
  P hi (for_ lo hi body st).
Proof.
  intros Hle H0 Hstep. induction hi as [|hi IH].
  - rewrite for_nil by lia. now replace 0%nat with lo by lia.
  - destruct (Nat.eq_dec lo (S hi)) as [->|].
    + now rewrite for_nil by lia.
    + rewrite for_last by lia. apply Hstep; [lia|]. apply IH; [lia|].
      intros i s Hi. apply Hstep. lia.
Qed.

Lemma length_blit {A} (dst : list A) off src :
  (off + length src <= length dst)%nat -> length (blit dst off src) = length dst.
Proof.
  intros. unfold blit. rewrite !length_app, length_take, length_drop. lia.
Qed.

Lemma length_slice {A} (b : list A) off len :
  (off + len <= length b)%nat -> length (slice b off len) = len.
Proof. intros. unfold slice. rewrite length_take, length_drop. lia. Qed.

Lemma slice_all {A} (b : list A) n : length b = n -> slice b 0 n = b.
Proof. intros <-. unfold slice. now rewrite drop_0, firstn_all. Qed.

Lemma slice_take {A} (l : list A) n off len : (off + len <= n)%nat -> slice (take n l) off len = slice l off len.
Proof. intros. unfold slice. rewrite skipn_firstn_comm, take_take. f_equal. lia. Qed.

(** Reading and overwriting a part in the middle. *)
Lemma slice_mid {A} (a b c : list A) n m : length a = n -> length b = m -> slice (a ++ b ++ c) n m = b.
Proof. intros <- <-. unfold slice. now rewrite drop_app_length, take_app_length. Qed.

Lemma blit_mid {A} (a b b' c : list A) n : length a = n -> length b = length b' ->
  blit (a ++ b ++ c) n b' = a ++ b' ++ c.
Proof.
  intros <- Hb. unfold blit. rewrite take_app_length, <- Hb, (app_assoc a b), <- (length_app a b), drop_app_length.
  done.
Qed.

(** Destruct a list of known (small) length into its cells. *)
Ltac destruct_list l :=
  lazymatch goal with
  | H : length l = 0%nat |- _ => destruct l; [clear H | discriminate H]
  | H : length l = S _ |- _ =>
      let x := fresh "x" in let l' := fresh "l" in
      destruct l as [|x l']; [discriminate H | cbn [length] in H; apply Nat.succ_inj in H; destruct_list l']
  end.

(** Compute reads and writes at literal indices of literal lists. *)
Ltac buf_simpl := cbn [insert list_insert lookup_total list_lookup_total replicate].

(** ** Arithmetic *)

Lemma Z_land_ones_lit x m n : 0 <= n -> m = Z.ones n -> Z.land x m = x mod 2 ^ n.
Proof. intros ? ->. now apply Z.land_ones. Qed.

Lemma Z_land_disjoint a b n : 0 <= n -> 0 <= a < 2 ^ n -> Z.land a (Z.shiftl b n) = 0.
Proof.
  intros Hn Ha. apply Z.bits_inj'. intros i Hi. rewrite Z.bits_0, Z.land_spec.
  destruct (Z.lt_ge_cases i n) as [Hlt|Hge].
  - rewrite Z.shiftl_spec_low by lia. apply andb_false_r.
  - rewrite <- (Z.mod_small a (2 ^ n)) by lia. now rewrite Z.mod_pow2_bits_high by lia.
Qed.

Lemma Z_lor_add a b n :
  0 <= n -> 0 <= a < 2 ^ n -> Z.lor a (Z.shiftl b n) = a + b * 2 ^ n.
Proof.
  intros Hn Ha. rewrite <- Z.add_lor_land, <- Z.shiftl_mul_pow2 by lia. rewrite Z_land_disjoint by lia. lia.
Qed.

Lemma Z_lxor_add a b n :
  0 <= n -> 0 <= a < 2 ^ n -> Z.lxor a (Z.shiftl b n) = a + b * 2 ^ n.
Proof.
  intros Hn Ha. rewrite <- Z.shiftl_mul_pow2 by lia. symmetry. apply Z.add_nocarry_lxor. now apply Z_land_disjoint.
Qed.

Lemma mul_bound a b A B : 0 <= a <= A -> 0 <= b <= B -> 0 <= a * b <= A * B.
Proof. nia. Qed.

Lemma mod_eq_by_multiple a b k p : a = b + k * p -> a mod p = b mod p.
Proof. intros ->. apply Z_mod_plus_full. Qed.

(** ** Splitting a message into blocks *)

Fixpoint chunks_fuel {A} (fuel n : nat) (l : list A) : list (list A) :=
  match fuel with
  | O => []
  | S fuel' => match l with [] => [] | _ => take n l :: chunks_fuel fuel' n (drop n l) end
  end.

(** [chunks n l]: the blocks of [n] elements of [l], the last one possibly shorter. *)
Definition chunks {A} (n : nat) (l : list A) : list (list A) := chunks_fuel (length l) n l.

Lemma chunks_fuel_enough {A} n (l : list A) f1 f2 : (0 < n)%nat ->
  (length l <= f1)%nat -> (length l <= f2)%nat -> chunks_fuel f1 n l = chunks_fuel f2 n l.
Proof.
  intros Hn. revert f2 l. induction f1 as [|f1 IH]; intros f2 l H1 H2.
  - destruct l; [|cbn in H1; lia]. now destruct f2.
  - destruct f2 as [|f2]; [destruct l; [done|cbn in H2; lia]|].
    destruct l as [|a l]; [done|]. cbn [chunks_fuel]. f_equal.
    apply IH; rewrite length_drop; cbn in *; lia.
Qed.

Lemma chunks_nil {A} n : chunks n (@nil A) = [].
Proof. done. Qed.

Lemma chunks_unfold {A} n (l : list A) : (0 < n)%nat -> l <> [] ->
  chunks n l = take n l :: chunks n (drop n l).
Proof.
  intros Hn Hl. unfold chunks. destruct l as [|a l]; [done|]. cbn [length chunks_fuel].
  f_equal. apply chunks_fuel_enough; rewrite ?length_drop; cbn; lia.
Qed.

Lemma chunks_short {A} n (l : list A) : (0 < length l <= n)%nat -> chunks n l = [l].
Proof.
  intros. rewrite chunks_unfold by (lia || (intros ->; cbn in *; lia)).
  now rewrite take_ge, drop_ge by lia.
Qed.

Lemma chunks_app {A} n k (l1 l2 : list A) : (0 < n)%nat -> length l1 = (n * k)%nat ->
  chunks n (l1 ++ l2) = chunks n l1 ++ chunks n l2.
Proof.
  intros Hn. revert l1. induction k as [|k IH]; intros l1 Hl.
  { destruct l1; [done|cbn in Hl; lia]. }
  rewrite (chunks_unfold n l1), (chunks_unfold n (l1 ++ l2)); try done.
  2: { intros E. apply (f_equal length) in E. rewrite length_app in E. cbn in E. lia. }
  2: { intros ->. cbn in Hl. lia. }
  rewrite take_app_le, drop_app_le, IH by (rewrite ?length_drop; lia). done.
Qed.

(** ** Loops that fill a buffer *)

Lemma for_ext {St} lo hi (f g : nat -> St -> St) st :
  (forall i s, (lo <= i < hi)%nat -> f i s = g i s) -> for_ lo hi f st = for_ lo hi g st.
Proof.
  intros E. destruct (Nat.le_gt_cases lo hi) as [Hle|Hgt]; [|now rewrite !for_nil by lia].
  induction hi as [|hi IH]; [now rewrite !for_nil by lia|].
  destruct (Nat.eq_dec lo (S hi)) as [->|]; [now rewrite !for_nil by lia|].
  rewrite !for_last by lia. rewrite IH, E by (lia || (intros; apply E; lia)). done.
Qed.

(** The same under an invariant of the loop. *)
Lemma for_ext_inv {St} (I : St -> Prop) lo hi (f g : nat -> St -> St) st : I st ->
  (forall i s, (lo <= i < hi)%nat -> I s -> f i s = g i s /\ I (g i s)) ->
  for_ lo hi f st = for_ lo hi g st /\ I (for_ lo hi g st).
Proof.
  intros H0 E. destruct (Nat.le_gt_cases lo hi) as [Hle|Hgt]; [|now rewrite !for_nil by lia].
  induction hi as [|hi IH]; [now rewrite !for_nil by lia|].
  destruct (Nat.eq_dec lo (S hi)) as [->|]; [now rewrite !for_nil by lia|].
  rewrite !for_last by lia. destruct IH as [-> HI]; [intros; apply E; (lia || done)|lia|].
  apply E; (lia || done).
Qed.

Lemma iter_S {A} n (f : A -> A) x : Nat.iter (S n) f x = f (Nat.iter n f x).
Proof. reflexivity. Qed.

Lemma for_iter {St} (f : St -> St) n st : for_ 0 n (fun _ s => f s) st = Nat.iter n f st.
Proof.
  induction n as [|n IH]; [now rewrite for_nil by lia|]. rewrite for_last, IH by lia. done.
Qed.

(** [buf[i] = f i buf[i]] for all cells of a prefix. *)
Lemma for_map {A} `{!Inhabited A} (f : nat -> A -> A) n out : (n <= length out)%nat ->
  for_ 0 n (fun i o => <[i := f i (o !!! i)]> o) out = imap f (take n out) ++ drop n out.
Proof.
  revert out. induction n as [|n IH]; intros out Hn; [now rewrite for_nil, take_0, drop_0 by lia|].
  rewrite for_last, IH by lia.
  destruct (lookup_lt_is_Some_2 out n ltac:(lia)) as [x Hx].
  assert (L : length (imap f (take n out)) = n) by (rewrite length_imap, length_take; lia).
  rewrite (drop_S out x n Hx), (take_S_r out n x Hx), imap_app, length_take.
  rewrite lookup_total_app_r by lia. rewrite insert_app_r_alt by lia.
  rewrite L, Nat.sub_diag. cbn. rewrite <- app_assoc. cbn. do 3 f_equal. f_equal. lia.
Qed.

(** [buf[i] = f i] for all cells of a prefix. *)
Lemma for_write {A} (f : nat -> A) n out : (n <= length out)%nat ->
  for_ 0 n (fun i o => <[i := f i]> o) out = (f <$> seq 0 n) ++ drop n out.
Proof.
  revert out. induction n as [|n IH]; intros out Hn; [now rewrite for_nil, drop_0 by lia|].
  rewrite for_last, IH by lia.
  destruct (lookup_lt_is_Some_2 out n ltac:(lia)) as [x Hx].
  assert (L : length (f <$> seq 0 n) = n) by (rewrite length_fmap, length_seq; lia).
  rewrite (drop_S out x n Hx), seq_S, fmap_app. rewrite insert_app_r_alt by lia.
  rewrite L, Nat.sub_diag. cbn. now rewrite <- app_assoc.
Qed.

(** Writing [k] cells at a time. *)
Lemma for_blit {A} k (g : nat -> list A) n out :
  (forall i, (i < n)%nat -> length (g i) = k) -> (k * n <= length out)%nat ->
  for_ 0 n (fun i o => blit o (k * i) (g i)) out = concat (g <$> seq 0 n) ++ drop (k * n) out.
Proof.
  revert out. induction n as [|n IH]; intros out Hg Hn.
  { now rewrite for_nil, Nat.mul_0_r, drop_0 by lia. }
  rewrite for_last, IH by (lia || (intros; apply Hg; lia)).
  assert (L : length (concat (g <$> seq 0 n)) = (k * n)%nat).
  { clear IH Hn. induction n as [|n IH]; [cbn; lia|].
    rewrite seq_S, fmap_app, concat_app, length_app, IH by (intros; apply Hg; lia).
    cbn. rewrite length_app, Hg by lia. cbn. lia. }
  unfold blit. rewrite take_app_length' by lia. rewrite seq_S, fmap_app, concat_app. cbn.
  rewrite app_nil_r, <- app_assoc. do 2 f_equal.
  rewrite Hg, drop_app_ge by lia. rewrite L, drop_drop. f_equal. lia.
Qed.

(** A call that writes through the pointer [b + off]. *)
Definition at_off {A} (b : list A) (off : nat) (f : list A -> list A) : list A :=
  take off b ++ f (drop off b).

Lemma at_off_blit {A} (b : list A) off src : (off <= length b)%nat ->
  at_off b off (fun o => blit o 0 src) = blit b off src.
Proof.
  intros. unfold at_off, blit. cbn. now rewrite drop_drop.
Qed.

Lemma blit_0 {A} (b src : list A) : blit b 0 src = src ++ drop (length src) b.
Proof. reflexivity. Qed.

Lemma blit_0_exact {A} (b src : list A) : length src = length b -> blit b 0 src = src.
Proof. intros. unfold blit. cbn. now rewrite drop_ge, app_nil_r by lia. Qed.

(** ** Stepping over the bindings of straight-line code

    A model is a sequence of [let]s, as the code is a sequence of calls.  The
    tactics walk over it without substituting the bindings: [step_let P] keeps
    the property [P] of the bound value and forgets the value itself. *)

Lemma let_intro {A B} (P : A -> Prop) (Q : B -> Prop) (v : A) (f : A -> B) :
  P v -> (forall a, P a -> Q (f a)) -> Q (let a := v in f a).
Proof. intros H1 H2. exact (H2 v H1). Qed.

(** Two such sequences, compared binding by binding. *)
Lemma let_eq_intro {A B} (v v' : A) (f f' : A -> B) :
  v = v' -> (forall a, f a = f' a) -> (let a := v in f a) = (let a := v' in f' a).
Proof. intros -> H. apply H. Qed.

Ltac let_eq :=
  lazymatch goal with
  | |- (let a := ?v in @?f a) = (let b := ?v' in @?f' b) =>
      refine (let_eq_intro v v' f f' _ _); [|intros ?; cbv beta]
  end.

Ltac subst_let :=
  lazymatch goal with |- ?Q (let a := ?v in @?f a) => change (Q (f v)); cbv beta end.
Ltac step_let P :=
  lazymatch goal with
  | |- ?Q (let a := ?v in @?f a) =>
      refine (let_intro P Q v f _ _);
        [|let a := fresh "a" in let H := fresh "H" in intros a H; cbv beta in H]
  end.
