(* ===== verification/Machine.v ===== *)
(** * Machine: fixed-width integers, byte order and constant-time masks

    The arithmetic of [uint8_t], [uint32_t] and [uint64_t] as the C code uses
    it, the loads and stores of [kremlib.h] and the masks of
    [kremlib_base.h].  A w-bit integer is a [Z] in [0, 2^w); every operation
    that can leave that range wraps explicitly. *)

From stdpp Require Import base list numbers.
From Stdlib Require Import ZArith Lia Btauto.
From S2P Require Import Prelude.

Local Open Scope Z_scope.

(** ** Word operations *)

Definition wrap (w z : Z) : Z := z mod 2 ^ w.
Definition wadd (w x y : Z) : Z := wrap w (x + y).
Definition wsub (w x y : Z) : Z := wrap w (x - y).
Definition wmul (w x y : Z) : Z := wrap w (x * y).
Definition wshl (w x s : Z) : Z := wrap w (Z.shiftl x s).
Definition wshr (x s : Z) : Z := Z.shiftr x s.
Definition wnot (w x : Z) : Z := wrap w (Z.lnot x).

(** Two's complement reading of a w-bit word, and [(intw_t)x >> s]. *)
Definition to_signed (w x : Z) : Z := if x <? 2 ^ (w - 1) then x else x - 2 ^ w.
Definition wsar (w x s : Z) : Z := wrap w (Z.shiftr (to_signed w x) s).

(** C expressions over one word size are written in its scope.  Arguments of
    function calls are read in [Z_scope], so they carry the scope themselves. *)
Declare Scope u8_scope.
Declare Scope u32_scope.
Declare Scope u64_scope.
Delimit Scope u8_scope with u8.
Delimit Scope u32_scope with u32.
Delimit Scope u64_scope with u64.

Reserved Notation "x << y" (at level 52, left associativity).
Reserved Notation "x >> y" (at level 52, left associativity).
Reserved Notation "x & y" (at level 53, left associativity).
Reserved Notation "x '^^' y" (at level 54, left associativity).
Reserved Notation "x '.|' y" (at level 56, left associativity).
Reserved Notation "! x" (at level 35, right associativity).

(** Operands of these notations stay in the scope of the expression. *)
Arguments wadd : clear scopes, simpl never.
Arguments wsub : clear scopes, simpl never.
Arguments wmul : clear scopes, simpl never.
Arguments wshl : clear scopes, simpl never.
Arguments wshr : clear scopes, simpl never.
Arguments wnot : clear scopes, simpl never.
Arguments wrap : simpl never.
Arguments wsar : simpl never.
#[local] Arguments Z.land : clear scopes.
#[local] Arguments Z.lor : clear scopes.
#[local] Arguments Z.lxor : clear scopes.

Notation "x + y" := (wadd 8 x y) : u8_scope.
Notation "x - y" := (wsub 8 x y) : u8_scope.
Notation "x * y" := (wmul 8 x y) : u8_scope.
Notation "x << y" := (wshl 8 x y) : u8_scope.
Notation "x >> y" := (wshr x y) : u8_scope.
Notation "x & y" := (Z.land x y) : u8_scope.
Notation "x '^^' y" := (Z.lxor x y) : u8_scope.
Notation "x '.|' y" := (Z.lor x y) : u8_scope.
Notation "! x" := (wnot 8 x) : u8_scope.

Notation "x + y" := (wadd 32 x y) : u32_scope.
Notation "x - y" := (wsub 32 x y) : u32_scope.
Notation "x * y" := (wmul 32 x y) : u32_scope.
Notation "x << y" := (wshl 32 x y) : u32_scope.
Notation "x >> y" := (wshr x y) : u32_scope.
Notation "x & y" := (Z.land x y) : u32_scope.
Notation "x '^^' y" := (Z.lxor x y) : u32_scope.
Notation "x '.|' y" := (Z.lor x y) : u32_scope.
Notation "! x" := (wnot 32 x) : u32_scope.

Notation "x + y" := (wadd 64 x y) : u64_scope.
Notation "x - y" := (wsub 64 x y) : u64_scope.
Notation "x * y" := (wmul 64 x y) : u64_scope.
Notation "x << y" := (wshl 64 x y) : u64_scope.
Notation "x >> y" := (wshr x y) : u64_scope.
Notation "x & y" := (Z.land x y) : u64_scope.
Notation "x '^^' y" := (Z.lxor x y) : u64_scope.
Notation "x '.|' y" := (Z.lor x y) : u64_scope.
Notation "! x" := (wnot 64 x) : u64_scope.

(** ** Byte order *)

Fixpoint le_combine (l : list Z) : Z :=
  match l with
  | [] => 0
  | b :: l' => b + 256 * le_combine l'
  end.

Fixpoint le_split (n : nat) (z : Z) : list Z :=
  match n with
  | O => []
  | S n' => z mod 256 :: le_split n' (z / 256)
  end.

Definition be_combine (l : list Z) : Z := le_combine (rev l).
Definition be_split (n : nat) (z : Z) : list Z := rev (le_split n z).

(** [loadN_xx(b + off)] and [storeN_xx(b + off, v)]. *)
Definition load32_le (b : list Z) (off : nat) : Z := le_combine (slice b off 4).
Definition load64_le (b : list Z) (off : nat) : Z := le_combine (slice b off 8).
Definition load32_be (b : list Z) (off : nat) : Z := be_combine (slice b off 4).
Definition load64_be (b : list Z) (off : nat) : Z := be_combine (slice b off 8).
Definition store32_le (b : list Z) (off : nat) (v : Z) : list Z := blit b off (le_split 4 v).
Definition store64_le (b : list Z) (off : nat) (v : Z) : list Z := blit b off (le_split 8 v).
Definition store32_be (b : list Z) (off : nat) (v : Z) : list Z := blit b off (be_split 4 v).
Definition store64_be (b : list Z) (off : nat) (v : Z) : list Z := blit b off (be_split 8 v).

(** ** Rotations and constant-time comparisons (kremlib_base.h) *)

Definition rotate32_left (x n : Z) : Z := ((x << n) .| (x >> (32 - n)%Z))%u32.
Definition rotate32_right (x n : Z) : Z := ((x >> n) .| (x << (32 - n)%Z))%u32.

Definition FStar_UInt8_eq_mask (x y : Z) : Z :=
  let x := (! (x ^^ y))%u8 in
  let x := (x & (x << 4))%u8 in
  let x := (x & (x << 2))%u8 in
  let x := (x & (x << 1))%u8 in
  wsar 8 x 7.

Definition FStar_UInt64_eq_mask (x y : Z) : Z :=
  let x := (! (x ^^ y))%u64 in
  let x := (x & (x << 32))%u64 in
  let x := (x & (x << 16))%u64 in
  let x := (x & (x << 8))%u64 in
  let x := (x & (x << 4))%u64 in
  let x := (x & (x << 2))%u64 in
  let x := (x & (x << 1))%u64 in
  wsar 64 x 63.

(** The signed subtractions of the C code are carried out in [int64_t]; the
    model wraps where C leaves the overflow undefined (only when exactly one
    operand has its top bit set). *)
Definition FStar_UInt64_gte_mask (x y : Z) : Z :=
  let low63 :=
    (! (wsar 64 ((x & 0x7fffffffffffffff) - (y & 0x7fffffffffffffff))%u64 63))%u64 in
  let high_bit :=
    (! (wsar 64 ((x & 0x8000000000000000) - (y & 0x8000000000000000))%u64 63))%u64 in
  (low63 & high_bit)%u64.

(** ** Lemmas: words *)

Definition word (w x : Z) : Prop := 0 <= x < 2 ^ w.
Definition bytes (l : list Z) : Prop := Forall (fun b => 0 <= b < 256) l.

Lemma wrap_word w z : 0 <= w -> word w (wrap w z).
Proof. intros. apply Z.mod_pos_bound. lia. Qed.

Lemma wrap_small w z : word w z -> wrap w z = z.
Proof. apply Z.mod_small. Qed.

Lemma wadd_word w x y : 0 <= w -> word w (wadd w x y).
Proof. apply wrap_word. Qed.
Lemma wsub_word w x y : 0 <= w -> word w (wsub w x y).
Proof. apply wrap_word. Qed.
Lemma wmul_word w x y : 0 <= w -> word w (wmul w x y).
Proof. apply wrap_word. Qed.
Lemma wshl_word w x s : 0 <= w -> word w (wshl w x s).
Proof. apply wrap_word. Qed.
Lemma wnot_word w x : 0 <= w -> word w (wnot w x).
Proof. apply wrap_word. Qed.

Lemma wadd_small w x y : 0 <= x + y < 2 ^ w -> wadd w x y = x + y.
Proof. apply wrap_small. Qed.
Lemma wsub_small w x y : 0 <= x - y < 2 ^ w -> wsub w x y = x - y.
Proof. apply wrap_small. Qed.
Lemma wmul_small w x y : 0 <= x * y < 2 ^ w -> wmul w x y = x * y.
Proof. apply wrap_small. Qed.
Lemma wshl_mul w x s : 0 <= s -> wshl w x s = wrap w (x * 2 ^ s).
Proof. intros. unfold wshl. now rewrite Z.shiftl_mul_pow2. Qed.
Lemma wshl_small w x s : 0 <= s -> 0 <= x * 2 ^ s < 2 ^ w -> wshl w x s = x * 2 ^ s.
Proof. intros. rewrite wshl_mul by lia. now apply wrap_small. Qed.
Lemma wshr_div x s : 0 <= s -> wshr x s = x / 2 ^ s.
Proof. intros. unfold wshr. now rewrite Z.shiftr_div_pow2. Qed.

Lemma wrap_bit w z i : 0 <= w -> 0 <= i ->
  Z.testbit (wrap w z) i = (i <? w) && Z.testbit z i.
Proof.
  intros. unfold wrap. destruct (Z.ltb_spec i w).
  - rewrite Z.mod_pow2_bits_low by lia. reflexivity.
  - rewrite Z.mod_pow2_bits_high by lia. reflexivity.
Qed.

Lemma word_bit_high w x i : word w x -> 0 <= w <= i -> Z.testbit x i = false.
Proof.
  intros Hx Hi. rewrite <- (wrap_small w x Hx), wrap_bit by lia.
  now destruct (Z.ltb_spec i w); [lia|].
Qed.

Lemma word_ext w x y : 0 <= w -> word w x -> word w y ->
  (forall i, 0 <= i < w -> Z.testbit x i = Z.testbit y i) -> x = y.
Proof.
  intros Hw Hx Hy H. apply Z.bits_inj'. intros i Hi. destruct (Z.lt_ge_cases i w).
  - apply H; lia.
  - now rewrite !(word_bit_high w) by (assumption || lia).
Qed.

Lemma word_of_bits w x : 0 <= w -> 0 <= x ->
  (forall i, w <= i -> Z.testbit x i = false) -> word w x.
Proof.
  intros Hw Hx H. split; [assumption|].
  enough (x = wrap w x) as -> by now apply wrap_word.
  apply Z.bits_inj'. intros i Hi. rewrite wrap_bit by lia.
  destruct (Z.ltb_spec i w); [reflexivity|]. now rewrite H by lia.
Qed.

Lemma word_land_l w x y : 0 <= w -> word w x -> 0 <= y -> word w (Z.land x y).
Proof.
  intros. apply word_of_bits; [assumption| |].
  - apply Z.land_nonneg. unfold word in *; lia.
  - intros i ?. now rewrite Z.land_spec, (word_bit_high w x) by (assumption || lia).
Qed.

Lemma word_lor w x y : 0 <= w -> word w x -> word w y -> word w (Z.lor x y).
Proof.
  intros. apply word_of_bits; [assumption| |].
  - apply Z.lor_nonneg. unfold word in *; lia.
  - intros i ?. now rewrite Z.lor_spec, !(word_bit_high w) by (assumption || lia).
Qed.

Lemma word_lxor w x y : 0 <= w -> word w x -> word w y -> word w (Z.lxor x y).
Proof.
  intros. apply word_of_bits; [assumption| |].
  - apply Z.lxor_nonneg. unfold word in *; lia.
  - intros i ?. now rewrite Z.lxor_spec, !(word_bit_high w) by (assumption || lia).
Qed.

Lemma word_shr w x s : 0 <= s -> word w x -> word w (wshr x s).
Proof.
  unfold word. intros Hs [H1 H2]. rewrite wshr_div by lia. split.
  - apply Z.div_pos; lia.
  - eapply Z.le_lt_trans; [|eassumption]. apply Z.div_le_upper_bound; [lia|]. nia.
Qed.

Create HintDb word discriminated.
#[export] Hint Resolve wrap_word wadd_word wsub_word wmul_word wshl_word wnot_word word_land_l word_lor word_lxor word_shr : word.
#[export] Hint Extern 1 (0 <= _) => lia : word.

(** Normalise word arithmetic to plain integers where the context bounds it,
    and bit masks and shifts to [mod] and [/]. *)
Ltac wnorm :=
  repeat match goal with
  | |- context [wshr ?x ?s] => rewrite (wshr_div x s) by lia
  | |- context [wadd ?w ?x ?y] => rewrite (wadd_small w x y) by lia
  | |- context [wsub ?w ?x ?y] => rewrite (wsub_small w x y) by lia
  | |- context [wmul ?w ?x ?y] => rewrite (wmul_small w x y) by lia
  | |- context [wshl ?w ?x ?s] => rewrite (wshl_small w x s) by lia
  | |- context [wrap ?w ?x] => rewrite (wrap_small w x) by (unfold word; lia)
  end.

(** Joining two limbs into one 64-bit word. *)
Lemma join_word hi lo s : 0 <= s <= 64 -> 0 <= lo < 2 ^ s ->
  Z.lor (wshl 64 hi s) lo = lo + 2 ^ s * (hi mod 2 ^ (64 - s)).
Proof.
  intros Hs Hlo. rewrite wshl_mul by lia. unfold wrap.
  replace (2 ^ 64) with (2 ^ (64 - s) * 2 ^ s) by (rewrite <- Z.pow_add_r by lia; f_equal; lia).
  rewrite Z.mul_mod_distr_r, <- Z.shiftl_mul_pow2, Z.lor_comm, Z_lor_add by lia. lia.
Qed.

(** ** Lemmas: byte order *)

Lemma length_le_split n z : length (le_split n z) = n.
Proof. revert z. induction n; intros; cbn; auto. Qed.

Lemma bytes_le_split n z : bytes (le_split n z).
Proof.
  revert z. induction n; intros; constructor; [|apply IHn].
  apply Z.mod_pos_bound. lia.
Qed.

Lemma le_combine_bound l : bytes l -> 0 <= le_combine l < 256 ^ Z.of_nat (length l).
Proof.
  induction 1 as [|b l Hb _ IH]; cbn [le_combine length]; [lia|].
  rewrite Nat2Z.inj_succ, Z.pow_succ_r by lia. lia.
Qed.

Lemma le_combine_split n z : le_combine (le_split n z) = z mod 256 ^ Z.of_nat n.
Proof.
  revert z. induction n as [|n IH]; intros z; cbn [le_combine le_split].
  - now rewrite Z.mod_1_r.
  - rewrite IH, Nat2Z.inj_succ, Z.pow_succ_r by lia.
    rewrite Z.rem_mul_r by lia. lia.
Qed.

Lemma le_split_combine l : bytes l -> le_split (length l) (le_combine l) = l.
Proof.
  induction 1 as [|b l Hb _ IH]; [reflexivity|]. cbn [le_combine le_split length].
  rewrite (Z.mul_comm 256), Z_mod_plus_full, Z.mod_small, Z.div_add, Z.div_small by lia.
  now rewrite Z.add_0_l, IH.
Qed.

Lemma le_combine_app l1 l2 :
  le_combine (l1 ++ l2) = le_combine l1 + 256 ^ Z.of_nat (length l1) * le_combine l2.
Proof.
  induction l1 as [|b l1 IH]; cbn [le_combine app length]; [lia|].
  rewrite IH, Nat2Z.inj_succ, Z.pow_succ_r by lia. lia.
Qed.

Lemma le_combine_zeros n : le_combine (replicate n 0) = 0.
Proof. induction n; cbn; lia. Qed.

Lemma le_combine_inj l1 l2 : bytes l1 -> bytes l2 -> length l1 = length l2 ->
  le_combine l1 = le_combine l2 -> l1 = l2.
Proof.
  intros H1 H2 Hl E. rewrite <- (le_split_combine l1), <- (le_split_combine l2) by assumption.
  now rewrite Hl, E.
Qed.

Lemma le_split_mod n z : le_split n (z mod 256 ^ Z.of_nat n) = le_split n z.
Proof.
  apply le_combine_inj; try apply bytes_le_split; rewrite ?length_le_split; [done|].
  rewrite !le_combine_split. apply Z.mod_mod. lia.
Qed.

Lemma le_split_add m n z : le_split (m + n) z = le_split m z ++ le_split n (z / 256 ^ Z.of_nat m).
Proof.
  revert z. induction m as [|m IH]; intros z.
  - cbn. now rewrite Z.div_1_r.
  - cbn [Nat.add le_split app]. rewrite IH, Z.div_div by lia.
    do 3 f_equal. now rewrite Nat2Z.inj_succ, Z.pow_succ_r by lia.
Qed.

Lemma le_combine_take n l : bytes l -> (n <= length l)%nat ->
  le_combine (take n l) = le_combine l mod 256 ^ Z.of_nat n.
Proof.
  intros Hl Hn. rewrite <- (take_drop n l) at 2. rewrite le_combine_app, length_take, Nat.min_l by lia.
  rewrite (Z.mul_comm (256 ^ _)), Z_mod_plus_full, Z.mod_small; [done|].
  pose proof (le_combine_bound (take n l) (Forall_take _ n l Hl)) as B.
  now rewrite length_take, Nat.min_l in B by lia.
Qed.

Lemma le_combine_drop n l : bytes l -> (n <= length l)%nat ->
  le_combine (drop n l) = le_combine l / 256 ^ Z.of_nat n.
Proof.
  intros Hl Hn. rewrite <- (take_drop n l) at 2. rewrite le_combine_app, length_take, Nat.min_l by lia.
  pose proof (le_combine_bound (take n l) (Forall_take _ n l Hl)) as B.
  rewrite length_take, Nat.min_l in B by lia.
  rewrite (Z.mul_comm (256 ^ _)), Z.div_add, Z.div_small by lia. done.
Qed.

Lemma le_combine_slice off len l : bytes l -> (off + len <= length l)%nat ->
  le_combine (slice l off len) = (le_combine l / 256 ^ Z.of_nat off) mod 256 ^ Z.of_nat len.
Proof.
  intros Hl Hn. unfold slice.
  rewrite le_combine_take by (rewrite ?length_drop; (lia || now apply Forall_drop)).
  now rewrite le_combine_drop by (lia || done).
Qed.

Lemma le_combine_testbit l i : bytes l -> 0 <= i < 8 * Z.of_nat (length l) ->
  Z.testbit (le_combine l) i = Z.testbit (l !!! Z.to_nat (i / 8)) (i mod 8).
Proof.
  intros Hl. revert i. induction Hl as [|b l Hb _ IH]; intros i Hi; cbn [le_combine length] in *; [lia|].
  replace (b + 256 * le_combine l) with (Z.lor b (Z.shiftl (le_combine l) 8)).
  2: { rewrite Z_lor_add by lia. lia. }
  rewrite Z.lor_spec, Z.shiftl_spec by lia. destruct (Z.lt_ge_cases i 8).
  - rewrite (Z.testbit_neg_r _ (i - 8)), orb_false_r, Z.div_small, Z.mod_small by lia. done.
  - rewrite IH by lia. rewrite (word_bit_high 8 b i) by (unfold word; lia). cbn [orb].
    replace (i / 8) with ((i - 8) / 8 + 1) by (Z.div_mod_to_equations; lia).
    replace (i mod 8) with ((i - 8) mod 8) by (Z.div_mod_to_equations; lia).
    rewrite Z2Nat.inj_add, Nat.add_1_r by (Z.div_mod_to_equations; lia). done.
Qed.

Lemma bytes_app l1 l2 : bytes (l1 ++ l2) <-> bytes l1 /\ bytes l2.
Proof. apply Forall_app. Qed.

Lemma bytes_take n l : bytes l -> bytes (take n l).
Proof. apply Forall_take. Qed.
Lemma bytes_drop n l : bytes l -> bytes (drop n l).
Proof. apply Forall_drop. Qed.
Lemma bytes_slice l off len : bytes l -> bytes (slice l off len).
Proof. intros. now apply bytes_take, bytes_drop. Qed.
Lemma bytes_replicate n b : 0 <= b < 256 -> bytes (replicate n b).
Proof. intros. now apply Forall_replicate. Qed.

Lemma bytes_blit dst off src : bytes dst -> bytes src -> bytes (blit dst off src).
Proof.
  intros. unfold blit. rewrite !bytes_app.
  auto using bytes_take, bytes_drop.
Qed.

#[export] Hint Resolve bytes_le_split bytes_take bytes_drop bytes_slice bytes_replicate
  bytes_blit : word.

Lemma load32_le_word b off : bytes b -> (off + 4 <= length b)%nat -> word 32 (load32_le b off).
Proof.
  intros Hb Hl. unfold load32_le, word. pose proof (le_combine_bound (slice b off 4)) as H.
  rewrite length_slice in H by lia. apply H. auto with word.
Qed.

Lemma load64_le_word b off : bytes b -> (off + 8 <= length b)%nat -> word 64 (load64_le b off).
Proof.
  intros Hb Hl. unfold load64_le, word. pose proof (le_combine_bound (slice b off 8)) as H.
  rewrite length_slice in H by lia. apply H. auto with word.
Qed.

(** ** Lemmas: masks *)

Definition mask (w : Z) (b : bool) : Z := if b then 2 ^ w - 1 else 0.

Lemma land_mask w x b : 0 <= w -> word w x -> Z.land x (mask w b) = if b then x else 0.
Proof.
  intros Hw Hx. destruct b; cbn; [|apply Z.land_0_r].
  rewrite (Z_land_ones_lit _ _ w) by (assumption || (rewrite Z.ones_equiv; lia)).
  now apply Z.mod_small.
Qed.

Lemma mask_land w a b : 0 <= w -> Z.land (mask w a) (mask w b) = mask w (a && b).
Proof.
  intros. rewrite land_mask; [now destruct a, b|assumption|].
  unfold word. destruct a; cbn; lia.
Qed.

(** Smearing: one step [x & (x << s)] of the equality masks. *)
Lemma smear_bit w x s i : 0 <= w -> 0 <= s -> 0 <= i < w ->
  Z.testbit (Z.land x (wshl w x s)) i = Z.testbit x i && Z.testbit x (i - s).
Proof.
  intros. unfold wshl. rewrite Z.land_spec, wrap_bit, Z.shiftl_spec by lia.
  now destruct (Z.ltb_spec i w); [|lia].
Qed.

Lemma wsar_top w x : 0 < w -> word w x -> wsar w x (w - 1) = mask w (Z.testbit x (w - 1)).
Proof.
  intros Hw Hx. unfold wsar, to_signed, word in *.
  assert (E : 2 ^ w = 2 * 2 ^ (w - 1)) by (rewrite <- Z.pow_succ_r by lia; f_equal; lia).
  assert (0 < 2 ^ (w - 1)) by lia.
  rewrite Z.testbit_eqb, Z.shiftr_div_pow2 by lia. destruct (Z.ltb_spec x (2 ^ (w - 1))).
  - rewrite Z.div_small by lia. unfold wrap, mask. now rewrite Z.mod_0_l by lia.
  - rewrite <- (Z.div_unique x (2 ^ (w - 1)) 1 (x - 2 ^ (w - 1))) by lia.
    rewrite <- (Z.div_unique (x - 2 ^ w) (2 ^ (w - 1)) (-1) (x - 2 ^ (w - 1))) by lia.
    change (1 mod 2 =? 1) with true. unfold wrap, mask.
    symmetry. apply Z.mod_unique_pos with (-1); lia.
Qed.

Lemma wnot_mask w b : 0 <= w -> wnot w (mask w b) = mask w (negb b).
Proof.
  intros. unfold wnot, wrap, mask, Z.lnot. destruct b; cbn [negb].
  - symmetry. apply Z.mod_unique_pos with (-1); lia.
  - symmetry. apply Z.mod_unique_pos with (-1); lia.
Qed.

Lemma wnot_lxor_bit w x y i : 0 <= w -> 0 <= i < w ->
  Z.testbit (wnot w (Z.lxor x y)) i = Bool.eqb (Z.testbit x i) (Z.testbit y i).
Proof.
  intros. unfold wnot. rewrite wrap_bit, Z.lnot_spec, Z.lxor_spec by lia.
  destruct (Z.ltb_spec i w); [|lia]. now destruct (Z.testbit x i), (Z.testbit y i).
Qed.

(** The conjunction of bits [lo], ..., [lo + n - 1]. *)
Fixpoint all_bits (x lo : Z) (n : nat) : bool :=
  match n with O => true | S n' => Z.testbit x lo && all_bits x (lo + 1) n' end.

Lemma all_bits_spec x lo n : all_bits x lo n = true <->
  forall i, lo <= i < lo + Z.of_nat n -> Z.testbit x i = true.
Proof.
  revert lo. induction n as [|n IH]; intros lo; cbn [all_bits].
  - split; [lia|done].
  - rewrite andb_true_iff, IH. split.
    + intros [H1 H2] i Hi. destruct (Z.eq_dec i lo) as [->|]; [done|]. apply H2. lia.
    + intros H. split; [apply H; lia|]. intros i Hi. apply H. lia.
Qed.

Lemma all_bits_smear w x s lo n : 0 <= w -> 0 <= lo - s -> lo + Z.of_nat n <= w -> s = Z.of_nat n ->
  all_bits (Z.land x (wshl w x s)) lo n = all_bits x (lo - s) (n + n).
Proof.
  intros Hw Hlo Hhi ->. apply eq_true_iff_eq. rewrite !all_bits_spec. split; intros H i Hi.
  - destruct (Z.lt_ge_cases i lo).
    + specialize (H (i + Z.of_nat n)). rewrite smear_bit in H by lia.
      replace (i + Z.of_nat n - Z.of_nat n) with i in H by lia.
      apply andb_true_iff in H as [_ ->]; [done|lia].
    + specialize (H i). rewrite smear_bit in H by lia.
      apply andb_true_iff in H as [-> _]; [done|lia].
  - rewrite smear_bit by lia. rewrite !H by lia. done.
Qed.

Lemma all_bits_eq w x y : 0 <= w -> word w x -> word w y ->
  all_bits (wnot w (Z.lxor x y)) 0 (Z.to_nat w) = (x =? y).
Proof.
  intros Hw Hx Hy. apply eq_true_iff_eq. rewrite all_bits_spec, Z.eqb_eq. split.
  - intros H. apply (word_ext w); try assumption. intros i Hi.
    specialize (H i). rewrite wnot_lxor_bit in H by lia. apply eqb_prop, H. lia.
  - intros -> i Hi. rewrite wnot_lxor_bit by lia. apply eqb_reflx.
Qed.

Lemma eq_mask_top w x : Z.testbit x (w - 1) = all_bits x (w - 1) 1.
Proof. cbn. now rewrite andb_true_r. Qed.

Lemma eq_mask64_spec x y : word 64 x -> word 64 y -> FStar_UInt64_eq_mask x y = mask 64 (x =? y).
Proof.
  intros Hx Hy. unfold FStar_UInt64_eq_mask. rewrite (wsar_top 64); [|lia|].
  2: { repeat apply word_land_l; try apply wnot_word; try apply wshl_word; try lia; apply wshl_word; lia. }
  rewrite (eq_mask_top 64). cbn zeta.
  rewrite (all_bits_smear 64 _ 1), (all_bits_smear 64 _ 2), (all_bits_smear 64 _ 4),
    (all_bits_smear 64 _ 8), (all_bits_smear 64 _ 16), (all_bits_smear 64 _ 32) by lia.
  f_equal. now apply (all_bits_eq 64); [lia| |].
Qed.

Lemma eq_mask8_spec x y : word 8 x -> word 8 y -> FStar_UInt8_eq_mask x y = mask 8 (x =? y).
Proof.
  intros Hx Hy. unfold FStar_UInt8_eq_mask. rewrite (wsar_top 8); [|lia|].
  2: { repeat apply word_land_l; try apply wnot_word; try apply wshl_word; try lia; apply wshl_word; lia. }
  rewrite (eq_mask_top 8). cbn zeta.
  rewrite (all_bits_smear 8 _ 1), (all_bits_smear 8 _ 2), (all_bits_smear 8 _ 4) by lia.
  f_equal. now apply (all_bits_eq 8); [lia| |].
Qed.

(** The sign of a difference, spread over the word: its complement tests for
    order below 2^63. *)
Lemma gte_sign a b : word 63 a -> word 63 b ->
  wnot 64 (wsar 64 (wsub 64 a b) 63) = mask 64 (b <=? a).
Proof.
  intros Ha Hb. rewrite (wsar_top 64) by (lia || (apply wsub_word; lia)). rewrite wnot_mask by lia. f_equal.
  rewrite Z.testbit_eqb by lia. unfold wsub, wrap, word in *. destruct (Z.leb_spec b a).
  - rewrite (Z.mod_small (a - b)), Z.div_small by lia. done.
  - replace ((a - b) mod 2 ^ 64) with (a - b + 2 ^ 63 + 1 * 2 ^ 63).
    2: { apply Z.mod_unique_pos with (-1); lia. }
    rewrite Z.div_add, Z.div_small by lia. done.
Qed.

Lemma land_top_bit x : word 64 x -> Z.land x 0x8000000000000000 = if 2 ^ 63 <=? x then 2 ^ 63 else 0.
Proof.
  intros Hx. apply Z.bits_inj'. intros i Hi. rewrite Z.land_spec.
  change 0x8000000000000000 with (2 ^ 63). rewrite Z.pow2_bits_eqb by lia.
  destruct (Z.eqb_spec 63 i) as [<-|N].
  - rewrite andb_true_r, Z.testbit_eqb by lia. unfold word in Hx. destruct (Z.leb_spec (2 ^ 63) x).
    + replace (x / 2 ^ 63) with 1; [done|]. apply Z.div_unique_pos with (x - 2 ^ 63); lia.
    + now rewrite Z.div_small by lia.
  - rewrite andb_false_r. destruct (2 ^ 63 <=? x); [|now rewrite Z.bits_0].
    rewrite Z.pow2_bits_eqb by lia. symmetry. now apply Z.eqb_neq.
Qed.

(** The 64-bit comparison as it is written: the low halves are ordered, and the
    top bits must be equal. *)
Lemma gte_mask64_full x y : word 64 x -> word 64 y ->
  FStar_UInt64_gte_mask x y =
  mask 64 ((y mod 2 ^ 63 <=? x mod 2 ^ 63) && (Bool.eqb (2 ^ 63 <=? x) (2 ^ 63 <=? y))).
Proof.
  intros Hx Hy. unfold FStar_UInt64_gte_mask. rewrite !land_top_bit by done.
  rewrite !(Z_land_ones_lit _ 0x7fffffffffffffff 63) by (reflexivity || lia).
  rewrite gte_sign by (unfold word; apply Z.mod_pos_bound; lia).
  assert (Eh : wnot 64 (wsar 64 (wsub 64 (if 2 ^ 63 <=? x then 2 ^ 63 else 0) (if 2 ^ 63 <=? y then 2 ^ 63 else 0)) 63)
               = mask 64 (Bool.eqb (2 ^ 63 <=? x) (2 ^ 63 <=? y))).
  { destruct (2 ^ 63 <=? x), (2 ^ 63 <=? y); reflexivity. }
  rewrite Eh. apply mask_land. lia.
Qed.

Lemma gte_mask64_spec x y : word 63 x -> word 63 y -> FStar_UInt64_gte_mask x y = mask 64 (y <=? x).
Proof.
  unfold word. intros Hx Hy. rewrite gte_mask64_full by (unfold word; lia). rewrite !Z.mod_small by lia.
  destruct (Z.leb_spec (2 ^ 63) x), (Z.leb_spec (2 ^ 63) y); try lia. apply f_equal, andb_true_r.
Qed.

(** ** Exclusive or, bytewise and wordwise *)

Lemma lxor_mod_256 a b : Z.lxor a b mod 256 = Z.lxor (a mod 256) (b mod 256).
Proof.
  change 256 with (2 ^ 8). rewrite <- !Z.land_ones by lia. apply Z.bits_inj'. intros i Hi.
  rewrite Z.lxor_spec, !Z.land_spec, Z.lxor_spec.
  now destruct (Z.testbit a i), (Z.testbit b i), (Z.testbit (Z.ones 8) i).
Qed.

Lemma lxor_div_256 a b : Z.lxor a b / 256 = Z.lxor (a / 256) (b / 256).
Proof. change 256 with (2 ^ 8). rewrite <- !Z.shiftr_div_pow2 by lia. apply Z.shiftr_lxor. Qed.

Lemma le_split_lxor n a b : le_split n (Z.lxor a b) = zip_with Z.lxor (le_split n a) (le_split n b).
Proof.
  revert a b. induction n as [|n IH]; intros a b; [done|].
  cbn [le_split zip_with]. now rewrite lxor_mod_256, lxor_div_256, IH.
Qed.

Lemma le_split_load32 b off : bytes b -> (off + 4 <= length b)%nat ->
  le_split 4 (load32_le b off) = slice b off 4.
Proof.
  intros Hb Hl. unfold load32_le. rewrite <- (length_slice b off 4) at 1 by lia.
  apply le_split_combine. auto with word.
Qed.

(** Exclusive or with the same mask twice is the identity. *)
Lemma zip_lxor_involutive m k : (length m <= length k)%nat ->
  zip_with Z.lxor (zip_with Z.lxor m k) k = m.
Proof.
  revert k. induction m as [|a m IH]; intros [|b k] Hl; cbn in *; try done; try lia.
  rewrite Z.lxor_assoc, Z.lxor_nilpotent, Z.lxor_0_r. f_equal. apply IH. lia.
Qed.

Lemma zip_lxor_bytes m k : bytes m -> bytes k -> bytes (zip_with Z.lxor m k).
Proof.
  intros Hm. revert k. induction Hm as [|a m Ha _ IH]; intros k Hk; [constructor|].
  destruct Hk as [|b k Hb Hk]; [constructor|]. constructor; [|now apply IH].
  apply (word_lxor 8); (lia || done).
Qed.

(** ** Main results *)

(** C38: on every pair of 64-bit words [FStar_UInt64_eq_mask] is all ones when
    they are equal and zero when not, and [FStar_UInt64_gte_mask] is all ones exactly
    when the low 63 bits are ordered and the top bits are equal; it therefore decides
    [y <= x] below 2^63, and is zero for [y < 2^63 <= x] although [x] is greater. *)
Theorem uint64_masks x y : word 64 x -> word 64 y ->
  FStar_UInt64_eq_mask x y = mask 64 (x =? y) /\
  FStar_UInt64_gte_mask x y =
    mask 64 ((y mod 2 ^ 63 <=? x mod 2 ^ 63) && (Bool.eqb (2 ^ 63 <=? x) (2 ^ 63 <=? y))) /\
  (x < 2 ^ 63 -> y < 2 ^ 63 -> FStar_UInt64_gte_mask x y = mask 64 (y <=? x)) /\
  (y < 2 ^ 63 <= x -> FStar_UInt64_gte_mask x y = 0).
Proof.
  intros Hx Hy. repeat split.
  - now apply eq_mask64_spec.
  - now apply gte_mask64_full.
  - intros. unfold word in *. apply gte_mask64_spec; unfold word; lia.
  - intros. rewrite gte_mask64_full by done.
    destruct (Z.leb_spec (2 ^ 63) x), (Z.leb_spec (2 ^ 63) y); try lia. now rewrite andb_false_r.
Qed.

Lemma uint64_masks_witness :
  FStar_UInt64_eq_mask (2 ^ 63) 0 = mask 64 (2 ^ 63 =? 0) /\
  FStar_UInt64_gte_mask (2 ^ 63) 0 =
    mask 64 ((0 mod 2 ^ 63 <=? 2 ^ 63 mod 2 ^ 63) && (Bool.eqb (2 ^ 63 <=? 2 ^ 63) (2 ^ 63 <=? 0))) /\
  (2 ^ 63 < 2 ^ 63 -> 0 < 2 ^ 63 -> FStar_UInt64_gte_mask (2 ^ 63) 0 = mask 64 (0 <=? 2 ^ 63)) /\
  (0 < 2 ^ 63 <= 2 ^ 63 -> FStar_UInt64_gte_mask (2 ^ 63) 0 = 0).
Proof. apply (uint64_masks (2 ^ 63) 0); unfold word; lia. Defined.
