(* ===== verification/UInt128.v ===== *)
(** * UInt128: the two 128-bit integer back ends and the interface they share

    [kremlib.h] chooses between the compiler's [unsigned __int128] (macros)
    and the portable struct arithmetic of [FStar.c].  The bignum code is
    written against the common names, so the model states the promise once, as
    the class [UInt128], proves the client code against it, and discharges it
    for both back ends. *)

From stdpp Require Import base list numbers.
From Stdlib Require Import ZArith Lia.
From S2P Require Import Prelude Machine.

Local Open Scope Z_scope.

(** ** The operations a client uses *)

Class UInt128Ops (T : Type) := {
  u128_add : T -> T -> T;
  u128_add_mod : T -> T -> T;
  u128_sub : T -> T -> T;
  u128_sub_mod : T -> T -> T;
  u128_logand : T -> T -> T;
  u128_logxor : T -> T -> T;
  u128_logor : T -> T -> T;
  u128_lognot : T -> T;
  u128_shift_left : T -> Z -> T;
  u128_shift_right : T -> Z -> T;
  u128_eq_mask : T -> T -> T;
  u128_gte_mask : T -> T -> T;
  u128_of_u64 : Z -> T;
  u128_to_u64 : T -> Z;
  u128_mul_wide : Z -> Z -> T;
  u128_load_le : list Z -> nat -> T;
  u128_store_le : list Z -> nat -> T -> list Z;
  u128_store_be : list Z -> nat -> T -> list Z;
}.

#[export] Instance u128_inhabited `{UInt128Ops T} : Inhabited T := populate (u128_of_u64 0).

(** ** What it is promised about them *)

Class UInt128 (T : Type) `{UInt128Ops T} := {
  uv : T -> Z;
  uwf : T -> Prop;
  uv_range a : uwf a -> 0 <= uv a < 2 ^ 128;
  uv_add a b : uwf a -> uwf b ->
    uwf (u128_add a b) /\ uv (u128_add a b) = (uv a + uv b) mod 2 ^ 128;
  uv_add_mod a b : uwf a -> uwf b ->
    uwf (u128_add_mod a b) /\ uv (u128_add_mod a b) = (uv a + uv b) mod 2 ^ 128;
  uv_sub a b : uwf a -> uwf b ->
    uwf (u128_sub a b) /\ uv (u128_sub a b) = (uv a - uv b) mod 2 ^ 128;
  uv_sub_mod a b : uwf a -> uwf b ->
    uwf (u128_sub_mod a b) /\ uv (u128_sub_mod a b) = (uv a - uv b) mod 2 ^ 128;
  uv_logand a b : uwf a -> uwf b ->
    uwf (u128_logand a b) /\ uv (u128_logand a b) = Z.land (uv a) (uv b);
  uv_logxor a b : uwf a -> uwf b ->
    uwf (u128_logxor a b) /\ uv (u128_logxor a b) = Z.lxor (uv a) (uv b);
  uv_logor a b : uwf a -> uwf b ->
    uwf (u128_logor a b) /\ uv (u128_logor a b) = Z.lor (uv a) (uv b);
  uv_lognot a : uwf a ->
    uwf (u128_lognot a) /\ uv (u128_lognot a) = 2 ^ 128 - 1 - uv a;
  uv_shift_left a s : uwf a -> 0 <= s < 128 ->
    uwf (u128_shift_left a s) /\ uv (u128_shift_left a s) = (uv a * 2 ^ s) mod 2 ^ 128;
  uv_shift_right a s : uwf a -> 0 <= s < 128 ->
    uwf (u128_shift_right a s) /\ uv (u128_shift_right a s) = uv a / 2 ^ s;
  uv_eq_mask a b : uwf a -> uwf b ->
    uwf (u128_eq_mask a b) /\ uv (u128_eq_mask a b) = mask 128 (uv a =? uv b);
  uv_gte_mask a b : uwf a -> uwf b -> uv a < 2 ^ 127 -> uv b < 2 ^ 127 ->
    uv a mod 2 ^ 64 < 2 ^ 63 -> uv b mod 2 ^ 64 < 2 ^ 63 ->
    uwf (u128_gte_mask a b) /\ uv (u128_gte_mask a b) = mask 128 (uv b <=? uv a);
  uv_of_u64 x : word 64 x -> uwf (u128_of_u64 x) /\ uv (u128_of_u64 x) = x;
  uv_to_u64 a : uwf a -> u128_to_u64 a = uv a mod 2 ^ 64;
  uv_mul_wide x y : word 64 x -> word 64 y ->
    uwf (u128_mul_wide x y) /\ uv (u128_mul_wide x y) = x * y;
  uv_load_le b off : bytes b -> (off + 16 <= length b)%nat ->
    uwf (u128_load_le b off) /\ uv (u128_load_le b off) = le_combine (slice b off 16);
  uv_store_le b off a : uwf a -> (off + 16 <= length b)%nat ->
    u128_store_le b off a = blit b off (le_split 16 (uv a));
  uv_store_be b off a : uwf a -> (off + 16 <= length b)%nat ->
    u128_store_be b off a = blit b off (be_split 16 (uv a));
}.

(** ** [unsigned __int128] (the macros of kremlib.h) *)

Module Native.

Definition add (x y : Z) : Z := wadd 128 x y.
Definition sub (x y : Z) : Z := wsub 128 x y.
Definition lognot (x : Z) : Z := wnot 128 x.
Definition shift_left (x s : Z) : Z := wshl 128 x s.
Definition shift_right (x s : Z) : Z := wshr x s.
Definition uint64_to_uint128 (x : Z) : Z := x.
Definition uint128_to_uint64 (x : Z) : Z := wrap 64 x.
Definition mul_wide (x y : Z) : Z := wmul 128 x y.

Definition load128_le (b : list Z) (off : nat) : Z :=
  let l := load64_le b off in
  let h := load64_le b (off + 8) in
  Z.lor (wshl 128 h 64) l.

Definition store128_le (b : list Z) (off : nat) (n : Z) : list Z :=
  let b := store64_le b off (wrap 64 n) in
  store64_le b (off + 8) (wrap 64 (wshr n 64)).

Definition store128_be (b : list Z) (off : nat) (n : Z) : list Z :=
  let b := store64_be b off (wrap 64 (wshr n 64)) in
  store64_be b (off + 8) (wrap 64 n).

Definition eq_mask (x y : Z) : Z :=
  let mask :=
    Z.land (FStar_UInt64_eq_mask (wrap 64 (wshr x 64)) (wrap 64 (wshr y 64)))
           (FStar_UInt64_eq_mask (wrap 64 x) (wrap 64 y)) in
  Z.lor (wshl 128 mask 64) mask.

Definition gte_mask (x y : Z) : Z :=
  let xh := wrap 64 (wshr x 64) in
  let yh := wrap 64 (wshr y 64) in
  let mask :=
    Z.lor (Z.land (FStar_UInt64_gte_mask xh yh) (wnot 64 (FStar_UInt64_eq_mask xh yh)))
          (Z.land (FStar_UInt64_eq_mask xh yh)
                  (FStar_UInt64_gte_mask (wrap 64 x) (wrap 64 y))) in
  Z.lor (wshl 128 mask 64) mask.

#[global] Instance ops : UInt128Ops Z := {
  u128_add := add; u128_add_mod := add; u128_sub := sub; u128_sub_mod := sub;
  u128_logand := Z.land; u128_logxor := Z.lxor; u128_logor := Z.lor; u128_lognot := lognot;
  u128_shift_left := shift_left; u128_shift_right := shift_right;
  u128_eq_mask := eq_mask; u128_gte_mask := gte_mask;
  u128_of_u64 := uint64_to_uint128; u128_to_u64 := uint128_to_uint64;
  u128_mul_wide := mul_wide; u128_load_le := load128_le; u128_store_le := store128_le;
  u128_store_be := store128_be;
}.

End Native.

(** ** The struct of two 64-bit halves (FStar.c) *)

Module FStar.

Record FStar_UInt128_uint128 := mk128 { low : Z; high : Z }.

Definition FStar_UInt128_constant_time_carry (a b : Z) : Z :=
  ((a ^^ ((a ^^ b) .| ((a - b) ^^ b))) >> 63)%u64.

Definition FStar_UInt128_carry (a b : Z) : Z := FStar_UInt128_constant_time_carry a b.

Definition FStar_UInt128_add (a b : FStar_UInt128_uint128) : FStar_UInt128_uint128 :=
  {| low := (low a + low b)%u64;
     high := (high a + high b + FStar_UInt128_carry (low a + low b)%u64 (low b))%u64 |}.

Definition FStar_UInt128_add_mod (a b : FStar_UInt128_uint128) : FStar_UInt128_uint128 :=
  {| low := (low a + low b)%u64;
     high := (high a + high b + FStar_UInt128_carry (low a + low b)%u64 (low b))%u64 |}.

Definition FStar_UInt128_sub (a b : FStar_UInt128_uint128) : FStar_UInt128_uint128 :=
  {| low := (low a - low b)%u64;
     high := (high a - high b - FStar_UInt128_carry (low a) (low a - low b)%u64)%u64 |}.

Definition FStar_UInt128_sub_mod_impl (a b : FStar_UInt128_uint128) : FStar_UInt128_uint128 :=
  {| low := (low a - low b)%u64;
     high := (high a - high b - FStar_UInt128_carry (low a) (low a - low b)%u64)%u64 |}.

Definition FStar_UInt128_sub_mod (a b : FStar_UInt128_uint128) : FStar_UInt128_uint128 :=
  FStar_UInt128_sub_mod_impl a b.

Definition FStar_UInt128_logand (a b : FStar_UInt128_uint128) : FStar_UInt128_uint128 :=
  {| low := (low a & low b)%u64; high := (high a & high b)%u64 |}.

Definition FStar_UInt128_logxor (a b : FStar_UInt128_uint128) : FStar_UInt128_uint128 :=
  {| low := (low a ^^ low b)%u64; high := (high a ^^ high b)%u64 |}.

Definition FStar_UInt128_logor (a b : FStar_UInt128_uint128) : FStar_UInt128_uint128 :=
  {| low := (low a .| low b)%u64; high := (high a .| high b)%u64 |}.

Definition FStar_UInt128_lognot (a : FStar_UInt128_uint128) : FStar_UInt128_uint128 :=
  {| low := (! low a)%u64; high := (! high a)%u64 |}.

Definition FStar_UInt128_u32_64 : Z := 64.

Definition FStar_UInt128_add_u64_shift_left (hi lo s : Z) : Z :=
  ((hi << s) + (lo >> (FStar_UInt128_u32_64 - s)%u32))%u64.

Definition FStar_UInt128_add_u64_shift_left_respec (hi lo s : Z) : Z :=
  FStar_UInt128_add_u64_shift_left hi lo s.

Definition FStar_UInt128_shift_left_small (a : FStar_UInt128_uint128) (s : Z) : FStar_UInt128_uint128 :=
  if s =? 0 then a
  else {| low := (low a << s)%u64;
          high := FStar_UInt128_add_u64_shift_left_respec (high a) (low a) s |}.

Definition FStar_UInt128_shift_left_large (a : FStar_UInt128_uint128) (s : Z) : FStar_UInt128_uint128 :=
  {| low := 0; high := (low a << (s - FStar_UInt128_u32_64)%u32)%u64 |}.

Definition FStar_UInt128_shift_left (a : FStar_UInt128_uint128) (s : Z) : FStar_UInt128_uint128 :=
  if s <? FStar_UInt128_u32_64 then FStar_UInt128_shift_left_small a s
  else FStar_UInt128_shift_left_large a s.

Definition FStar_UInt128_add_u64_shift_right (hi lo s : Z) : Z :=
  ((lo >> s) + (hi << (FStar_UInt128_u32_64 - s)%u32))%u64.

Definition FStar_UInt128_add_u64_shift_right_respec (hi lo s : Z) : Z :=
  FStar_UInt128_add_u64_shift_right hi lo s.

Definition FStar_UInt128_shift_right_small (a : FStar_UInt128_uint128) (s : Z) : FStar_UInt128_uint128 :=
  if s =? 0 then a
  else {| low := FStar_UInt128_add_u64_shift_right_respec (high a) (low a) s;
          high := (high a >> s)%u64 |}.

Definition FStar_UInt128_shift_right_large (a : FStar_UInt128_uint128) (s : Z) : FStar_UInt128_uint128 :=
  {| low := (high a >> (s - FStar_UInt128_u32_64)%u32)%u64; high := 0 |}.

Definition FStar_UInt128_shift_right (a : FStar_UInt128_uint128) (s : Z) : FStar_UInt128_uint128 :=
  if s <? FStar_UInt128_u32_64 then FStar_UInt128_shift_right_small a s
  else FStar_UInt128_shift_right_large a s.

Definition FStar_UInt128_eq_mask (a b : FStar_UInt128_uint128) : FStar_UInt128_uint128 :=
  {| low := (FStar_UInt64_eq_mask (low a) (low b) & FStar_UInt64_eq_mask (high a) (high b))%u64;
     high := (FStar_UInt64_eq_mask (low a) (low b) & FStar_UInt64_eq_mask (high a) (high b))%u64 |}.

Definition FStar_UInt128_gte_mask (a b : FStar_UInt128_uint128) : FStar_UInt128_uint128 :=
  {| low := ((FStar_UInt64_gte_mask (high a) (high b) & (! FStar_UInt64_eq_mask (high a) (high b)))
     .| (FStar_UInt64_eq_mask (high a) (high b) & FStar_UInt64_gte_mask (low a) (low b)))%u64;
     high := ((FStar_UInt64_gte_mask (high a) (high b) & (! FStar_UInt64_eq_mask (high a) (high b)))
     .| (FStar_UInt64_eq_mask (high a) (high b) & FStar_UInt64_gte_mask (low a) (low b)))%u64 |}.

Definition FStar_UInt128_uint64_to_uint128 (a : Z) : FStar_UInt128_uint128 :=
  {| low := a; high := 0 |}.

Definition FStar_UInt128_uint128_to_uint64 (a : FStar_UInt128_uint128) : Z := low a.

Definition FStar_UInt128_u64_l32_mask : Z := 0xffffffff.

Definition FStar_UInt128_u64_mod_32 (a : Z) : Z := (a & FStar_UInt128_u64_l32_mask)%u64.

Definition FStar_UInt128_u32_32 : Z := 32.

Definition FStar_UInt128_mul_wide_impl_t_ (x y : Z) : Z * Z * Z * Z :=
  (FStar_UInt128_u64_mod_32 x,
   FStar_UInt128_u64_mod_32 (FStar_UInt128_u64_mod_32 x * FStar_UInt128_u64_mod_32 y)%u64,
   (x >> FStar_UInt128_u32_32)%u64,
   ((x >> FStar_UInt128_u32_32) * FStar_UInt128_u64_mod_32 y
    + ((FStar_UInt128_u64_mod_32 x * FStar_UInt128_u64_mod_32 y) >> FStar_UInt128_u32_32))%u64).

Definition FStar_UInt128_u32_combine_ (hi lo : Z) : Z :=
  (lo + (hi << FStar_UInt128_u32_32))%u64.

Definition FStar_UInt128_mul_wide_impl (x y : Z) : FStar_UInt128_uint128 :=
  let '(u1, w3, x_, t_) := FStar_UInt128_mul_wide_impl_t_ x y in
  {| low := FStar_UInt128_u32_combine_
       (u1 * (y >> FStar_UInt128_u32_32) + FStar_UInt128_u64_mod_32 t_)%u64 w3;
     high := (x_ * (y >> FStar_UInt128_u32_32) + (t_ >> FStar_UInt128_u32_32)
       + ((u1 * (y >> FStar_UInt128_u32_32) + FStar_UInt128_u64_mod_32 t_)
          >> FStar_UInt128_u32_32))%u64 |}.

Definition FStar_UInt128_mul_wide (x y : Z) : FStar_UInt128_uint128 :=
  FStar_UInt128_mul_wide_impl x y.

Definition load128_le_ (b : list Z) (off : nat) : FStar_UInt128_uint128 :=
  {| low := load64_le b off; high := load64_le b (off + 8) |}.

Definition store128_le_ (b : list Z) (off : nat) (n : FStar_UInt128_uint128) : list Z :=
  let b := store64_le b off (low n) in
  store64_le b (off + 8) (high n).

Definition store128_be_ (b : list Z) (off : nat) (n : FStar_UInt128_uint128) : list Z :=
  let b := store64_be b off (high n) in
  store64_be b (off + 8) (low n).

#[global] Instance ops : UInt128Ops FStar_UInt128_uint128 := {
  u128_add := FStar_UInt128_add; u128_add_mod := FStar_UInt128_add_mod;
  u128_sub := FStar_UInt128_sub; u128_sub_mod := FStar_UInt128_sub_mod;
  u128_logand := FStar_UInt128_logand; u128_logxor := FStar_UInt128_logxor;
  u128_logor := FStar_UInt128_logor; u128_lognot := FStar_UInt128_lognot;
  u128_shift_left := FStar_UInt128_shift_left; u128_shift_right := FStar_UInt128_shift_right;
  u128_eq_mask := FStar_UInt128_eq_mask; u128_gte_mask := FStar_UInt128_gte_mask;
  u128_of_u64 := FStar_UInt128_uint64_to_uint128;
  u128_to_u64 := FStar_UInt128_uint128_to_uint64;
  u128_mul_wide := FStar_UInt128_mul_wide;
  u128_load_le := load128_le_; u128_store_le := store128_le_;
  u128_store_be := store128_be_;
}.

End FStar.

(** ** Shared lemmas on 64-bit halves *)

Lemma word128_halves x : word 128 x ->
  word 64 (x mod 2 ^ 64) /\ word 64 (x / 2 ^ 64) /\ x = x mod 2 ^ 64 + x / 2 ^ 64 * 2 ^ 64.
Proof.
  unfold word. intros H. pose proof (Z.mod_pos_bound x (2 ^ 64)). pose proof (Z.div_mod x (2 ^ 64)).
  repeat split; try lia. all: nia.
Qed.

Lemma join_lor h l : word 64 l -> Z.lor (Z.shiftl h 64) l = l + h * 2 ^ 64.
Proof. intros. rewrite Z.lor_comm. apply Z_lor_add; [lia|assumption]. Qed.

Lemma mask_word w b : 0 <= w -> word w (mask w b).
Proof. intros. unfold word, mask. destruct b; lia. Qed.

Lemma mask_lor w a b : 0 <= w -> Z.lor (mask w a) (mask w b) = mask w (a || b).
Proof. intros. destruct a, b; cbn [mask orb]; rewrite ?Z.lor_0_r, ?Z.lor_0_l, ?Z.lor_diag; done. Qed.

Lemma mask_join b : mask 64 b + mask 64 b * 2 ^ 64 = mask 128 b.
Proof. now destruct b. Qed.

Lemma mask_join_lor b : Z.lor (wshl 128 (mask 64 b) 64) (mask 64 b) = mask 128 b.
Proof. now destruct b. Qed.

(** Comparing 128-bit integers by halves. *)
Lemma halves_eqb al ah bl bh : word 64 al -> word 64 bl ->
  (al + ah * 2 ^ 64 =? bl + bh * 2 ^ 64) = (al =? bl) && (ah =? bh).
Proof.
  unfold word. intros. apply eq_true_iff_eq. rewrite andb_true_iff, !Z.eqb_eq. lia.
Qed.

Lemma halves_leb al ah bl bh : word 64 al -> word 64 bl ->
  (bl + bh * 2 ^ 64 <=? al + ah * 2 ^ 64) =
  ((bh <=? ah) && negb (ah =? bh)) || ((ah =? bh) && (bl <=? al)).
Proof.
  unfold word. intros. apply eq_true_iff_eq.
  rewrite orb_true_iff, !andb_true_iff, negb_true_iff, !Z.leb_le, Z.eqb_neq, Z.eqb_eq. lia.
Qed.

Lemma blit_blit {A} (b : list A) off x y : (off + length x + length y <= length b)%nat ->
  blit (blit b off x) (off + length x) y = blit b off (x ++ y).
Proof.
  intros. unfold blit. rewrite (app_assoc (take off b) x).
  assert (E : length (take off b ++ x) = (off + length x)%nat) by (rewrite length_app, length_take; lia).
  rewrite take_app_length' by done. rewrite <- !app_assoc. do 3 f_equal.
  rewrite app_assoc, drop_app_ge by lia. rewrite E, drop_drop, length_app. f_equal. lia.
Qed.

Lemma blit_blit_at {A} (b : list A) off off' x y : off' = (off + length x)%nat ->
  (off' + length y <= length b)%nat -> blit (blit b off x) off' y = blit b off (x ++ y).
Proof. intros -> ?. now apply blit_blit. Qed.

Lemma store64_pair b off l h : (off + 16 <= length b)%nat -> word 64 l ->
  store64_le (store64_le b off l) (off + 8) h = blit b off (le_split 16 (l + h * 2 ^ 64)).
Proof.
  intros Hb Hl. unfold store64_le.
  pose proof (blit_blit b off (le_split 8 l) (le_split 8 h)) as E. rewrite !length_le_split in E.
  rewrite E by lia. f_equal. rewrite (le_split_add 8 8). f_equal.
  - rewrite <- (le_split_mod 8 (l + _)). change (256 ^ Z.of_nat 8) with (2 ^ 64).
    now rewrite Z_mod_plus_full, Z.mod_small by assumption.
  - change (256 ^ Z.of_nat 8) with (2 ^ 64). now rewrite Z.div_add, Z.div_small by (lia || assumption).
Qed.

Lemma be_split_pair l h : word 64 l ->
  be_split 8 h ++ be_split 8 l = be_split 16 (l + h * 2 ^ 64).
Proof.
  intros Hl. unfold be_split. rewrite (le_split_add 8 8), rev_app_distr. f_equal.
  - change (256 ^ Z.of_nat 8) with (2 ^ 64). now rewrite Z.div_add, Z.div_small by (lia || assumption).
  - rewrite <- (le_split_mod 8 (l + _)). change (256 ^ Z.of_nat 8) with (2 ^ 64).
    now rewrite Z_mod_plus_full, Z.mod_small by assumption.
Qed.

Lemma length_be_split n z : length (be_split n z) = n.
Proof. unfold be_split. now rewrite length_rev, length_le_split. Qed.

Lemma bytes_be_split n z : bytes (be_split n z).
Proof. apply Forall_rev, bytes_le_split. Qed.

Lemma store64_be_pair b off l h : (off + 16 <= length b)%nat -> word 64 l ->
  store64_be (store64_be b off h) (off + 8) l = blit b off (be_split 16 (l + h * 2 ^ 64)).
Proof.
  intros Hb Hl. unfold store64_be. rewrite <- be_split_pair by done.
  apply blit_blit_at; rewrite ?length_be_split; lia.
Qed.

Lemma load64_pair b off : (off + 16 <= length b)%nat ->
  le_combine (slice b off 16) = load64_le b off + load64_le b (off + 8) * 2 ^ 64.
Proof.
  intros H. unfold load64_le, slice.
  replace (take 16 (drop off b)) with (take 8 (drop off b) ++ take 8 (drop (off + 8) b)).
  - rewrite le_combine_app, length_take, length_drop.
    replace (8 `min` (length b - off))%nat with 8%nat by lia. change (256 ^ Z.of_nat 8) with (2 ^ 64). lia.
  - rewrite <- drop_drop. apply (take_take_drop (drop off b) 8 8).
Qed.

(** ** The native back end keeps the promise *)

Lemma eq_mask_halves x y : word 128 x -> word 128 y ->
  Z.land (FStar_UInt64_eq_mask (x / 2 ^ 64) (y / 2 ^ 64))
         (FStar_UInt64_eq_mask (x mod 2 ^ 64) (y mod 2 ^ 64)) = mask 64 (x =? y).
Proof.
  intros (Hxl & Hxh & Ex)%word128_halves (Hyl & Hyh & Ey)%word128_halves.
  rewrite !eq_mask64_spec, mask_land by (assumption || lia). f_equal.
  rewrite Ex, Ey at 3. rewrite halves_eqb by assumption. apply andb_comm.
Qed.

Lemma gte_mask_halves al ah bl bh :
  word 63 al -> word 63 ah -> word 63 bl -> word 63 bh ->
  Z.lor (Z.land (FStar_UInt64_gte_mask ah bh) (wnot 64 (FStar_UInt64_eq_mask ah bh)))
        (Z.land (FStar_UInt64_eq_mask ah bh) (FStar_UInt64_gte_mask al bl))
  = mask 64 (bl + bh * 2 ^ 64 <=? al + ah * 2 ^ 64).
Proof.
  intros. assert (W : forall z, word 63 z -> word 64 z) by (unfold word; lia).
  rewrite eq_mask64_spec, !gte_mask64_spec by auto.
  rewrite wnot_mask, !mask_land, mask_lor, halves_leb by (auto || lia). done.
Qed.

Lemma native_load b off : bytes b -> (off + 16 <= length b)%nat ->
  Native.load128_le b off = le_combine (slice b off 16).
Proof.
  intros Hb Hl. rewrite load64_pair by lia. unfold Native.load128_le.
  assert (H1 : word 64 (load64_le b off)) by (apply load64_le_word; [done|lia]).
  assert (H2 : word 64 (load64_le b (off + 8))) by (apply load64_le_word; [done|lia]).
  unfold wshl. rewrite wrap_small, join_lor; [done|done|].
  rewrite Z.shiftl_mul_pow2 by lia. unfold word in *. lia.
Qed.

#[local] Obligation Tactic := idtac.

#[export] Program Instance native_UInt128 : UInt128 Z := {
  uv := fun x => x; uwf := word 128 }.
Next Obligation. intros a Ha. exact Ha. Qed.
Next Obligation. intros. split; [apply wadd_word; lia|done]. Qed.
Next Obligation. intros. split; [apply wadd_word; lia|done]. Qed.
Next Obligation. intros. split; [apply wsub_word; lia|done]. Qed.
Next Obligation. intros. split; [apply wsub_word; lia|done]. Qed.
Next Obligation. intros a b Ha Hb. split; [|done]. apply word_land_l; [lia|done|apply Hb]. Qed.
Next Obligation. intros. split; [|done]. now apply word_lxor; [lia| |]. Qed.
Next Obligation. intros. split; [|done]. now apply word_lor; [lia| |]. Qed.
Next Obligation.
  intros a Ha. split; [apply wnot_word; lia|]. cbn. unfold Native.lognot, wnot, wrap, Z.lnot.
  symmetry. apply Z.mod_unique_pos with (-1); unfold word in Ha; lia.
Qed.
Next Obligation.
  intros. split; [apply wshl_word; lia|]. cbn. unfold Native.shift_left. now rewrite wshl_mul by lia.
Qed.
Next Obligation.
  intros. split; [now apply word_shr; [lia|]|]. cbn. unfold Native.shift_right. now rewrite wshr_div by lia.
Qed.
Next Obligation.
  intros x y Hx Hy. cbn. unfold Native.eq_mask.
  destruct (word128_halves x Hx) as (_ & Hx' & _), (word128_halves y Hy) as (_ & Hy' & _).
  rewrite !wshr_div, !(wrap_small 64 (_ / _)) by (done || lia). unfold wrap.
  rewrite eq_mask_halves, mask_join_lor by done. split; [apply mask_word; lia|done].
Qed.
Next Obligation.
  intros x y Hx Hy Hx1 Hy1 Hx2 Hy2. cbn in *. unfold Native.gte_mask.
  destruct (word128_halves x Hx) as (Hxl & Hx' & Ex), (word128_halves y Hy) as (Hyl & Hy' & Ey).
  rewrite !wshr_div, !(wrap_small 64 (_ / _)) by (done || lia). unfold wrap.
  rewrite gte_mask_halves by (unfold word in *; lia). rewrite <- Ex, <- Ey.
  rewrite mask_join_lor. split; [apply mask_word; lia|done].
Qed.
Next Obligation. intros x Hx. cbn. unfold Native.uint64_to_uint128, word in *. lia. Qed.
Next Obligation. intros. reflexivity. Qed.
Next Obligation.
  intros x y Hx Hy. cbn. split; [apply wmul_word; lia|]. unfold Native.mul_wide.
  unfold word in *. apply wmul_small. nia.
Qed.
Next Obligation.
  intros b off Hb Hl. cbn. rewrite native_load by done. split; [|done].
  pose proof (le_combine_bound (slice b off 16)) as H. rewrite length_slice in H by lia.
  apply H. auto with word.
Qed.
Next Obligation.
  intros b off x Hx Hl. cbn. unfold Native.store128_le.
  destruct (word128_halves x Hx) as (Hxl & Hx' & Ex).
  rewrite !wshr_div, !(wrap_small 64 (_ / _)) by (done || lia). unfold wrap.
  rewrite store64_pair by done. now rewrite <- Ex.
Qed.
Next Obligation.
  intros b off x Hx Hl. cbn. unfold Native.store128_be.
  destruct (word128_halves x Hx) as (Hxl & Hx' & Ex).
  rewrite !wshr_div, !(wrap_small 64 (_ / _)) by (done || lia). unfold wrap.
  rewrite store64_be_pair by done. now rewrite <- Ex.
Qed.

(** ** The struct back end keeps the promise *)

Lemma testbit_63 x : word 64 x -> Z.testbit x 63 = (2 ^ 63 <=? x).
Proof.
  unfold word. intros. rewrite Z.testbit_eqb by lia. apply eq_true_iff_eq.
  rewrite Z.eqb_eq, Z.leb_le. Z.div_mod_to_equations. lia.
Qed.

Lemma carry_spec a b : word 64 a -> word 64 b -> FStar.FStar_UInt128_carry a b = Z.b2z (a <? b).
Proof.
  intros Ha Hb. unfold FStar.FStar_UInt128_carry, FStar.FStar_UInt128_constant_time_carry.
  set (x := Z.lxor a (Z.lor (Z.lxor a b) (Z.lxor (wsub 64 a b) b))).
  assert (Hx : word 64 x) by (subst x; auto 10 with word).
  assert (Ht : Z.testbit x 63 = (a <? b)).
  { subst x. rewrite Z.lxor_spec, Z.lor_spec, !Z.lxor_spec, !testbit_63 by auto with word.
    unfold wsub, wrap, word in *.
    destruct (Z.ltb_spec a b).
    - rewrite <- (Z.mod_unique_pos (a - b) (2 ^ 64) (-1) (a - b + 2 ^ 64)) by lia.
      destruct (Z.leb_spec (2 ^ 63) a), (Z.leb_spec (2 ^ 63) b),
        (Z.leb_spec (2 ^ 63) (a - b + 2 ^ 64)); (reflexivity || lia).
    - rewrite Z.mod_small by lia.
      destruct (Z.leb_spec (2 ^ 63) a), (Z.leb_spec (2 ^ 63) b),
        (Z.leb_spec (2 ^ 63) (a - b)); (reflexivity || lia). }
  clearbody x. rewrite <- Ht, testbit_63 by done. rewrite wshr_div by lia. unfold word in Hx.
  destruct (Z.leb_spec (2 ^ 63) x); cbn [Z.b2z]; Z.div_mod_to_equations; lia.
Qed.

Definition uv_struct (a : FStar.FStar_UInt128_uint128) : Z := FStar.low a + FStar.high a * 2 ^ 64.
Definition uwf_struct (a : FStar.FStar_UInt128_uint128) : Prop :=
  word 64 (FStar.low a) /\ word 64 (FStar.high a).

Lemma uwf_uv_halves a : uwf_struct a ->
  uv_struct a mod 2 ^ 64 = FStar.low a /\ uv_struct a / 2 ^ 64 = FStar.high a /\ word 128 (uv_struct a).
Proof.
  intros [H1 H2]. unfold uv_struct. rewrite Z_mod_plus_full, Z.mod_small by assumption.
  rewrite Z.div_add, Z.div_small by (assumption || lia). unfold word in *. lia.
Qed.

Lemma struct_add a b : uwf_struct a -> uwf_struct b ->
  uwf_struct (FStar.FStar_UInt128_add a b) /\
  uv_struct (FStar.FStar_UInt128_add a b) = (uv_struct a + uv_struct b) mod 2 ^ 128.
Proof.
  intros [Hal Hah] [Hbl Hbh]. unfold FStar.FStar_UInt128_add, uv_struct, uwf_struct. cbn.
  split; [split; apply wadd_word; lia|].
  rewrite carry_spec by (auto with word). unfold wadd, wrap, word in *.
  rewrite Zplus_mod_idemp_l. apply Z.mod_unique_pos with
    (q := (FStar.high a + FStar.high b + Z.b2z ((FStar.low a + FStar.low b) mod 2 ^ 64 <? FStar.low b)) / 2 ^ 64);
  destruct (Z.ltb_spec ((FStar.low a + FStar.low b) mod 2 ^ 64) (FStar.low b)); cbn [Z.b2z];
  Z.div_mod_to_equations; lia.
Qed.

Lemma struct_sub a b : uwf_struct a -> uwf_struct b ->
  uwf_struct (FStar.FStar_UInt128_sub a b) /\
  uv_struct (FStar.FStar_UInt128_sub a b) = (uv_struct a - uv_struct b) mod 2 ^ 128.
Proof.
  intros [Hal Hah] [Hbl Hbh]. unfold FStar.FStar_UInt128_sub, uv_struct, uwf_struct. cbn.
  split; [split; apply wsub_word; lia|].
  rewrite carry_spec by (auto with word). unfold wsub, wrap, word in *.
  rewrite Zminus_mod_idemp_l. apply Z.mod_unique_pos with
    (q := (FStar.high a - FStar.high b - Z.b2z (FStar.low a <? (FStar.low a - FStar.low b) mod 2 ^ 64)) / 2 ^ 64);
  destruct (Z.ltb_spec (FStar.low a) ((FStar.low a - FStar.low b) mod 2 ^ 64)); cbn [Z.b2z];
  Z.div_mod_to_equations; lia.
Qed.

(** Bitwise operations act on the halves independently. *)
Lemma struct_bit a i : uwf_struct a -> 0 <= i ->
  Z.testbit (uv_struct a) i =
  if i <? 64 then Z.testbit (FStar.low a) i else Z.testbit (FStar.high a) (i - 64).
Proof.
  intros [Hl Hh] Hi. unfold uv_struct. rewrite <- Z_lor_add by (lia || assumption).
  rewrite Z.lor_spec. destruct (Z.ltb_spec i 64).
  - rewrite Z.shiftl_spec_low by lia. apply orb_false_r.
  - rewrite (word_bit_high 64), Z.shiftl_spec by (assumption || lia). done.
Qed.

Lemma struct_bitwise (op : Z -> Z -> Z) (f : bool -> bool -> bool) a b :
  (forall x y i, 0 <= i -> Z.testbit (op x y) i = f (Z.testbit x i) (Z.testbit y i)) ->
  (forall x y, word 64 x -> word 64 y -> word 64 (op x y)) ->
  uwf_struct a -> uwf_struct b ->
  let r := FStar.mk128 (op (FStar.low a) (FStar.low b)) (op (FStar.high a) (FStar.high b)) in
  uwf_struct r /\ uv_struct r = op (uv_struct a) (uv_struct b).
Proof.
  intros Hop Hw Ha Hb r.
  assert (Hr : uwf_struct r) by (destruct Ha, Hb; split; cbn; auto). split; [done|].
  apply Z.bits_inj'. intros i Hi. rewrite Hop, !struct_bit by assumption.
  cbn. destruct (Z.ltb_spec i 64); apply Hop; lia.
Qed.

Lemma struct_shift_left a s : uwf_struct a -> 0 <= s < 128 ->
  uwf_struct (FStar.FStar_UInt128_shift_left a s) /\
  uv_struct (FStar.FStar_UInt128_shift_left a s) = (uv_struct a * 2 ^ s) mod 2 ^ 128.
Proof.
  intros [Hl Hh] Hs. unfold FStar.FStar_UInt128_shift_left, FStar.FStar_UInt128_u32_64.
  destruct (Z.ltb_spec s 64).
  - unfold FStar.FStar_UInt128_shift_left_small. destruct (Z.eqb_spec s 0) as [->|].
    { split; [done|]. rewrite Z.mul_1_r, Z.mod_small; [done|]. now apply uwf_uv_halves. }
    split; [split; cbn; auto with word; apply wadd_word; lia|].
    unfold uv_struct, FStar.FStar_UInt128_add_u64_shift_left_respec,
      FStar.FStar_UInt128_add_u64_shift_left, FStar.FStar_UInt128_u32_64. cbn [FStar.low FStar.high].
    rewrite (wsub_small 32), wshr_div, !wshl_mul by lia. unfold wadd, wrap, word in *.
    rewrite Zplus_mod_idemp_l.
    assert (E : 2 ^ 64 = 2 ^ s * 2 ^ (64 - s)) by (rewrite <- Z.pow_add_r by lia; f_equal; lia).
    assert (0 < 2 ^ s) by lia. assert (0 < 2 ^ (64 - s)) by lia.
    pose proof (Z.div_mod (FStar.low a) (2 ^ (64 - s))).
    pose proof (Z.mod_pos_bound (FStar.low a) (2 ^ (64 - s))).
    pose proof (Z.div_mod (FStar.high a * 2 ^ s + FStar.low a / 2 ^ (64 - s)) (2 ^ 64)).
    pose proof (Z.mod_pos_bound (FStar.high a * 2 ^ s + FStar.low a / 2 ^ (64 - s)) (2 ^ 64)).
    replace ((FStar.low a * 2 ^ s) mod 2 ^ 64) with (FStar.low a mod 2 ^ (64 - s) * 2 ^ s).
    2: { apply Z.mod_unique_pos with (FStar.low a / 2 ^ (64 - s)); nia. }
    apply Z.mod_unique_pos with ((FStar.high a * 2 ^ s + FStar.low a / 2 ^ (64 - s)) / 2 ^ 64); nia.
  - unfold FStar.FStar_UInt128_shift_left_large, FStar.FStar_UInt128_u32_64.
    rewrite wsub_small by lia. split; [split; cbn; auto with word; unfold word; lia|].
    unfold uv_struct. cbn [FStar.low FStar.high]. rewrite wshl_mul by lia. unfold wrap, word in *.
    replace (2 ^ s) with (2 ^ (s - 64) * 2 ^ 64) by (rewrite <- Z.pow_add_r by lia; f_equal; lia).
    assert (0 < 2 ^ (s - 64)) by lia.
    pose proof (Z.div_mod (FStar.low a * 2 ^ (s - 64)) (2 ^ 64)).
    pose proof (Z.mod_pos_bound (FStar.low a * 2 ^ (s - 64)) (2 ^ 64)).
    apply Z.mod_unique_pos with
      (FStar.high a * 2 ^ (s - 64) + FStar.low a * 2 ^ (s - 64) / 2 ^ 64); nia.
Qed.

Lemma struct_shift_right a s : uwf_struct a -> 0 <= s < 128 ->
  uwf_struct (FStar.FStar_UInt128_shift_right a s) /\
  uv_struct (FStar.FStar_UInt128_shift_right a s) = uv_struct a / 2 ^ s.
Proof.
  intros [Hl Hh] Hs. unfold FStar.FStar_UInt128_shift_right, FStar.FStar_UInt128_u32_64.
  destruct (Z.ltb_spec s 64).
  - unfold FStar.FStar_UInt128_shift_right_small. destruct (Z.eqb_spec s 0) as [->|].
    { split; [done|]. now rewrite Z.div_1_r. }
    split; [split; cbn; auto with word; apply wadd_word; lia|].
    unfold uv_struct, FStar.FStar_UInt128_add_u64_shift_right_respec,
      FStar.FStar_UInt128_add_u64_shift_right, FStar.FStar_UInt128_u32_64. cbn [FStar.low FStar.high].
    rewrite (wsub_small 32), !wshr_div, !wshl_mul by lia. unfold wadd, wrap, word in *.
    assert (E : 2 ^ 64 = 2 ^ s * 2 ^ (64 - s)) by (rewrite <- Z.pow_add_r by lia; f_equal; lia).
    assert (0 < 2 ^ s) by lia. assert (0 < 2 ^ (64 - s)) by lia.
    replace ((FStar.high a * 2 ^ (64 - s)) mod 2 ^ 64) with (FStar.high a mod 2 ^ s * 2 ^ (64 - s)).
    2: { pose proof (Z.div_mod (FStar.high a) (2 ^ s)).
         pose proof (Z.mod_pos_bound (FStar.high a) (2 ^ s)).
         apply Z.mod_unique_pos with (FStar.high a / 2 ^ s); nia. }
    assert (Hq : 0 <= FStar.low a / 2 ^ s < 2 ^ (64 - s)).
    { split; [apply Z.div_pos; lia|]. apply Z.div_lt_upper_bound; lia. }
    pose proof (Z.mod_pos_bound (FStar.high a) (2 ^ s)).
    rewrite (Z.mod_small (_ + _)) by nia.
    pose proof (Z.div_mod (FStar.high a) (2 ^ s)). pose proof (Z.div_mod (FStar.low a) (2 ^ s)).
    pose proof (Z.mod_pos_bound (FStar.low a) (2 ^ s)).
    apply Z.div_unique_pos with (FStar.low a mod 2 ^ s); nia.
  - unfold FStar.FStar_UInt128_shift_right_large, FStar.FStar_UInt128_u32_64.
    rewrite wsub_small by lia. split; [split; cbn; auto with word; unfold word; lia|].
    unfold uv_struct. cbn [FStar.low FStar.high]. rewrite wshr_div by lia. unfold word in *.
    replace (2 ^ s) with (2 ^ 64 * 2 ^ (s - 64)) by (rewrite <- Z.pow_add_r by lia; f_equal; lia).
    rewrite <- Z.div_div, Z.div_add, (Z.div_small (FStar.low a)) by lia.
    now rewrite Z.add_0_l, Z.mul_0_l, Z.add_0_r.
Qed.

(** Schoolbook multiplication on 32-bit halves. *)
Lemma struct_mul_wide x y : word 64 x -> word 64 y ->
  uwf_struct (FStar.FStar_UInt128_mul_wide x y) /\
  uv_struct (FStar.FStar_UInt128_mul_wide x y) = x * y.
Proof.
  intros Hx Hy. unfold FStar.FStar_UInt128_mul_wide, FStar.FStar_UInt128_mul_wide_impl,
    FStar.FStar_UInt128_mul_wide_impl_t_, FStar.FStar_UInt128_u32_combine_,
    FStar.FStar_UInt128_u32_32, FStar.FStar_UInt128_u64_mod_32, FStar.FStar_UInt128_u64_l32_mask.
  rewrite !(Z_land_ones_lit _ 0xffffffff 32) by (reflexivity || lia).
  rewrite !wshr_div by lia. unfold word in *.
  assert (Ex := Z.div_mod x (2 ^ 32)). assert (Ey := Z.div_mod y (2 ^ 32)).
  assert (Hx0 := Z.mod_pos_bound x (2 ^ 32)). assert (Hy0 := Z.mod_pos_bound y (2 ^ 32)).
  assert (0 <= x / 2 ^ 32 < 2 ^ 32) by lia. assert (0 <= y / 2 ^ 32 < 2 ^ 32) by lia.
  set (x0 := x mod 2 ^ 32) in *. set (x1 := x / 2 ^ 32) in *.
  set (y0 := y mod 2 ^ 32) in *. set (y1 := y / 2 ^ 32) in *. clearbody x0 x1 y0 y1.
  assert (0 <= x0 * y0 <= (2 ^ 32 - 1) * (2 ^ 32 - 1)) by (apply mul_bound; lia).
  assert (0 <= x0 * y1 <= (2 ^ 32 - 1) * (2 ^ 32 - 1)) by (apply mul_bound; lia).
  assert (0 <= x1 * y0 <= (2 ^ 32 - 1) * (2 ^ 32 - 1)) by (apply mul_bound; lia).
  assert (0 <= x1 * y1 <= (2 ^ 32 - 1) * (2 ^ 32 - 1)) by (apply mul_bound; lia).
  assert (Exy : x * y = x0 * y0 + (x0 * y1 + x1 * y0) * 2 ^ 32 + x1 * y1 * 2 ^ 64) by nia.
  rewrite Exy, !wmul_small by lia. clear Exy Ex Ey.
  set (p00 := x0 * y0) in *. set (p01 := x0 * y1) in *. set (p10 := x1 * y0) in *.
  set (p11 := x1 * y1) in *. clearbody p00 p01 p10 p11.
  assert (Ht : 0 <= p10 + p00 / 2 ^ 32 < 2 ^ 64) by (Z.div_mod_to_equations; lia).
  rewrite (wadd_small 64 p10) by lia.
  assert (Hm : 0 <= p01 + (p10 + p00 / 2 ^ 32) mod 2 ^ 32 < 2 ^ 64) by (Z.div_mod_to_equations; lia).
  rewrite (wadd_small 64 p01) by lia. set (t := p10 + p00 / 2 ^ 32) in *.
  set (m := p01 + t mod 2 ^ 32) in *.
  split; [split; cbn; apply wadd_word; lia|]. unfold uv_struct. cbn [FStar.low FStar.high].
  rewrite wshl_mul by lia.
  assert (Hh : p11 + t / 2 ^ 32 + m / 2 ^ 32 < 2 ^ 64) by (subst t m; Z.div_mod_to_equations; lia).
  assert (0 <= t / 2 ^ 32 /\ 0 <= m / 2 ^ 32) by (split; apply Z.div_pos; lia).
  rewrite (wadd_small 64 p11), (wadd_small 64 (p11 + _)) by lia.
  assert (Em := Z.div_mod m (2 ^ 32)). assert (Bm := Z.mod_pos_bound m (2 ^ 32)).
  replace (wrap 64 (m * 2 ^ 32)) with (m mod 2 ^ 32 * 2 ^ 32).
  2: { apply Z.mod_unique_pos with (m / 2 ^ 32); lia. }
  assert (Bp := Z.mod_pos_bound p00 (2 ^ 32)). rewrite wadd_small by lia.
  assert (Et := Z.div_mod t (2 ^ 32)). assert (Ep := Z.div_mod p00 (2 ^ 32)). lia.
Qed.

#[export] Program Instance struct_UInt128 : UInt128 FStar.FStar_UInt128_uint128 := {
  uv := uv_struct; uwf := uwf_struct }.
Next Obligation. intros a Ha. now apply uwf_uv_halves. Qed.
Next Obligation. apply struct_add. Qed.
Next Obligation. apply struct_add. Qed.
Next Obligation. apply struct_sub. Qed.
Next Obligation. apply struct_sub. Qed.
Next Obligation.
  intros a b Ha Hb. apply (struct_bitwise Z.land andb); try done.
  - intros. apply Z.land_spec.
  - intros x y Hx Hy. apply word_land_l; [lia|done|apply Hy].
Qed.
Next Obligation.
  intros a b Ha Hb. apply (struct_bitwise Z.lxor xorb); try done.
  - intros. apply Z.lxor_spec.
  - intros x y Hx Hy. now apply word_lxor; [lia| |].
Qed.
Next Obligation.
  intros a b Ha Hb. apply (struct_bitwise Z.lor orb); try done.
  - intros. apply Z.lor_spec.
  - intros x y Hx Hy. now apply word_lor; [lia| |].
Qed.
Next Obligation.
  intros a [Hl Hh]. split; [split; apply wnot_word; lia|]. cbn. unfold FStar.FStar_UInt128_lognot, uv_struct. cbn [FStar.low FStar.high].
  assert (E : forall z, word 64 z -> wnot 64 z = 2 ^ 64 - 1 - z).
  { intros z Hz. unfold wnot, wrap, Z.lnot, word in *. symmetry.
    apply Z.mod_unique_pos with (-1); lia. }
  rewrite !E by assumption. lia.
Qed.
Next Obligation. apply struct_shift_left. Qed.
Next Obligation. apply struct_shift_right. Qed.
Next Obligation.
  intros a b [Hal Hah] [Hbl Hbh]. cbn. unfold FStar.FStar_UInt128_eq_mask, uwf_struct, uv_struct.
  cbn [FStar.low FStar.high]. rewrite !eq_mask64_spec, mask_land, mask_join, halves_eqb by (done || lia).
  split; [split; apply mask_word; lia|done].
Qed.
Next Obligation.
  intros a b Ha Hb H1 H2 H3 H4. cbn in *. unfold FStar.FStar_UInt128_gte_mask, uwf_struct, uv_struct.
  cbn [FStar.low FStar.high].
  destruct (uwf_uv_halves a Ha) as (Ea & _ & _), (uwf_uv_halves b Hb) as (Eb & _ & _).
  rewrite Ea in H3. rewrite Eb in H4. destruct Ha as [Hal Hah], Hb as [Hbl Hbh].
  unfold uv_struct, word in *. rewrite !gte_mask_halves by (unfold word; lia).
  rewrite mask_join. split; [split; apply mask_word; lia|done].
Qed.
Next Obligation. intros x Hx. cbn. unfold uv_struct, uwf_struct, word in *. cbn. lia. Qed.
Next Obligation. intros a Ha. cbn. now destruct (uwf_uv_halves a Ha) as (-> & _ & _). Qed.
Next Obligation. apply struct_mul_wide. Qed.
Next Obligation.
  intros b off Hb Hl. rewrite load64_pair by lia. split; [split; apply load64_le_word; (done || lia)|done].
Qed.
Next Obligation.
  intros b off a [Hl Hh] Hb. cbn. unfold FStar.store128_le_, uv_struct. now rewrite store64_pair.
Qed.
Next Obligation.
  intros b off a [Hl Hh] Hb. cbn. unfold FStar.store128_be_, uv_struct. now rewrite store64_be_pair.
Qed.

(** ** Client side: reasoning with values

    [rep t v] says that [t] is a well-formed 128-bit integer of value [v].
    The lemmas below push it through the operations when nothing overflows;
    they are what the bignum proofs use. *)

Section Client.
Context {T : Type} {U128Ops : UInt128Ops T} {U128 : UInt128 T}.

Definition rep (t : T) (v : Z) : Prop := uwf t /\ uv t = v.

Lemma rep_range t v : rep t v -> 0 <= v < 2 ^ 128.
Proof. intros [Hw <-]. now apply uv_range. Qed.

Lemma rep_of_u64 x : word 64 x -> rep (u128_of_u64 x) x.
Proof. apply uv_of_u64. Qed.

Lemma rep_mul_wide x y : word 64 x -> word 64 y -> rep (u128_mul_wide x y) (x * y).
Proof. apply uv_mul_wide. Qed.

Lemma rep_add a b x y : rep a x -> rep b y -> x + y < 2 ^ 128 -> rep (u128_add a b) (x + y).
Proof.
  intros Ha Hb Hlt. pose proof (rep_range _ _ Ha). pose proof (rep_range _ _ Hb).
  destruct Ha as [Ha <-], Hb as [Hb <-]. destruct (uv_add a b Ha Hb) as [Hw E].
  split; [done|]. rewrite E. apply Z.mod_small. lia.
Qed.

Lemma rep_add_mod_wrap a b x y : rep a x -> rep b y -> rep (u128_add_mod a b) ((x + y) mod 2 ^ 128).
Proof.
  intros [Ha <-] [Hb <-]. destruct (uv_add_mod a b Ha Hb) as [Hw E]. split; done.
Qed.

Lemma rep_add_mod a b x y : rep a x -> rep b y -> x + y < 2 ^ 128 -> rep (u128_add_mod a b) (x + y).
Proof.
  intros Ha Hb Hlt. pose proof (rep_range _ _ Ha). pose proof (rep_range _ _ Hb).
  rewrite <- (Z.mod_small (x + y) (2 ^ 128)) by lia. now apply rep_add_mod_wrap.
Qed.

Lemma rep_shift_right a x s : rep a x -> 0 <= s < 128 -> rep (u128_shift_right a s) (x / 2 ^ s).
Proof. intros [Ha <-] Hs. destruct (uv_shift_right a s Ha Hs). split; done. Qed.

Lemma rep_shift_left a x s : rep a x -> 0 <= s < 128 ->
  rep (u128_shift_left a s) ((x * 2 ^ s) mod 2 ^ 128).
Proof. intros [Ha <-] Hs. destruct (uv_shift_left a s Ha Hs). split; done. Qed.

Lemma rep_logand a b x y : rep a x -> rep b y -> rep (u128_logand a b) (Z.land x y).
Proof. intros [Ha <-] [Hb <-]. destruct (uv_logand a b Ha Hb). split; done. Qed.

Lemma rep_logor a b x y : rep a x -> rep b y -> rep (u128_logor a b) (Z.lor x y).
Proof. intros [Ha <-] [Hb <-]. destruct (uv_logor a b Ha Hb). split; done. Qed.

Lemma rep_to_u64 a x : rep a x -> u128_to_u64 a = x mod 2 ^ 64.
Proof. intros [Ha <-]. now apply uv_to_u64. Qed.

Lemma rep_to_u64_small a x : rep a x -> x < 2 ^ 64 -> u128_to_u64 a = x.
Proof.
  intros Ha Hlt. rewrite (rep_to_u64 a x Ha). apply rep_range in Ha. apply Z.mod_small. lia.
Qed.

(** [uint128_to_uint64(t) & (2^n - 1)] *)
Lemma rep_low_bits a x m n : rep a x -> 0 <= n <= 64 -> m = Z.ones n ->
  Z.land (u128_to_u64 a) m = x mod 2 ^ n.
Proof.
  intros Ha Hn Hm. rewrite (rep_to_u64 a x Ha), (Z_land_ones_lit _ _ n) by (lia || assumption).
  apply Z.mod_mod_divide. exists (2 ^ (64 - n)). rewrite <- Z.pow_add_r by lia. f_equal. lia.
Qed.

Lemma rep_load_le b off : bytes b -> (off + 16 <= length b)%nat ->
  rep (u128_load_le b off) (le_combine (slice b off 16)).
Proof. apply uv_load_le. Qed.

Lemma rep_store_le b off a x : rep a x -> (off + 16 <= length b)%nat ->
  u128_store_le b off a = blit b off (le_split 16 x).
Proof. intros [Ha <-]. now apply uv_store_le. Qed.

Lemma rep_store_be b off a x : rep a x -> (off + 16 <= length b)%nat ->
  u128_store_be b off a = blit b off (be_split 16 x).
Proof. intros [Ha <-]. now apply uv_store_be. Qed.

End Client.

Create HintDb rep discriminated.
#[export] Hint Resolve rep_of_u64 rep_mul_wide rep_add rep_add_mod rep_shift_right rep_logand
  rep_logor : rep.

(** ** Main results *)

(** The portable 128-bit arithmetic of FStar.c, on structs of two 64-bit
    halves, is arithmetic modulo 2^128: addition, subtraction, the shifts by less than
    128 and the 64 by 64 bit multiplication return well-formed structs of the right
    value. *)
Theorem fstar_uint128_arithmetic (a b : FStar.FStar_UInt128_uint128) (x y s : Z) :
  uwf_struct a -> uwf_struct b -> word 64 x -> word 64 y -> 0 <= s < 128 ->
  (uwf_struct (FStar.FStar_UInt128_add a b) /\
   uv_struct (FStar.FStar_UInt128_add a b) = (uv_struct a + uv_struct b) mod 2 ^ 128) /\
  (uwf_struct (FStar.FStar_UInt128_sub a b) /\
   uv_struct (FStar.FStar_UInt128_sub a b) = (uv_struct a - uv_struct b) mod 2 ^ 128) /\
  (uwf_struct (FStar.FStar_UInt128_shift_left a s) /\
   uv_struct (FStar.FStar_UInt128_shift_left a s) = (uv_struct a * 2 ^ s) mod 2 ^ 128) /\
  (uwf_struct (FStar.FStar_UInt128_shift_right a s) /\
   uv_struct (FStar.FStar_UInt128_shift_right a s) = uv_struct a / 2 ^ s) /\
  (uwf_struct (FStar.FStar_UInt128_mul_wide x y) /\
   uv_struct (FStar.FStar_UInt128_mul_wide x y) = x * y).
Proof.
  intros Ha Hb Hx Hy Hs.
  split; [now apply struct_add|]. split; [now apply struct_sub|]. split; [now apply struct_shift_left|].
  split; [now apply struct_shift_right|now apply struct_mul_wide].
Qed.

Lemma fstar_uint128_arithmetic_witness :
  let a := FStar.mk128 (2 ^ 64 - 1) 1 in
  let b := FStar.mk128 3 0 in
  uv_struct (FStar.FStar_UInt128_add a b) = (uv_struct a + uv_struct b) mod 2 ^ 128 /\
  uv_struct (FStar.FStar_UInt128_mul_wide (2 ^ 64 - 1) (2 ^ 63)) = (2 ^ 64 - 1) * 2 ^ 63.
Proof.
  intros a b.
  destruct (fstar_uint128_arithmetic a b (2 ^ 64 - 1) (2 ^ 63) 44) as ((_ & H1) & _ & _ & _ & _ & H2);
    [split; unfold word; cbn; lia|split; unfold word; cbn; lia|unfold word; lia|unfold word; lia|lia|].
  exact (conj H1 H2).
Defined.
