(* ===== verification/Poly1305.v ===== *)
(** * Poly1305: the one-time authenticator of Hacl_Poly1305_64.c

    The accumulator and the key are three 64-bit limbs of 44, 44 and 42 bits.
    The code is modelled over an arbitrary 128-bit back end and refined to the
    arithmetic of RFC 7539 modulo 2^130 - 5. *)

From stdpp Require Import base list numbers.
From Stdlib Require Import ZArith Lia.
From S2P Require Import Prelude Machine UInt128.

Local Open Scope Z_scope.
Local Open Scope buf_scope.

(** ** The code *)

Module Poly1305_64.

(** The state is a pair of pointers to three-limb buffers. *)
Record poly1305_state := mk_poly { r : list Z; h : list Z }.

Section Code.
Context {T : Type} {U128Ops : UInt128Ops T}.

Definition Hacl_Bignum_Modulo_reduce (b : list Z) : list Z :=
  let b0 := b.[0] in
  b.[0 <- ((b0 << 4) + (b0 << 2))%u64].

Definition Hacl_Bignum_Modulo_carry_top (b : list Z) : list Z :=
  let b2 := b.[2] in
  let b0 := b.[0] in
  let b2_42 := (b2 >> 42)%u64 in
  let b := b.[2 <- (b2 & 0x3ffffffffff)%u64] in
  b.[0 <- ((b2_42 << 2) + b2_42 + b0)%u64].

Definition Hacl_Bignum_Modulo_carry_top_wide (b : list T) : list T :=
  let b2 := b.[2] in
  let b0 := b.[0] in
  let b2_ := u128_logand b2 (u128_of_u64 0x3ffffffffff) in
  let b2_42 := u128_to_u64 (u128_shift_right b2 42) in
  let b0_ := u128_add b0 (u128_of_u64 ((b2_42 << 2) + b2_42)%u64) in
  let b := b.[2 <- b2_] in
  b.[0 <- b0_].

Definition Hacl_Bignum_Fproduct_copy_from_wide_ (output : list Z) (input : list T) : list Z :=
  for_ 0 3 (fun i output =>
    let xi := input.[i] in
    output.[i <- u128_to_u64 xi]) output.

Definition Hacl_Bignum_Fproduct_sum_scalar_multiplication_
    (output : list T) (input : list Z) (s : Z) : list T :=
  for_ 0 3 (fun i output =>
    let xi := output.[i] in
    let yi := input.[i] in
    output.[i <- u128_add_mod xi (u128_mul_wide yi s)]) output.

Definition Hacl_Bignum_Fproduct_carry_wide_ (tmp : list T) : list T :=
  for_ 0 2 (fun i tmp =>
    let ctr := i in
    let tctr := tmp.[ctr] in
    let tctrp1 := tmp.[ctr + 1] in
    let r0 := (u128_to_u64 tctr & 0xfffffffffff)%u64 in
    let c := u128_shift_right tctr 44 in
    let tmp := tmp.[ctr <- u128_of_u64 r0] in
    tmp.[ctr + 1 <- u128_add tctrp1 c]) tmp.

Definition Hacl_Bignum_Fproduct_carry_limb_ (tmp : list Z) : list Z :=
  for_ 0 2 (fun i tmp =>
    let ctr := i in
    let tctr := tmp.[ctr] in
    let tctrp1 := tmp.[ctr + 1] in
    let r0 := (tctr & 0xfffffffffff)%u64 in
    let c := (tctr >> 44)%u64 in
    let tmp := tmp.[ctr <- r0] in
    tmp.[ctr + 1 <- (tctrp1 + c)%u64]) tmp.

Definition Hacl_Bignum_Fmul_shift_reduce (output : list Z) : list Z :=
  let tmp := output.[2] in
  let output := for_ 0 2 (fun i output =>
    let ctr := (3 - i - 1)%nat in
    let z := output.[ctr - 1] in
    output.[ctr <- z]) output in
  let output := output.[0 <- tmp] in
  Hacl_Bignum_Modulo_reduce output.

(** Both the accumulator [output] and the shifted operand [input] change. *)
Definition Hacl_Bignum_Fmul_mul_shift_reduce_
    (output : list T) (input input2 : list Z) : list T * list Z :=
  let '(output, input) := for_ 0 2 (fun i '(output, input) =>
    let input2i := input2.[i] in
    let output := Hacl_Bignum_Fproduct_sum_scalar_multiplication_ output input input2i in
    let input := Hacl_Bignum_Fmul_shift_reduce input in
    (output, input)) (output, input) in
  let i := 2%nat in
  let input2i := input2.[i] in
  (Hacl_Bignum_Fproduct_sum_scalar_multiplication_ output input input2i, input).

Definition Hacl_Bignum_Fmul_fmul (output input input2 : list Z) : list Z :=
  let tmp := take 3 input in
  let t := replicate 3 (u128_of_u64 0) in
  let '(t, tmp) := Hacl_Bignum_Fmul_mul_shift_reduce_ t tmp input2 in
  let t := Hacl_Bignum_Fproduct_carry_wide_ t in
  let t := Hacl_Bignum_Modulo_carry_top_wide t in
  let output := Hacl_Bignum_Fproduct_copy_from_wide_ output t in
  let i0 := output.[0] in
  let i1 := output.[1] in
  let i0_ := (i0 & 0xfffffffffff)%u64 in
  let i1_ := (i1 + (i0 >> 44))%u64 in
  let output := output.[0 <- i0_] in
  output.[1 <- i1_].

Definition Hacl_Bignum_AddAndMultiply_add_and_multiply (acc block r : list Z) : list Z :=
  let acc := for_ 0 3 (fun i acc =>
    let xi := acc.[i] in
    let yi := block.[i] in
    acc.[i <- (xi + yi)%u64]) acc in
  Hacl_Bignum_Fmul_fmul acc acc r.

Definition Hacl_Impl_Poly1305_64_poly1305_update (st : poly1305_state) (m : list Z) : poly1305_state :=
  let acc := h st in
  let r3 := r st in
  let tmp := replicate 3 0 in
  let m0 := u128_load_le m 0 in
  let r0 := (u128_to_u64 m0 & 0xfffffffffff)%u64 in
  let r1 := (u128_to_u64 (u128_shift_right m0 44) & 0xfffffffffff)%u64 in
  let r2 := u128_to_u64 (u128_shift_right m0 88) in
  let tmp := tmp.[0 <- r0] in
  let tmp := tmp.[1 <- r1] in
  let tmp := tmp.[2 <- r2] in
  let b2 := tmp.[2] in
  let b2_ := (0x10000000000 .| b2)%u64 in
  let tmp := tmp.[2 <- b2_] in
  {| r := r st; h := Hacl_Bignum_AddAndMultiply_add_and_multiply acc tmp r3 |}.

Definition Hacl_Impl_Poly1305_64_poly1305_process_last_block_
    (block : list Z) (st : poly1305_state) (m : list Z) (rem_ : Z) : poly1305_state :=
  let tmp := replicate 3 0 in
  let m0 := u128_load_le block 0 in
  let r0 := (u128_to_u64 m0 & 0xfffffffffff)%u64 in
  let r1 := (u128_to_u64 (u128_shift_right m0 44) & 0xfffffffffff)%u64 in
  let r2 := u128_to_u64 (u128_shift_right m0 88) in
  let tmp := tmp.[0 <- r0] in
  let tmp := tmp.[1 <- r1] in
  let tmp := tmp.[2 <- r2] in
  {| r := r st; h := Hacl_Bignum_AddAndMultiply_add_and_multiply (h st) tmp (r st) |}.

Definition Hacl_Impl_Poly1305_64_poly1305_process_last_block
    (st : poly1305_state) (m : list Z) (rem_ : Z) : poly1305_state :=
  let block := replicate 16 0 in
  let i0 := Z.to_nat (wrap 32 rem_) in
  let i := Z.to_nat (wrap 32 rem_) in
  let block := blit block 0 (take i m) in
  let block := block.[i0 <- 1] in
  Hacl_Impl_Poly1305_64_poly1305_process_last_block_ block st m rem_.

Definition Hacl_Impl_Poly1305_64_poly1305_last_pass (acc : list Z) : list Z :=
  let acc := Hacl_Bignum_Fproduct_carry_limb_ acc in
  let acc := Hacl_Bignum_Modulo_carry_top acc in
  let a0 := acc.[0] in
  let a10 := acc.[1] in
  let a20 := acc.[2] in
  let a0_ := (a0 & 0xfffffffffff)%u64 in
  let r0 := (a0 >> 44)%u64 in
  let a1_ := ((a10 + r0) & 0xfffffffffff)%u64 in
  let r1 := ((a10 + r0) >> 44)%u64 in
  let a2_ := (a20 + r1)%u64 in
  let acc := acc.[0 <- a0_] in
  let acc := acc.[1 <- a1_] in
  let acc := acc.[2 <- a2_] in
  let acc := Hacl_Bignum_Modulo_carry_top acc in
  let i0 := acc.[0] in
  let i1 := acc.[1] in
  let i0_ := (i0 & 0xfffffffffff)%u64 in
  let i1_ := (i1 + (i0 >> 44))%u64 in
  let acc := acc.[0 <- i0_] in
  let acc := acc.[1 <- i1_] in
  let a00 := acc.[0] in
  let a1 := acc.[1] in
  let a2 := acc.[2] in
  let mask0 := FStar_UInt64_gte_mask a00 0xffffffffffb in
  let mask1 := FStar_UInt64_eq_mask a1 0xfffffffffff in
  let mask2 := FStar_UInt64_eq_mask a2 0x3ffffffffff in
  let mask := ((mask0 & mask1) & mask2)%u64 in
  let a0_0 := (a00 - (0xffffffffffb & mask))%u64 in
  let a1_0 := (a1 - (0xfffffffffff & mask))%u64 in
  let a2_0 := (a2 - (0x3ffffffffff & mask))%u64 in
  let acc := acc.[0 <- a0_0] in
  let acc := acc.[1 <- a1_0] in
  acc.[2 <- a2_0].

Definition Hacl_Impl_Poly1305_64_mk_state (r h : list Z) : poly1305_state := {| r := r; h := h |}.

(** [len1] counts 16-byte blocks and reaches the code as a [uint64_t]; the
    recursion is on its value. *)
Fixpoint Hacl_Standalone_Poly1305_64_poly1305_blocks
    (st : poly1305_state) (m : list Z) (len1 : nat) : poly1305_state :=
  match len1 with
  | O => st
  | S len2 =>
      let block := m in
      let tail1 := drop 16 m in
      let st := Hacl_Impl_Poly1305_64_poly1305_update st block in
      Hacl_Standalone_Poly1305_64_poly1305_blocks st tail1 len2
  end.

(** The key set-up shared by the one-shot and the incremental interface. *)
Definition Hacl_Poly1305_64_init (st : poly1305_state) (k1 : list Z) : poly1305_state :=
  let x0 := r st in
  let k10 := u128_load_le k1 0 in
  let k_clamped :=
    u128_logand k10
      (u128_logor (u128_shift_left (u128_of_u64 0x0ffffffc0ffffffc) 64)
                  (u128_of_u64 0x0ffffffc0fffffff)) in
  let r0 := (u128_to_u64 k_clamped & 0xfffffffffff)%u64 in
  let r1 := (u128_to_u64 (u128_shift_right k_clamped 44) & 0xfffffffffff)%u64 in
  let r2 := u128_to_u64 (u128_shift_right k_clamped 88) in
  let x0 := x0.[0 <- r0] in
  let x0 := x0.[1 <- r1] in
  let x0 := x0.[2 <- r2] in
  let x00 := h st in
  let x00 := x00.[0 <- 0] in
  let x00 := x00.[1 <- 0] in
  let x00 := x00.[2 <- 0] in
  {| r := x0; h := x00 |}.

Definition Hacl_Standalone_Poly1305_64_poly1305_partial
    (st : poly1305_state) (input : list Z) (len1 : Z) (kr : list Z) : poly1305_state :=
  let x0 := r st in
  let k1 := u128_load_le kr 0 in
  let k_clamped :=
    u128_logand k1
      (u128_logor (u128_shift_left (u128_of_u64 0x0ffffffc0ffffffc) 64)
                  (u128_of_u64 0x0ffffffc0fffffff)) in
  let r0 := (u128_to_u64 k_clamped & 0xfffffffffff)%u64 in
  let r1 := (u128_to_u64 (u128_shift_right k_clamped 44) & 0xfffffffffff)%u64 in
  let r2 := u128_to_u64 (u128_shift_right k_clamped 88) in
  let x0 := x0.[0 <- r0] in
  let x0 := x0.[1 <- r1] in
  let x0 := x0.[2 <- r2] in
  let x00 := h st in
  let x00 := x00.[0 <- 0] in
  let x00 := x00.[1 <- 0] in
  let x00 := x00.[2 <- 0] in
  let st := {| r := x0; h := x00 |} in
  Hacl_Standalone_Poly1305_64_poly1305_blocks st input (Z.to_nat len1).

Definition Hacl_Standalone_Poly1305_64_poly1305_complete
    (st : poly1305_state) (m : list Z) (len1 : Z) (k1 : list Z) : poly1305_state :=
  let kr := k1 in
  let len16 := (len1 >> 4)%u64 in
  let rem16 := (len1 & 0xf)%u64 in
  let part_input := m in
  let last_block := drop (Z.to_nat (wrap 32 (16 * len16)%u64)) m in
  let st := Hacl_Standalone_Poly1305_64_poly1305_partial st part_input len16 kr in
  let st := if negb (rem16 =? 0)
            then Hacl_Impl_Poly1305_64_poly1305_process_last_block st last_block rem16
            else st in
  {| r := r st; h := Hacl_Impl_Poly1305_64_poly1305_last_pass (h st) |}.

(** The tag is the accumulator plus the second half of the key. *)
Definition Hacl_Poly1305_64_finish (st : poly1305_state) (mac k1 : list Z) : list Z :=
  let acc := h st in
  let k_ := u128_load_le k1 0 in
  let h0 := acc.[0] in
  let h1 := acc.[1] in
  let h2 := acc.[2] in
  let acc_ :=
    u128_logor
      (u128_shift_left (u128_of_u64 ((h2 << 24) .| (h1 >> 20))%u64) 64)
      (u128_of_u64 ((h1 << 44) .| h0)%u64) in
  let mac_ := u128_add_mod acc_ k_ in
  u128_store_le mac 0 mac_.

Definition Hacl_Standalone_Poly1305_64_crypto_onetimeauth_
    (output input : list Z) (len1 : Z) (k1 : list Z) : list Z :=
  let buf := replicate 6 0 in
  let r := slice buf 0 3 in
  let h := slice buf 3 3 in
  let st := Hacl_Impl_Poly1305_64_mk_state r h in
  let key_s := drop 16 k1 in
  let st := Hacl_Standalone_Poly1305_64_poly1305_complete st input len1 k1 in
  let acc := Poly1305_64.h st in
  let k_ := u128_load_le key_s 0 in
  let h0 := acc.[0] in
  let h1 := acc.[1] in
  let h2 := acc.[2] in
  let acc_ :=
    u128_logor
      (u128_shift_left (u128_of_u64 ((h2 << 24) .| (h1 >> 20))%u64) 64)
      (u128_of_u64 ((h1 << 44) .| h0)%u64) in
  let mac_ := u128_add_mod acc_ k_ in
  u128_store_le output 0 mac_.

Definition Hacl_Standalone_Poly1305_64_crypto_onetimeauth
    (output input : list Z) (len1 : Z) (k1 : list Z) : list Z :=
  Hacl_Standalone_Poly1305_64_crypto_onetimeauth_ output input len1 k1.

Definition Hacl_Poly1305_64_mk_state (r acc : list Z) : poly1305_state :=
  Hacl_Impl_Poly1305_64_mk_state r acc.

Definition Hacl_Poly1305_64_update_block (st : poly1305_state) (m : list Z) : poly1305_state :=
  Hacl_Impl_Poly1305_64_poly1305_update st m.

Fixpoint Hacl_Poly1305_64_update (st : poly1305_state) (m : list Z) (num_blocks : nat) : poly1305_state :=
  match num_blocks with
  | O => st
  | S n1 =>
      let block := m in
      let m_ := drop 16 m in
      let st := Hacl_Poly1305_64_update_block st block in
      Hacl_Poly1305_64_update st m_ n1
  end.

Definition Hacl_Poly1305_64_update_last (st : poly1305_state) (m : list Z) (len1 : Z) : poly1305_state :=
  let st := if negb (len1 =? 0)
            then Hacl_Impl_Poly1305_64_poly1305_process_last_block st m len1
            else st in
  {| r := r st; h := Hacl_Impl_Poly1305_64_poly1305_last_pass (h st) |}.

Definition Hacl_Poly1305_64_crypto_onetimeauth
    (output input : list Z) (len1 : Z) (k1 : list Z) : list Z :=
  Hacl_Standalone_Poly1305_64_crypto_onetimeauth output input len1 k1.

End Code.
End Poly1305_64.

(** ** Specification: RFC 7539, section 2.5 *)

Module Poly1305_Spec.

Definition prime : Z := 2 ^ 130 - 5.
Definition clamp (k : Z) : Z := Z.land k 0x0ffffffc0ffffffc0ffffffc0fffffff.

(** A block is read little-endian with a one appended. *)
Definition encode (block : list Z) : Z := le_combine block + 256 ^ Z.of_nat (length block).
Definition step (r acc : Z) (block : list Z) : Z := ((acc + encode block) * r) mod prime.
Definition poly (r acc : Z) (msg : list Z) : Z := fold_left (step r) (chunks 16 msg) acc.

Definition mac (key msg : list Z) : list Z :=
  let r := clamp (le_combine (slice key 0 16)) in
  let s := le_combine (slice key 16 16) in
  le_split 16 (poly r 0 msg + s).

End Poly1305_Spec.

(** ** Refinement *)

Section Refinement.
Context {T : Type} {U128Ops : UInt128Ops T} {U128 : UInt128 T}.
Import Poly1305_64.

(** The value of three limbs. *)
Definition fval (l : list Z) : Z :=
  match l with
  | [a0; a1; a2] => a0 + 2 ^ 44 * a1 + 2 ^ 88 * a2
  | _ => 0
  end.

(** Bounds on the limbs: of a multiplier, of an accumulator between blocks
    and of an accumulator with a block added. *)
Definition limbs (B0 B1 B2 : Z) (l : list Z) : Prop :=
  exists a0 a1 a2, l = [a0; a1; a2] /\ 0 <= a0 < B0 /\ 0 <= a1 < B1 /\ 0 <= a2 < B2.
Definition red (l : list Z) : Prop := limbs (2 ^ 44) (2 ^ 45) (2 ^ 42) l.

Lemma limbs_weaken A0 A1 A2 B0 B1 B2 l : A0 <= B0 -> A1 <= B1 -> A2 <= B2 ->
  limbs A0 A1 A2 l -> limbs B0 B1 B2 l.
Proof. intros ? ? ? (a0 & a1 & a2 & -> & ? & ? & ?). exists a0, a1, a2. repeat split; lia. Qed.

(** The 44-bit and 42-bit masks and the multiplication by 20 or 5. *)
Lemma mask44 x : Z.land x 0xfffffffffff = x mod 2 ^ 44.
Proof. now apply Z_land_ones_lit. Qed.
Lemma mask42 x : Z.land x 0x3ffffffffff = x mod 2 ^ 42.
Proof. now apply Z_land_ones_lit. Qed.

Lemma times20 x : 0 <= x < 2 ^ 59 -> wadd 64 (wshl 64 x 4) (wshl 64 x 2) = 20 * x.
Proof. intros. wnorm. lia. Qed.

Lemma shift_reduce_spec a0 a1 a2 : 0 <= a2 < 2 ^ 59 ->
  Hacl_Bignum_Fmul_shift_reduce [a0; a1; a2] = [20 * a2; a0; a1].
Proof.
  intros. change (Hacl_Bignum_Fmul_shift_reduce [a0; a1; a2])
    with [wadd 64 (wshl 64 a2 4) (wshl 64 a2 2); a0; a1].
  now rewrite times20.
Qed.

(** The schoolbook product with the reduction 2^132 = 20 folded in. *)
Lemma mul_shift_reduce_spec a0 a1 a2 b0 b1 b2 :
  0 <= a0 < 2 ^ 46 -> 0 <= a1 < 2 ^ 46 -> 0 <= a2 < 2 ^ 46 ->
  0 <= b0 < 2 ^ 44 -> 0 <= b1 < 2 ^ 45 -> 0 <= b2 < 2 ^ 44 ->
  exists t0 t1 t2 tmp,
    Hacl_Bignum_Fmul_mul_shift_reduce_ (T := T) (replicate 3 (u128_of_u64 0)) [a0; a1; a2] [b0; b1; b2]
    = ([t0; t1; t2], tmp) /\
    rep t0 (a0 * b0 + 20 * a2 * b1 + 20 * a1 * b2) /\
    rep t1 (a1 * b0 + a0 * b1 + 20 * a2 * b2) /\
    rep t2 (a2 * b0 + a1 * b1 + a0 * b2).
Proof.
  intros Ha0 Ha1 Ha2 Hb0 Hb1 Hb2.
  pose (acc x y z s1 s2 s3 := u128_add_mod (u128_add_mod (u128_add_mod (u128_of_u64 0)
     (u128_mul_wide x s1)) (u128_mul_wide y s2)) (u128_mul_wide z s3) : T).
  exists (acc a0 (20 * a2) (20 * a1) b0 b1 b2), (acc a1 a0 (20 * a2) b0 b1 b2),
    (acc a2 a1 a0 b0 b1 b2), [20 * a1; 20 * a2; a0]. split.
  - change (Hacl_Bignum_Fmul_mul_shift_reduce_ (T := T) (replicate 3 (u128_of_u64 0)) [a0; a1; a2] [b0; b1; b2])
      with (let i1 := Hacl_Bignum_Fmul_shift_reduce [a0; a1; a2] in
            let i2 := Hacl_Bignum_Fmul_shift_reduce i1 in
            (Hacl_Bignum_Fproduct_sum_scalar_multiplication_
              (Hacl_Bignum_Fproduct_sum_scalar_multiplication_
                (Hacl_Bignum_Fproduct_sum_scalar_multiplication_
                   (T := T) (replicate 3 (u128_of_u64 0)) [a0; a1; a2] b0) i1 b1) i2 b2, i2)).
    cbn zeta. rewrite !shift_reduce_spec by lia. reflexivity.
  - assert (Hacc : forall x y z s1 s2 s3,
      0 <= x < 2 ^ 46 -> 0 <= y < 2 ^ 51 -> 0 <= z < 2 ^ 51 ->
      0 <= s1 < 2 ^ 44 -> 0 <= s2 < 2 ^ 45 -> 0 <= s3 < 2 ^ 44 ->
      rep (acc x y z s1 s2 s3) (0 + x * s1 + y * s2 + z * s3)).
    { intros x y z s1 s2 s3 ? ? ? ? ? ?.
      assert (0 <= x * s1 <= 2 ^ 46 * 2 ^ 44) by (apply mul_bound; lia).
      assert (0 <= y * s2 <= 2 ^ 51 * 2 ^ 45) by (apply mul_bound; lia).
      assert (0 <= z * s3 <= 2 ^ 51 * 2 ^ 44) by (apply mul_bound; lia).
      unfold acc. repeat apply rep_add_mod; try lia; auto with rep.
      all: try (apply rep_of_u64; unfold word; lia).
      all: apply rep_mul_wide; unfold word; lia. }
    split; [|split]; (eapply (eq_ind _ (rep _)); [apply Hacc; lia|lia]).
Qed.

(** Carrying the wide limbs down to 44, 44 and 42 bits. *)
Lemma carry_wide_spec (t0 t1 t2 : T) v0 v1 v2 :
  rep t0 v0 -> rep t1 v1 -> rep t2 v2 ->
  v0 < 2 ^ 100 -> v1 < 2 ^ 100 -> v2 < 2 ^ 100 ->
  exists u0 u1 u2,
    Hacl_Bignum_Fproduct_carry_wide_ [t0; t1; t2] = [u0; u1; u2] /\
    rep u0 (v0 mod 2 ^ 44) /\ rep u1 ((v1 + v0 / 2 ^ 44) mod 2 ^ 44) /\
    rep u2 (v2 + (v1 + v0 / 2 ^ 44) / 2 ^ 44).
Proof.
  intros R0 R1 R2 H0 H1 H2.
  pose proof (rep_range _ _ R0). pose proof (rep_range _ _ R1). pose proof (rep_range _ _ R2).
  assert (R1' : rep (u128_add t1 (u128_shift_right t0 44)) (v1 + v0 / 2 ^ 44)).
  { apply rep_add; [done|apply rep_shift_right; [done|lia]|]. Z.div_mod_to_equations. lia. }
  eexists _, _, _. split; [cbn; reflexivity|]. split; [|split].
  - rewrite (rep_low_bits t0 v0 _ 44) by (done || lia). apply rep_of_u64.
    unfold word. Z.div_mod_to_equations. lia.
  - rewrite (rep_low_bits _ _ _ 44 R1') by (done || lia). apply rep_of_u64.
    unfold word. Z.div_mod_to_equations. lia.
  - apply rep_add; [done|apply rep_shift_right; [done|lia]|]. Z.div_mod_to_equations. lia.
Qed.

Lemma carry_top_wide_spec (t0 t1 t2 : T) v0 v2 :
  rep t0 v0 -> rep t2 v2 -> v0 < 2 ^ 44 -> v2 < 2 ^ 101 ->
  exists u0 u2,
    Hacl_Bignum_Modulo_carry_top_wide [t0; t1; t2] = [u0; t1; u2] /\
    rep u0 (v0 + 5 * (v2 / 2 ^ 42)) /\ rep u2 (v2 mod 2 ^ 42).
Proof.
  intros R0 R2 H0 H2. pose proof (rep_range _ _ R0). pose proof (rep_range _ _ R2).
  eexists _, _. split; [cbn; reflexivity|]. cbn.
  assert (E : u128_to_u64 (u128_shift_right t2 42) = v2 / 2 ^ 42).
  { apply rep_to_u64_small; [apply rep_shift_right; [done|lia]|]. Z.div_mod_to_equations. lia. }
  rewrite E. assert (0 <= v2 / 2 ^ 42 < 2 ^ 59) by (Z.div_mod_to_equations; lia). split.
  - wnorm. apply rep_add; [done| |lia].
    eapply (eq_ind _ (rep _)); [apply rep_of_u64; unfold word; lia|lia].
  - rewrite <- mask42. apply rep_logand; [done|]. now apply rep_of_u64.
Qed.

Lemma fval_mod_prime k x y : x = y + k * Poly1305_Spec.prime ->
  x mod Poly1305_Spec.prime = y mod Poly1305_Spec.prime.
Proof. apply mod_eq_by_multiple. Qed.

(** Multiplication modulo the prime, on limbs. *)
Lemma fmul_spec output a b :
  length output = 3%nat -> limbs (2 ^ 46) (2 ^ 46) (2 ^ 46) a -> limbs (2 ^ 44) (2 ^ 45) (2 ^ 44) b ->
  red (Hacl_Bignum_Fmul_fmul (T := T) output a b) /\
  fval (Hacl_Bignum_Fmul_fmul (T := T) output a b) mod Poly1305_Spec.prime
  = (fval a * fval b) mod Poly1305_Spec.prime.
Proof.
  intros Hout (a0 & a1 & a2 & -> & Ha0 & Ha1 & Ha2) (b0 & b1 & b2 & -> & Hb0 & Hb1 & Hb2).
  destruct_list output.
  destruct (mul_shift_reduce_spec a0 a1 a2 b0 b1 b2) as (t0 & t1 & t2 & tmp & E & R0 & R1 & R2); try lia.
  assert (P : forall x y A B, 0 <= x < 2 ^ A -> 0 <= y < 2 ^ B -> 0 <= x * y <= 2 ^ A * 2 ^ B)
    by (intros; apply mul_bound; lia).
  pose proof (P a0 b0 46 44). pose proof (P a0 b1 46 45). pose proof (P a0 b2 46 44).
  pose proof (P a1 b0 46 44). pose proof (P a1 b1 46 45). pose proof (P a1 b2 46 44).
  pose proof (P a2 b0 46 44). pose proof (P a2 b1 46 45). pose proof (P a2 b2 46 44).
  clear P.
  unfold Hacl_Bignum_Fmul_fmul. change (take 3 [a0; a1; a2]) with [a0; a1; a2]. rewrite E.
  remember (a0 * b0 + 20 * a2 * b1 + 20 * a1 * b2) as v0 eqn:E0.
  remember (a1 * b0 + a0 * b1 + 20 * a2 * b2) as v1 eqn:E1.
  remember (a2 * b0 + a1 * b1 + a0 * b2) as v2 eqn:E2.
  assert (Ev : (a0 + 2 ^ 44 * a1 + 2 ^ 88 * a2) * (b0 + 2 ^ 44 * b1 + 2 ^ 88 * b2) =
               v0 + 2 ^ 44 * v1 + 2 ^ 88 * v2
               + 4 * (a2 * b1 + a1 * b2 + 2 ^ 44 * (a2 * b2)) * Poly1305_Spec.prime)
    by (unfold Poly1305_Spec.prime; subst; ring).
  assert (0 <= v0 < 2 ^ 100 /\ 0 <= v1 < 2 ^ 100 /\ 0 <= v2 < 2 ^ 100) as (? & ? & ?) by lia.
  destruct (carry_wide_spec t0 t1 t2 v0 v1 v2 R0 R1 R2) as (u0 & u1 & u2 & -> & S0 & S1 & S2); try lia.
  destruct (carry_top_wide_spec u0 u1 u2 _ _ S0 S2) as (w0 & w2 & -> & U0 & U2);
    try (Z.div_mod_to_equations; lia).
  change (Hacl_Bignum_Fproduct_copy_from_wide_ _ _) with [u128_to_u64 w0; u128_to_u64 u1; u128_to_u64 w2].
  rewrite (rep_to_u64_small w0 _ U0), (rep_to_u64_small u1 _ S1), (rep_to_u64_small w2 _ U2)
    by (Z.div_mod_to_equations; lia).
  change (fval [a0; a1; a2]) with (a0 + 2 ^ 44 * a1 + 2 ^ 88 * a2).
  change (fval [b0; b1; b2]) with (b0 + 2 ^ 44 * b1 + 2 ^ 88 * b2).
  rewrite Ev, Z_mod_plus_full. cbn -[Z.pow Z.mul Z.add Z.div Z.modulo]. rewrite mask44, wshr_div by lia.
  clear - H8 H9 H10. rewrite wadd_small by (Z.div_mod_to_equations; lia). split.
  - eexists _, _, _. split; [reflexivity|]. Z.div_mod_to_equations; lia.
  - apply fval_mod_prime with (- ((v2 + (v1 + v0 / 2 ^ 44) / 2 ^ 44) / 2 ^ 42)).
    unfold Poly1305_Spec.prime. Z.div_mod_to_equations; lia.
Qed.

(** A 128-bit integer as 44 + 44 + 40 bits, the way blocks and keys are read. *)
Lemma split_limbs (t : T) v : rep t v ->
  Z.land (u128_to_u64 t) 0xfffffffffff = v mod 2 ^ 44 /\
  Z.land (u128_to_u64 (u128_shift_right t 44)) 0xfffffffffff = (v / 2 ^ 44) mod 2 ^ 44 /\
  u128_to_u64 (u128_shift_right t 88) = v / 2 ^ 88 /\
  v = v mod 2 ^ 44 + 2 ^ 44 * ((v / 2 ^ 44) mod 2 ^ 44) + 2 ^ 88 * (v / 2 ^ 88) /\
  0 <= v mod 2 ^ 44 < 2 ^ 44 /\ 0 <= (v / 2 ^ 44) mod 2 ^ 44 < 2 ^ 44 /\ 0 <= v / 2 ^ 88 < 2 ^ 40.
Proof.
  intros R. pose proof (rep_range _ _ R).
  rewrite (rep_low_bits t v _ 44) by (done || lia).
  rewrite (rep_low_bits (u128_shift_right t 44) (v / 2 ^ 44) _ 44)
    by (done || lia || (apply rep_shift_right; [done|lia])).
  rewrite (rep_to_u64_small _ (v / 2 ^ 88)).
  2: { apply rep_shift_right; [done|lia]. }
  2: { Z.div_mod_to_equations. lia. }
  repeat split; try (Z.div_mod_to_equations; lia).
Qed.

(** State invariant: the key limbs hold [rr] and the accumulator is reduced
    and congruent to [acc]. *)
Definition key_limbs (l : list Z) : Prop := limbs (2 ^ 44) (2 ^ 44) (2 ^ 40) l.
Definition st_inv (rr acc : Z) (st : poly1305_state) : Prop :=
  key_limbs (r st) /\ fval (r st) = rr /\ red (h st) /\
  fval (h st) mod Poly1305_Spec.prime = acc mod Poly1305_Spec.prime.

Lemma add_and_multiply_spec acc b0 b1 b2 rl :
  red acc -> 0 <= b0 < 2 ^ 44 -> 0 <= b1 < 2 ^ 44 -> 0 <= b2 < 2 ^ 41 -> key_limbs rl ->
  let res := Hacl_Bignum_AddAndMultiply_add_and_multiply (T := T) acc [b0; b1; b2] rl in
  red res /\ fval res mod Poly1305_Spec.prime
             = ((fval acc + (b0 + 2 ^ 44 * b1 + 2 ^ 88 * b2)) * fval rl) mod Poly1305_Spec.prime.
Proof.
  intros (a0 & a1 & a2 & -> & Ha0 & Ha1 & Ha2) Hb0 Hb1 Hb2 Hr.
  unfold Hacl_Bignum_AddAndMultiply_add_and_multiply.
  change (for_ 0 3 _ _) with [wadd 64 a0 b0; wadd 64 a1 b1; wadd 64 a2 b2].
  wnorm. cbn zeta.
  destruct (fmul_spec [a0 + b0; a1 + b1; a2 + b2] [a0 + b0; a1 + b1; a2 + b2] rl) as [H1 H2].
  - done.
  - eexists _, _, _. split; [reflexivity|]. lia.
  - eapply limbs_weaken; [| | |exact Hr]; lia.
  - split; [done|]. rewrite H2. f_equal. unfold fval. lia.
Qed.

Lemma inv_after_multiply rr acc x st res :
  st_inv rr acc st -> red res ->
  fval res mod Poly1305_Spec.prime = ((fval (h st) + x) * fval (r st)) mod Poly1305_Spec.prime ->
  st_inv rr (((acc + x) * rr) mod Poly1305_Spec.prime) {| r := r st; h := res |}.
Proof.
  intros (Hk & <- & Hh & Hacc) Hr E. split; [done|]. split; [done|]. split; [done|]. cbn.
  rewrite E, Z.mod_mod by done.
  rewrite Zmult_mod, Zplus_mod, Hacc, <- Zplus_mod, <- Zmult_mod. done.
Qed.

Lemma encode_take m : (16 <= length m)%nat ->
  Poly1305_Spec.encode (take 16 m) = le_combine (slice m 0 16) + 2 ^ 128.
Proof.
  intros. unfold Poly1305_Spec.encode, slice. rewrite drop_0, length_take.
  now replace (16 `min` length m)%nat with 16%nat by lia.
Qed.

(** One full block. *)
Lemma update_spec rr acc st m :
  st_inv rr acc st -> bytes m -> (16 <= length m)%nat ->
  st_inv rr (Poly1305_Spec.step rr acc (take 16 m)) (Hacl_Impl_Poly1305_64_poly1305_update (T := T) st m).
Proof.
  intros Hst Hm Hlen. pose proof (rep_load_le (T := T) m 0 Hm ltac:(lia)) as R.
  pose proof (split_limbs _ _ R) as (E0 & E1 & E2 & Ev & B0 & B1 & B2).
  unfold Hacl_Impl_Poly1305_64_poly1305_update, Poly1305_Spec.step. rewrite encode_take by done.
  set (v := le_combine (slice m 0 16)) in *. cbn [replicate]. cbn zeta.
  rewrite E0, E1, E2. buf_simpl.
  assert (E3 : Z.lor 0x10000000000 (v / 2 ^ 88) = v / 2 ^ 88 + 2 ^ 40).
  { rewrite Z.lor_comm. change 0x10000000000 with (Z.shiftl 1 40). rewrite Z_lor_add by lia. lia. }
  rewrite E3. destruct Hst as (Hk & Hrr & Hh & Hacc).
  destruct (add_and_multiply_spec (h st) (v mod 2 ^ 44) ((v / 2 ^ 44) mod 2 ^ 44)
    (v / 2 ^ 88 + 2 ^ 40) (r st)) as [H1 H2]; try done; try lia.
  apply (inv_after_multiply rr acc (v + 2 ^ 128)); [done|done|]. rewrite H2. do 3 f_equal. lia.
Qed.

(** The final partial block, padded with a one. *)
Lemma padded_block_value l : bytes l -> (length l < 16)%nat ->
  le_combine ((blit (replicate 16 0) 0 l).[length l <- 1]) = Poly1305_Spec.encode l /\
  bytes ((blit (replicate 16 0) 0 l).[length l <- 1]) /\
  length ((blit (replicate 16 0) 0 l).[length l <- 1]) = 16%nat.
Proof.
  intros Hl Hlen. unfold blit. cbn [take app Nat.add].
  rewrite drop_replicate.
  replace (16 - length l)%nat with (S (15 - length l)) by lia. cbn [replicate].
  replace ((l ++ 0 :: replicate (15 - length l) 0).[length l <- 1])
    with (l ++ 1 :: replicate (15 - length l) 0).
  2: { rewrite insert_app_r_alt by lia. now rewrite Nat.sub_diag. }
  split; [|split].
  - rewrite le_combine_app. cbn [le_combine]. rewrite le_combine_zeros. unfold Poly1305_Spec.encode. lia.
  - apply bytes_app. split; [done|]. constructor; [lia|]. apply bytes_replicate. lia.
  - rewrite length_app. cbn. rewrite length_replicate. lia.
Qed.

Lemma process_last_block_spec rr acc st m n :
  st_inv rr acc st -> bytes m -> (0 < n < 16)%nat -> (n <= length m)%nat ->
  st_inv rr (Poly1305_Spec.step rr acc (take n m))
    (Hacl_Impl_Poly1305_64_poly1305_process_last_block (T := T) st m (Z.of_nat n)).
Proof.
  intros Hst Hm Hn Hlen. unfold Hacl_Impl_Poly1305_64_poly1305_process_last_block.
  rewrite wrap_small, Nat2Z.id by (unfold word; lia).
  assert (El : length (take n m) = n) by (rewrite length_take; lia).
  destruct (padded_block_value (take n m)) as (Ev & Hb & Hbl); [now apply bytes_take|lia|].
  rewrite El in *. set (block := (blit _ _ _).[n <- 1]) in *. clearbody block. cbn zeta.
  unfold Hacl_Impl_Poly1305_64_poly1305_process_last_block_.
  pose proof (rep_load_le (T := T) block 0 Hb ltac:(lia)) as R.
  rewrite slice_all in R by done.
  pose proof (split_limbs _ _ R) as (E0 & E1 & E2 & Ev' & B0 & B1 & B2).
  cbn [replicate]. cbn zeta. rewrite E0, E1, E2. buf_simpl. unfold Poly1305_Spec.step. rewrite <- Ev.
  destruct (add_and_multiply_spec (h st) (le_combine block mod 2 ^ 44) ((le_combine block / 2 ^ 44) mod 2 ^ 44)
    (le_combine block / 2 ^ 88) (r st)) as [H1 H2]; try lia; try apply Hst.
  apply inv_after_multiply; [done|done|]. rewrite H2. do 3 f_equal. lia.
Qed.

(** All full blocks, by induction on their number. *)
Lemma blocks_spec n : forall rr acc st m,
  st_inv rr acc st -> bytes m -> (16 * n <= length m)%nat ->
  st_inv rr (Poly1305_Spec.poly rr acc (take (16 * n) m))
    (Hacl_Standalone_Poly1305_64_poly1305_blocks (T := T) st m n).
Proof.
  induction n as [|n IH]; intros rr acc st m Hst Hm Hlen; [done|].
  cbn [Hacl_Standalone_Poly1305_64_poly1305_blocks]. unfold Poly1305_Spec.poly.
  rewrite chunks_unfold; [|lia|].
  2: { intros E. apply (f_equal length) in E. rewrite length_take in E. cbn [length] in E. lia. }
  cbn [fold_left]. rewrite take_take, skipn_firstn_comm.
  replace (16 * S n - 16)%nat with (16 * n)%nat by lia.
  replace (16 `min` (16 * S n))%nat with 16%nat by lia.
  apply IH; [now apply update_spec; [| |lia]|now apply bytes_drop|rewrite length_drop; lia].
Qed.

(** The last pass brings the accumulator to its canonical representative; it
    is a sequence of carries followed by a conditional subtraction. *)
Definition lp_mid (l : list Z) : list Z :=
  [Z.land l.[0] 0xfffffffffff; Z.land (wadd 64 l.[1] (wshr l.[0] 44)) 0xfffffffffff;
   wadd 64 l.[2] (wshr (wadd 64 l.[1] (wshr l.[0] 44)) 44)].
Definition lp_fin (l : list Z) : list Z :=
  [Z.land l.[0] 0xfffffffffff; wadd 64 l.[1] (wshr l.[0] 44); l.[2]].
Definition lp_mask (l : list Z) : Z :=
  Z.land (Z.land (FStar_UInt64_gte_mask l.[0] 0xffffffffffb) (FStar_UInt64_eq_mask l.[1] 0xfffffffffff))
         (FStar_UInt64_eq_mask l.[2] 0x3ffffffffff).
Definition lp_trim (l : list Z) : list Z :=
  [wsub 64 l.[0] (Z.land 0xffffffffffb (lp_mask l)); wsub 64 l.[1] (Z.land 0xfffffffffff (lp_mask l));
   wsub 64 l.[2] (Z.land 0x3ffffffffff (lp_mask l))].

Lemma last_pass_stages a0 a1 a2 :
  Hacl_Impl_Poly1305_64_poly1305_last_pass [a0; a1; a2] =
  lp_trim (lp_fin (Hacl_Bignum_Modulo_carry_top (lp_mid (Hacl_Bignum_Modulo_carry_top (lp_mid [a0; a1; a2]))))).
Proof. cbv -[wadd wsub wshl wshr Z.land FStar_UInt64_gte_mask FStar_UInt64_eq_mask]. reflexivity. Qed.

Lemma lp_mid_spec a0 a1 a2 : 0 <= a0 < 2 ^ 60 -> 0 <= a1 < 2 ^ 60 -> 0 <= a2 < 2 ^ 60 ->
  lp_mid [a0; a1; a2] = [a0 mod 2 ^ 44; (a1 + a0 / 2 ^ 44) mod 2 ^ 44; a2 + (a1 + a0 / 2 ^ 44) / 2 ^ 44].
Proof.
  intros. unfold lp_mid. buf_simpl. rewrite !mask44, !wshr_div by lia.
  rewrite (wadd_small 64 a1), (wadd_small 64 a2) by (Z.div_mod_to_equations; lia). done.
Qed.

Lemma lp_fin_spec a0 a1 a2 : 0 <= a0 < 2 ^ 60 -> 0 <= a1 < 2 ^ 60 ->
  lp_fin [a0; a1; a2] = [a0 mod 2 ^ 44; a1 + a0 / 2 ^ 44; a2].
Proof.
  intros. unfold lp_fin. buf_simpl. rewrite mask44, wshr_div by lia.
  now rewrite wadd_small by (Z.div_mod_to_equations; lia).
Qed.

Lemma carry_top_spec a0 a1 a2 : 0 <= a0 < 2 ^ 60 -> 0 <= a2 < 2 ^ 60 ->
  Hacl_Bignum_Modulo_carry_top [a0; a1; a2] = [5 * (a2 / 2 ^ 42) + a0; a1; a2 mod 2 ^ 42].
Proof.
  intros. unfold Hacl_Bignum_Modulo_carry_top. buf_simpl. rewrite mask42, wshr_div by lia.
  assert (0 <= a2 / 2 ^ 42 < 2 ^ 18) by (Z.div_mod_to_equations; lia).
  wnorm. f_equal. lia.
Qed.

Lemma lp_trim_spec a0 a1 a2 : 0 <= a0 < 2 ^ 44 -> 0 <= a1 < 2 ^ 44 -> 0 <= a2 < 2 ^ 42 ->
  limbs (2 ^ 44) (2 ^ 44) (2 ^ 42) (lp_trim [a0; a1; a2]) /\
  fval (lp_trim [a0; a1; a2]) = fval [a0; a1; a2] mod Poly1305_Spec.prime.
Proof.
  intros H0 H1 H2. unfold lp_trim, lp_mask. buf_simpl.
  rewrite gte_mask64_spec, !eq_mask64_spec, !mask_land by (unfold word; lia).
  rewrite !land_mask by (unfold word; lia). unfold limbs, fval, Poly1305_Spec.prime.
  destruct (Z.leb_spec 0xffffffffffb a0); cbn [andb];
    [destruct (Z.eqb_spec a1 0xfffffffffff); cbn [andb];
       [destruct (Z.eqb_spec a2 0x3ffffffffff)|]|];
    cbn [andb]; wnorm;
    (split; [eexists _, _, _; split; [reflexivity|]; lia|];
     apply Z.mod_unique_pos with (q := 0) + apply Z.mod_unique_pos with (q := 1); lia).
Qed.

Lemma last_pass_spec acc : red acc ->
  limbs (2 ^ 44) (2 ^ 44) (2 ^ 42) (Hacl_Impl_Poly1305_64_poly1305_last_pass acc) /\
  fval (Hacl_Impl_Poly1305_64_poly1305_last_pass acc) = fval acc mod Poly1305_Spec.prime.
Proof.
  intros (a0 & a1 & a2 & -> & H0 & H1 & H2). rewrite last_pass_stages, lp_mid_spec by lia.
  rewrite (Z.div_small a0), (Z.mod_small a0), Z.add_0_r by lia.
  rewrite carry_top_spec by (Z.div_mod_to_equations; lia).
  assert (B : 0 <= a1 / 2 ^ 44 <= 1) by (Z.div_mod_to_equations; lia).
  set (x0 := 5 * _ + a0). set (x1 := a1 mod 2 ^ 44). set (x2 := (a2 + _) mod 2 ^ 42).
  assert (X : 0 <= x0 < 2 ^ 44 + 5 /\ 0 <= x1 < 2 ^ 44 /\ 0 <= x2 < 2 ^ 42)
    by (subst x0 x1 x2; Z.div_mod_to_equations; lia).
  assert (V : fval [x0; x1; x2] mod Poly1305_Spec.prime = fval [a0; a1; a2] mod Poly1305_Spec.prime).
  { apply fval_mod_prime with (- ((a2 + a1 / 2 ^ 44) / 2 ^ 42)).
    subst x0 x1 x2. unfold fval, Poly1305_Spec.prime. Z.div_mod_to_equations; lia. }
  rewrite <- V. clearbody x0 x1 x2. clear - X.
  rewrite lp_mid_spec by lia.
  rewrite carry_top_spec by (Z.div_mod_to_equations; lia).
  set (y0 := 5 * _ + _). set (y1 := _ mod 2 ^ 44). set (y2 := _ mod 2 ^ 42).
  assert (Y : 0 <= y0 < 2 ^ 44 /\ 0 <= y1 < 2 ^ 44 /\ 0 <= y2 < 2 ^ 42)
    by (subst y0 y1 y2; Z.div_mod_to_equations; lia).
  assert (W : fval [y0; y1; y2] mod Poly1305_Spec.prime = fval [x0; x1; x2] mod Poly1305_Spec.prime).
  { apply fval_mod_prime with (- ((x2 + (x1 + x0 / 2 ^ 44) / 2 ^ 44) / 2 ^ 42)).
    subst y0 y1 y2. unfold fval, Poly1305_Spec.prime. Z.div_mod_to_equations; lia. }
  rewrite <- W. clearbody y0 y1 y2. rewrite lp_fin_spec by lia.
  rewrite Z.mod_small, Z.div_small, Z.add_0_r by lia. apply lp_trim_spec; lia.
Qed.

(** Key set-up: clamping and splitting, shared by both interfaces. *)
Lemma clamp_rep (k : T) v : rep k v ->
  rep (u128_logand k (u128_logor (u128_shift_left (u128_of_u64 0x0ffffffc0ffffffc) 64)
                                 (u128_of_u64 0x0ffffffc0fffffff))) (Poly1305_Spec.clamp v).
Proof.
  intros R. apply rep_logand; [done|].
  change 0x0ffffffc0ffffffc0ffffffc0fffffff with
    (Z.lor ((0x0ffffffc0ffffffc * 2 ^ 64) mod 2 ^ 128) 0x0ffffffc0fffffff).
  apply rep_logor; [apply rep_shift_left; [|lia]|]; now apply rep_of_u64.
Qed.

Lemma init_inv st k : length (r st) = 3%nat -> length (h st) = 3%nat ->
  bytes k -> (16 <= length k)%nat ->
  st_inv (Poly1305_Spec.clamp (le_combine (slice k 0 16))) 0 (Hacl_Poly1305_64_init (T := T) st k).
Proof.
  intros Hr Hh Hk Hl. destruct st as [rl hl]. cbn in Hr, Hh. destruct_list rl. destruct_list hl.
  pose proof (clamp_rep _ _ (rep_load_le k 0 Hk ltac:(lia))) as R.
  pose proof (split_limbs _ _ R) as (E0 & E1 & E2 & Ev & B0 & B1 & B2).
  set (v := Poly1305_Spec.clamp _) in *.
  unfold Hacl_Poly1305_64_init. cbn [Poly1305_64.r Poly1305_64.h]. cbn zeta.
  rewrite E0, E1, E2. buf_simpl. unfold st_inv. cbn [Poly1305_64.r Poly1305_64.h]. split; [|split; [|split]].
  - eexists _, _, _. split; [reflexivity|]. lia.
  - unfold fval. lia.
  - eexists _, _, _. split; [reflexivity|]. lia.
  - done.
Qed.

Lemma partial_is_init_blocks st input n k :
  Hacl_Standalone_Poly1305_64_poly1305_partial (T := T) st input n k =
  Hacl_Standalone_Poly1305_64_poly1305_blocks (Hacl_Poly1305_64_init (T := T) st k) input (Z.to_nat n).
Proof. reflexivity. Qed.

(** Packing the canonical limbs into the low 128 bits. *)
Lemma pack_limbs h0 h1 h2 : 0 <= h0 < 2 ^ 44 -> 0 <= h1 < 2 ^ 44 -> 0 <= h2 < 2 ^ 42 ->
  rep (T := T)
    (u128_logor (u128_shift_left (u128_of_u64 ((h2 << 24) .| (h1 >> 20))%u64) 64)
                (u128_of_u64 ((h1 << 44) .| h0)%u64))
    ((h0 + 2 ^ 44 * h1 + 2 ^ 88 * h2) mod 2 ^ 128).
Proof.
  intros H0 H1 H2.
  assert (Elo : Z.lor (wshl 64 h1 44) h0 = (h0 + 2 ^ 44 * h1) mod 2 ^ 64).
  { rewrite wshl_mul by lia. unfold wrap.
    replace ((h1 * 2 ^ 44) mod 2 ^ 64) with (Z.shiftl (h1 mod 2 ^ 20) 44).
    2: { rewrite Z.shiftl_mul_pow2 by lia. Z.div_mod_to_equations; lia. }
    rewrite Z.lor_comm, Z_lor_add by lia. Z.div_mod_to_equations; lia. }
  assert (Ehi : Z.lor (wshl 64 h2 24) (wshr h1 20) = h1 / 2 ^ 20 + 2 ^ 24 * (h2 mod 2 ^ 40)).
  { rewrite wshl_mul, wshr_div by lia. unfold wrap.
    replace ((h2 * 2 ^ 24) mod 2 ^ 64) with (Z.shiftl (h2 mod 2 ^ 40) 24).
    2: { rewrite Z.shiftl_mul_pow2 by lia. Z.div_mod_to_equations; lia. }
    rewrite Z.lor_comm, Z_lor_add by (Z.div_mod_to_equations; lia). lia. }
  rewrite Elo, Ehi. set (lo := (h0 + 2 ^ 44 * h1) mod 2 ^ 64). set (hi := h1 / 2 ^ 20 + _).
  assert (Hlo : word 64 lo) by (unfold word; subst lo; apply Z.mod_pos_bound; lia).
  assert (Hhi : word 64 hi) by (unfold word; subst hi; Z.div_mod_to_equations; lia).
  eapply (eq_ind _ (rep _)).
  - apply rep_logor; [apply rep_shift_left; [apply rep_of_u64, Hhi|lia]|apply rep_of_u64, Hlo].
  - rewrite (Z.mod_small (hi * 2 ^ 64)) by (unfold word in Hhi; lia).
    rewrite <- Z.shiftl_mul_pow2, join_lor by (lia || done). subst lo hi.
    Z.div_mod_to_equations; lia.
Qed.

Lemma poly_range rr acc m : 0 <= acc < Poly1305_Spec.prime ->
  0 <= Poly1305_Spec.poly rr acc m < Poly1305_Spec.prime.
Proof.
  unfold Poly1305_Spec.poly. revert acc. generalize (chunks 16 m). intros cs.
  induction cs as [|c cs IH]; intros acc H; [done|]. cbn [fold_left]. apply IH. now apply Z.mod_pos_bound.
Qed.

(** The tag: the canonical accumulator plus the second half of the key. *)
Lemma finish_spec st rr acc mac k : st_inv rr acc st -> 0 <= acc < Poly1305_Spec.prime ->
  (16 <= length mac)%nat -> bytes k -> (16 <= length k)%nat ->
  Hacl_Poly1305_64_finish (T := T) {| r := r st; h := Hacl_Impl_Poly1305_64_poly1305_last_pass (h st) |} mac k =
  blit mac 0 (le_split 16 (acc + le_combine (slice k 0 16))).
Proof.
  intros (_ & _ & Hred & Hacc) Ha Hm Hk Hkl. unfold Hacl_Poly1305_64_finish. cbn [Poly1305_64.h]. cbv zeta.
  destruct (last_pass_spec _ Hred) as [(h0 & h1 & h2 & Eh & B0 & B1 & B2) Ev]. rewrite Eh in *. buf_simpl.
  rewrite (rep_store_le mac 0 _ _ (rep_add_mod_wrap _ _ _ _ (pack_limbs h0 h1 h2 B0 B1 B2)
    (rep_load_le k 0 Hk ltac:(lia)))) by lia.
  f_equal. change (2 ^ 128) with (256 ^ Z.of_nat 16). rewrite le_split_mod, <- (le_split_mod 16 (_ + _)).
  rewrite Zplus_mod_idemp_l, le_split_mod. f_equal. f_equal.
  change (h0 + 2 ^ 44 * h1 + 2 ^ 88 * h2) with (fval [h0; h1; h2]). rewrite Ev, Hacc. now apply Z.mod_small.
Qed.

(** What the code authenticates: the whole blocks of the message, and a last
    block that it reads at an offset of 32 bits. *)
Definition authenticated (m : list Z) : list Z :=
  let n := (16 * (length m / 16))%nat in
  take n m ++ slice m (Z.to_nat (Z.of_nat n mod 2 ^ 32)) (length m mod 16).

Lemma authenticated_short m : Z.of_nat (length m) < 2 ^ 32 -> authenticated m = m.
Proof.
  intros H. unfold authenticated. cbv zeta. pose proof (Nat.div_mod_eq (length m) 16) as E.
  set (n := (length m / 16)%nat) in *. set (rem := (length m mod 16)%nat) in *. clearbody n rem.
  rewrite Z.mod_small, Nat2Z.id by lia. unfold slice. rewrite (take_ge (drop _ m)) by (rewrite length_drop; lia). apply take_drop.
Qed.

(** Whole blocks and a rest. *)
Lemma poly_last rr acc m t n : length m = (16 * n)%nat -> (length t < 16)%nat ->
  Poly1305_Spec.poly rr acc (m ++ t) =
  match t with [] => Poly1305_Spec.poly rr acc m | _ => Poly1305_Spec.step rr (Poly1305_Spec.poly rr acc m) t end.
Proof.
  intros Hm Ht. unfold Poly1305_Spec.poly. rewrite (chunks_app 16 n), fold_left_app by (done || lia).
  destruct t as [|b t]; [done|]. now rewrite chunks_short by (cbn in *; lia).
Qed.

(** The message, absorbed. *)
Lemma complete_inv st m k :
  length (r st) = 3%nat -> length (h st) = 3%nat -> bytes m -> bytes k -> (16 <= length k)%nat ->
  Z.of_nat (length m) < 2 ^ 64 ->
  exists st', st_inv (Poly1305_Spec.clamp (le_combine (slice k 0 16)))
      (Poly1305_Spec.poly (Poly1305_Spec.clamp (le_combine (slice k 0 16))) 0 (authenticated m)) st' /\
    Hacl_Standalone_Poly1305_64_poly1305_complete (T := T) st m (Z.of_nat (length m)) k =
    {| r := r st'; h := Hacl_Impl_Poly1305_64_poly1305_last_pass (h st') |}.
Proof.
  intros Hr Hh Hm Hk Hkl Hlen. unfold Hacl_Standalone_Poly1305_64_poly1305_complete, authenticated.
  cbn [Poly1305_64.r Poly1305_64.h]. cbn zeta.
  rewrite wshr_div, (Z_land_ones_lit _ 0xf 4) by (done || lia).
  assert (En : Z.of_nat (length m) / 2 ^ 4 = Z.of_nat (length m / 16)) by (now rewrite Nat2Z.inj_div).
  assert (Er : Z.of_nat (length m) mod 2 ^ 4 = Z.of_nat (length m mod 16)) by (now rewrite Nat2Z.inj_mod).
  pose proof (Nat.mod_upper_bound (length m) 16 ltac:(lia)) as Hrem. pose proof (Nat.div_mod_eq (length m) 16) as Hnm.
  rewrite En, Er. set (n := (length m / 16)%nat) in *. set (rem := (length m mod 16)%nat) in *. clearbody n rem.
  rewrite partial_is_init_blocks, Nat2Z.id, (wmul_small 64) by lia. unfold wrap.
  replace (16 * Z.of_nat n) with (Z.of_nat (16 * n)) by lia.
  pose proof (Z.mod_pos_bound (Z.of_nat (16 * n)) (2 ^ 32) ltac:(lia)) as Bo.
  pose proof (Z.mod_le (Z.of_nat (16 * n)) (2 ^ 32) ltac:(lia) ltac:(lia)) as Lo.
  set (off := Z.to_nat (Z.of_nat (16 * n) mod 2 ^ 32)) in *. assert (Hoff : (off <= 16 * n)%nat) by lia. clearbody off.
  pose proof (blocks_spec n _ _ _ m (init_inv st k Hr Hh Hk Hkl) Hm ltac:(lia)) as Hinv.
  eexists. split; [|reflexivity].
  rewrite (poly_last _ _ _ _ n) by (rewrite ?length_slice, ?length_take; lia).
  destruct (Z.eqb_spec (Z.of_nat rem) 0) as [Hz|Hz]; cbn [negb].
  - replace rem with 0%nat by lia. exact Hinv.
  - assert (Ls : length (slice m off rem) = rem) by (apply length_slice; lia).
    destruct (slice m off rem) as [|b t] eqn:Es; [cbn in Ls; lia|]. rewrite <- Es. unfold slice.
    apply process_last_block_spec; [done|now apply bytes_drop|lia|rewrite length_drop; lia].
Qed.

(** The one-shot function: the key may be the start of a longer buffer. *)
Lemma onetimeauth_long output m k :
  (16 <= length output)%nat -> bytes m -> bytes k -> (32 <= length k)%nat ->
  Z.of_nat (length m) < 2 ^ 64 ->
  Hacl_Poly1305_64_crypto_onetimeauth (T := T) output m (Z.of_nat (length m)) k =
  blit output 0 (Poly1305_Spec.mac k (authenticated m)).
Proof.
  intros Ho Hm Hk Hkl Hlen.
  destruct (complete_inv (Hacl_Impl_Poly1305_64_mk_state (slice (replicate 6 0) 0 3) (slice (replicate 6 0) 3 3))
    m k) as (st' & Hinv & E); try done; try lia.
  transitivity (Hacl_Poly1305_64_finish (T := T)
    {| r := r st'; h := Hacl_Impl_Poly1305_64_poly1305_last_pass (h st') |} output (drop 16 k)).
  { unfold Hacl_Poly1305_64_crypto_onetimeauth, Hacl_Standalone_Poly1305_64_crypto_onetimeauth,
      Hacl_Standalone_Poly1305_64_crypto_onetimeauth_. cbv zeta. now rewrite E. }
  rewrite (finish_spec _ _ _ _ _ Hinv);
    [|now apply poly_range|done|now apply bytes_drop|rewrite length_drop; lia].
  unfold Poly1305_Spec.mac, slice. now rewrite drop_drop.
Qed.

Lemma onetimeauth_spec output m k :
  (16 <= length output)%nat -> bytes m -> bytes k -> (32 <= length k)%nat ->
  Z.of_nat (length m) < 2 ^ 32 ->
  Hacl_Poly1305_64_crypto_onetimeauth (T := T) output m (Z.of_nat (length m)) k =
  blit output 0 (Poly1305_Spec.mac k m).
Proof. intros Ho Hm Hk Hkl Hlen. rewrite onetimeauth_long by (done || lia). now rewrite authenticated_short. Qed.

(** Beyond 4 GiB the last block is one of the first bytes of the message. *)
Lemma authenticated_long m t : (length m mod 16 = 0)%nat -> (length t < 16)%nat -> 2 ^ 32 <= Z.of_nat (length m) ->
  authenticated (m ++ t) = m ++ slice m (Z.to_nat (Z.of_nat (length m) mod 2 ^ 32)) (length t).
Proof.
  intros Hm Ht Hl. unfold authenticated. cbv zeta. pose proof (Nat.div_mod_eq (length m) 16) as E.
  rewrite Hm, Nat.add_0_r in E. rewrite length_app, E.
  rewrite <- (Nat.mul_comm (length m / 16)), Nat.div_add_l, (Nat.div_small (length t)), Nat.add_0_r by lia.
  rewrite (Nat.add_comm (length m / 16 * 16)), Nat.Div0.mod_add, (Nat.mod_small (length t)) by lia.
  rewrite <- !(Nat.mul_comm 16), <- E. rewrite take_app_length. f_equal. unfold slice.
  pose proof (Z.mod_pos_bound (Z.of_nat (length m)) (2 ^ 32) ltac:(lia)) as Bo.
  assert (D : Z.of_nat (length m) mod 2 ^ 32 <= 2 ^ 32 - 16).
  { rewrite E, Nat2Z.inj_mul. change (2 ^ 32) with (Z.of_nat 16 * 2 ^ 28) at 1. rewrite Zmult_mod_distr_l.
    pose proof (Z.mod_pos_bound (Z.of_nat (length m / 16)) (2 ^ 28) ltac:(lia)). lia. }
  set (off := Z.to_nat _) in *. assert (Hoff : (off + 16 <= length m)%nat) by lia. clearbody off.
  rewrite drop_app_le, take_app_le by (rewrite ?length_drop; lia). done.
Qed.

(** Poly1305 with r = 1 tells messages apart that differ in their last block. *)
Lemma mac_unit k m t1 t2 : Poly1305_Spec.clamp (le_combine (slice k 0 16)) = 1 -> (length m mod 16 = 0)%nat ->
  bytes t1 -> bytes t2 -> length t1 = length t2 -> (length t1 < 16)%nat -> t1 <> t2 ->
  Poly1305_Spec.mac k (m ++ t1) <> Poly1305_Spec.mac k (m ++ t2).
Proof.
  intros Hr Hm B1 B2 Hl Ht Hne E. unfold Poly1305_Spec.mac in E. rewrite Hr in E. pose proof (Nat.div_mod_eq (length m) 16) as Em.
  rewrite !(poly_last _ _ m _ (length m / 16)) in E by lia.
  destruct t1 as [|b1 t1], t2 as [|b2 t2]; [done|discriminate|discriminate|].
  set (u1 := b1 :: t1) in *. set (u2 := b2 :: t2) in *. clearbody u1 u2. unfold Poly1305_Spec.step, Poly1305_Spec.encode in E. rewrite <- Hl, !Z.mul_1_r in E.
  apply (f_equal le_combine) in E. rewrite !le_combine_split in E. change (256 ^ Z.of_nat 16) with (2 ^ 128) in E.
  assert (D : le_combine u1 <> le_combine u2) by (intros D; apply Hne, le_combine_inj; assumption).
  pose proof (le_combine_bound u1 B1) as L1. pose proof (le_combine_bound u2 B2) as L2. rewrite <- Hl in L2.
  assert (P15 : 256 ^ Z.of_nat (length u1) <= 2 ^ 120) by (change (2 ^ 120) with (256 ^ 15); apply Z.pow_le_mono_r; lia).
  set (v1 := le_combine u1) in *. set (v2 := le_combine u2) in *. set (c := 256 ^ _) in *. set (a := Poly1305_Spec.poly _ _ _) in *.
  set (s0 := le_combine _) in *. clearbody v1 v2 c a s0. unfold Poly1305_Spec.prime in E.
  Z.div_mod_to_equations. lia.
Qed.

(** ** The incremental interface *)

Lemma update_is_blocks n : forall st m,
  Hacl_Poly1305_64_update (T := T) st m n = Hacl_Standalone_Poly1305_64_poly1305_blocks (T := T) st m n.
Proof. induction n as [|n IH]; intros st m; [done|]. apply IH. Qed.

(** [init], [update] on whole blocks, [update_last] on the rest, [finish]. *)
Lemma incremental_spec st m1 m2 n mac k :
  length (r st) = 3%nat -> length (h st) = 3%nat -> bytes m1 -> bytes m2 -> bytes k -> length k = 32%nat ->
  length m1 = (16 * n)%nat -> (length m2 < 16)%nat -> (16 <= length mac)%nat ->
  let st := Hacl_Poly1305_64_init (T := T) st k in
  let st := Hacl_Poly1305_64_update (T := T) st m1 n in
  let st := Hacl_Poly1305_64_update_last (T := T) st m2 (Z.of_nat (length m2)) in
  Hacl_Poly1305_64_finish (T := T) st mac (drop 16 k) = blit mac 0 (Poly1305_Spec.mac k (m1 ++ m2)).
Proof.
  intros Hr Hh B1 B2 Bk Lk L1 L2 Lm. cbv zeta. rewrite update_is_blocks.
  pose proof (blocks_spec n _ _ _ m1 (init_inv st k Hr Hh Bk ltac:(lia)) B1 ltac:(lia)) as Hinv.
  rewrite take_ge in Hinv by lia.
  set (rr := Poly1305_Spec.clamp _) in *. set (st1 := Hacl_Standalone_Poly1305_64_poly1305_blocks _ _ _) in *.
  assert (Hlast : exists st2, st_inv rr (Poly1305_Spec.poly rr 0 (m1 ++ m2)) st2 /\
    Hacl_Poly1305_64_update_last (T := T) st1 m2 (Z.of_nat (length m2)) =
    {| r := r st2; h := Hacl_Impl_Poly1305_64_poly1305_last_pass (h st2) |}).
  { eexists. split; [|reflexivity]. unfold Poly1305_Spec.poly. rewrite (chunks_app 16 n), fold_left_app by (done || lia).
    destruct m2 as [|b m2]; [exact Hinv|]. rewrite chunks_short by (cbn in *; lia). cbn [fold_left].
    destruct (Z.eqb_spec (Z.of_nat (length (b :: m2))) 0); [cbn in *; lia|]. cbn [negb].
    rewrite <- (take_ge (b :: m2) (length (b :: m2))) at 1 by done.
    apply process_last_block_spec; [exact Hinv|done|cbn in *; lia|done]. }
  destruct Hlast as (st2 & Hinv2 & ->).
  rewrite (finish_spec _ _ _ _ _ Hinv2);
    [|now apply poly_range|done|now apply bytes_drop|rewrite length_drop; lia].
  unfold Poly1305_Spec.mac, slice. now rewrite drop_drop.
Qed.

End Refinement.

(** ** Main results *)

Section Results.
Context {T : Type} {U128Ops : UInt128Ops T} {U128 : UInt128 T}.
Import Poly1305_64.

(** C13: [Hacl_Poly1305_64_crypto_onetimeauth] writes the Poly1305 tag of the
    message (RFC 7539) to the first sixteen bytes of the output and leaves the rest of
    it alone, for every message shorter than 4 GiB. *)
Theorem poly1305_onetimeauth_refines output m k :
  (16 <= length output)%nat -> bytes m -> bytes k -> (32 <= length k)%nat -> Z.of_nat (length m) < 2 ^ 32 ->
  Hacl_Poly1305_64_crypto_onetimeauth (T := T) output m (Z.of_nat (length m)) k =
  Poly1305_Spec.mac k m ++ drop 16 output.
Proof.
  intros. rewrite onetimeauth_spec by done. unfold blit. unfold Poly1305_Spec.mac at 2.
  now rewrite length_le_split.
Qed.

(** the incremental interface and the one-shot one compute the same tag:
    [init], [update] on whole blocks, [update_last] on fewer than sixteen bytes and
    [finish] give what [crypto_onetimeauth] gives on the concatenation. *)
Theorem poly1305_incremental_equiv st m1 m2 n mac k :
  length (r st) = 3%nat -> length (h st) = 3%nat -> bytes m1 -> bytes m2 -> bytes k -> length k = 32%nat ->
  length m1 = (16 * n)%nat -> (length m2 < 16)%nat -> (16 <= length mac)%nat ->
  Z.of_nat (length (m1 ++ m2)) < 2 ^ 32 ->
  let st := Hacl_Poly1305_64_init (T := T) st k in
  let st := Hacl_Poly1305_64_update (T := T) st m1 n in
  let st := Hacl_Poly1305_64_update_last (T := T) st m2 (Z.of_nat (length m2)) in
  Hacl_Poly1305_64_finish (T := T) st mac (drop 16 k) =
  Hacl_Poly1305_64_crypto_onetimeauth (T := T) mac (m1 ++ m2) (Z.of_nat (length (m1 ++ m2))) k.
Proof.
  intros. rewrite onetimeauth_spec by (done || lia || now apply bytes_app). now apply incremental_spec.
Qed.

(** C40: the offset of the last block is kept in 32 bits, so that beyond 4 GiB
    the code does not authenticate the last, partial block: for whole blocks
    [m] of at least 2^32 bytes it gives [m ++ t1] and [m ++ t2] the same tag,
    that of [m] followed by bytes of [m], whatever the last bytes [t1] and [t2]
    are.  Poly1305 does not: with r = 1 the two tags differ. *)
Theorem poly1305_last_block_forged output m t1 t2 k :
  (16 <= length output)%nat -> bytes m -> bytes t1 -> bytes t2 -> bytes k -> (32 <= length k)%nat ->
  (length m mod 16 = 0)%nat -> 2 ^ 32 <= Z.of_nat (length m) -> length t1 = length t2 -> (length t1 < 16)%nat ->
  Z.of_nat (length (m ++ t1)) < 2 ^ 64 ->
  let tag t := Hacl_Poly1305_64_crypto_onetimeauth (T := T) output (m ++ t) (Z.of_nat (length (m ++ t))) k in
  tag t1 = tag t2 /\
  tag t1 = Poly1305_Spec.mac k (m ++ slice m (Z.to_nat (Z.of_nat (length m) mod 2 ^ 32)) (length t1)) ++ drop 16 output /\
  (Poly1305_Spec.clamp (le_combine (slice k 0 16)) = 1 -> t1 <> t2 -> Poly1305_Spec.mac k (m ++ t1) <> Poly1305_Spec.mac k (m ++ t2)).
Proof.
  intros Ho Bm B1 B2 Bk Lk Hm Hl Ht H16 H64. cbv beta zeta. assert (H64' : Z.of_nat (length (m ++ t2)) < 2 ^ 64) by (rewrite length_app in *; lia).
  rewrite (onetimeauth_long output (m ++ t1) k), (onetimeauth_long output (m ++ t2) k) by (done || now apply bytes_app).
  rewrite !authenticated_long, <- Ht by lia.
  split; [reflexivity|]. split; [unfold blit, Poly1305_Spec.mac at 2; now rewrite length_le_split|]. intros Hr Hne. now apply mac_unit.
Qed.

End Results.

Lemma bytes_abc : bytes [97; 98; 99].
Proof. repeat constructor; lia. Qed.

Lemma poly1305_onetimeauth_refines_witness :
  Poly1305_64.Hacl_Poly1305_64_crypto_onetimeauth (T := Z) (replicate 20 7) [97; 98; 99] 3 (replicate 32 1) =
  Poly1305_Spec.mac (replicate 32 1) [97; 98; 99] ++ replicate 4 7.
Proof.
  refine (poly1305_onetimeauth_refines (T := Z) (replicate 20 7) [97; 98; 99] (replicate 32 1) _ bytes_abc _ _ _);
    [simpl; lia|now apply bytes_replicate|simpl; lia|simpl; lia].
Defined.

Lemma poly1305_incremental_equiv_witness :
  let st := Poly1305_64.Hacl_Impl_Poly1305_64_mk_state [0; 0; 0] [0; 0; 0] in
  let st := Poly1305_64.Hacl_Poly1305_64_init (T := Z) st (replicate 32 1) in
  let st := Poly1305_64.Hacl_Poly1305_64_update (T := Z) st (replicate 16 65) 1 in
  let st := Poly1305_64.Hacl_Poly1305_64_update_last (T := Z) st [97; 98; 99] 3 in
  Poly1305_64.Hacl_Poly1305_64_finish (T := Z) st (replicate 16 0) (drop 16 (replicate 32 1)) =
  Poly1305_64.Hacl_Poly1305_64_crypto_onetimeauth (T := Z) (replicate 16 0) (replicate 16 65 ++ [97; 98; 99]) 19 (replicate 32 1).
Proof.
  refine (poly1305_incremental_equiv (T := Z) (Poly1305_64.Hacl_Impl_Poly1305_64_mk_state [0; 0; 0] [0; 0; 0])
            (replicate 16 65) [97; 98; 99] 1 (replicate 16 0) (replicate 32 1) eq_refl eq_refl _ bytes_abc _ eq_refl eq_refl _ _ _);
    try (now apply bytes_replicate); simpl; lia.
Defined.

(** 4 GiB of zeros and one more byte, with r = 1. *)
Lemma poly1305_last_block_forged_witness :
  let m := replicate (16 * Z.to_nat (2 ^ 28)) 0 in
  let k := 1 :: replicate 31 0 in
  let tag t := Poly1305_64.Hacl_Poly1305_64_crypto_onetimeauth (T := Z) (replicate 16 0) (m ++ t) (Z.of_nat (length (m ++ t))) k in
  tag [1] = tag [2] /\ Poly1305_Spec.mac k (m ++ [1]) <> Poly1305_Spec.mac k (m ++ [2]).
Proof.
  assert (Hq : Z.of_nat (Z.to_nat (2 ^ 28)) = 2 ^ 28) by (apply Z2Nat.id; lia). revert Hq. generalize (Z.to_nat (2 ^ 28)) as q.
  intros q Hq m k tag. assert (Lm : length m = (16 * q)%nat) by apply length_replicate.
  assert (Bm : bytes m) by (apply bytes_replicate; lia).
  assert (Bk : bytes k) by (constructor; [lia|now apply bytes_replicate]).
  assert (B1 : bytes [1]) by (constructor; [lia|constructor]). assert (B2 : bytes [2]) by (constructor; [lia|constructor]).
  clearbody m.
  assert (Hm : (length m mod 16 = 0)%nat) by (rewrite Lm, Nat.mul_comm; apply Nat.Div0.mod_mul).
  assert (H64 : Z.of_nat (length (m ++ [1])) < 2 ^ 64) by (rewrite length_app; cbn [length]; lia).
  assert (Lo : (16 <= length (replicate 16 0))%nat) by (rewrite length_replicate; lia).
  assert (Lk : (32 <= length k)%nat) by (unfold k; cbn [length]; rewrite length_replicate; lia).
  destruct (poly1305_last_block_forged (T := Z) (replicate 16 0) m [1] [2] k Lo Bm B1 B2 Bk Lk Hm ltac:(lia) eq_refl
    ltac:(cbn; lia) H64) as (H1 & _ & H2).
  split; [exact H1|]. apply H2; [reflexivity|discriminate].
Defined.
