(* ===== verification/CounterMode.v ===== *)
(** * CounterMode: word buffers and counter-mode encryption

    [Hacl_Salsa20.c] and [Hacl_Chacha20.c] share their shape: a sixteen-word
    state, a block function and a loop that encrypts 64 bytes at a time with a
    running counter, the last block possibly shorter.  This file holds what
    the two have in common: the conversions between words and bytes, the
    key stream and its properties, and the counter-mode loop, verified once
    against an interface ([BlockCipher]) that each cipher implements. *)

From stdpp Require Import base list numbers.
From Stdlib Require Import ZArith Lia.
From S2P Require Import Prelude Machine.

Local Open Scope Z_scope.
Local Open Scope buf_scope.

(** ** Words and bytes *)

(** Words of a byte string, bytes of a word string. *)
Definition words (n : nat) (b : list Z) : list Z := (fun i => load32_le b (4 * i)) <$> seq 0 n.
Definition unwords (w : list Z) : list Z := concat (le_split 4 <$> w).

Lemma length_words n b : length (words n b) = n.
Proof. unfold words. now rewrite length_fmap, length_seq. Qed.

Lemma length_unwords w : length (unwords w) = (4 * length w)%nat.
Proof.
  unfold unwords. induction w as [|a w IH]; [done|].
  cbn [fmap list_fmap concat]. rewrite length_app, length_le_split, IH. cbn. lia.
Qed.

Lemma bytes_unwords w : bytes (unwords w).
Proof.
  unfold unwords. induction w as [|a w IH]; [constructor|].
  cbn [fmap list_fmap concat]. apply bytes_app. auto with word.
Qed.

Lemma fmap_lookup_total {A} `{!Inhabited A} (l : list A) n : (n <= length l)%nat ->
  (fun i => l !!! i) <$> seq 0 n = take n l.
Proof.
  intros. apply list_eq. intros i. rewrite list_lookup_fmap.
  destruct (Nat.lt_ge_cases i n).
  - rewrite lookup_seq_lt, lookup_take_lt by lia. cbn.
    symmetry. apply list_lookup_lookup_total_lt. lia.
  - rewrite lookup_seq_ge, lookup_take_ge by lia. done.
Qed.

(** The loops [uint32s_from_le_bytes] and [uint32s_to_le_bytes]. *)
Lemma load_loop output input n : length output = n ->
  for_ 0 n (fun i output => output.[i <- load32_le input (4 * i)]) output = words n input.
Proof.
  intros <-. rewrite (for_write (fun i => load32_le input (4 * i))) by lia.
  now rewrite drop_ge, app_nil_r by lia.
Qed.

Lemma store_loop output input n : (n <= length input)%nat -> (4 * n <= length output)%nat ->
  for_ 0 n (fun i output => store32_le output (4 * i) input.[i]) output =
  blit output 0 (unwords (take n input)).
Proof.
  intros Hi Ho. unfold store32_le. rewrite (for_blit 4 (fun i => le_split 4 (input !!! i))).
  2: { intros. apply length_le_split. } 2: done.
  unfold blit. rewrite take_0, length_unwords, length_take, Nat.min_l by lia. cbn [app Nat.add].
  f_equal. unfold unwords. now rewrite <- (fmap_lookup_total input n), <- list_fmap_compose by lia.
Qed.

(** Exclusive or, word by word and byte by byte. *)
Lemma zip_with_app_eq {A} (f : A -> A -> A) l1 l2 k1 k2 : length l1 = length k1 ->
  zip_with f (l1 ++ l2) (k1 ++ k2) = zip_with f l1 k1 ++ zip_with f l2 k2.
Proof. intros. now apply zip_with_app. Qed.

Lemma xor_words n s plain kw : bytes plain -> (4 * (s + n) <= length plain)%nat -> length kw = n ->
  unwords (zip_with Z.lxor ((fun i => load32_le plain (4 * i)) <$> seq s n) kw) =
  zip_with Z.lxor (slice plain (4 * s) (4 * n)) (unwords kw).
Proof.
  intros Hb. revert s kw. induction n as [|n IH]; intros s [|k kw] Hl Hk; try discriminate Hk.
  { done. }
  cbn [seq fmap list_fmap zip_with]. unfold unwords in *. cbn [fmap list_fmap concat].
  unfold fmap in IH. rewrite IH by (cbn in Hk; lia). rewrite le_split_lxor, le_split_load32 by (done || lia).
  replace (slice plain (4 * s) (4 * S n)) with (slice plain (4 * s) 4 ++ slice plain (4 * S s) (4 * n)).
  - rewrite zip_with_app_eq; [done|]. rewrite length_slice, length_le_split by lia. done.
  - unfold slice. replace (4 * S s)%nat with (4 * s + 4)%nat by lia. rewrite <- drop_drop.
    rewrite take_take_drop. f_equal. lia.
Qed.

(** [output[i] = plain[i] ^ b[i]] for [n] bytes. *)
Lemma xor_loop output plain b n : (n <= length plain)%nat -> (n <= length b)%nat -> (n <= length output)%nat ->
  for_ 0 n (fun i output => output.[i <- Z.lxor plain.[i] b.[i]]) output =
  blit output 0 (zip_with Z.lxor (take n plain) b).
Proof.
  intros Hp Hb Ho. rewrite (for_write (fun i => Z.lxor (plain !!! i) (b !!! i))) by done.
  assert (E : (fun i => Z.lxor (plain !!! i) (b !!! i)) <$> seq 0 n = zip_with Z.lxor (take n plain) b).
  { apply list_eq. intros i. rewrite list_lookup_fmap, lookup_zip_with.
    destruct (Nat.lt_ge_cases i n).
    - rewrite lookup_seq_lt, lookup_take_lt by lia. cbn.
      rewrite (list_lookup_lookup_total_lt plain), (list_lookup_lookup_total_lt b) by lia. done.
    - rewrite lookup_seq_ge, lookup_take_ge by lia. done. }
  rewrite E, blit_0, length_zip_with, length_take. do 2 f_equal. lia.
Qed.

(** Sixteen words of key stream against sixteen words of message. *)
Lemma xor16_loop plain kw ob : length kw = 16%nat -> length ob = 16%nat ->
  for_ 0 16 (fun i ob => ob.[i <- Z.lxor (words 16 plain).[i] kw.[i]]) ob =
  zip_with Z.lxor (words 16 plain) kw.
Proof.
  intros Hk Ho. generalize (length_words 16 plain). generalize (words 16 plain). intros w Hw.
  destruct_list kw. destruct_list ob. destruct_list w. reflexivity.
Qed.

(** The sum of two states. *)
Lemma sum16_loop st st' : length st = 16%nat -> length st' = 16%nat ->
  for_ 0 16 (fun i st => st.[i <- wadd 32 st.[i] st'.[i]]) st = zip_with (wadd 32) st st'.
Proof. intros H1 H2. destruct_list st. destruct_list st'. reflexivity. Qed.

(** ** Key streams *)

Section KeyStream.
Variable block : Z -> list Z.
Hypothesis block_length : forall ctr, length (block ctr) = 64%nat.

Definition keystream (ctr : Z) (nblocks : nat) : list Z :=
  concat ((fun i => block (ctr + Z.of_nat i)) <$> seq 0 nblocks).

(** Encryption of a message: exclusive or with enough key stream. *)
Definition xor_stream (ctr : Z) (m : list Z) : list Z :=
  zip_with Z.lxor m (keystream ctr (length m / 64 + 1)).

Lemma keystream_S ctr n : keystream ctr (S n) = keystream ctr n ++ block (ctr + Z.of_nat n).
Proof.
  unfold keystream. rewrite seq_S, fmap_app, concat_app.
  cbn [fmap list_fmap concat]. rewrite app_nil_r. reflexivity.
Qed.

Lemma length_keystream ctr n : length (keystream ctr n) = (64 * n)%nat.
Proof.
  induction n as [|n IH]; [done|]. rewrite keystream_S, length_app, IH, block_length. lia.
Qed.

Lemma keystream_cover ctr (m : list Z) : (length m <= length (keystream ctr (length m / 64 + 1)))%nat.
Proof.
  rewrite length_keystream.
  pose proof (Nat.div_mod_eq (length m) 64). pose proof (Nat.mod_upper_bound (length m) 64). lia.
Qed.

Lemma length_xor_stream ctr m : length (xor_stream ctr m) = length m.
Proof.
  pose proof (keystream_cover ctr m). unfold xor_stream. rewrite length_zip_with. lia.
Qed.

Lemma xor_stream_involutive ctr m : xor_stream ctr (xor_stream ctr m) = m.
Proof.
  unfold xor_stream at 1. rewrite length_xor_stream. apply zip_lxor_involutive, keystream_cover.
Qed.

Lemma bytes_xor_stream ctr m : (forall c, bytes (block c)) -> bytes m -> bytes (xor_stream ctr m).
Proof.
  intros Hb Hm. apply zip_lxor_bytes; [done|]. generalize (length m / 64 + 1)%nat. intros n.
  induction n as [|n IH]; [constructor|]. rewrite keystream_S. apply bytes_app. auto.
Qed.

(** Prefixes: longer key streams extend shorter ones. *)
Lemma keystream_take ctr k n : (k <= n)%nat -> take (64 * k) (keystream ctr n) = keystream ctr k.
Proof.
  induction n as [|n IH]; intros Hk.
  - assert (k = 0%nat) as -> by lia. done.
  - rewrite keystream_S. destruct (Nat.eq_dec k (S n)) as [->|].
    + rewrite take_ge, keystream_S; [done|]. rewrite length_app, length_keystream, block_length. lia.
    + rewrite take_app_le by (rewrite length_keystream; lia). apply IH. lia.
Qed.

Lemma xor_stream_take ctr n m : take n (xor_stream ctr m) = xor_stream ctr (take n m).
Proof.
  destruct (Nat.le_ge_cases (length m) n) as [Hge|Hle].
  { now rewrite !take_ge by (rewrite ?length_xor_stream; done). }
  unfold xor_stream. rewrite length_take, Nat.min_l by done.
  assert (E : take (64 * (n / 64 + 1)) (keystream ctr (length m / 64 + 1)) = keystream ctr (n / 64 + 1)).
  { apply keystream_take. pose proof (Nat.Div0.div_le_mono n (length m) 64 Hle). lia. }
  rewrite <- E. pose proof (Nat.div_mod_eq n 64). pose proof (Nat.mod_upper_bound n 64).
  apply list_eq. intros i. rewrite lookup_zip_with. destruct (Nat.lt_ge_cases i n).
  - rewrite !lookup_take_lt, lookup_zip_with by lia. done.
  - rewrite lookup_take_ge, (lookup_take_ge m) by lia. done.
Qed.

(** Each byte is encrypted by itself, at its position. *)
Lemma xor_stream_drop ctr n m m' : length m = length m' -> drop n m = drop n m' ->
  drop n (xor_stream ctr m) = drop n (xor_stream ctr m').
Proof. intros Hl E. unfold xor_stream. now rewrite !zip_with_drop, E, Hl. Qed.

End KeyStream.

(** ** The interface of a block cipher and the counter-mode loop *)

(** [inv st] holds of the states that occur while a message is processed;
    [update] encrypts one full block, [update_last] a shorter one.  The
    counter has [width] bits. *)
Record BlockCipher (St : Type) := {
  width : Z;
  inv : St -> Prop;
  block : Z -> list Z;
  update : list Z -> list Z -> St -> Z -> list Z * St;
  update_last : list Z -> list Z -> nat -> St -> Z -> list Z * St;
  width_nonneg : 0 <= width;
  block_length : forall ctr, length (block ctr) = 64%nat;
  block_wrap : forall ctr, block (wrap width ctr) = block ctr;
  update_ok : forall st output plain ctr,
    inv st -> bytes plain -> (64 <= length plain)%nat -> (64 <= length output)%nat -> word width ctr ->
    exists st', inv st' /\
      update output plain st ctr = (blit output 0 (zip_with Z.lxor (take 64 plain) (block ctr)), st');
  update_last_ok : forall st output plain n ctr,
    inv st -> (n <= 64)%nat -> (n <= length plain)%nat -> (n <= length output)%nat -> word width ctr ->
    fst (update_last output plain n st ctr) = blit output 0 (zip_with Z.lxor (take n plain) (block ctr))
}.

Arguments width {St}. Arguments inv {St}. Arguments block {St}.
Arguments update {St}. Arguments update_last {St}. Arguments block_length {St}.

Section CounterMode.
Context {St : Type} (C : BlockCipher St).

(** The loops of the two ciphers, with their calls abstracted. *)
Definition counter_mode_blocks (output plain : list Z) (n : nat) (st : St) (ctr : Z) : list Z * St :=
  for_ 0 n (fun i '(output, st) =>
    let b := drop (64 * i) plain in
    let o := drop (64 * i) output in
    let '(o, st) := update C o b st (wadd (width C) ctr (Z.of_nat i)) in
    (take (64 * i) output ++ o, st)) (output, st).

Definition counter_mode (output plain : list Z) (len : Z) (st : St) (ctr : Z) : list Z * St :=
  let blocks_len := (len >> 6)%u32 in
  let part_len := (len & 0x3f)%u32 in
  let off := Z.to_nat (64 * blocks_len)%u32 in
  let plain__ := drop off plain in
  let '(output, st) := counter_mode_blocks output plain (Z.to_nat blocks_len) st ctr in
  if 0 <? part_len then
    let '(o, st) := update_last C (drop off output) plain__ (Z.to_nat part_len) st
                      (wadd (width C) ctr blocks_len) in
    (take off output ++ o, st)
  else (output, st).

Lemma counter_mode_blocks_spec st output plain n ctr :
  inv C st -> bytes plain -> (64 * n <= length plain)%nat -> (64 * n <= length output)%nat ->
  exists st', inv C st' /\
    counter_mode_blocks output plain n st ctr =
    (zip_with Z.lxor (take (64 * n) plain) (keystream (block C) ctr n) ++ drop (64 * n) output, st').
Proof.
  intros Hst Hb Hp Ho. unfold counter_mode_blocks. induction n as [|n IH].
  { exists st. split; [done|]. rewrite for_nil, Nat.mul_0_r, drop_0 by lia. reflexivity. }
  destruct IH as (st' & Hst' & IH); try lia. rewrite for_last by lia. rewrite IH.
  set (pre := zip_with _ _ _).
  assert (Lp : length pre = (64 * n)%nat)
    by (subst pre; rewrite length_zip_with, length_take, length_keystream by apply block_length; lia).
  rewrite drop_app_length', take_app_length' by lia.
  destruct (update_ok _ C st' (drop (64 * n) output) (drop (64 * n) plain) (wadd (width C) ctr (Z.of_nat n)))
    as (st'' & Hst'' & ->); try done.
  1: now apply bytes_drop. 1-2: rewrite length_drop; lia. 1: apply wadd_word, width_nonneg.
  exists st''. split; [done|]. f_equal. unfold wadd. rewrite block_wrap, keystream_S.
  assert (Ez : take (64 * S n) plain = take (64 * n) plain ++ take 64 (drop (64 * n) plain))
    by (rewrite take_take_drop; f_equal; lia).
  rewrite Ez, zip_with_app_eq.
  2: { rewrite length_take, length_keystream by apply block_length. lia. }
  fold pre. rewrite <- app_assoc, blit_0. do 2 f_equal.
  rewrite length_zip_with, length_take, length_drop, block_length, drop_drop. f_equal. lia.
Qed.

(** Counter mode encrypts the whole message and nothing beyond it. *)
Lemma counter_mode_spec st output plain ctr :
  inv C st -> bytes plain -> (length plain <= length output)%nat -> Z.of_nat (length plain) < 2 ^ 32 ->
  fst (counter_mode output plain (Z.of_nat (length plain)) st ctr) =
  blit output 0 (xor_stream (block C) ctr plain).
Proof.
  intros Hst Hb Ho Hlen. unfold counter_mode.
  rewrite wshr_div, (Z_land_ones_lit _ 0x3f 6) by (done || lia).
  set (n := (length plain / 64)%nat). set (rem := (length plain mod 64)%nat).
  assert (En : Z.of_nat (length plain) / 2 ^ 6 = Z.of_nat n) by (subst n; now rewrite Nat2Z.inj_div).
  assert (Er : Z.of_nat (length plain) mod 2 ^ 6 = Z.of_nat rem) by (subst rem; now rewrite Nat2Z.inj_mod).
  assert (Hnm : (length plain = 64 * n + rem)%nat) by apply Nat.div_mod_eq.
  assert (Hrem : (rem < 64)%nat) by now apply Nat.mod_upper_bound.
  cbn zeta. rewrite En, Er, !Nat2Z.id, (wmul_small 32) by lia.
  replace (Z.to_nat (64 * Z.of_nat n)) with (64 * n)%nat by lia.
  destruct (counter_mode_blocks_spec st output plain n ctr Hst) as (st' & Hst' & ->); try done; try lia.
  unfold xor_stream. fold n. rewrite Nat.add_1_r, keystream_S.
  replace (zip_with Z.lxor plain (keystream (block C) ctr n ++ block C (ctr + Z.of_nat n)))
    with (zip_with Z.lxor (take (64 * n) plain) (keystream (block C) ctr n)
          ++ zip_with Z.lxor (drop (64 * n) plain) (block C (ctr + Z.of_nat n))).
  2: { rewrite <- zip_with_app_eq, take_drop; [reflexivity|].
       rewrite length_take, length_keystream by apply block_length. lia. }
  set (pre := zip_with Z.lxor (take (64 * n) plain) _).
  assert (Lp : length pre = (64 * n)%nat)
    by (subst pre; rewrite length_zip_with, length_take, length_keystream by apply block_length; lia).
  destruct (Z.ltb_spec 0 (Z.of_nat rem)).
  - rewrite drop_app_length', take_app_length' by lia.
    pose proof (update_last_ok _ C st' (drop (64 * n) output) (drop (64 * n) plain) rem
      (wadd (width C) ctr (Z.of_nat n)) Hst') as E.
    destruct (update_last C _ _ _ _ _) as [o s]. cbn [fst] in *.
    rewrite E by (rewrite ?length_drop; (lia || apply wadd_word, width_nonneg)).
    unfold wadd. rewrite block_wrap, take_ge by (rewrite length_drop; lia).
    rewrite !blit_0, <- app_assoc, length_app, Lp, drop_drop. done.
  - assert (Ed : drop (64 * n) plain = []) by (apply drop_ge; lia). rewrite Ed. cbn [zip_with fst].
    now rewrite blit_0, app_nil_r, Lp.
Qed.

(** *** In place

    The callers of the boxes encrypt a buffer onto itself.  A full block is
    read before it is written; the next one has not been touched yet. *)
Definition counter_mode_blocks_inplace (buf : list Z) (n : nat) (st : St) (ctr : Z) : list Z * St :=
  for_ 0 n (fun i '(buf, st) =>
    let b := drop (64 * i) buf in
    let '(o, st) := update C b b st (wadd (width C) ctr (Z.of_nat i)) in
    (take (64 * i) buf ++ o, st)) (buf, st).

Lemma blocks_inplace_spec st buf n ctr :
  inv C st -> bytes buf -> (64 * n <= length buf)%nat ->
  counter_mode_blocks_inplace buf n st ctr = counter_mode_blocks buf buf n st ctr.
Proof.
  intros Hst Hb Hl. induction n as [|n IH]; [done|].
  unfold counter_mode_blocks_inplace, counter_mode_blocks in *. rewrite !for_last by lia.
  rewrite IH by lia.
  destruct (counter_mode_blocks_spec st buf buf n ctr Hst Hb) as (st' & _ & E); [lia..|].
  unfold counter_mode_blocks in E. rewrite E.
  now rewrite !drop_app_length' by
    (rewrite length_zip_with, length_take, length_keystream by apply block_length; lia).
Qed.

End CounterMode.

(** [buf[i] = buf[i] ^ b[i]] reads each byte before it writes it. *)
Lemma xor_loop_inplace (buf b : list Z) n : (n <= length buf)%nat ->
  for_ 0 n (fun i buf => buf.[i <- Z.lxor buf.[i] b.[i]]) buf =
  for_ 0 n (fun i o => o.[i <- Z.lxor buf.[i] b.[i]]) buf.
Proof.
  intros Hn. rewrite (for_map (fun i x => Z.lxor x b.[i])) by done.
  rewrite (for_write (fun i => Z.lxor buf.[i] b.[i])) by done. f_equal.
  apply list_eq. intros i. rewrite list_lookup_imap, list_lookup_fmap. destruct (Nat.lt_ge_cases i n).
  - rewrite lookup_take_lt, lookup_seq_lt by lia. cbn.
    rewrite (list_lookup_lookup_total_lt buf) by lia. done.
  - rewrite lookup_take_ge, lookup_seq_ge by lia. done.
Qed.
