(* ===== verification/Salsa20.v ===== *)
(** * Salsa20: the stream cipher and the key derivation of Hacl_Salsa20.c

    The sixteen-word state is a buffer updated in place by the rounds; a
    message is encrypted 64 bytes at a time with a running counter.  The code
    is refined to Bernstein's definition of Salsa20 and HSalsa20. *)

From stdpp Require Import base list numbers.
From Stdlib Require Import ZArith Lia.
From S2P Require Import Prelude Machine CounterMode.

Local Open Scope Z_scope.
Local Open Scope buf_scope.

(** ** The code *)

Module Salsa20.

Definition Hacl_Lib_Create_make_h32_4 (b : list Z) (s0 s1 s2 s3 : Z) : list Z :=
  let b := b.[0 <- s0] in
  let b := b.[1 <- s1] in
  let b := b.[2 <- s2] in
  b.[3 <- s3].

Definition Hacl_Lib_Create_make_h32_8 (b : list Z) (s0 s1 s2 s3 s4 s5 s6 s7 : Z) : list Z :=
  let b := Hacl_Lib_Create_make_h32_4 b s0 s1 s2 s3 in
  at_off b 4 (fun b => Hacl_Lib_Create_make_h32_4 b s4 s5 s6 s7).

Definition Hacl_Lib_Create_make_h32_16 (b : list Z)
    (s0 s1 s2 s3 s4 s5 s6 s7 s8 s9 s10 s11 s12 s13 s14 s15 : Z) : list Z :=
  let b := Hacl_Lib_Create_make_h32_8 b s0 s1 s2 s3 s4 s5 s6 s7 in
  at_off b 8 (fun b => Hacl_Lib_Create_make_h32_8 b s8 s9 s10 s11 s12 s13 s14 s15).

Definition Hacl_Lib_LoadStore32_uint32s_from_le_bytes (output input : list Z) (len : nat) : list Z :=
  for_ 0 len (fun i output =>
    let inputi := load32_le input (4 * i) in
    output.[i <- inputi]) output.

Definition Hacl_Lib_LoadStore32_uint32s_to_le_bytes (output input : list Z) (len : nat) : list Z :=
  for_ 0 len (fun i output =>
    let hd1 := input.[i] in
    store32_le output (4 * i) hd1) output.

Definition Hacl_Impl_Salsa20_setup (st k n1 : list Z) (c : Z) : list Z :=
  let tmp := replicate 10 0 in
  let k_ := Hacl_Lib_LoadStore32_uint32s_from_le_bytes (slice tmp 0 8) k 8 in
  let n_ := Hacl_Lib_LoadStore32_uint32s_from_le_bytes (slice tmp 8 2) n1 2 in
  let c0 := wrap 32 c in
  let c1 := wrap 32 (c >> 32)%u64 in
  let k0 := k_.[0] in
  let k1 := k_.[1] in
  let k2 := k_.[2] in
  let k3 := k_.[3] in
  let k4 := k_.[4] in
  let k5 := k_.[5] in
  let k6 := k_.[6] in
  let k7 := k_.[7] in
  let n0 := n_.[0] in
  let n11 := n_.[1] in
  Hacl_Lib_Create_make_h32_16 st
    0x61707865 k0 k1 k2 k3 0x3320646e n0 n11 c0 c1 0x79622d32 k4 k5 k6 k7 0x6b206574.

Definition Hacl_Impl_Salsa20_line (st : list Z) (a b d : nat) (s : Z) : list Z :=
  let sa := st.[a] in
  let sb := st.[b] in
  let sd := st.[d] in
  let sbd := (sb + sd)%u32 in
  let sbds := ((sbd << s) .| (sbd >> (32 - s)))%u32 in
  st.[a <- (sa ^^ sbds)%u32].

Definition Hacl_Impl_Salsa20_quarter_round (st : list Z) (a b c d : nat) : list Z :=
  let st := Hacl_Impl_Salsa20_line st b a d 7 in
  let st := Hacl_Impl_Salsa20_line st c b a 9 in
  let st := Hacl_Impl_Salsa20_line st d c b 13 in
  Hacl_Impl_Salsa20_line st a d c 18.

Definition Hacl_Impl_Salsa20_double_round (st : list Z) : list Z :=
  let st := Hacl_Impl_Salsa20_quarter_round st 0 4 8 12 in
  let st := Hacl_Impl_Salsa20_quarter_round st 5 9 13 1 in
  let st := Hacl_Impl_Salsa20_quarter_round st 10 14 2 6 in
  let st := Hacl_Impl_Salsa20_quarter_round st 15 3 7 11 in
  let st := Hacl_Impl_Salsa20_quarter_round st 0 1 2 3 in
  let st := Hacl_Impl_Salsa20_quarter_round st 5 6 7 4 in
  let st := Hacl_Impl_Salsa20_quarter_round st 10 11 8 9 in
  Hacl_Impl_Salsa20_quarter_round st 15 12 13 14.

Definition Hacl_Impl_Salsa20_rounds (st : list Z) : list Z :=
  for_ 0 10 (fun _ st => Hacl_Impl_Salsa20_double_round st) st.

Definition Hacl_Impl_Salsa20_sum_states (st st_ : list Z) : list Z :=
  for_ 0 16 (fun i st =>
    let xi := st.[i] in
    let yi := st_.[i] in
    st.[i <- (xi + yi)%u32]) st.

Definition Hacl_Impl_Salsa20_copy_state (st st_ : list Z) : list Z := blit st 0 (take 16 st_).

(** The key stream block goes to [k]; the counter words of [st] change too. *)
Definition Hacl_Impl_Salsa20_salsa20_core (k st : list Z) (ctr : Z) : list Z * list Z :=
  let c0 := wrap 32 ctr in
  let c1 := wrap 32 (ctr >> 32)%u64 in
  let st := st.[8 <- c0] in
  let st := st.[9 <- c1] in
  let k := Hacl_Impl_Salsa20_copy_state k st in
  let k := Hacl_Impl_Salsa20_rounds k in
  let k := Hacl_Impl_Salsa20_sum_states k st in
  (k, st).

Definition Hacl_Impl_Salsa20_salsa20_block (stream_block st : list Z) (ctr : Z) : list Z * list Z :=
  let st_ := replicate 16 0 in
  let '(st_, st) := Hacl_Impl_Salsa20_salsa20_core st_ st ctr in
  (Hacl_Lib_LoadStore32_uint32s_to_le_bytes stream_block st_ 16, st).

Definition Hacl_Impl_Salsa20_init (st k n1 : list Z) : list Z := Hacl_Impl_Salsa20_setup st k n1 0.

Definition Hacl_Impl_Salsa20_update_last (output plain : list Z) (len : nat) (st : list Z) (ctr : Z)
    : list Z * list Z :=
  let block := replicate 64 0 in
  let '(block, st) := Hacl_Impl_Salsa20_salsa20_block block st ctr in
  let mask := block in
  let output := for_ 0 len (fun i output =>
    let xi := plain.[i] in
    let yi := mask.[i] in
    output.[i <- (xi ^^ yi)%u8]) output in
  (output, st).

Definition Hacl_Impl_Salsa20_update (output plain st : list Z) (ctr : Z) : list Z * list Z :=
  let b := replicate 48 0 in
  let k := slice b 0 16 in
  let ib := slice b 16 16 in
  let ob := slice b 32 16 in
  let '(k, st) := Hacl_Impl_Salsa20_salsa20_core k st ctr in
  let ib := Hacl_Lib_LoadStore32_uint32s_from_le_bytes ib plain 16 in
  let ob := for_ 0 16 (fun i ob =>
    let xi := ib.[i] in
    let yi := k.[i] in
    ob.[i <- (xi ^^ yi)%u32]) ob in
  (Hacl_Lib_LoadStore32_uint32s_to_le_bytes output ob 16, st).

Definition Hacl_Impl_Salsa20_salsa20_counter_mode_blocks
    (output plain : list Z) (len : nat) (st : list Z) (ctr : Z) : list Z * list Z :=
  for_ 0 len (fun i '(output, st) =>
    let b := drop (64 * i) plain in
    let o := drop (64 * i) output in
    let '(o, st) := Hacl_Impl_Salsa20_update o b st (ctr + Z.of_nat i)%u64 in
    (take (64 * i) output ++ o, st)) (output, st).

Definition Hacl_Impl_Salsa20_salsa20_counter_mode
    (output plain : list Z) (len : Z) (st : list Z) (ctr : Z) : list Z * list Z :=
  let blocks_len := (len >> 6)%u32 in
  let part_len := (len & 0x3f)%u32 in
  let off := Z.to_nat (64 * blocks_len)%u32 in
  let plain__ := drop off plain in
  let '(output, st) :=
    Hacl_Impl_Salsa20_salsa20_counter_mode_blocks output plain (Z.to_nat blocks_len) st ctr in
  if 0 <? part_len then
    let '(o, st) := Hacl_Impl_Salsa20_update_last (drop off output) plain__ (Z.to_nat part_len) st
                      (ctr + blocks_len)%u64 in
    (take off output ++ o, st)
  else (output, st).

Definition Hacl_Impl_Salsa20_salsa20
    (output plain : list Z) (len : Z) (k n1 : list Z) (ctr : Z) : list Z :=
  let st := replicate 16 0 in
  let st := Hacl_Impl_Salsa20_init st k n1 in
  fst (Hacl_Impl_Salsa20_salsa20_counter_mode output plain len st ctr).

(** The same code when [output] and [plain] are one buffer, as in the calls
    that encrypt in place. *)
Definition Hacl_Impl_Salsa20_update_last_inplace (buf : list Z) (len : nat) (st : list Z) (ctr : Z)
    : list Z * list Z :=
  let block := replicate 64 0 in
  let '(block, st) := Hacl_Impl_Salsa20_salsa20_block block st ctr in
  let mask := block in
  let buf := for_ 0 len (fun i buf =>
    let xi := buf.[i] in
    let yi := mask.[i] in
    buf.[i <- (xi ^^ yi)%u8]) buf in
  (buf, st).

Definition Hacl_Impl_Salsa20_salsa20_counter_mode_blocks_inplace
    (buf : list Z) (len : nat) (st : list Z) (ctr : Z) : list Z * list Z :=
  for_ 0 len (fun i '(buf, st) =>
    let b := drop (64 * i) buf in
    let '(o, st) := Hacl_Impl_Salsa20_update b b st (ctr + Z.of_nat i)%u64 in
    (take (64 * i) buf ++ o, st)) (buf, st).

Definition Hacl_Salsa20_salsa20_inplace (buf : list Z) (len : Z) (k n1 : list Z) (ctr : Z) : list Z :=
  let st := replicate 16 0 in
  let st := Hacl_Impl_Salsa20_init st k n1 in
  let blocks_len := (len >> 6)%u32 in
  let part_len := (len & 0x3f)%u32 in
  let off := Z.to_nat (64 * blocks_len)%u32 in
  let '(buf, st) :=
    Hacl_Impl_Salsa20_salsa20_counter_mode_blocks_inplace buf (Z.to_nat blocks_len) st ctr in
  if 0 <? part_len then
    let '(o, st) := Hacl_Impl_Salsa20_update_last_inplace (drop off buf) (Z.to_nat part_len) st
                      (ctr + blocks_len)%u64 in
    take off buf ++ o
  else buf.

Definition Hacl_Impl_HSalsa20_setup (st k n1 : list Z) : list Z :=
  let tmp := replicate 12 0 in
  let k_ := Hacl_Lib_LoadStore32_uint32s_from_le_bytes (slice tmp 0 8) k 8 in
  let n_ := Hacl_Lib_LoadStore32_uint32s_from_le_bytes (slice tmp 8 4) n1 4 in
  let k0 := k_.[0] in
  let k1 := k_.[1] in
  let k2 := k_.[2] in
  let k3 := k_.[3] in
  let k4 := k_.[4] in
  let k5 := k_.[5] in
  let k6 := k_.[6] in
  let k7 := k_.[7] in
  let n0 := n_.[0] in
  let n11 := n_.[1] in
  let n2 := n_.[2] in
  let n3 := n_.[3] in
  Hacl_Lib_Create_make_h32_16 st
    0x61707865 k0 k1 k2 k3 0x3320646e n0 n11 n2 n3 0x79622d32 k4 k5 k6 k7 0x6b206574.

Definition Hacl_Impl_HSalsa20_crypto_core_hsalsa20 (output nonce key : list Z) : list Z :=
  let tmp := replicate 24 0 in
  let st := slice tmp 0 16 in
  let hs := slice tmp 16 8 in
  let st := Hacl_Impl_HSalsa20_setup st key nonce in
  let st := Hacl_Impl_Salsa20_rounds st in
  let hs0 := st.[0] in
  let hs1 := st.[5] in
  let hs2 := st.[10] in
  let hs3 := st.[15] in
  let hs4 := st.[6] in
  let hs5 := st.[7] in
  let hs6 := st.[8] in
  let hs7 := st.[9] in
  let hs := Hacl_Lib_Create_make_h32_8 hs hs0 hs1 hs2 hs3 hs4 hs5 hs6 hs7 in
  Hacl_Lib_LoadStore32_uint32s_to_le_bytes output hs 8.

Definition Hacl_Salsa20_salsa20
    (output plain : list Z) (len : Z) (k n1 : list Z) (ctr : Z) : list Z :=
  Hacl_Impl_Salsa20_salsa20 output plain len k n1 ctr.

Definition Hacl_Salsa20_hsalsa20 (output key nonce : list Z) : list Z :=
  Hacl_Impl_HSalsa20_crypto_core_hsalsa20 output nonce key.

End Salsa20.

(** ** Specification: Bernstein, "Salsa20 specification" *)

Module Salsa20_Spec.

Definition rotl (x n : Z) : Z := Z.lor (wshl 32 x n) (wshr x (32 - n)).

Definition quarterround (y : Z * Z * Z * Z) : Z * Z * Z * Z :=
  let '(y0, y1, y2, y3) := y in
  let z1 := Z.lxor y1 (rotl (wadd 32 y0 y3) 7) in
  let z2 := Z.lxor y2 (rotl (wadd 32 z1 y0) 9) in
  let z3 := Z.lxor y3 (rotl (wadd 32 z2 z1) 13) in
  let z0 := Z.lxor y0 (rotl (wadd 32 z3 z2) 18) in
  (z0, z1, z2, z3).

Definition columnround (x : list Z) : list Z :=
  let '(y0, y4, y8, y12) := quarterround (x.[0], x.[4], x.[8], x.[12]) in
  let '(y5, y9, y13, y1) := quarterround (x.[5], x.[9], x.[13], x.[1]) in
  let '(y10, y14, y2, y6) := quarterround (x.[10], x.[14], x.[2], x.[6]) in
  let '(y15, y3, y7, y11) := quarterround (x.[15], x.[3], x.[7], x.[11]) in
  [y0; y1; y2; y3; y4; y5; y6; y7; y8; y9; y10; y11; y12; y13; y14; y15].

Definition rowround (y : list Z) : list Z :=
  let '(z0, z1, z2, z3) := quarterround (y.[0], y.[1], y.[2], y.[3]) in
  let '(z5, z6, z7, z4) := quarterround (y.[5], y.[6], y.[7], y.[4]) in
  let '(z10, z11, z8, z9) := quarterround (y.[10], y.[11], y.[8], y.[9]) in
  let '(z15, z12, z13, z14) := quarterround (y.[15], y.[12], y.[13], y.[14]) in
  [z0; z1; z2; z3; z4; z5; z6; z7; z8; z9; z10; z11; z12; z13; z14; z15].

Definition doubleround (x : list Z) : list Z := rowround (columnround x).
Definition rounds (x : list Z) : list Z := Nat.iter 10 doubleround x.

(** The sixteen words fed to the core: constants, key and four input words. *)
Definition expand (k n : list Z) : list Z :=
  [0x61707865] ++ take 4 k ++ [0x3320646e] ++ take 4 n ++ [0x79622d32] ++ drop 4 k ++ [0x6b206574].

Definition core (x : list Z) : list Z := zip_with (wadd 32) (rounds x) x.

(** Block [ctr] of the key stream. *)
Definition block (key nonce : list Z) (ctr : Z) : list Z :=
  let ctr := wrap 64 ctr in
  unwords (core (expand (words 8 key) (words 2 nonce ++ [wrap 32 ctr; wrap 32 (wshr ctr 32)]))).

(** Encryption of a message: exclusive or with enough key stream. *)
Definition encrypt (key nonce : list Z) (ctr : Z) (m : list Z) : list Z :=
  xor_stream (block key nonce) ctr m.

Definition hsalsa (key input : list Z) : list Z :=
  let z := rounds (expand (words 8 key) (words 4 input)) in
  unwords [z.[0]; z.[5]; z.[10]; z.[15]; z.[6]; z.[7]; z.[8]; z.[9]].

End Salsa20_Spec.

Arguments Salsa20_Spec.rounds : simpl never.
Arguments Salsa20_Spec.core : simpl never.
Arguments Salsa20_Spec.block : simpl never.
Arguments Salsa20_Spec.encrypt : simpl never.
Arguments Salsa20_Spec.hsalsa : simpl never.

(** ** Refinement *)

Section Refinement.
Import Salsa20.

Lemma make_h32_16_spec b s0 s1 s2 s3 s4 s5 s6 s7 s8 s9 s10 s11 s12 s13 s14 s15 :
  length b = 16%nat ->
  Hacl_Lib_Create_make_h32_16 b s0 s1 s2 s3 s4 s5 s6 s7 s8 s9 s10 s11 s12 s13 s14 s15 =
  [s0; s1; s2; s3; s4; s5; s6; s7; s8; s9; s10; s11; s12; s13; s14; s15].
Proof. intros H. destruct_list b. reflexivity. Qed.

Lemma from_le_bytes_spec output input n : length output = n ->
  Hacl_Lib_LoadStore32_uint32s_from_le_bytes output input n = words n input.
Proof. apply load_loop. Qed.

Lemma to_le_bytes_spec output input n : (n <= length input)%nat -> (4 * n <= length output)%nat ->
  Hacl_Lib_LoadStore32_uint32s_to_le_bytes output input n = blit output 0 (unwords (take n input)).
Proof. apply store_loop. Qed.

(** The rounds, in place, are the mathematical rounds. *)
Lemma double_round_spec st : length st = 16%nat ->
  Hacl_Impl_Salsa20_double_round st = Salsa20_Spec.doubleround st.
Proof.
  intros H. destruct_list st. cbv -[wadd wshl wshr Z.lor Z.lxor]. reflexivity.
Qed.

Lemma length_doubleround st : length (Salsa20_Spec.doubleround st) = 16%nat.
Proof. reflexivity. Qed.

Lemma rounds_iter n st : length st = 16%nat ->
  Nat.iter n Hacl_Impl_Salsa20_double_round st = Nat.iter n Salsa20_Spec.doubleround st /\
  length (Nat.iter n Salsa20_Spec.doubleround st) = 16%nat.
Proof.
  intros H. induction n as [|n [IH1 IH2]]; [done|]. split; [|apply length_doubleround].
  change (Hacl_Impl_Salsa20_double_round (Nat.iter n Hacl_Impl_Salsa20_double_round st) =
          Salsa20_Spec.doubleround (Nat.iter n Salsa20_Spec.doubleround st)).
  rewrite IH1. now apply double_round_spec.
Qed.

Lemma rounds_spec st : length st = 16%nat ->
  Hacl_Impl_Salsa20_rounds st = Salsa20_Spec.rounds st /\ length (Salsa20_Spec.rounds st) = 16%nat.
Proof.
  intros H. unfold Hacl_Impl_Salsa20_rounds, Salsa20_Spec.rounds. rewrite for_iter.
  now apply rounds_iter.
Qed.

(** The core on a state whose counter words are [x] and [y]. *)
Lemma expand_literal kw nw x y : length kw = 8%nat -> length nw = 2%nat ->
  exists k0 k1 k2 k3 k4 k5 k6 k7 n0 n1,
    kw = [k0; k1; k2; k3; k4; k5; k6; k7] /\ nw = [n0; n1] /\
    Salsa20_Spec.expand kw (nw ++ [x; y]) =
    [0x61707865; k0; k1; k2; k3; 0x3320646e; n0; n1; x; y; 0x79622d32; k4; k5; k6; k7; 0x6b206574].
Proof. intros H1 H2. destruct_list kw. destruct_list nw. repeat eexists. Qed.

Lemma core_spec k kw nw x y ctr : length k = 16%nat -> length kw = 8%nat -> length nw = 2%nat ->
  let st := Salsa20_Spec.expand kw (nw ++ [wrap 32 ctr; wrap 32 (wshr ctr 32)]) in
  Hacl_Impl_Salsa20_salsa20_core k (Salsa20_Spec.expand kw (nw ++ [x; y])) ctr =
  (Salsa20_Spec.core st, st).
Proof.
  intros Hk H1 H2 st. subst st.
  destruct (expand_literal kw nw x y H1 H2)
    as (k0 & k1 & k2 & k3 & k4 & k5 & k6 & k7 & n0 & n1 & -> & -> & ->).
  unfold Hacl_Impl_Salsa20_salsa20_core, Hacl_Impl_Salsa20_copy_state. cbn zeta. buf_simpl.
  set (st := Salsa20_Spec.expand _ _).
  change [_; _; _; _; _; _; _; _; _; _; _; _; _; _; _; _] with st.
  change (take 16 st) with st. rewrite blit_0_exact by (now rewrite Hk).
  destruct (rounds_spec st) as [-> Hr]; [done|].
  unfold Hacl_Impl_Salsa20_sum_states. cbv zeta. now rewrite sum16_loop.
Qed.

Lemma salsa_block_wrap key nonce ctr : Salsa20_Spec.block key nonce (wrap 64 ctr) = Salsa20_Spec.block key nonce ctr.
Proof.
  unfold Salsa20_Spec.block. cbn zeta. unfold wrap. now rewrite !(Z.mod_mod _ (2 ^ 64)) by lia.
Qed.

Lemma length_core st : length st = 16%nat -> length (Salsa20_Spec.core st) = 16%nat.
Proof. intros H. unfold Salsa20_Spec.core. now rewrite length_zip_with, H, (proj2 (rounds_spec st H)). Qed.

Lemma length_salsa_block key nonce ctr : length (Salsa20_Spec.block key nonce ctr) = 64%nat.
Proof.
  unfold Salsa20_Spec.block. cbn zeta. rewrite length_unwords, length_core; [done|].
  unfold Salsa20_Spec.expand, words. reflexivity.
Qed.

(** The states that occur while a message is processed. *)
Definition cipher_state (key nonce st : list Z) : Prop :=
  exists x y, st = Salsa20_Spec.expand (words 8 key) (words 2 nonce ++ [x; y]).

Lemma init_state key nonce :
  cipher_state key nonce (Hacl_Impl_Salsa20_init (replicate 16 0) key nonce).
Proof.
  unfold Hacl_Impl_Salsa20_init, Hacl_Impl_Salsa20_setup. rewrite !from_le_bytes_spec by done.
  cbn zeta. rewrite make_h32_16_spec by done. eexists _, _. reflexivity.
Qed.

Lemma salsa_update_spec key nonce st output plain ctr :
  cipher_state key nonce st -> bytes plain -> (64 <= length plain)%nat -> (64 <= length output)%nat ->
  word 64 ctr ->
  exists st', cipher_state key nonce st' /\
    Hacl_Impl_Salsa20_update output plain st ctr =
    (blit output 0 (zip_with Z.lxor (take 64 plain) (Salsa20_Spec.block key nonce ctr)), st').
Proof.
  intros (x & y & ->) Hp Hpl Hol Hctr. unfold Hacl_Impl_Salsa20_update. cbn zeta.
  rewrite core_spec by (done || apply length_words). cbn zeta.
  set (st := Salsa20_Spec.expand _ _). rewrite from_le_bytes_spec by done.
  eexists. split; [eexists _, _; reflexivity|]. f_equal.
  assert (Lc : length (Salsa20_Spec.core st) = 16%nat) by (apply length_core; reflexivity).
  rewrite (xor16_loop plain _ _ Lc) by done.
  rewrite to_le_bytes_spec, take_ge by (rewrite ?length_zip_with, ?length_words, ?Lc; lia). f_equal.
  unfold words at 1. rewrite (xor_words 16 0) by (done || lia).
  unfold Salsa20_Spec.block. rewrite (wrap_small 64) by done. reflexivity.
Qed.

Lemma salsa_update_last_spec key nonce st output plain n ctr :
  cipher_state key nonce st -> (n <= 64)%nat -> (n <= length plain)%nat -> (n <= length output)%nat ->
  word 64 ctr ->
  fst (Hacl_Impl_Salsa20_update_last output plain n st ctr) =
  blit output 0 (zip_with Z.lxor (take n plain) (Salsa20_Spec.block key nonce ctr)).
Proof.
  intros (x & y & ->) Hn Hpl Hol Hctr.
  unfold Hacl_Impl_Salsa20_update_last, Hacl_Impl_Salsa20_salsa20_block. cbn zeta.
  rewrite core_spec by (done || apply length_words). cbn zeta. set (st := Salsa20_Spec.expand _ _).
  assert (Lc : length (Salsa20_Spec.core st) = 16%nat) by (apply length_core; reflexivity).
  rewrite to_le_bytes_spec, take_ge by (rewrite ?Lc; cbn; lia).
  rewrite blit_0_exact by (rewrite length_unwords, Lc; done).
  assert (Eb : Salsa20_Spec.block key nonce ctr = unwords (Salsa20_Spec.core st))
    by (unfold Salsa20_Spec.block; rewrite (wrap_small 64) by done; reflexivity).
  rewrite <- Eb. cbn [fst]. apply xor_loop; rewrite ?length_salsa_block; done.
Qed.

(** Salsa20 implements the block-cipher interface, with a 64-bit counter. *)
Definition salsa_cipher (key nonce : list Z) : BlockCipher (list Z) := {|
  width := 64;
  inv := cipher_state key nonce;
  block := Salsa20_Spec.block key nonce;
  update := Hacl_Impl_Salsa20_update;
  update_last := Hacl_Impl_Salsa20_update_last;
  width_nonneg := ltac:(lia);
  block_length := length_salsa_block key nonce;
  block_wrap := salsa_block_wrap key nonce;
  update_ok := salsa_update_spec key nonce;
  update_last_ok := salsa_update_last_spec key nonce
|}.

(** The whole cipher. *)
Lemma salsa20_spec output plain key nonce ctr :
  bytes plain -> (length plain <= length output)%nat -> Z.of_nat (length plain) < 2 ^ 32 ->
  Hacl_Salsa20_salsa20 output plain (Z.of_nat (length plain)) key nonce ctr =
  blit output 0 (Salsa20_Spec.encrypt key nonce ctr plain).
Proof.
  intros Hb Ho Hlen. exact (counter_mode_spec (salsa_cipher key nonce) _ output plain ctr
    (init_state key nonce) Hb Ho Hlen).
Qed.

(** Encrypting in place gives the same bytes. *)
Lemma update_last_inplace_spec buf len st ctr : (len <= length buf)%nat ->
  Hacl_Impl_Salsa20_update_last_inplace buf len st ctr = Hacl_Impl_Salsa20_update_last buf buf len st ctr.
Proof.
  intros H. unfold Hacl_Impl_Salsa20_update_last_inplace, Hacl_Impl_Salsa20_update_last.
  destruct (Hacl_Impl_Salsa20_salsa20_block _ _ _) as [b st']. cbv zeta. now rewrite xor_loop_inplace.
Qed.

Lemma salsa20_inplace_spec buf key nonce ctr : bytes buf -> Z.of_nat (length buf) < 2 ^ 32 ->
  Hacl_Salsa20_salsa20_inplace buf (Z.of_nat (length buf)) key nonce ctr =
  Hacl_Salsa20_salsa20 buf buf (Z.of_nat (length buf)) key nonce ctr.
Proof.
  intros Hb Hl. unfold Hacl_Salsa20_salsa20_inplace, Hacl_Salsa20_salsa20, Hacl_Impl_Salsa20_salsa20,
    Hacl_Impl_Salsa20_salsa20_counter_mode.
  set (n := Z.to_nat (wshr (Z.of_nat (length buf)) 6)).
  pose proof (init_state key nonce) as Hst. set (st := Hacl_Impl_Salsa20_init _ key nonce) in *.
  assert (Hq : 0 <= wshr (Z.of_nat (length buf)) 6 <= Z.of_nat (length buf))
    by (rewrite wshr_div by lia; Z.div_mod_to_equations; lia).
  assert (Hn : (64 * n <= length buf)%nat)
    by (subst n; rewrite wshr_div in * by lia; Z.div_mod_to_equations; lia).
  pose proof (blocks_inplace_spec (salsa_cipher key nonce) st buf n ctr Hst Hb Hn) as E.
  change (Hacl_Impl_Salsa20_salsa20_counter_mode_blocks_inplace buf n st ctr =
          Hacl_Impl_Salsa20_salsa20_counter_mode_blocks buf buf n st ctr) in E. rewrite E. clear E.
  destruct (counter_mode_blocks_spec (salsa_cipher key nonce) st buf buf n ctr Hst Hb Hn Hn) as (st' & _ & E).
  change (counter_mode_blocks _ buf buf n st ctr)
    with (Hacl_Impl_Salsa20_salsa20_counter_mode_blocks buf buf n st ctr) in E. rewrite E. clear E.
  set (pre := zip_with _ _ _).
  assert (Lp : length pre = (64 * n)%nat).
  { subst pre. rewrite length_zip_with, length_take, length_keystream by apply length_salsa_block. lia. }
  assert (Eo : Z.to_nat (wmul 32 64 (wshr (Z.of_nat (length buf)) 6)) = (64 * n)%nat).
  { subst n. rewrite wmul_small; [lia|]. rewrite wshr_div in * by lia. Z.div_mod_to_equations; lia. }
  rewrite Eo, drop_app_length' by done. cbv zeta. destruct (Z.ltb_spec 0 (Z.land (Z.of_nat (length buf)) 63)) as [Hr|]; [|done].
  rewrite update_last_inplace_spec; [now destruct (Hacl_Impl_Salsa20_update_last _ _ _ _ _)|].
  rewrite length_drop. subst n. rewrite (Z_land_ones_lit _ 63 6), wshr_div in * by (done || lia).
  Z.div_mod_to_equations. lia.
Qed.

Lemma hsalsa20_spec output key nonce : (32 <= length output)%nat ->
  Hacl_Salsa20_hsalsa20 output key nonce = blit output 0 (Salsa20_Spec.hsalsa key nonce).
Proof.
  intros Ho. unfold Hacl_Salsa20_hsalsa20, Hacl_Impl_HSalsa20_crypto_core_hsalsa20,
    Hacl_Impl_HSalsa20_setup. cbn zeta. rewrite !from_le_bytes_spec by done.
  rewrite make_h32_16_spec by done.
  set (st := [_; _; _; _; _; _; _; _; _; _; _; _; _; _; _; _]).
  change st with (Salsa20_Spec.expand (words 8 key) (words 4 nonce)).
  destruct (rounds_spec (Salsa20_Spec.expand (words 8 key) (words 4 nonce)))
    as [-> _]; [done|].
  unfold Salsa20_Spec.hsalsa. set (z := Salsa20_Spec.rounds _). clearbody z.
  rewrite to_le_bytes_spec by (done || lia). reflexivity.
Qed.

Lemma length_hsalsa key input : length (Salsa20_Spec.hsalsa key input) = 32%nat.
Proof. reflexivity. Qed.

Lemma bytes_hsalsa key input : bytes (Salsa20_Spec.hsalsa key input).
Proof. apply bytes_unwords. Qed.

Lemma length_encrypt key nonce ctr m : length (Salsa20_Spec.encrypt key nonce ctr m) = length m.
Proof. apply length_xor_stream, length_salsa_block. Qed.

Lemma bytes_encrypt key nonce ctr m : bytes m -> bytes (Salsa20_Spec.encrypt key nonce ctr m).
Proof. apply bytes_xor_stream. intros c. apply bytes_unwords. Qed.

Lemma encrypt_take key nonce ctr n m :
  take n (Salsa20_Spec.encrypt key nonce ctr m) = Salsa20_Spec.encrypt key nonce ctr (take n m).
Proof. apply xor_stream_take, length_salsa_block. Qed.

Lemma encrypt_involutive key nonce ctr m :
  Salsa20_Spec.encrypt key nonce ctr (Salsa20_Spec.encrypt key nonce ctr m) = m.
Proof. apply xor_stream_involutive, length_salsa_block. Qed.

End Refinement.

(** ** Main results *)

(** C14: [Hacl_Salsa20_salsa20] writes the message xored with the Salsa20 key
    stream from block [ctr] on, whole blocks and partial last block alike, and leaves
    the rest of the output alone, for every message shorter than 4 GiB. *)
Theorem salsa20_refines output plain key nonce ctr :
  bytes plain -> (length plain <= length output)%nat -> Z.of_nat (length plain) < 2 ^ 32 ->
  Salsa20.Hacl_Salsa20_salsa20 output plain (Z.of_nat (length plain)) key nonce ctr =
  Salsa20_Spec.encrypt key nonce ctr plain ++ drop (length plain) output.
Proof. intros. rewrite salsa20_spec by done. unfold blit. now rewrite length_encrypt. Qed.

(** C15: encrypting in place (output and plain text one buffer, each byte
    overwritten as it is read) gives what encrypting into a separate buffer gives, and
    doing it twice gives the buffer back. *)
Theorem salsa20_inplace_involutive buf key nonce ctr :
  bytes buf -> Z.of_nat (length buf) < 2 ^ 32 ->
  let len := Z.of_nat (length buf) in
  let buf' := Salsa20.Hacl_Salsa20_salsa20_inplace buf len key nonce ctr in
  (forall output, length output = length buf -> buf' = Salsa20.Hacl_Salsa20_salsa20 output buf len key nonce ctr) /\
  Salsa20.Hacl_Salsa20_salsa20_inplace buf' len key nonce ctr = buf.
Proof.
  intros Hb Hl. cbv zeta.
  assert (E : Salsa20.Hacl_Salsa20_salsa20_inplace buf (Z.of_nat (length buf)) key nonce ctr =
              Salsa20_Spec.encrypt key nonce ctr buf).
  { rewrite salsa20_inplace_spec, salsa20_spec by done. apply blit_0_exact. now rewrite length_encrypt. }
  rewrite E. split.
  - intros output Ho. rewrite salsa20_spec by (done || lia). symmetry. apply blit_0_exact. now rewrite length_encrypt.
  - pose proof (length_encrypt key nonce ctr buf) as L. rewrite <- L.
    rewrite salsa20_inplace_spec, salsa20_spec by (now apply bytes_encrypt || now rewrite L).
    rewrite encrypt_involutive. apply blit_0_exact. now rewrite L.
Qed.

(** [Hacl_Salsa20_hsalsa20] writes HSalsa20 of the key and the input to
    the first 32 bytes of the output. *)
Theorem hsalsa20_refines output key nonce : (32 <= length output)%nat ->
  Salsa20.Hacl_Salsa20_hsalsa20 output key nonce = Salsa20_Spec.hsalsa key nonce ++ drop 32 output.
Proof. intros. rewrite hsalsa20_spec by done. unfold blit. now rewrite length_hsalsa. Qed.

Lemma salsa20_refines_witness :
  Salsa20.Hacl_Salsa20_salsa20 (replicate 70 1) (replicate 67 5) 67 (replicate 32 2) (replicate 8 3) 0 =
  Salsa20_Spec.encrypt (replicate 32 2) (replicate 8 3) 0 (replicate 67 5) ++ replicate 3 1.
Proof.
  refine (salsa20_refines (replicate 70 1) (replicate 67 5) (replicate 32 2) (replicate 8 3) 0 _ _ _);
    [now apply bytes_replicate|simpl; lia|simpl; lia].
Defined.

Lemma salsa20_inplace_involutive_witness :
  let buf' := Salsa20.Hacl_Salsa20_salsa20_inplace (replicate 67 5) 67 (replicate 32 2) (replicate 8 3) 0 in
  Salsa20.Hacl_Salsa20_salsa20_inplace buf' 67 (replicate 32 2) (replicate 8 3) 0 = replicate 67 5.
Proof.
  refine (proj2 (salsa20_inplace_involutive (replicate 67 5) (replicate 32 2) (replicate 8 3) 0 _ _));
    [now apply bytes_replicate|simpl; lia].
Defined.

Lemma hsalsa20_refines_witness :
  Salsa20.Hacl_Salsa20_hsalsa20 (replicate 32 0) (replicate 32 2) (replicate 16 3) =
  Salsa20_Spec.hsalsa (replicate 32 2) (replicate 16 3) ++ [].
Proof. refine (hsalsa20_refines (replicate 32 0) (replicate 32 2) (replicate 16 3) _). simpl; lia. Defined.
