(* ===== verification/Chacha20.v ===== *)
(** * Chacha20: the stream cipher of Hacl_Chacha20.c

    The cipher of the AEAD construction.  The code is refined to the block
    function and the encryption of RFC 7539 through the counter-mode interface
    of [CounterMode]; the counter is the 32-bit word 12 of the state. *)

From stdpp Require Import base list numbers.
From Stdlib Require Import ZArith Lia.
From S2P Require Import Prelude Machine CounterMode.

Local Open Scope Z_scope.
Local Open Scope buf_scope.

(** ** The code *)

Module Chacha20.

Definition Hacl_Lib_LoadStore32_uint32s_from_le_bytes (output input : list Z) (len : nat) : list Z :=
  for_ 0 len (fun i output =>
    let inputi := load32_le input (4 * i) in
    output.[i <- inputi]) output.

Definition Hacl_Lib_LoadStore32_uint32s_to_le_bytes (output input : list Z) (len : nat) : list Z :=
  for_ 0 len (fun i output =>
    let hd1 := input.[i] in
    store32_le output (4 * i) hd1) output.

Definition Hacl_Impl_Chacha20_rotate_left (a s : Z) : Z := ((a << s) .| (a >> (32 - s)))%u32.

Definition Hacl_Impl_Chacha20_quarter_round (st : list Z) (a b c d : nat) : list Z :=
  let sa := st.[a] in
  let sb0 := st.[b] in
  let st := st.[a <- (sa + sb0)%u32] in
  let sd := st.[d] in
  let sa10 := st.[a] in
  let sda := (sd ^^ sa10)%u32 in
  let st := st.[d <- Hacl_Impl_Chacha20_rotate_left sda 16] in
  let sa0 := st.[c] in
  let sb1 := st.[d] in
  let st := st.[c <- (sa0 + sb1)%u32] in
  let sd0 := st.[b] in
  let sa11 := st.[c] in
  let sda0 := (sd0 ^^ sa11)%u32 in
  let st := st.[b <- Hacl_Impl_Chacha20_rotate_left sda0 12] in
  let sa2 := st.[a] in
  let sb2 := st.[b] in
  let st := st.[a <- (sa2 + sb2)%u32] in
  let sd1 := st.[d] in
  let sa12 := st.[a] in
  let sda1 := (sd1 ^^ sa12)%u32 in
  let st := st.[d <- Hacl_Impl_Chacha20_rotate_left sda1 8] in
  let sa3 := st.[c] in
  let sb := st.[d] in
  let st := st.[c <- (sa3 + sb)%u32] in
  let sd2 := st.[b] in
  let sa1 := st.[c] in
  let sda2 := (sd2 ^^ sa1)%u32 in
  st.[b <- Hacl_Impl_Chacha20_rotate_left sda2 7].

Definition Hacl_Impl_Chacha20_double_round (st : list Z) : list Z :=
  let st := Hacl_Impl_Chacha20_quarter_round st 0 4 8 12 in
  let st := Hacl_Impl_Chacha20_quarter_round st 1 5 9 13 in
  let st := Hacl_Impl_Chacha20_quarter_round st 2 6 10 14 in
  let st := Hacl_Impl_Chacha20_quarter_round st 3 7 11 15 in
  let st := Hacl_Impl_Chacha20_quarter_round st 0 5 10 15 in
  let st := Hacl_Impl_Chacha20_quarter_round st 1 6 11 12 in
  let st := Hacl_Impl_Chacha20_quarter_round st 2 7 8 13 in
  Hacl_Impl_Chacha20_quarter_round st 3 4 9 14.

Definition Hacl_Impl_Chacha20_rounds (st : list Z) : list Z :=
  for_ 0 10 (fun _ st => Hacl_Impl_Chacha20_double_round st) st.

Definition Hacl_Impl_Chacha20_sum_states (st st_ : list Z) : list Z :=
  for_ 0 16 (fun i st =>
    let xi := st.[i] in
    let yi := st_.[i] in
    st.[i <- (xi + yi)%u32]) st.

Definition Hacl_Impl_Chacha20_copy_state (st st_ : list Z) : list Z := blit st 0 (take 16 st_).

(** The key stream block goes to [k]; the counter word of [st] changes too. *)
Definition Hacl_Impl_Chacha20_chacha20_core (k st : list Z) (ctr : Z) : list Z * list Z :=
  let st := st.[12 <- ctr] in
  let k := Hacl_Impl_Chacha20_copy_state k st in
  let k := Hacl_Impl_Chacha20_rounds k in
  let k := Hacl_Impl_Chacha20_sum_states k st in
  (k, st).

Definition Hacl_Impl_Chacha20_chacha20_block (stream_block st : list Z) (ctr : Z) : list Z * list Z :=
  let st_ := replicate 16 0 in
  let '(st_, st) := Hacl_Impl_Chacha20_chacha20_core st_ st ctr in
  (Hacl_Lib_LoadStore32_uint32s_to_le_bytes stream_block st_ 16, st).

Definition Hacl_Impl_Chacha20_init (st k n1 : list Z) : list Z :=
  let st := st.[0 <- 0x61707865] in
  let st := st.[1 <- 0x3320646e] in
  let st := st.[2 <- 0x79622d32] in
  let st := st.[3 <- 0x6b206574] in
  let st := at_off st 4 (fun stk => Hacl_Lib_LoadStore32_uint32s_from_le_bytes stk k 8) in
  let st := at_off st 12 (fun stc => stc.[0 <- 0]) in
  at_off st 13 (fun stn => Hacl_Lib_LoadStore32_uint32s_from_le_bytes stn n1 3).

Definition Hacl_Impl_Chacha20_update (output plain st : list Z) (ctr : Z) : list Z * list Z :=
  let b := replicate 48 0 in
  let k := slice b 0 16 in
  let ib := slice b 16 16 in
  let ob := slice b 32 16 in
  let '(k, st) := Hacl_Impl_Chacha20_chacha20_core k st ctr in
  let ib := Hacl_Lib_LoadStore32_uint32s_from_le_bytes ib plain 16 in
  let ob := for_ 0 16 (fun i ob =>
    let xi := ib.[i] in
    let yi := k.[i] in
    ob.[i <- (xi ^^ yi)%u32]) ob in
  (Hacl_Lib_LoadStore32_uint32s_to_le_bytes output ob 16, st).

Definition Hacl_Impl_Chacha20_update_last (output plain : list Z) (len : nat) (st : list Z) (ctr : Z)
    : list Z * list Z :=
  let block := replicate 64 0 in
  let '(block, st) := Hacl_Impl_Chacha20_chacha20_block block st ctr in
  let mask := block in
  let output := for_ 0 len (fun i output =>
    let xi := plain.[i] in
    let yi := mask.[i] in
    output.[i <- (xi ^^ yi)%u8]) output in
  (output, st).

Definition Hacl_Impl_Chacha20_chacha20_counter_mode_blocks
    (output plain : list Z) (num_blocks : nat) (st : list Z) (ctr : Z) : list Z * list Z :=
  for_ 0 num_blocks (fun i '(output, st) =>
    let b := drop (64 * i) plain in
    let o := drop (64 * i) output in
    let '(o, st) := Hacl_Impl_Chacha20_update o b st (ctr + Z.of_nat i)%u32 in
    (take (64 * i) output ++ o, st)) (output, st).

Definition Hacl_Impl_Chacha20_chacha20_counter_mode
    (output plain : list Z) (len : Z) (st : list Z) (ctr : Z) : list Z * list Z :=
  let blocks_len := (len >> 6)%u32 in
  let part_len := (len & 0x3f)%u32 in
  let off := Z.to_nat (64 * blocks_len)%u32 in
  let plain__ := drop off plain in
  let '(output, st) :=
    Hacl_Impl_Chacha20_chacha20_counter_mode_blocks output plain (Z.to_nat blocks_len) st ctr in
  if 0 <? part_len then
    let '(o, st) := Hacl_Impl_Chacha20_update_last (drop off output) plain__ (Z.to_nat part_len) st
                      (ctr + blocks_len)%u32 in
    (take off output ++ o, st)
  else (output, st).

Definition Hacl_Impl_Chacha20_chacha20
    (output plain : list Z) (len : Z) (k n1 : list Z) (ctr : Z) : list Z :=
  let st := replicate 16 0 in
  let st := Hacl_Impl_Chacha20_init st k n1 in
  fst (Hacl_Impl_Chacha20_chacha20_counter_mode output plain len st ctr).

Definition Hacl_Chacha20_chacha20_key_block (block k n1 : list Z) (ctr : Z) : list Z :=
  let st := replicate 16 0 in
  let st := Hacl_Impl_Chacha20_init st k n1 in
  fst (Hacl_Impl_Chacha20_chacha20_block block st ctr).

Definition Hacl_Chacha20_chacha20
    (output plain : list Z) (len : Z) (k n1 : list Z) (ctr : Z) : list Z :=
  Hacl_Impl_Chacha20_chacha20 output plain len k n1 ctr.

End Chacha20.

(** ** Specification: RFC 7539, sections 2.1 to 2.4 *)

Module Chacha20_Spec.

Definition rotl (x n : Z) : Z := Z.lor (wshl 32 x n) (wshr x (32 - n)).

Definition quarterround (x : Z * Z * Z * Z) : Z * Z * Z * Z :=
  let '(a, b, c, d) := x in
  let a := wadd 32 a b in let d := rotl (Z.lxor d a) 16 in
  let c := wadd 32 c d in let b := rotl (Z.lxor b c) 12 in
  let a := wadd 32 a b in let d := rotl (Z.lxor d a) 8 in
  let c := wadd 32 c d in let b := rotl (Z.lxor b c) 7 in
  (a, b, c, d).

Definition columnround (x : list Z) : list Z :=
  let '(y0, y4, y8, y12) := quarterround (x.[0], x.[4], x.[8], x.[12]) in
  let '(y1, y5, y9, y13) := quarterround (x.[1], x.[5], x.[9], x.[13]) in
  let '(y2, y6, y10, y14) := quarterround (x.[2], x.[6], x.[10], x.[14]) in
  let '(y3, y7, y11, y15) := quarterround (x.[3], x.[7], x.[11], x.[15]) in
  [y0; y1; y2; y3; y4; y5; y6; y7; y8; y9; y10; y11; y12; y13; y14; y15].

Definition diagonalround (y : list Z) : list Z :=
  let '(z0, z5, z10, z15) := quarterround (y.[0], y.[5], y.[10], y.[15]) in
  let '(z1, z6, z11, z12) := quarterround (y.[1], y.[6], y.[11], y.[12]) in
  let '(z2, z7, z8, z13) := quarterround (y.[2], y.[7], y.[8], y.[13]) in
  let '(z3, z4, z9, z14) := quarterround (y.[3], y.[4], y.[9], y.[14]) in
  [z0; z1; z2; z3; z4; z5; z6; z7; z8; z9; z10; z11; z12; z13; z14; z15].

Definition doubleround (x : list Z) : list Z := diagonalround (columnround x).
Definition rounds (x : list Z) : list Z := Nat.iter 10 doubleround x.
Definition core (x : list Z) : list Z := zip_with (wadd 32) (rounds x) x.

(** Constants, key, counter, nonce. *)
Definition setup (k : list Z) (ctr : Z) (n : list Z) : list Z :=
  [0x61707865; 0x3320646e; 0x79622d32; 0x6b206574] ++ k ++ [ctr] ++ n.

Definition block (key nonce : list Z) (ctr : Z) : list Z :=
  unwords (core (setup (words 8 key) (wrap 32 ctr) (words 3 nonce))).

Definition encrypt (key nonce : list Z) (ctr : Z) (m : list Z) : list Z :=
  xor_stream (block key nonce) ctr m.

End Chacha20_Spec.

Arguments Chacha20_Spec.rounds : simpl never.
Arguments Chacha20_Spec.core : simpl never.
Arguments Chacha20_Spec.block : simpl never.
Arguments Chacha20_Spec.encrypt : simpl never.

(** ** Refinement *)

Section Refinement.
Import Chacha20.

Lemma chacha_double_round_spec st : length st = 16%nat ->
  Hacl_Impl_Chacha20_double_round st = Chacha20_Spec.doubleround st.
Proof.
  intros H. destruct_list st. cbv -[wadd wshl wshr Z.lor Z.lxor]. reflexivity.
Qed.

Lemma chacha_rounds_iter n st : length st = 16%nat ->
  Nat.iter n Hacl_Impl_Chacha20_double_round st = Nat.iter n Chacha20_Spec.doubleround st /\
  length (Nat.iter n Chacha20_Spec.doubleround st) = 16%nat.
Proof.
  intros H. induction n as [|n [IH1 IH2]]; [done|]. split; [|reflexivity].
  change (Hacl_Impl_Chacha20_double_round (Nat.iter n Hacl_Impl_Chacha20_double_round st) =
          Chacha20_Spec.doubleround (Nat.iter n Chacha20_Spec.doubleround st)).
  rewrite IH1. now apply chacha_double_round_spec.
Qed.

Lemma chacha_rounds_spec st : length st = 16%nat ->
  Hacl_Impl_Chacha20_rounds st = Chacha20_Spec.rounds st /\ length (Chacha20_Spec.rounds st) = 16%nat.
Proof.
  intros H. unfold Hacl_Impl_Chacha20_rounds, Chacha20_Spec.rounds. rewrite for_iter.
  now apply chacha_rounds_iter.
Qed.

Lemma length_chacha_core st : length st = 16%nat -> length (Chacha20_Spec.core st) = 16%nat.
Proof. intros H. unfold Chacha20_Spec.core. now rewrite length_zip_with, H, (proj2 (chacha_rounds_spec st H)). Qed.

Lemma length_chacha_block key nonce ctr : length (Chacha20_Spec.block key nonce ctr) = 64%nat.
Proof. unfold Chacha20_Spec.block. now rewrite length_unwords, length_chacha_core. Qed.

Lemma chacha_block_wrap key nonce ctr : Chacha20_Spec.block key nonce (wrap 32 ctr) = Chacha20_Spec.block key nonce ctr.
Proof. unfold Chacha20_Spec.block, wrap. now rewrite Z.mod_mod by lia. Qed.

(** The states that occur while a message is processed. *)
Definition chacha_state (key nonce st : list Z) : Prop :=
  exists x, st = Chacha20_Spec.setup (words 8 key) x (words 3 nonce).

Lemma chacha_init_state key nonce :
  chacha_state key nonce (Hacl_Impl_Chacha20_init (replicate 16 0) key nonce).
Proof. eexists. reflexivity. Qed.

Lemma chacha_core_spec k key nonce st ctr : length k = 16%nat -> chacha_state key nonce st ->
  Hacl_Impl_Chacha20_chacha20_core k st ctr =
  (Chacha20_Spec.core (Chacha20_Spec.setup (words 8 key) ctr (words 3 nonce)),
   Chacha20_Spec.setup (words 8 key) ctr (words 3 nonce)).
Proof.
  intros Hk [x ->]. unfold Hacl_Impl_Chacha20_chacha20_core, Hacl_Impl_Chacha20_copy_state.
  change ((Chacha20_Spec.setup (words 8 key) x (words 3 nonce)).[12 <- ctr])
    with (Chacha20_Spec.setup (words 8 key) ctr (words 3 nonce)).
  set (st := Chacha20_Spec.setup _ _ _). change (take 16 st) with st.
  rewrite blit_0_exact by (now rewrite Hk).
  destruct (chacha_rounds_spec st) as [-> Hr]; [done|].
  unfold Hacl_Impl_Chacha20_sum_states. cbv zeta. now rewrite sum16_loop.
Qed.

Lemma chacha_block_spec key nonce st block ctr :
  chacha_state key nonce st -> (64 <= length block)%nat -> word 32 ctr ->
  fst (Hacl_Impl_Chacha20_chacha20_block block st ctr) = blit block 0 (Chacha20_Spec.block key nonce ctr).
Proof.
  intros Hst Hb Hctr. unfold Hacl_Impl_Chacha20_chacha20_block.
  rewrite (chacha_core_spec (replicate 16 0) _ _ _ _ eq_refl Hst). cbn [fst].
  assert (Lc : length (Chacha20_Spec.core (Chacha20_Spec.setup (words 8 key) ctr (words 3 nonce))) = 16%nat)
    by now apply length_chacha_core.
  unfold Hacl_Lib_LoadStore32_uint32s_to_le_bytes. cbv zeta.
  rewrite store_loop, take_ge by lia. unfold Chacha20_Spec.block. now rewrite wrap_small.
Qed.

Lemma chacha_update_spec key nonce st output plain ctr :
  chacha_state key nonce st -> bytes plain -> (64 <= length plain)%nat -> (64 <= length output)%nat ->
  word 32 ctr ->
  exists st', chacha_state key nonce st' /\
    Hacl_Impl_Chacha20_update output plain st ctr =
    (blit output 0 (zip_with Z.lxor (take 64 plain) (Chacha20_Spec.block key nonce ctr)), st').
Proof.
  intros Hst Hp Hpl Hol Hctr. unfold Hacl_Impl_Chacha20_update.
  rewrite (chacha_core_spec (slice (replicate 48 0) 0 16) _ _ _ _ eq_refl Hst).
  eexists. split; [eexists; reflexivity|]. f_equal. set (st' := Chacha20_Spec.setup _ _ _).
  assert (Lc : length (Chacha20_Spec.core st') = 16%nat) by now apply length_chacha_core.
  unfold Hacl_Lib_LoadStore32_uint32s_from_le_bytes, Hacl_Lib_LoadStore32_uint32s_to_le_bytes. cbv zeta.
  rewrite load_loop, (xor16_loop plain _ _ Lc) by done.
  rewrite store_loop, take_ge by (rewrite ?length_zip_with, ?length_words, ?Lc; lia). f_equal.
  unfold words at 1. rewrite (xor_words 16 0) by (done || lia).
  unfold Chacha20_Spec.block. now rewrite (wrap_small 32).
Qed.

Lemma chacha_update_last_spec key nonce st output plain n ctr :
  chacha_state key nonce st -> (n <= 64)%nat -> (n <= length plain)%nat -> (n <= length output)%nat ->
  word 32 ctr ->
  fst (Hacl_Impl_Chacha20_update_last output plain n st ctr) =
  blit output 0 (zip_with Z.lxor (take n plain) (Chacha20_Spec.block key nonce ctr)).
Proof.
  intros Hst Hn Hpl Hol Hctr. unfold Hacl_Impl_Chacha20_update_last.
  pose proof (chacha_block_spec key nonce st (replicate 64 0) ctr Hst ltac:(done) Hctr) as E.
  destruct (Hacl_Impl_Chacha20_chacha20_block _ _ _) as [b st']. cbn [fst] in E |- *. rewrite E.
  rewrite blit_0_exact by (now rewrite length_chacha_block).
  apply xor_loop; rewrite ?length_chacha_block; done.
Qed.

(** Chacha20 implements the block-cipher interface, with a 32-bit counter. *)
Definition chacha_cipher (key nonce : list Z) : BlockCipher (list Z) := {|
  width := 32;
  inv := chacha_state key nonce;
  block := Chacha20_Spec.block key nonce;
  update := Hacl_Impl_Chacha20_update;
  update_last := Hacl_Impl_Chacha20_update_last;
  width_nonneg := ltac:(lia);
  block_length := length_chacha_block key nonce;
  block_wrap := chacha_block_wrap key nonce;
  update_ok := chacha_update_spec key nonce;
  update_last_ok := chacha_update_last_spec key nonce
|}.

Lemma chacha20_spec output plain key nonce ctr :
  bytes plain -> (length plain <= length output)%nat -> Z.of_nat (length plain) < 2 ^ 32 ->
  Hacl_Chacha20_chacha20 output plain (Z.of_nat (length plain)) key nonce ctr =
  blit output 0 (Chacha20_Spec.encrypt key nonce ctr plain).
Proof.
  intros Hb Ho Hlen. exact (counter_mode_spec (chacha_cipher key nonce) _ output plain ctr
    (chacha_init_state key nonce) Hb Ho Hlen).
Qed.

Lemma chacha20_key_block_spec block key nonce ctr : (64 <= length block)%nat -> word 32 ctr ->
  Hacl_Chacha20_chacha20_key_block block key nonce ctr = blit block 0 (Chacha20_Spec.block key nonce ctr).
Proof. intros. apply chacha_block_spec; [apply chacha_init_state|done..]. Qed.

Lemma length_chacha_encrypt key nonce ctr m : length (Chacha20_Spec.encrypt key nonce ctr m) = length m.
Proof. apply length_xor_stream, length_chacha_block. Qed.

Lemma bytes_chacha_encrypt key nonce ctr m : bytes m -> bytes (Chacha20_Spec.encrypt key nonce ctr m).
Proof. apply bytes_xor_stream. intros c. apply bytes_unwords. Qed.

Lemma chacha_encrypt_involutive key nonce ctr m :
  Chacha20_Spec.encrypt key nonce ctr (Chacha20_Spec.encrypt key nonce ctr m) = m.
Proof. apply xor_stream_involutive, length_chacha_block. Qed.

End Refinement.

(** ** Main results *)

(** C19: [Hacl_Chacha20_chacha20] writes the message xored with the ChaCha20
    key stream (RFC 7539) from block [ctr] on, and leaves the rest of the output
    alone; [Hacl_Chacha20_chacha20_key_block] writes one block of that stream. *)
Theorem chacha20_refines output plain key nonce ctr block :
  bytes plain -> (length plain <= length output)%nat -> Z.of_nat (length plain) < 2 ^ 32 ->
  (64 <= length block)%nat -> word 32 ctr ->
  Chacha20.Hacl_Chacha20_chacha20 output plain (Z.of_nat (length plain)) key nonce ctr =
    Chacha20_Spec.encrypt key nonce ctr plain ++ drop (length plain) output /\
  Chacha20.Hacl_Chacha20_chacha20_key_block block key nonce ctr =
    blit block 0 (Chacha20_Spec.block key nonce ctr).
Proof.
  intros. split; [|now apply chacha20_key_block_spec].
  rewrite chacha20_spec by done. unfold blit. now rewrite length_chacha_encrypt.
Qed.

Lemma chacha20_refines_witness :
  Chacha20.Hacl_Chacha20_chacha20 (replicate 70 1) (replicate 67 5) 67 (replicate 32 2) (replicate 12 3) 1 =
    Chacha20_Spec.encrypt (replicate 32 2) (replicate 12 3) 1 (replicate 67 5) ++ replicate 3 1 /\
  Chacha20.Hacl_Chacha20_chacha20_key_block (replicate 64 0) (replicate 32 2) (replicate 12 3) 1 =
    blit (replicate 64 0) 0 (Chacha20_Spec.block (replicate 32 2) (replicate 12 3) 1).
Proof.
  refine (chacha20_refines (replicate 70 1) (replicate 67 5) (replicate 32 2) (replicate 12 3) 1 (replicate 64 0) _ _ _ _ _);
    [now apply bytes_replicate|simpl; lia|simpl; lia|simpl; lia|unfold word; lia].
Defined.
