(* ===== verification/Curve25519.v ===== *)
(** * Curve25519: the code of Hacl_Curve25519.c

    Field elements are five 64-bit limbs of 51 bits, points are two field
    elements (X and Z) in one ten-limb buffer.  The file holds the model of
    the code; [FieldProofs] and [LadderProofs] refine it to arithmetic modulo
    2^255 - 19.

    Functions that write several buffers return them all.  The scratch arrays
    of the C code are split into the disjoint parts its pointers designate;
    the source unrolls the loops that are written here with [for_]. *)

From stdpp Require Import base list numbers.
From Stdlib Require Import ZArith Lia.
From S2P Require Import Prelude Machine UInt128.

Local Open Scope Z_scope.
Local Open Scope buf_scope.

Module Curve25519.
Section Code.
Context {T : Type} {U128Ops : UInt128Ops T}.

(** ** Field arithmetic *)

Definition Hacl_Bignum_Modulo_carry_top (b : list Z) : list Z :=
  let b4 := b.[4] in
  let b0 := b.[0] in
  let b4_ := (b4 & 0x7ffffffffffff)%u64 in
  let b0_ := (b0 + 19 * (b4 >> 51))%u64 in
  let b := b.[4 <- b4_] in
  b.[0 <- b0_].

Definition Hacl_Bignum_Fproduct_copy_from_wide_ (output : list Z) (input : list T) : list Z :=
  for_ 0 5 (fun i output =>
    let xi := input.[i] in
    output.[i <- u128_to_u64 xi]) output.

Definition Hacl_Bignum_Fproduct_sum_scalar_multiplication_
    (output : list T) (input : list Z) (s : Z) : list T :=
  for_ 0 5 (fun i output =>
    let xi := output.[i] in
    let yi := input.[i] in
    output.[i <- u128_add_mod xi (u128_mul_wide yi s)]) output.

Definition Hacl_Bignum_Fproduct_carry_wide_ (tmp : list T) : list T :=
  for_ 0 4 (fun ctr tmp =>
    let tctr := tmp.[ctr] in
    let tctrp1 := tmp.[ctr + 1] in
    let r0 := (u128_to_u64 tctr & 0x7ffffffffffff)%u64 in
    let c := u128_shift_right tctr 51 in
    let tmp := tmp.[ctr <- u128_of_u64 r0] in
    tmp.[ctr + 1 <- u128_add tctrp1 c]) tmp.

Definition Hacl_Bignum_Fmul_shift_reduce (output : list Z) : list Z :=
  let tmp := output.[4] in
  let output := for_ 0 4 (fun i output =>
    let ctr := (5 - i - 1)%nat in
    let z := output.[ctr - 1] in
    output.[ctr <- z]) output in
  let output := output.[0 <- tmp] in
  let b0 := output.[0] in
  output.[0 <- (19 * b0)%u64].

Definition Hacl_Bignum_Fmul_mul_shift_reduce_
    (output : list T) (input input21 : list Z) : list T * list Z :=
  let '(output, input) := for_ 0 4 (fun i '(output, input) =>
    let input2i := input21.[i] in
    let output := Hacl_Bignum_Fproduct_sum_scalar_multiplication_ output input input2i in
    let input := Hacl_Bignum_Fmul_shift_reduce input in
    (output, input)) (output, input) in
  let i := 4%nat in
  let input2i := input21.[i] in
  (Hacl_Bignum_Fproduct_sum_scalar_multiplication_ output input input2i, input).

Definition Hacl_Bignum_Fmul_fmul (output input input21 : list Z) : list Z :=
  let tmp := take 5 input in
  let t := replicate 5 (u128_of_u64 0) in
  let '(t, tmp) := Hacl_Bignum_Fmul_mul_shift_reduce_ t tmp input21 in
  let t := Hacl_Bignum_Fproduct_carry_wide_ t in
  let b4 := t.[4] in
  let b0 := t.[0] in
  let b4_ := u128_logand b4 (u128_of_u64 0x7ffffffffffff) in
  let b0_ := u128_add b0 (u128_mul_wide 19 (u128_to_u64 (u128_shift_right b4 51))) in
  let t := t.[4 <- b4_] in
  let t := t.[0 <- b0_] in
  let output := Hacl_Bignum_Fproduct_copy_from_wide_ output t in
  let i0 := output.[0] in
  let i1 := output.[1] in
  let i0_ := (i0 & 0x7ffffffffffff)%u64 in
  let i1_ := (i1 + (i0 >> 51))%u64 in
  let output := output.[0 <- i0_] in
  output.[1 <- i1_].

Definition Hacl_Bignum_Fsquare_fsquare__ (tmp : list T) (output : list Z) : list T :=
  let r0 := output.[0] in
  let r1 := output.[1] in
  let r2 := output.[2] in
  let r3 := output.[3] in
  let r4 := output.[4] in
  let d0 := (r0 * 2)%u64 in
  let d1 := (r1 * 2)%u64 in
  let d2 := (r2 * 2 * 19)%u64 in
  let d419 := (r4 * 19)%u64 in
  let d4 := (d419 * 2)%u64 in
  let s0 := u128_add (u128_add (u128_mul_wide r0 r0) (u128_mul_wide d4 r1)) (u128_mul_wide d2 r3) in
  let s1 := u128_add (u128_add (u128_mul_wide d0 r1) (u128_mul_wide d4 r2))
                     (u128_mul_wide (r3 * 19)%u64 r3) in
  let s2 := u128_add (u128_add (u128_mul_wide d0 r2) (u128_mul_wide r1 r1)) (u128_mul_wide d4 r3) in
  let s3 := u128_add (u128_add (u128_mul_wide d0 r3) (u128_mul_wide d1 r2)) (u128_mul_wide r4 d419) in
  let s4 := u128_add (u128_add (u128_mul_wide d0 r4) (u128_mul_wide d1 r3)) (u128_mul_wide r2 r2) in
  let tmp := tmp.[0 <- s0] in
  let tmp := tmp.[1 <- s1] in
  let tmp := tmp.[2 <- s2] in
  let tmp := tmp.[3 <- s3] in
  tmp.[4 <- s4].

Definition Hacl_Bignum_Fsquare_fsquare_ (tmp : list T) (output : list Z) : list T * list Z :=
  let tmp := Hacl_Bignum_Fsquare_fsquare__ tmp output in
  let tmp := Hacl_Bignum_Fproduct_carry_wide_ tmp in
  let b4 := tmp.[4] in
  let b0 := tmp.[0] in
  let b4_ := u128_logand b4 (u128_of_u64 0x7ffffffffffff) in
  let b0_ := u128_add b0 (u128_mul_wide 19 (u128_to_u64 (u128_shift_right b4 51))) in
  let tmp := tmp.[4 <- b4_] in
  let tmp := tmp.[0 <- b0_] in
  let output := Hacl_Bignum_Fproduct_copy_from_wide_ output tmp in
  let i0 := output.[0] in
  let i1 := output.[1] in
  let i0_ := (i0 & 0x7ffffffffffff)%u64 in
  let i1_ := (i1 + (i0 >> 51))%u64 in
  let output := output.[0 <- i0_] in
  let output := output.[1 <- i1_] in
  (tmp, output).

Definition Hacl_Bignum_Fsquare_fsquare_times_ (input : list Z) (tmp : list T) (count1 : nat)
    : list Z * list T :=
  let '(tmp, input) := Hacl_Bignum_Fsquare_fsquare_ tmp input in
  for_ 1 count1 (fun _ '(input, tmp) =>
    let '(tmp, input) := Hacl_Bignum_Fsquare_fsquare_ tmp input in (input, tmp)) (input, tmp).

Definition Hacl_Bignum_Fsquare_fsquare_times (output input : list Z) (count1 : nat) : list Z :=
  let t := replicate 5 (u128_of_u64 0) in
  let output := blit output 0 (take 5 input) in
  fst (Hacl_Bignum_Fsquare_fsquare_times_ output t count1).

Definition Hacl_Bignum_Fsquare_fsquare_times_inplace (output : list Z) (count1 : nat) : list Z :=
  let t := replicate 5 (u128_of_u64 0) in
  fst (Hacl_Bignum_Fsquare_fsquare_times_ output t count1).

Definition Hacl_Bignum_Crecip_crecip (out z : list Z) : list Z :=
  let buf := replicate 20 0 in
  let a := slice buf 0 5 in
  let t00 := slice buf 5 5 in
  let b0 := slice buf 10 5 in
  let c0 := slice buf 15 5 in
  let a := Hacl_Bignum_Fsquare_fsquare_times a z 1 in
  let t00 := Hacl_Bignum_Fsquare_fsquare_times t00 a 2 in
  let b0 := Hacl_Bignum_Fmul_fmul b0 t00 z in
  let a := Hacl_Bignum_Fmul_fmul a b0 a in
  let t00 := Hacl_Bignum_Fsquare_fsquare_times t00 a 1 in
  let b0 := Hacl_Bignum_Fmul_fmul b0 t00 b0 in
  let t01 := Hacl_Bignum_Fsquare_fsquare_times t00 b0 5 in
  let b1 := Hacl_Bignum_Fmul_fmul b0 t01 b0 in
  let t01 := Hacl_Bignum_Fsquare_fsquare_times t01 b1 10 in
  let c0 := Hacl_Bignum_Fmul_fmul c0 t01 b1 in
  let t01 := Hacl_Bignum_Fsquare_fsquare_times t01 c0 20 in
  let t01 := Hacl_Bignum_Fmul_fmul t01 t01 c0 in
  let t01 := Hacl_Bignum_Fsquare_fsquare_times_inplace t01 10 in
  let b1 := Hacl_Bignum_Fmul_fmul b1 t01 b1 in
  let t0 := Hacl_Bignum_Fsquare_fsquare_times t01 b1 50 in
  let a0 := a in
  let b := b1 in
  let c := c0 in
  let c := Hacl_Bignum_Fmul_fmul c t0 b in
  let t0 := Hacl_Bignum_Fsquare_fsquare_times t0 c 100 in
  let t0 := Hacl_Bignum_Fmul_fmul t0 t0 c in
  let t0 := Hacl_Bignum_Fsquare_fsquare_times_inplace t0 50 in
  let t0 := Hacl_Bignum_Fmul_fmul t0 t0 b in
  let t0 := Hacl_Bignum_Fsquare_fsquare_times_inplace t0 5 in
  Hacl_Bignum_Fmul_fmul out t0 a0.

Definition Hacl_Bignum_fsum (a b : list Z) : list Z :=
  for_ 0 5 (fun i a =>
    let xi := a.[i] in
    let yi := b.[i] in
    a.[i <- (xi + yi)%u64]) a.

Definition Hacl_Bignum_fdifference (a b : list Z) : list Z :=
  let tmp := take 5 b in
  let b0 := tmp.[0] in
  let b1 := tmp.[1] in
  let b2 := tmp.[2] in
  let b3 := tmp.[3] in
  let b4 := tmp.[4] in
  let tmp := tmp.[0 <- (b0 + 0x3fffffffffff68)%u64] in
  let tmp := tmp.[1 <- (b1 + 0x3ffffffffffff8)%u64] in
  let tmp := tmp.[2 <- (b2 + 0x3ffffffffffff8)%u64] in
  let tmp := tmp.[3 <- (b3 + 0x3ffffffffffff8)%u64] in
  let tmp := tmp.[4 <- (b4 + 0x3ffffffffffff8)%u64] in
  for_ 0 5 (fun i a =>
    let xi := a.[i] in
    let yi := tmp.[i] in
    a.[i <- (yi - xi)%u64]) a.

Definition Hacl_Bignum_fscalar (output b : list Z) (s : Z) : list Z :=
  let tmp := replicate 5 (u128_of_u64 0) in
  let tmp := for_ 0 5 (fun i tmp =>
    let xi := b.[i] in
    tmp.[i <- u128_mul_wide xi s]) tmp in
  let tmp := Hacl_Bignum_Fproduct_carry_wide_ tmp in
  let b4 := tmp.[4] in
  let b0 := tmp.[0] in
  let b4_ := u128_logand b4 (u128_of_u64 0x7ffffffffffff) in
  let b0_ := u128_add b0 (u128_mul_wide 19 (u128_to_u64 (u128_shift_right b4 51))) in
  let tmp := tmp.[4 <- b4_] in
  let tmp := tmp.[0 <- b0_] in
  Hacl_Bignum_Fproduct_copy_from_wide_ output tmp.

Definition Hacl_Bignum_fmul (output a b : list Z) : list Z := Hacl_Bignum_Fmul_fmul output a b.

Definition Hacl_Bignum_crecip (output input : list Z) : list Z := Hacl_Bignum_Crecip_crecip output input.

(** ** Points *)

Definition Hacl_EC_Point_swap_conditional_step (a b : list Z) (swap1 : Z) (ctr : nat)
    : list Z * list Z :=
  let i := (ctr - 1)%nat in
  let ai := a.[i] in
  let bi := b.[i] in
  let x := (swap1 & (ai ^^ bi))%u64 in
  let ai1 := (ai ^^ x)%u64 in
  let bi1 := (bi ^^ x)%u64 in
  (a.[i <- ai1], b.[i <- bi1]).

Fixpoint Hacl_EC_Point_swap_conditional_ (a b : list Z) (swap1 : Z) (ctr : nat) {struct ctr} : list Z * list Z :=
  match ctr with
  | O => (a, b)
  | S i =>
      let '(a, b) := Hacl_EC_Point_swap_conditional_step a b swap1 ctr in
      Hacl_EC_Point_swap_conditional_ a b swap1 i
  end.

Definition Hacl_EC_Point_swap_conditional (a b : list Z) (iswap : Z) : list Z * list Z :=
  let swap1 := (0 - iswap)%u64 in
  let '(ax, bx) := Hacl_EC_Point_swap_conditional_ (slice a 0 5) (slice b 0 5) swap1 5 in
  let '(az, bz) := Hacl_EC_Point_swap_conditional_ (slice a 5 5) (slice b 5 5) swap1 5 in
  (ax ++ az, bx ++ bz).

Definition Hacl_EC_Point_copy (output input : list Z) : list Z :=
  let output := blit output 0 (slice input 0 5) in
  blit output 5 (slice input 5 5).

(** Writes [pp] and [ppq], and clobbers [p] and [pq]. *)
Definition Hacl_EC_AddAndDouble_fmonty (pp ppq p pq qmqp : list Z)
    : list Z * list Z * list Z * list Z :=
  let qx := slice qmqp 0 5 in
  let x2 := slice pp 0 5 in
  let z2 := slice pp 5 5 in
  let x3 := slice ppq 0 5 in
  let z3 := slice ppq 5 5 in
  let x := slice p 0 5 in
  let z := slice p 5 5 in
  let xprime := slice pq 0 5 in
  let zprime := slice pq 5 5 in
  let buf := replicate 40 0 in
  let origx := slice buf 0 5 in
  let origxprime := slice buf 5 5 in
  let zzz := slice buf 10 5 in
  let xx0 := slice buf 15 5 in
  let zz0 := slice buf 20 5 in
  let xxprime0 := slice buf 25 5 in
  let zzprime0 := slice buf 30 5 in
  let zzzprime := slice buf 35 5 in
  let origx := blit origx 0 x in
  let x := Hacl_Bignum_fsum x z in
  let z := Hacl_Bignum_fdifference z origx in
  let origxprime := blit origxprime 0 xprime in
  let xprime := Hacl_Bignum_fsum xprime zprime in
  let zprime := Hacl_Bignum_fdifference zprime origxprime in
  let xxprime := Hacl_Bignum_fmul xxprime0 xprime z in
  let zzprime := Hacl_Bignum_fmul zzprime0 x zprime in
  let origxprime0 := blit origxprime 0 xxprime in
  let xxprime := Hacl_Bignum_fsum xxprime zzprime in
  let zzprime := Hacl_Bignum_fdifference zzprime origxprime0 in
  let x3 := Hacl_Bignum_Fsquare_fsquare_times x3 xxprime 1 in
  let zzzprime := Hacl_Bignum_Fsquare_fsquare_times zzzprime zzprime 1 in
  let z3 := Hacl_Bignum_fmul z3 zzzprime qx in
  let xx := Hacl_Bignum_Fsquare_fsquare_times xx0 x 1 in
  let zz := Hacl_Bignum_Fsquare_fsquare_times zz0 z 1 in
  let x2 := Hacl_Bignum_fmul x2 xx zz in
  let zz := Hacl_Bignum_fdifference zz xx in
  let scalar := 121665 in
  let zzz := Hacl_Bignum_fscalar zzz zz scalar in
  let zzz := Hacl_Bignum_fsum zzz xx in
  let z2 := Hacl_Bignum_fmul z2 zzz zz in
  (x2 ++ z2, x3 ++ z3, x ++ z, xprime ++ zprime).

(** ** The ladder: all four point buffers are threaded through *)

Definition Hacl_EC_Ladder_SmallLoop_cmult_small_loop_step
    (nq nqpq nq2 nqpq2 q : list Z) (byt : Z) : list Z * list Z * list Z * list Z :=
  let bit := (byt >> 7)%u8 in
  let '(nq, nqpq) := Hacl_EC_Point_swap_conditional nq nqpq bit in
  let '(nq2, nqpq2, nq, nqpq) := Hacl_EC_AddAndDouble_fmonty nq2 nqpq2 nq nqpq q in
  let bit0 := (byt >> 7)%u8 in
  let '(nq2, nqpq2) := Hacl_EC_Point_swap_conditional nq2 nqpq2 bit0 in
  (nq, nqpq, nq2, nqpq2).

Definition Hacl_EC_Ladder_SmallLoop_cmult_small_loop_double_step
    (nq nqpq nq2 nqpq2 q : list Z) (byt : Z) : list Z * list Z * list Z * list Z :=
  let '(nq, nqpq, nq2, nqpq2) :=
    Hacl_EC_Ladder_SmallLoop_cmult_small_loop_step nq nqpq nq2 nqpq2 q byt in
  let byt1 := (byt << 1)%u8 in
  let '(nq2, nqpq2, nq, nqpq) :=
    Hacl_EC_Ladder_SmallLoop_cmult_small_loop_step nq2 nqpq2 nq nqpq q byt1 in
  (nq, nqpq, nq2, nqpq2).

Fixpoint Hacl_EC_Ladder_SmallLoop_cmult_small_loop
    (nq nqpq nq2 nqpq2 q : list Z) (byt : Z) (i : nat) {struct i} : list Z * list Z * list Z * list Z :=
  match i with
  | O => (nq, nqpq, nq2, nqpq2)
  | S i_ =>
      let '(nq, nqpq, nq2, nqpq2) :=
        Hacl_EC_Ladder_SmallLoop_cmult_small_loop_double_step nq nqpq nq2 nqpq2 q byt in
      let byt_ := (byt << 2)%u8 in
      Hacl_EC_Ladder_SmallLoop_cmult_small_loop nq nqpq nq2 nqpq2 q byt_ i_
  end.

Fixpoint Hacl_EC_Ladder_BigLoop_cmult_big_loop
    (n1 nq nqpq nq2 nqpq2 q : list Z) (i : nat) {struct i} : list Z * list Z * list Z * list Z :=
  match i with
  | O => (nq, nqpq, nq2, nqpq2)
  | S i1 =>
      let byte := n1.[i1] in
      let '(nq, nqpq, nq2, nqpq2) :=
        Hacl_EC_Ladder_SmallLoop_cmult_small_loop nq nqpq nq2 nqpq2 q byte 4 in
      Hacl_EC_Ladder_BigLoop_cmult_big_loop n1 nq nqpq nq2 nqpq2 q i1
  end.

Definition Hacl_EC_Ladder_cmult (result n1 q : list Z) : list Z :=
  let point_buf := replicate 40 0 in
  let nq := slice point_buf 0 10 in
  let nqpq := slice point_buf 10 10 in
  let nq2 := slice point_buf 20 10 in
  let nqpq2 := slice point_buf 30 10 in
  let nqpq := Hacl_EC_Point_copy nqpq q in
  let nq := nq.[0 <- 1] in
  let '(nq, nqpq, nq2, nqpq2) :=
    Hacl_EC_Ladder_BigLoop_cmult_big_loop n1 nq nqpq nq2 nqpq2 q 32 in
  Hacl_EC_Point_copy result nq.

(** ** Encoding *)

Definition Hacl_EC_Format_fexpand (output input : list Z) : list Z :=
  let i0 := load64_le input 0 in
  let i1 := load64_le input 6 in
  let i2 := load64_le input 12 in
  let i3 := load64_le input 19 in
  let i4 := load64_le input 24 in
  let output0 := (i0 & 0x7ffffffffffff)%u64 in
  let output1 := ((i1 >> 3) & 0x7ffffffffffff)%u64 in
  let output2 := ((i2 >> 6) & 0x7ffffffffffff)%u64 in
  let output3 := ((i3 >> 1) & 0x7ffffffffffff)%u64 in
  let output4 := ((i4 >> 12) & 0x7ffffffffffff)%u64 in
  let output := output.[0 <- output0] in
  let output := output.[1 <- output1] in
  let output := output.[2 <- output2] in
  let output := output.[3 <- output3] in
  output.[4 <- output4].

Definition Hacl_EC_Format_fcontract_first_carry_pass (input : list Z) : list Z :=
  let t0 := input.[0] in
  let t1 := input.[1] in
  let t2 := input.[2] in
  let t3 := input.[3] in
  let t4 := input.[4] in
  let t1_ := (t1 + (t0 >> 51))%u64 in
  let t0_ := (t0 & 0x7ffffffffffff)%u64 in
  let t2_ := (t2 + (t1_ >> 51))%u64 in
  let t1__ := (t1_ & 0x7ffffffffffff)%u64 in
  let t3_ := (t3 + (t2_ >> 51))%u64 in
  let t2__ := (t2_ & 0x7ffffffffffff)%u64 in
  let t4_ := (t4 + (t3_ >> 51))%u64 in
  let t3__ := (t3_ & 0x7ffffffffffff)%u64 in
  let input := input.[0 <- t0_] in
  let input := input.[1 <- t1__] in
  let input := input.[2 <- t2__] in
  let input := input.[3 <- t3__] in
  input.[4 <- t4_].

Definition Hacl_EC_Format_fcontract_first_carry_full (input : list Z) : list Z :=
  let input := Hacl_EC_Format_fcontract_first_carry_pass input in
  Hacl_Bignum_Modulo_carry_top input.

Definition Hacl_EC_Format_fcontract_second_carry_pass (input : list Z) : list Z :=
  let t0 := input.[0] in
  let t1 := input.[1] in
  let t2 := input.[2] in
  let t3 := input.[3] in
  let t4 := input.[4] in
  let t1_ := (t1 + (t0 >> 51))%u64 in
  let t0_ := (t0 & 0x7ffffffffffff)%u64 in
  let t2_ := (t2 + (t1_ >> 51))%u64 in
  let t1__ := (t1_ & 0x7ffffffffffff)%u64 in
  let t3_ := (t3 + (t2_ >> 51))%u64 in
  let t2__ := (t2_ & 0x7ffffffffffff)%u64 in
  let t4_ := (t4 + (t3_ >> 51))%u64 in
  let t3__ := (t3_ & 0x7ffffffffffff)%u64 in
  let input := input.[0 <- t0_] in
  let input := input.[1 <- t1__] in
  let input := input.[2 <- t2__] in
  let input := input.[3 <- t3__] in
  input.[4 <- t4_].

Definition Hacl_EC_Format_fcontract_second_carry_full (input : list Z) : list Z :=
  let input := Hacl_EC_Format_fcontract_second_carry_pass input in
  let input := Hacl_Bignum_Modulo_carry_top input in
  let i0 := input.[0] in
  let i1 := input.[1] in
  let i0_ := (i0 & 0x7ffffffffffff)%u64 in
  let i1_ := (i1 + (i0 >> 51))%u64 in
  let input := input.[0 <- i0_] in
  input.[1 <- i1_].

Definition Hacl_EC_Format_fcontract_trim (input : list Z) : list Z :=
  let a0 := input.[0] in
  let a1 := input.[1] in
  let a2 := input.[2] in
  let a3 := input.[3] in
  let a4 := input.[4] in
  let mask0 := FStar_UInt64_gte_mask a0 0x7ffffffffffed in
  let mask1 := FStar_UInt64_eq_mask a1 0x7ffffffffffff in
  let mask2 := FStar_UInt64_eq_mask a2 0x7ffffffffffff in
  let mask3 := FStar_UInt64_eq_mask a3 0x7ffffffffffff in
  let mask4 := FStar_UInt64_eq_mask a4 0x7ffffffffffff in
  let mask := ((((mask0 & mask1) & mask2) & mask3) & mask4)%u64 in
  let a0_ := (a0 - (0x7ffffffffffed & mask))%u64 in
  let a1_ := (a1 - (0x7ffffffffffff & mask))%u64 in
  let a2_ := (a2 - (0x7ffffffffffff & mask))%u64 in
  let a3_ := (a3 - (0x7ffffffffffff & mask))%u64 in
  let a4_ := (a4 - (0x7ffffffffffff & mask))%u64 in
  let input := input.[0 <- a0_] in
  let input := input.[1 <- a1_] in
  let input := input.[2 <- a2_] in
  let input := input.[3 <- a3_] in
  input.[4 <- a4_].

Definition Hacl_EC_Format_fcontract_store (output input : list Z) : list Z :=
  let t0 := input.[0] in
  let t1 := input.[1] in
  let t2 := input.[2] in
  let t3 := input.[3] in
  let t4 := input.[4] in
  let o0 := ((t1 << 51) .| t0)%u64 in
  let o1 := ((t2 << 38) .| (t1 >> 13))%u64 in
  let o2 := ((t3 << 25) .| (t2 >> 26))%u64 in
  let o3 := ((t4 << 12) .| (t3 >> 39))%u64 in
  let output := store64_le output 0 o0 in
  let output := store64_le output 8 o1 in
  let output := store64_le output 16 o2 in
  store64_le output 24 o3.

Definition Hacl_EC_Format_fcontract (output input : list Z) : list Z :=
  let input := Hacl_EC_Format_fcontract_first_carry_full input in
  let input := Hacl_EC_Format_fcontract_second_carry_full input in
  let input := Hacl_EC_Format_fcontract_trim input in
  Hacl_EC_Format_fcontract_store output input.

Definition Hacl_EC_Format_scalar_of_point (scalar point : list Z) : list Z :=
  let x := slice point 0 5 in
  let z := slice point 5 5 in
  let buf := replicate 10 0 in
  let zmone := slice buf 0 5 in
  let sc := slice buf 5 5 in
  let zmone := Hacl_Bignum_crecip zmone z in
  let sc := Hacl_Bignum_fmul sc x zmone in
  Hacl_EC_Format_fcontract scalar sc.

Definition Hacl_EC_crypto_scalarmult (mypublic secret basepoint : list Z) : list Z :=
  let buf0 := replicate 10 0 in
  let x0 := slice buf0 0 5 in
  let z := slice buf0 5 5 in
  let x0 := Hacl_EC_Format_fexpand x0 basepoint in
  let z := z.[0 <- 1] in
  let q := x0 ++ z in
  let e := take 32 secret in
  let e0 := e.[0] in
  let e31 := e.[31] in
  let e01 := (e0 & 248)%u8 in
  let e311 := (e31 & 127)%u8 in
  let e312 := (e311 .| 64)%u8 in
  let e := e.[0 <- e01] in
  let e := e.[31 <- e312] in
  let scalar := e in
  let buf := replicate 15 0 in
  let nq := slice buf 0 10 in
  let nq := nq.[0 <- 1] in
  let nq := Hacl_EC_Ladder_cmult nq scalar q in
  Hacl_EC_Format_scalar_of_point mypublic nq.

Definition Hacl_Curve25519_crypto_scalarmult (mypublic secret basepoint : list Z) : list Z :=
  Hacl_EC_crypto_scalarmult mypublic secret basepoint.

End Code.
End Curve25519.
