(* ===== verification/FieldProofs.v ===== *)
(** * FieldProofs: the field arithmetic of Hacl_Curve25519.c

    The limb routines of [Curve25519] compute in the integers modulo
    2^255 - 19: each theorem gives the value of the result up to congruence
    and the bound on its limbs, so that no 64-bit or 128-bit operation of a
    caller overflows. *)

From stdpp Require Import base list numbers.
From Stdlib Require Import ZArith Lia Setoid Morphisms.
From S2P Require Import Prelude Machine UInt128 Curve25519.

Local Open Scope Z_scope.
Local Open Scope buf_scope.

(** ** Congruence modulo 2^255 - 19 *)

Definition prime : Z := 2 ^ 255 - 19.
Definition eqp (a b : Z) : Prop := exists k, a = b + k * prime.
Infix "≡p" := eqp (at level 70).

Lemma eqp_iff a b : a ≡p b <-> a mod prime = b mod prime.
Proof.
  split.
  - intros [k ->]. apply Z_mod_plus_full.
  - intros E. exists (a / prime - b / prime). pose proof (Z.div_mod a prime ltac:(done)).
    pose proof (Z.div_mod b prime ltac:(done)). lia.
Qed.

Lemma eqp_multiple k a b : a = b + k * prime -> a ≡p b.
Proof. intros. now exists k. Qed.

Lemma eq_eqp a b : a = b -> a ≡p b.
Proof. intros ->. exists 0. ring. Qed.

#[export] Instance eqp_equiv : Equivalence eqp.
Proof. split; repeat intro; rewrite eqp_iff in *; congruence. Qed.
#[export] Instance add_eqp : Proper (eqp ==> eqp ==> eqp) Z.add.
Proof. intros a a' [k ->] b b' [l ->]. exists (k + l). ring. Qed.
#[export] Instance sub_eqp : Proper (eqp ==> eqp ==> eqp) Z.sub.
Proof. intros a a' [k ->] b b' [l ->]. exists (k - l). ring. Qed.
#[export] Instance mul_eqp : Proper (eqp ==> eqp ==> eqp) Z.mul.
Proof. intros a a' [k ->] b b' [l ->]. exists (a' * l + k * b' + k * l * prime). ring. Qed.

Lemma eqp_mod a : a mod prime ≡p a.
Proof. apply eqp_iff, Z.mod_mod. done. Qed.

#[export] Instance pow_eqp : Proper (eqp ==> eq ==> eqp) Z.pow.
Proof.
  intros a a' Ha n _ <-. destruct (Z.le_gt_cases 0 n) as [Hn|Hn]; [|now rewrite !Z.pow_neg_r].
  apply (natlike_ind (fun n => a ^ n ≡p a' ^ n)); [done| |done]. intros m Hm IH.
  rewrite !Z.pow_succ_r by done. now apply mul_eqp.
Qed.

(** ** Field elements as limbs *)

Definition fval5 (l : list Z) : Z :=
  match l with
  | [a0; a1; a2; a3; a4] => a0 + 2 ^ 51 * a1 + 2 ^ 102 * a2 + 2 ^ 153 * a3 + 2 ^ 204 * a4
  | _ => 0
  end.

Definition limbs5 (B : Z) (l : list Z) : Prop :=
  exists a0 a1 a2 a3 a4, l = [a0; a1; a2; a3; a4] /\
    0 <= a0 < B /\ 0 <= a1 < B /\ 0 <= a2 < B /\ 0 <= a3 < B /\ 0 <= a4 < B.

(** The bounds the code lives on: a reduced element, and the difference of two
    (the largest operand of a product). *)
Definition RED : Z := 2 ^ 51 + 2 ^ 13.
Definition DIF : Z := 2 ^ 54 + 2 ^ 51 + 2 ^ 13.

(** [fe B x l]: the limbs [l], each below [B], represent [x]. *)
Definition fe (B x : Z) (l : list Z) : Prop := limbs5 B l /\ fval5 l ≡p x.

#[export] Instance fe_proper B : Proper (eqp ==> eq ==> iff) (fe B).
Proof. intros x y E l _ <-. unfold fe. rewrite E. reflexivity. Qed.

Lemma limbs5_weaken A B l : A <= B -> limbs5 A l -> limbs5 B l.
Proof. intros ? (a0 & a1 & a2 & a3 & a4 & -> & ?). exists a0, a1, a2, a3, a4. split; [done|lia]. Qed.

Lemma fe_weaken A B x l : A <= B -> fe A x l -> fe B x l.
Proof. intros ? [? ?]. split; [eapply limbs5_weaken; eassumption|done]. Qed.

Lemma fe_length B x l : fe B x l -> length l = 5%nat.
Proof. now intros [(a0 & a1 & a2 & a3 & a4 & -> & _) _]. Qed.

Lemma limbs5_intro B a0 a1 a2 a3 a4 :
  0 <= a0 < B -> 0 <= a1 < B -> 0 <= a2 < B -> 0 <= a3 < B -> 0 <= a4 < B ->
  limbs5 B [a0; a1; a2; a3; a4].
Proof. intros. exists a0, a1, a2, a3, a4. repeat split; lia. Qed.

Lemma mask51 x : Z.land x 0x7ffffffffffff = x mod 2 ^ 51.
Proof. now apply Z_land_ones_lit. Qed.

Section Field.
Context {T : Type} {U128Ops : UInt128Ops T} {U128 : UInt128 T}.
Import Curve25519.

(** ** Carrying and folding 128-bit limbs, shared by all products *)

(** One step of the carry chain. *)
Lemma carry_step (a b : T) x y : rep a x -> rep b y -> x < 2 ^ 125 -> y < 2 ^ 125 ->
  rep (u128_of_u64 (Z.land (u128_to_u64 a) 0x7ffffffffffff) : T) (x mod 2 ^ 51) /\
  rep (u128_add b (u128_shift_right a 51)) (y + x / 2 ^ 51).
Proof.
  intros Ra Rb Hx Hy. pose proof (rep_range _ _ Ra). pose proof (rep_range _ _ Rb). split.
  - rewrite (rep_low_bits a x _ 51) by (done || lia). apply rep_of_u64.
    unfold word. Z.div_mod_to_equations. lia.
  - apply rep_add; [done|apply rep_shift_right; [done|lia]|]. Z.div_mod_to_equations. lia.
Qed.

Lemma carry_wide5_spec (t0 t1 t2 t3 t4 : T) v0 v1 v2 v3 v4 :
  rep t0 v0 -> rep t1 v1 -> rep t2 v2 -> rep t3 v3 -> rep t4 v4 ->
  v0 < 2 ^ 118 -> v1 < 2 ^ 118 -> v2 < 2 ^ 118 -> v3 < 2 ^ 118 -> v4 < 2 ^ 118 ->
  let c1 := v1 + v0 / 2 ^ 51 in
  let c2 := v2 + c1 / 2 ^ 51 in
  let c3 := v3 + c2 / 2 ^ 51 in
  let c4 := v4 + c3 / 2 ^ 51 in
  exists u0 u1 u2 u3 u4,
    Hacl_Bignum_Fproduct_carry_wide_ [t0; t1; t2; t3; t4] = [u0; u1; u2; u3; u4] /\
    rep u0 (v0 mod 2 ^ 51) /\ rep u1 (c1 mod 2 ^ 51) /\ rep u2 (c2 mod 2 ^ 51) /\
    rep u3 (c3 mod 2 ^ 51) /\ rep u4 c4.
Proof.
  intros R0 R1 R2 R3 R4 H0 H1 H2 H3 H4 c1 c2 c3 c4.
  pose proof (rep_range _ _ R0). pose proof (rep_range _ _ R1). pose proof (rep_range _ _ R2).
  pose proof (rep_range _ _ R3). pose proof (rep_range _ _ R4).
  assert (Hc1 : 0 <= c1 < 2 ^ 119) by (subst c1; Z.div_mod_to_equations; lia).
  assert (Hc2 : 0 <= c2 < 2 ^ 119) by (subst c2; clearbody c1; Z.div_mod_to_equations; lia).
  assert (Hc3 : 0 <= c3 < 2 ^ 119) by (subst c3; clearbody c2; Z.div_mod_to_equations; lia).
  destruct (carry_step t0 t1 v0 v1 R0 R1) as [S0 R1']; try lia.
  destruct (carry_step _ t2 c1 v2 R1' R2) as [S1 R2']; try lia.
  destruct (carry_step _ t3 c2 v3 R2' R3) as [S2 R3']; try lia.
  destruct (carry_step _ t4 c3 v4 R3' R4) as [S3 R4']; try lia.
  eexists _, _, _, _, _. split; [cbn; reflexivity|]. now split_and!.
Qed.

(** The end of [fmul], [fsquare_] and [fscalar]: the carry out of the top limb
    comes back times 19 at the bottom. *)
Definition fold_wide (output : list Z) (t : list T) : list Z :=
  let t := Hacl_Bignum_Fproduct_carry_wide_ t in
  let b4 := t.[4] in
  let b0 := t.[0] in
  let b4_ := u128_logand b4 (u128_of_u64 0x7ffffffffffff) in
  let b0_ := u128_add b0 (u128_mul_wide 19 (u128_to_u64 (u128_shift_right b4 51))) in
  let t := t.[4 <- b4_] in
  let t := t.[0 <- b0_] in
  Hacl_Bignum_Fproduct_copy_from_wide_ output t.

Definition carry_01 (output : list Z) : list Z :=
  let i0 := output.[0] in
  let i1 := output.[1] in
  let output := output.[0 <- Z.land i0 0x7ffffffffffff] in
  output.[1 <- wadd 64 i1 (wshr i0 51)].

Lemma fold_wide_spec output t0 t1 t2 t3 t4 v0 v1 v2 v3 v4 :
  length output = 5%nat ->
  rep t0 v0 -> rep t1 v1 -> rep t2 v2 -> rep t3 v3 -> rep t4 v4 ->
  v0 < 2 ^ 118 -> v1 < 2 ^ 118 -> v2 < 2 ^ 118 -> v3 < 2 ^ 118 -> v4 <= 5 * (DIF * DIF) ->
  exists r0 r1 r2 r3 r4,
    fold_wide output [t0; t1; t2; t3; t4] = [r0; r1; r2; r3; r4] /\
    0 <= r0 < 2 ^ 51 + 19 * (v4 / 2 ^ 51 + 2 ^ 18) /\ r0 < 2 ^ 64 /\
    0 <= r1 < 2 ^ 51 /\ 0 <= r2 < 2 ^ 51 /\ 0 <= r3 < 2 ^ 51 /\ 0 <= r4 < 2 ^ 51 /\
    fval5 [r0; r1; r2; r3; r4] ≡p v0 + 2 ^ 51 * v1 + 2 ^ 102 * v2 + 2 ^ 153 * v3 + 2 ^ 204 * v4.
Proof.
  intros Hout R0 R1 R2 R3 R4 H0 H1 H2 H3 H4. destruct_list output. unfold DIF in H4.
  pose proof (rep_range _ _ R0). pose proof (rep_range _ _ R1). pose proof (rep_range _ _ R2).
  pose proof (rep_range _ _ R3). pose proof (rep_range _ _ R4).
  destruct (carry_wide5_spec t0 t1 t2 t3 t4 v0 v1 v2 v3 v4 R0 R1 R2 R3 R4)
    as (u0 & u1 & u2 & u3 & u4 & E & S0 & S1 & S2 & S3 & S4); try lia.
  set (c1 := v1 + v0 / 2 ^ 51) in *. set (c2 := v2 + c1 / 2 ^ 51) in *.
  set (c3 := v3 + c2 / 2 ^ 51) in *. set (c4 := v4 + c3 / 2 ^ 51) in *.
  assert (Hc1 : 0 <= c1 < 2 ^ 119) by (subst c1; Z.div_mod_to_equations; lia).
  assert (Hc2 : 0 <= c2 < 2 ^ 119) by (subst c2; clearbody c1; Z.div_mod_to_equations; lia).
  assert (Hc3 : 0 <= c3 < 2 ^ 119) by (subst c3; clearbody c2; Z.div_mod_to_equations; lia).
  assert (Hc4 : 0 <= c4 / 2 ^ 51 < v4 / 2 ^ 51 + 2 ^ 18)
    by (subst c4; clearbody c3; Z.div_mod_to_equations; lia).
  assert (Hv4 : v4 / 2 ^ 51 + 2 ^ 18 < (2 ^ 64 - 2 ^ 51) / 19)
    by (Z.div_mod_to_equations; lia).
  assert (Hm : (2 ^ 64 - 2 ^ 51) / 19 * 19 <= 2 ^ 64 - 2 ^ 51) by done.
  assert (B0 : 0 <= v0 mod 2 ^ 51 < 2 ^ 51) by (apply Z.mod_pos_bound; lia).
  unfold fold_wide. rewrite E. cbn zeta.
  assert (E4 : u128_to_u64 (u128_shift_right u4 51) = c4 / 2 ^ 51).
  { apply rep_to_u64_small; [apply rep_shift_right; [done|lia]|lia]. }
  change (u4 :: []) with [u4]. buf_simpl. rewrite E4.
  assert (U0 : rep (u128_add u0 (u128_mul_wide 19 (c4 / 2 ^ 51))) (v0 mod 2 ^ 51 + 19 * (c4 / 2 ^ 51))).
  { apply rep_add; [done|apply rep_mul_wide; unfold word; lia|lia]. }
  assert (U4 : rep (u128_logand u4 (u128_of_u64 0x7ffffffffffff)) (c4 mod 2 ^ 51)).
  { rewrite <- mask51. apply rep_logand; [done|]. now apply rep_of_u64. }
  match goal with |- context [Hacl_Bignum_Fproduct_copy_from_wide_ ?o [?a; ?b; ?c; ?d; ?e]] =>
    change (Hacl_Bignum_Fproduct_copy_from_wide_ o [a; b; c; d; e])
    with [u128_to_u64 a; u128_to_u64 b; u128_to_u64 c; u128_to_u64 d; u128_to_u64 e] end.
  rewrite (rep_to_u64_small _ _ U0), (rep_to_u64_small _ _ S1), (rep_to_u64_small _ _ S2),
    (rep_to_u64_small _ _ S3), (rep_to_u64_small _ _ U4)
    by (lia || (eapply Z.lt_trans; [apply Z.mod_pos_bound; lia|lia])).
  eexists _, _, _, _, _. split; [reflexivity|].
  split; [lia|]. split; [lia|]. do 4 (split; [apply Z.mod_pos_bound; lia|]).
  apply eqp_multiple with (- (c4 / 2 ^ 51)). unfold fval5, prime. clear - c4. subst c4 c3 c2 c1.
  Z.div_mod_to_equations. lia.
Qed.

Lemma carry_01_spec r0 r1 r2 r3 r4 x :
  0 <= r0 < 2 ^ 64 -> 0 <= r1 < 2 ^ 51 -> 0 <= r2 < 2 ^ 51 -> 0 <= r3 < 2 ^ 51 -> 0 <= r4 < 2 ^ 51 ->
  fval5 [r0; r1; r2; r3; r4] ≡p x -> fe RED x (carry_01 [r0; r1; r2; r3; r4]).
Proof.
  intros H0 H1 H2 H3 H4 <-. unfold carry_01. buf_simpl. rewrite mask51, wshr_div by lia.
  assert (0 <= r0 / 2 ^ 51 < 2 ^ 13) by (Z.div_mod_to_equations; lia).
  rewrite wadd_small by lia. split.
  - unfold RED. apply limbs5_intro; try lia. Z.div_mod_to_equations. lia.
  - apply (eqp_multiple 0). unfold fval5. Z.div_mod_to_equations. lia.
Qed.

(** ** Multiplication *)

Lemma shift_reduce5_spec a0 a1 a2 a3 a4 : 0 <= a4 < DIF ->
  Hacl_Bignum_Fmul_shift_reduce [a0; a1; a2; a3; a4] = [19 * a4; a0; a1; a2; a3].
Proof.
  intros. change (Hacl_Bignum_Fmul_shift_reduce [a0; a1; a2; a3; a4]) with [wmul 64 19 a4; a0; a1; a2; a3].
  unfold DIF in *. now rewrite wmul_small by lia.
Qed.

(** A column of the schoolbook product; the factors are already times 19
    where they wrapped around. *)
Definition column (x0 x1 x2 x3 x4 s0 s1 s2 s3 s4 : Z) : T :=
  u128_add_mod (u128_add_mod (u128_add_mod (u128_add_mod (u128_add_mod (u128_of_u64 0)
    (u128_mul_wide x0 s0)) (u128_mul_wide x1 s1)) (u128_mul_wide x2 s2))
    (u128_mul_wide x3 s3)) (u128_mul_wide x4 s4).

Lemma column_spec x0 x1 x2 x3 x4 s0 s1 s2 s3 s4 :
  0 <= x0 < 2 ^ 60 -> 0 <= x1 < 2 ^ 60 -> 0 <= x2 < 2 ^ 60 -> 0 <= x3 < 2 ^ 60 -> 0 <= x4 < 2 ^ 60 ->
  0 <= s0 < 2 ^ 55 -> 0 <= s1 < 2 ^ 55 -> 0 <= s2 < 2 ^ 55 -> 0 <= s3 < 2 ^ 55 -> 0 <= s4 < 2 ^ 55 ->
  rep (column x0 x1 x2 x3 x4 s0 s1 s2 s3 s4) (0 + x0 * s0 + x1 * s1 + x2 * s2 + x3 * s3 + x4 * s4).
Proof.
  intros. assert (P : forall x s, 0 <= x < 2 ^ 60 -> 0 <= s < 2 ^ 55 -> 0 <= x * s <= 2 ^ 60 * 2 ^ 55)
    by (intros; apply mul_bound; lia).
  pose proof (P x0 s0). pose proof (P x1 s1). pose proof (P x2 s2). pose proof (P x3 s3).
  pose proof (P x4 s4). clear P.
  unfold column. repeat apply rep_add_mod; try lia.
  all: try (apply rep_of_u64; unfold word; lia).
  all: apply rep_mul_wide; unfold word; lia.
Qed.

Lemma mul_shift_reduce5_stages a0 a1 a2 a3 a4 b0 b1 b2 b3 b4 :
  0 <= a0 < DIF -> 0 <= a1 < DIF -> 0 <= a2 < DIF -> 0 <= a3 < DIF -> 0 <= a4 < DIF ->
  fst (Hacl_Bignum_Fmul_mul_shift_reduce_ (T := T) (replicate 5 (u128_of_u64 0))
    [a0; a1; a2; a3; a4] [b0; b1; b2; b3; b4]) =
  [column a0 (19 * a4) (19 * a3) (19 * a2) (19 * a1) b0 b1 b2 b3 b4;
   column a1 a0 (19 * a4) (19 * a3) (19 * a2) b0 b1 b2 b3 b4;
   column a2 a1 a0 (19 * a4) (19 * a3) b0 b1 b2 b3 b4;
   column a3 a2 a1 a0 (19 * a4) b0 b1 b2 b3 b4;
   column a4 a3 a2 a1 a0 b0 b1 b2 b3 b4].
Proof.
  intros.
  change (fst (Hacl_Bignum_Fmul_mul_shift_reduce_ (T := T) (replicate 5 (u128_of_u64 0))
    [a0; a1; a2; a3; a4] [b0; b1; b2; b3; b4]))
    with (let i1 := Hacl_Bignum_Fmul_shift_reduce [a0; a1; a2; a3; a4] in
          let i2 := Hacl_Bignum_Fmul_shift_reduce i1 in
          let i3 := Hacl_Bignum_Fmul_shift_reduce i2 in
          let i4 := Hacl_Bignum_Fmul_shift_reduce i3 in
          let add o i b := Hacl_Bignum_Fproduct_sum_scalar_multiplication_ (T := T) o i b in
          add (add (add (add (add (replicate 5 (u128_of_u64 0))
            [a0; a1; a2; a3; a4] b0) i1 b1) i2 b2) i3 b3) i4 b4).
  cbn zeta. rewrite !shift_reduce5_spec by lia. reflexivity.
Qed.

Lemma fmul_is_fold output a b :
  Hacl_Bignum_Fmul_fmul (T := T) output a b =
  carry_01 (fold_wide output (fst (Hacl_Bignum_Fmul_mul_shift_reduce_ (T := T)
    (replicate 5 (u128_of_u64 0)) (take 5 a) b))).
Proof. unfold Hacl_Bignum_Fmul_fmul. now destruct (Hacl_Bignum_Fmul_mul_shift_reduce_ _ _ _). Qed.

(** The columns add up to the product modulo the prime. *)
Lemma columns_product a0 a1 a2 a3 a4 b0 b1 b2 b3 b4 :
  (0 + a0 * b0 + 19 * a4 * b1 + 19 * a3 * b2 + 19 * a2 * b3 + 19 * a1 * b4) +
  2 ^ 51 * (0 + a1 * b0 + a0 * b1 + 19 * a4 * b2 + 19 * a3 * b3 + 19 * a2 * b4) +
  2 ^ 102 * (0 + a2 * b0 + a1 * b1 + a0 * b2 + 19 * a4 * b3 + 19 * a3 * b4) +
  2 ^ 153 * (0 + a3 * b0 + a2 * b1 + a1 * b2 + a0 * b3 + 19 * a4 * b4) +
  2 ^ 204 * (0 + a4 * b0 + a3 * b1 + a2 * b2 + a1 * b3 + a0 * b4)
  ≡p fval5 [a0; a1; a2; a3; a4] * fval5 [b0; b1; b2; b3; b4].
Proof.
  apply eqp_multiple with
    (- (a4 * b1 + a3 * b2 + a2 * b3 + a1 * b4 + 2 ^ 51 * (a4 * b2 + a3 * b3 + a2 * b4)
        + 2 ^ 102 * (a4 * b3 + a3 * b4) + 2 ^ 153 * (a4 * b4))).
  unfold fval5, prime. ring.
Qed.

Lemma dot5_bound X S x0 x1 x2 x3 x4 s0 s1 s2 s3 s4 :
  0 <= x0 <= X -> 0 <= x1 <= X -> 0 <= x2 <= X -> 0 <= x3 <= X -> 0 <= x4 <= X ->
  0 <= s0 <= S -> 0 <= s1 <= S -> 0 <= s2 <= S -> 0 <= s3 <= S -> 0 <= s4 <= S ->
  0 + x0 * s0 + x1 * s1 + x2 * s2 + x3 * s3 + x4 * s4 <= 5 * (X * S).
Proof.
  intros A0 A1 A2 A3 A4 B0 B1 B2 B3 B4.
  pose proof (mul_bound _ _ _ _ A0 B0). pose proof (mul_bound _ _ _ _ A1 B1).
  pose proof (mul_bound _ _ _ _ A2 B2). pose proof (mul_bound _ _ _ _ A3 B3).
  pose proof (mul_bound _ _ _ _ A4 B4). clear A0 A1 A2 A3 A4 B0 B1 B2 B3 B4. lia.
Qed.

Lemma columns_bound a0 a1 a2 a3 a4 b0 b1 b2 b3 b4 :
  0 <= a0 < DIF -> 0 <= a1 < DIF -> 0 <= a2 < DIF -> 0 <= a3 < DIF -> 0 <= a4 < DIF ->
  0 <= b0 < DIF -> 0 <= b1 < DIF -> 0 <= b2 < DIF -> 0 <= b3 < DIF -> 0 <= b4 < DIF ->
  0 + a0 * b0 + 19 * a4 * b1 + 19 * a3 * b2 + 19 * a2 * b3 + 19 * a1 * b4 < 2 ^ 118 /\
  0 + a1 * b0 + a0 * b1 + 19 * a4 * b2 + 19 * a3 * b3 + 19 * a2 * b4 < 2 ^ 118 /\
  0 + a2 * b0 + a1 * b1 + a0 * b2 + 19 * a4 * b3 + 19 * a3 * b4 < 2 ^ 118 /\
  0 + a3 * b0 + a2 * b1 + a1 * b2 + a0 * b3 + 19 * a4 * b4 < 2 ^ 118 /\
  0 + a4 * b0 + a3 * b1 + a2 * b2 + a1 * b3 + a0 * b4 <= 5 * (DIF * DIF).
Proof.
  intros. assert (HD : 5 * (19 * DIF * DIF) < 2 ^ 118) by done.
  split_and!; try (eapply Z.le_lt_trans; [apply (dot5_bound (19 * DIF) DIF); lia|exact HD]).
  apply dot5_bound; lia.
Qed.

Lemma fmul5_spec output a b x y :
  length output = 5%nat -> fe DIF x a -> fe DIF y b ->
  fe RED (x * y) (Hacl_Bignum_Fmul_fmul (T := T) output a b).
Proof.
  intros Hout [(a0 & a1 & a2 & a3 & a4 & -> & A0 & A1 & A2 & A3 & A4) Ex]
    [(b0 & b1 & b2 & b3 & b4 & -> & B0 & B1 & B2 & B3 & B4) Ey].
  rewrite fmul_is_fold. change (take 5 [a0; a1; a2; a3; a4]) with [a0; a1; a2; a3; a4].
  rewrite mul_shift_reduce5_stages by lia. unfold DIF in A0, A1, A2, A3, A4, B0, B1, B2, B3, B4.
  pose proof (columns_product a0 a1 a2 a3 a4 b0 b1 b2 b3 b4) as Ep.
  pose proof (columns_bound a0 a1 a2 a3 a4 b0 b1 b2 b3 b4) as (V0 & V1 & V2 & V3 & V4); [unfold DIF; lia..|].
  edestruct (fold_wide_spec output) as (r0 & r1 & r2 & r3 & r4 & -> & ? & ? & ? & ? & ? & ? & E);
    [exact Hout|apply column_spec; clear V0 V1 V2 V3 V4; lia..|exact V0|exact V1|exact V2|exact V3|exact V4|].
  apply carry_01_spec; [lia..|]. rewrite E, Ep, Ex, Ey. reflexivity.
Qed.

(** ** Squaring *)

Lemma sum3_spec x0 s0 x1 s1 x2 s2 :
  0 <= x0 < 2 ^ 62 -> 0 <= x1 < 2 ^ 62 -> 0 <= x2 < 2 ^ 62 ->
  0 <= s0 < 2 ^ 60 -> 0 <= s1 < 2 ^ 60 -> 0 <= s2 < 2 ^ 60 ->
  rep (T := T) (u128_add (u128_add (u128_mul_wide x0 s0) (u128_mul_wide x1 s1)) (u128_mul_wide x2 s2))
    (x0 * s0 + x1 * s1 + x2 * s2).
Proof.
  intros. assert (P : forall x s, 0 <= x < 2 ^ 62 -> 0 <= s < 2 ^ 60 -> 0 <= x * s <= 2 ^ 62 * 2 ^ 60)
    by (intros; apply mul_bound; lia).
  pose proof (P x0 s0). pose proof (P x1 s1). pose proof (P x2 s2). clear P.
  repeat apply rep_add; try lia; apply rep_mul_wide; unfold word; lia.
Qed.

Lemma fsquare__columns t0 t1 t2 t3 t4 a0 a1 a2 a3 a4 :
  0 <= a0 < DIF -> 0 <= a1 < DIF -> 0 <= a2 < DIF -> 0 <= a3 < DIF -> 0 <= a4 < DIF ->
  exists u0 u1 u2 u3 u4,
    Hacl_Bignum_Fsquare_fsquare__ (T := T) [t0; t1; t2; t3; t4] [a0; a1; a2; a3; a4]
      = [u0; u1; u2; u3; u4] /\
    rep u0 (0 + a0 * a0 + 19 * a4 * a1 + 19 * a3 * a2 + 19 * a2 * a3 + 19 * a1 * a4) /\
    rep u1 (0 + a1 * a0 + a0 * a1 + 19 * a4 * a2 + 19 * a3 * a3 + 19 * a2 * a4) /\
    rep u2 (0 + a2 * a0 + a1 * a1 + a0 * a2 + 19 * a4 * a3 + 19 * a3 * a4) /\
    rep u3 (0 + a3 * a0 + a2 * a1 + a1 * a2 + a0 * a3 + 19 * a4 * a4) /\
    rep u4 (0 + a4 * a0 + a3 * a1 + a2 * a2 + a1 * a3 + a0 * a4).
Proof.
  unfold DIF. intros. eexists _, _, _, _, _. split.
  { unfold Hacl_Bignum_Fsquare_fsquare__. cbn zeta. buf_simpl. reflexivity. }
  wnorm. split_and!; (eapply (eq_ind _ (rep _)); [apply sum3_spec; lia|ring]).
Qed.

Lemma fsquare5_spec t a x : length t = 5%nat -> fe DIF x a ->
  fe RED (x * x) (snd (Hacl_Bignum_Fsquare_fsquare_ (T := T) t a)) /\
  length (fst (Hacl_Bignum_Fsquare_fsquare_ (T := T) t a)) = 5%nat.
Proof.
  intros Ht [(a0 & a1 & a2 & a3 & a4 & -> & A0 & A1 & A2 & A3 & A4) Ex]. destruct_list t.
  pose proof (fsquare__columns x0 x1 x2 x3 x4 a0 a1 a2 a3 a4 A0 A1 A2 A3 A4)
    as (u0 & u1 & u2 & u3 & u4 & E & R0 & R1 & R2 & R3 & R4). split; [|reflexivity].
  pose proof (columns_product a0 a1 a2 a3 a4 a0 a1 a2 a3 a4) as Ep.
  pose proof (columns_bound a0 a1 a2 a3 a4 a0 a1 a2 a3 a4) as (V0 & V1 & V2 & V3 & V4); [unfold DIF in *; lia..|].
  change (snd (Hacl_Bignum_Fsquare_fsquare_ (T := T) [x0; x1; x2; x3; x4] [a0; a1; a2; a3; a4]))
    with (carry_01 (fold_wide [a0; a1; a2; a3; a4]
            (Hacl_Bignum_Fsquare_fsquare__ (T := T) [x0; x1; x2; x3; x4] [a0; a1; a2; a3; a4]))).
  rewrite E.
  destruct (fold_wide_spec [a0; a1; a2; a3; a4] _ _ _ _ _ _ _ _ _ _ eq_refl R0 R1 R2 R3 R4 V0 V1 V2 V3 V4)
    as (r0 & r1 & r2 & r3 & r4 & -> & ? & ? & ? & ? & ? & ? & Ev).
  apply carry_01_spec; [lia..|]. rewrite Ev, Ep, Ex. reflexivity.
Qed.

Lemma RED_le_DIF : RED <= DIF.
Proof. done. Qed.

Lemma pow_square x k : 0 <= k -> (x ^ (2 ^ k)) * (x ^ (2 ^ k)) = x ^ (2 ^ (k + 1)).
Proof. intros. rewrite <- Z.pow_add_r by lia. f_equal. rewrite Z.pow_add_r by lia. lia. Qed.

Lemma fsquare_times__spec a t x n : length t = 5%nat -> fe DIF x a -> (1 <= n)%nat ->
  fe RED (x ^ (2 ^ Z.of_nat n)) (fst (Hacl_Bignum_Fsquare_fsquare_times_ (T := T) a t n)).
Proof.
  intros Ht Ha Hn. unfold Hacl_Bignum_Fsquare_fsquare_times_.
  destruct (fsquare5_spec t a x Ht Ha) as [H1 H2].
  destruct (Hacl_Bignum_Fsquare_fsquare_ t a) as [t1 a1]. cbn [fst snd] in *.
  refine (proj1 (for_ind (fun i s => fe RED (x ^ (2 ^ Z.of_nat i)) (fst s) /\ length (snd s) = 5%nat)
    1 n _ _ Hn _ _)).
  - split; [|done]. replace (x ^ (2 ^ Z.of_nat 1)) with (x * x) by (change (2 ^ Z.of_nat 1) with 2; ring). done.
  - intros i [b u] Hi [Hb Hu]. cbn [fst snd] in *.
    destruct (fsquare5_spec u b _ Hu (fe_weaken _ _ _ _ RED_le_DIF Hb)) as [H3 H4].
    destruct (Hacl_Bignum_Fsquare_fsquare_ u b) as [u1 b1]. cbn [fst snd] in *. split; [|done].
    rewrite Nat2Z.inj_succ, <- Z.add_1_r, <- pow_square by lia. done.
Qed.

Lemma fsquare_times_spec output a x n : length output = 5%nat -> fe DIF x a -> (1 <= n)%nat ->
  fe RED (x ^ (2 ^ Z.of_nat n)) (Hacl_Bignum_Fsquare_fsquare_times (T := T) output a n).
Proof.
  intros Ho Ha Hn. unfold Hacl_Bignum_Fsquare_fsquare_times.
  assert (E : blit output 0 (take 5 a) = a).
  { rewrite take_ge by (now rewrite (fe_length _ _ _ Ha)). apply blit_0_exact.
    now rewrite (fe_length _ _ _ Ha), Ho. }
  rewrite E. now apply fsquare_times__spec.
Qed.

Lemma fsquare_times_inplace_spec a x n : fe DIF x a -> (1 <= n)%nat ->
  fe RED (x ^ (2 ^ Z.of_nat n)) (Hacl_Bignum_Fsquare_fsquare_times_inplace (T := T) a n).
Proof. intros. now apply fsquare_times__spec. Qed.

(** ** Sum, difference and multiplication by a constant *)

Lemma fsum_spec A B a b x y : A + B <= 2 ^ 64 -> fe A x a -> fe B y b ->
  fe (A + B) (x + y) (Hacl_Bignum_fsum a b).
Proof.
  intros HAB [(a0 & a1 & a2 & a3 & a4 & -> & A0 & A1 & A2 & A3 & A4) <-]
    [(b0 & b1 & b2 & b3 & b4 & -> & B0 & B1 & B2 & B3 & B4) <-].
  change (Hacl_Bignum_fsum [a0; a1; a2; a3; a4] [b0; b1; b2; b3; b4])
    with [wadd 64 a0 b0; wadd 64 a1 b1; wadd 64 a2 b2; wadd 64 a3 b3; wadd 64 a4 b4].
  wnorm. split; [apply limbs5_intro; lia|].
  apply (eqp_multiple 0). unfold fval5. ring.
Qed.

(** [a := b - a], with 8p added so that no limb underflows. *)
Lemma fdifference_spec a b x y : fe RED x a -> fe RED y b -> fe DIF (y - x) (Hacl_Bignum_fdifference a b).
Proof.
  intros [(a0 & a1 & a2 & a3 & a4 & -> & A0 & A1 & A2 & A3 & A4) <-]
    [(b0 & b1 & b2 & b3 & b4 & -> & B0 & B1 & B2 & B3 & B4) <-]. unfold RED in *.
  change (Hacl_Bignum_fdifference [a0; a1; a2; a3; a4] [b0; b1; b2; b3; b4])
    with [wsub 64 (wadd 64 b0 0x3fffffffffff68) a0; wsub 64 (wadd 64 b1 0x3ffffffffffff8) a1;
          wsub 64 (wadd 64 b2 0x3ffffffffffff8) a2; wsub 64 (wadd 64 b3 0x3ffffffffffff8) a3;
          wsub 64 (wadd 64 b4 0x3ffffffffffff8) a4].
  wnorm. split; [apply limbs5_intro; unfold DIF; lia|].
  apply (eqp_multiple 8). unfold fval5, prime. ring.
Qed.

Lemma fscalar_spec output b x s : length output = 5%nat -> fe DIF x b -> 0 <= s < 2 ^ 20 ->
  fe (2 ^ 52) (x * s) (Hacl_Bignum_fscalar (T := T) output b s).
Proof.
  intros Ho [(b0 & b1 & b2 & b3 & b4 & -> & B0 & B1 & B2 & B3 & B4) <-] Hs. unfold DIF in *.
  change (Hacl_Bignum_fscalar (T := T) output [b0; b1; b2; b3; b4] s)
    with (fold_wide output [u128_mul_wide b0 s; u128_mul_wide b1 s; u128_mul_wide b2 s;
                            u128_mul_wide b3 s; u128_mul_wide b4 s : T]).
  assert (P : forall b, 0 <= b < 2 ^ 54 + 2 ^ 51 + 2 ^ 13 ->
    rep (T := T) (u128_mul_wide b s) (b * s) /\ 0 <= b * s <= 2 ^ 55 * 2 ^ 20).
  { intros. split; [apply rep_mul_wide; unfold word; lia|apply mul_bound; lia]. }
  destruct (P _ B0) as [R0 V0], (P _ B1) as [R1 V1], (P _ B2) as [R2 V2], (P _ B3) as [R3 V3],
    (P _ B4) as [R4 V4]. clear P.
  destruct (fold_wide_spec output _ _ _ _ _ _ _ _ _ _ Ho R0 R1 R2 R3 R4)
    as (r0 & r1 & r2 & r3 & r4 & -> & H0 & H0' & ? & ? & ? & ? & Ev); [unfold DIF; lia..|].
  assert (b4 * s / 2 ^ 51 < 2 ^ 25) by (apply Z.div_lt_upper_bound; lia).
  split; [apply limbs5_intro; lia|]. rewrite Ev. apply (eqp_multiple 0). unfold fval5. ring.
Qed.

(** ** Inversion: the addition chain for the exponent p - 2 *)

(** [fpow z n]: reduced limbs that represent [z ^ n]. *)
Definition fpow (z n : Z) (l : list Z) : Prop := fe RED (z ^ n) l.

Lemma fpow_length z n l : fpow z n l -> length l = 5%nat.
Proof. apply fe_length. Qed.

Lemma fpow_mul output a b z m n e : length output = 5%nat -> fpow z m a -> fpow z n b ->
  0 <= m -> 0 <= n -> e = m + n -> fpow z e (Hacl_Bignum_Fmul_fmul (T := T) output a b).
Proof.
  intros Ho Ha Hb ? ? ->. unfold fpow. rewrite Z.pow_add_r by lia.
  apply fmul5_spec; eauto using fe_weaken, RED_le_DIF.
Qed.

Lemma fpow_square output a z m n e : length output = 5%nat -> fpow z m a -> (1 <= n)%nat ->
  0 <= m -> e = m * 2 ^ Z.of_nat n -> fpow z e (Hacl_Bignum_Fsquare_fsquare_times (T := T) output a n).
Proof.
  intros Ho Ha Hn ? ->. unfold fpow. rewrite Z.pow_mul_r by lia.
  apply fsquare_times_spec; eauto using fe_weaken, RED_le_DIF.
Qed.

Lemma fpow_square_inplace a z m n e : fpow z m a -> (1 <= n)%nat ->
  0 <= m -> e = m * 2 ^ Z.of_nat n -> fpow z e (Hacl_Bignum_Fsquare_fsquare_times_inplace (T := T) a n).
Proof.
  intros Ha Hn ? ->. unfold fpow. rewrite Z.pow_mul_r by lia.
  apply fsquare_times_inplace_spec; eauto using fe_weaken, RED_le_DIF.
Qed.

End Field.

Import Curve25519.

(** One step of an addition chain: the value has exponent [n]. *)
Ltac chain_side :=
  lazymatch goal with
  | |- length _ = _ => first [assumption | reflexivity | eapply fpow_length; eassumption]
  | |- fpow _ _ _ => eassumption
  | |- (_ <= _)%nat => repeat constructor
  | |- _ => first [lia | vm_compute; (reflexivity || discriminate)]
  end.
Ltac chain_val :=
  lazymatch goal with
  | |- fpow _ _ (Hacl_Bignum_Fmul_fmul _ _ _) => eapply fpow_mul
  | |- fpow _ _ (Hacl_Bignum_Fsquare_fsquare_times _ _ _) => eapply fpow_square
  | |- _ => eapply fpow_square_inplace
  end; chain_side.
Ltac chain z n :=
  step_let (fpow z n); [chain_val|].

Section Inverse.
Context {T : Type} {U128Ops : UInt128Ops T} {U128 : UInt128 T}.

Lemma crecip_spec out z x : length out = 5%nat -> fe RED x z ->
  fe RED (x ^ (2 ^ 255 - 21)) (Hacl_Bignum_crecip (T := T) out z).
Proof.
  intros Ho Hz. unfold Hacl_Bignum_crecip.
  assert (Hz1 : fpow x 1 z) by (unfold fpow; now rewrite Z.pow_1_r).
  change (fpow x (2 ^ 255 - 21) (Hacl_Bignum_Crecip_crecip (T := T) out z)).
  cbv beta delta [Hacl_Bignum_Crecip_crecip]. do 5 subst_let.
  chain x 2. chain x 8. chain x 9. chain x 11. chain x 22. chain x 31.
  chain x (2 ^ 10 - 2 ^ 5). chain x (2 ^ 10 - 1). chain x (2 ^ 20 - 2 ^ 10). chain x (2 ^ 20 - 1).
  chain x (2 ^ 40 - 2 ^ 20). chain x (2 ^ 40 - 1). chain x (2 ^ 50 - 2 ^ 10). chain x (2 ^ 50 - 1).
  chain x (2 ^ 100 - 2 ^ 50). do 3 subst_let. chain x (2 ^ 100 - 1). chain x (2 ^ 200 - 2 ^ 100).
  chain x (2 ^ 200 - 1). chain x (2 ^ 250 - 2 ^ 50). chain x (2 ^ 250 - 1). chain x (2 ^ 255 - 32).
  chain_val.
Qed.
End Inverse.
