(* ===== verification/LadderProofs.v ===== *)
(** * LadderProofs: the Montgomery ladder of Hacl_Curve25519.c

    [Curve25519_Spec] states X25519 over the integers modulo 2^255 - 19
    (RFC 7748, section 5); the refinement shows that
    [Hacl_Curve25519_crypto_scalarmult] computes it, for every secret and
    every base point. *)

From stdpp Require Import base list numbers.
From Stdlib Require Import ZArith Lia Setoid Morphisms Zpow_facts.
From S2P Require Import Prelude Machine UInt128 Curve25519 FieldProofs.

Local Open Scope Z_scope.
Local Open Scope buf_scope.

Module Curve25519_Spec.

Definition fadd (a b : Z) : Z := (a + b) mod prime.
Definition fsub (a b : Z) : Z := (a - b) mod prime.
Definition fmul (a b : Z) : Z := (a * b) mod prime.
Definition finv (a : Z) : Z := Zpow_mod a (prime - 2) prime.

(** A projective point (X : Z), and the pair the ladder works on. *)
Definition point : Type := Z * Z.
Definition a24 : Z := 121665.

(** Simultaneous doubling and differential addition. *)
Definition add_double (u : Z) (pq : point * point) : point * point :=
  let '((x2, z2), (x3, z3)) := pq in
  let A := fadd x2 z2 in let AA := fmul A A in
  let B := fsub x2 z2 in let BB := fmul B B in
  let E := fsub AA BB in
  let C := fadd x3 z3 in let D := fsub x3 z3 in
  let DA := fmul D A in let CB := fmul C B in
  let s := fadd DA CB in let d := fsub DA CB in
  ((fmul AA BB, fmul E (fadd AA (fmul a24 E))),
   (fmul s s, fmul u (fmul d d))).

Definition cswap {A} (b : bool) (pq : A * A) : A * A := if b then (snd pq, fst pq) else pq.

Definition ladder_step (u : Z) (pq : point * point) (b : bool) : point * point :=
  cswap b (add_double u (cswap b pq)).

(** The bits of [k], the most significant of [n] first. *)
Definition scalar_bits (n : nat) (k : Z) : list bool := (fun i => Z.testbit k (Z.of_nat i)) <$> reverse (seq 0 n).

Definition ladder (u k : Z) : point * point :=
  fold_left (ladder_step u) (scalar_bits 256 k) ((1, 0), (u, 1)).

(** The secret with bits 0, 1, 2 and 255 cleared and bit 254 set. *)
Definition clamp (k : Z) : Z := Z.lor (Z.land k (2 ^ 255 - 8)) (2 ^ 254).

Definition scalarmult (secret basepoint : list Z) : list Z :=
  let u := le_combine basepoint mod 2 ^ 255 in
  let '((x2, z2), _) := ladder u (clamp (le_combine secret)) in
  le_split 32 (fmul x2 (finv z2)).

End Curve25519_Spec.

(** The reduced operations, up to congruence. *)

Lemma fadd_eqp a b : Curve25519_Spec.fadd a b ≡p a + b.
Proof. apply eqp_mod. Qed.
Lemma fsub_eqp a b : Curve25519_Spec.fsub a b ≡p a - b.
Proof. apply eqp_mod. Qed.
Lemma fmul_eqp a b : Curve25519_Spec.fmul a b ≡p a * b.
Proof. apply eqp_mod. Qed.
#[export] Instance fadd_proper : Proper (eqp ==> eqp ==> eqp) Curve25519_Spec.fadd.
Proof. intros a a' Ea b b' Eb. now rewrite !fadd_eqp, Ea, Eb. Qed.
#[export] Instance fsub_proper : Proper (eqp ==> eqp ==> eqp) Curve25519_Spec.fsub.
Proof. intros a a' Ea b b' Eb. now rewrite !fsub_eqp, Ea, Eb. Qed.
#[export] Instance fmul_proper : Proper (eqp ==> eqp ==> eqp) Curve25519_Spec.fmul.
Proof. intros a a' Ea b b' Eb. now rewrite !fmul_eqp, Ea, Eb. Qed.

Lemma finv_eqp a : Curve25519_Spec.finv a ≡p a ^ (2 ^ 255 - 21).
Proof. unfold Curve25519_Spec.finv. rewrite Zpow_mod_correct by done. apply eqp_mod. Qed.

(** ** Encoding and decoding of field elements *)

Import Curve25519.

Lemma div_mod_window V a b : 0 <= a -> 0 <= b -> b <= 13 ->
  Z.land (wshr ((V / 2 ^ a) mod 2 ^ 64) b) 0x7ffffffffffff = (V / 2 ^ (a + b)) mod 2 ^ 51.
Proof.
  intros. rewrite mask51. unfold wshr. rewrite <- !Z.land_ones, <- !Z.shiftr_div_pow2 by lia.
  apply Z.bits_inj'. intros i Hi.
  rewrite !Z.land_spec, !Z.shiftr_spec, !Z.land_spec, !Z.shiftr_spec by lia.
  destruct (Z.lt_ge_cases i 51).
  - rewrite !Z.ones_spec_low, !andb_true_r by lia. f_equal. lia.
  - now rewrite !(Z.ones_spec_high 51), !andb_false_r by lia.
Qed.

(** The limbs are the 51-bit digits of the number. *)
Lemma fexpand_exact output input : length output = 5%nat -> bytes input -> length input = 32%nat ->
  limbs5 (2 ^ 51) (Hacl_EC_Format_fexpand output input) /\
  fval5 (Hacl_EC_Format_fexpand output input) = le_combine input mod 2 ^ 255.
Proof.
  intros Ho Hi Hl. destruct_list output. unfold Hacl_EC_Format_fexpand, load64_le. buf_simpl.
  rewrite !le_combine_slice by (done || lia). set (V := le_combine input).
  change (256 ^ Z.of_nat 0) with (2 ^ 0). change (256 ^ Z.of_nat 6) with (2 ^ 48).
  change (256 ^ Z.of_nat 12) with (2 ^ 96). change (256 ^ Z.of_nat 19) with (2 ^ 152).
  change (256 ^ Z.of_nat 24) with (2 ^ 192). change (256 ^ Z.of_nat 8) with (2 ^ 64).
  pose proof (div_mod_window V 0 0) as E0. unfold wshr in E0 at 1. rewrite Z.shiftr_0_r in E0.
  rewrite E0, !div_mod_window by lia. clear E0.
  split; [apply limbs5_intro; now apply Z.mod_pos_bound|]. clear. unfold fval5.
  change (0 + 0) with 0. change (48 + 3) with 51. change (96 + 6) with 102.
  change (152 + 1) with 153. change (192 + 12) with 204.
  Z.div_mod_to_equations. lia.
Qed.

Lemma limbs51_fe x l : limbs5 (2 ^ 51) l -> fval5 l ≡p x -> fe RED x l.
Proof. intros Hl E. split; [now apply (limbs5_weaken (2 ^ 51))|done]. Qed.

Lemma fexpand_spec output input : length output = 5%nat -> bytes input -> length input = 32%nat ->
  fe RED (le_combine input mod 2 ^ 255) (Hacl_EC_Format_fexpand output input).
Proof. intros. destruct (fexpand_exact output input) as [Hl E%eq_eqp]; [done..|]. now apply limbs51_fe. Qed.

(** The carry pass of [fcontract], and its top carry. *)
Definition carries (a0 a1 a2 a3 a4 : Z) : list Z :=
  let c1 := a1 + a0 / 2 ^ 51 in
  let c2 := a2 + c1 / 2 ^ 51 in
  let c3 := a3 + c2 / 2 ^ 51 in
  [a0 mod 2 ^ 51; c1 mod 2 ^ 51; c2 mod 2 ^ 51; c3 mod 2 ^ 51; a4 + c3 / 2 ^ 51].

Lemma first_carry_pass_spec a0 a1 a2 a3 a4 :
  0 <= a0 < 2 ^ 60 -> 0 <= a1 < 2 ^ 60 -> 0 <= a2 < 2 ^ 60 -> 0 <= a3 < 2 ^ 60 -> 0 <= a4 < 2 ^ 60 ->
  Hacl_EC_Format_fcontract_first_carry_pass [a0; a1; a2; a3; a4] = carries a0 a1 a2 a3 a4.
Proof.
  intros. unfold Hacl_EC_Format_fcontract_first_carry_pass, carries. buf_simpl.
  rewrite !mask51, !wshr_div by lia.
  assert (0 <= a0 / 2 ^ 51 < 2 ^ 10) by (Z.div_mod_to_equations; lia).
  rewrite (wadd_small 64 a1) by lia. set (c1 := a1 + _).
  assert (0 <= c1 / 2 ^ 51 < 2 ^ 10) by (Z.div_mod_to_equations; lia).
  rewrite (wadd_small 64 a2) by lia. set (c2 := a2 + _).
  assert (0 <= c2 / 2 ^ 51 < 2 ^ 10) by (clearbody c1; Z.div_mod_to_equations; lia).
  rewrite (wadd_small 64 a3) by lia. set (c3 := a3 + _).
  assert (0 <= c3 / 2 ^ 51 < 2 ^ 10) by (clearbody c2; Z.div_mod_to_equations; lia).
  now rewrite (wadd_small 64 a4) by lia.
Qed.

Lemma carry_top5_spec a0 a1 a2 a3 a4 : 0 <= a0 < 2 ^ 60 -> 0 <= a4 < 2 ^ 61 ->
  Hacl_Bignum_Modulo_carry_top [a0; a1; a2; a3; a4] = [a0 + 19 * (a4 / 2 ^ 51); a1; a2; a3; a4 mod 2 ^ 51].
Proof.
  intros. unfold Hacl_Bignum_Modulo_carry_top. buf_simpl. rewrite mask51, wshr_div by lia.
  assert (0 <= a4 / 2 ^ 51 < 2 ^ 10) by (Z.div_mod_to_equations; lia). now wnorm.
Qed.

(** One carry pass with its top carry keeps the value and brings every limb
    but the lowest below 2^51. *)
Lemma carry_round a0 a1 a2 a3 a4 :
  0 <= a0 < RED -> 0 <= a1 < RED -> 0 <= a2 < RED -> 0 <= a3 < RED -> 0 <= a4 < RED ->
  exists r0 r1 r2 r3 r4,
    Hacl_Bignum_Modulo_carry_top (carries a0 a1 a2 a3 a4) = [r0; r1; r2; r3; r4] /\
    fval5 [r0; r1; r2; r3; r4] ≡p fval5 [a0; a1; a2; a3; a4] /\
    0 <= r0 < 2 ^ 51 + 19 /\ 0 <= r1 < 2 ^ 51 /\ 0 <= r2 < 2 ^ 51 /\ 0 <= r3 < 2 ^ 51 /\ 0 <= r4 < 2 ^ 51 /\
    (a0 < 2 ^ 51 + 19 -> a1 < 2 ^ 51 -> a2 < 2 ^ 51 -> a3 < 2 ^ 51 -> a4 < 2 ^ 51 -> r0 < 2 ^ 51).
Proof.
  unfold RED. intros. unfold carries.
  set (c1 := a1 + _). set (c2 := a2 + _). set (c3 := a3 + _).
  assert (0 <= c1 / 2 ^ 51 <= 1) by (subst c1; Z.div_mod_to_equations; lia).
  assert (0 <= c2 / 2 ^ 51 <= 1) by (subst c2; clearbody c1; Z.div_mod_to_equations; lia).
  assert (0 <= c3 / 2 ^ 51 <= 1) by (subst c3; clearbody c2; Z.div_mod_to_equations; lia).
  rewrite carry_top5_spec by (Z.div_mod_to_equations; lia).
  eexists _, _, _, _, _. split; [reflexivity|]. split.
  - apply (eqp_multiple (- ((a4 + c3 / 2 ^ 51) / 2 ^ 51))). unfold fval5, prime. subst c3 c2 c1.
    clear. Z.div_mod_to_equations. lia.
  - assert (0 <= (a4 + c3 / 2 ^ 51) / 2 ^ 51 <= 1) by (clearbody c3; Z.div_mod_to_equations; lia).
    split; [clearbody c1 c2 c3; Z.div_mod_to_equations; lia|].
    do 4 (split; [apply Z.mod_pos_bound; lia|]). intros.
    subst c3 c2 c1. Z.div_mod_to_equations. lia.
Qed.

Lemma second_is_first l :
  Hacl_EC_Format_fcontract_second_carry_pass l = Hacl_EC_Format_fcontract_first_carry_pass l.
Proof. reflexivity. Qed.

Lemma trim_spec a0 a1 a2 a3 a4 :
  0 <= a0 < 2 ^ 51 -> 0 <= a1 < 2 ^ 51 -> 0 <= a2 < 2 ^ 51 -> 0 <= a3 < 2 ^ 51 -> 0 <= a4 < 2 ^ 51 ->
  limbs5 (2 ^ 51) (Hacl_EC_Format_fcontract_trim [a0; a1; a2; a3; a4]) /\
  fval5 (Hacl_EC_Format_fcontract_trim [a0; a1; a2; a3; a4]) = fval5 [a0; a1; a2; a3; a4] mod prime.
Proof.
  intros. unfold Hacl_EC_Format_fcontract_trim. buf_simpl.
  rewrite gte_mask64_spec, !eq_mask64_spec, !mask_land by (unfold word; lia).
  rewrite !land_mask by (unfold word; lia). unfold fval5, prime.
  destruct (Z.leb_spec 0x7ffffffffffed a0); cbn [andb];
    [destruct (Z.eqb_spec a1 0x7ffffffffffff); cbn [andb];
     [destruct (Z.eqb_spec a2 0x7ffffffffffff); cbn [andb];
      [destruct (Z.eqb_spec a3 0x7ffffffffffff); cbn [andb];
       [destruct (Z.eqb_spec a4 0x7ffffffffffff)|]|]|]|];
    wnorm;
    (split; [apply limbs5_intro; lia|];
     apply Z.mod_unique_pos with (q := 0) + apply Z.mod_unique_pos with (q := 1); lia).
Qed.

Lemma four_stores output o0 o1 o2 o3 : length output = 32%nat ->
  store64_le (store64_le (store64_le (store64_le output 0 o0) 8 o1) 16 o2) 24 o3 =
  le_split 8 o0 ++ le_split 8 o1 ++ le_split 8 o2 ++ le_split 8 o3.
Proof.
  intros Ho. unfold store64_le.
  assert (L : forall z, length (le_split 8 z) = 8%nat) by (intros; apply length_le_split).
  rewrite !(blit_blit_at output 0) by (rewrite ?length_app, ?L; lia).
  rewrite <- !app_assoc. apply blit_0_exact. rewrite !length_app, !L. lia.
Qed.

Lemma store_spec output a0 a1 a2 a3 a4 : length output = 32%nat ->
  0 <= a0 < 2 ^ 51 -> 0 <= a1 < 2 ^ 51 -> 0 <= a2 < 2 ^ 51 -> 0 <= a3 < 2 ^ 51 -> 0 <= a4 < 2 ^ 51 ->
  Hacl_EC_Format_fcontract_store output [a0; a1; a2; a3; a4] = le_split 32 (fval5 [a0; a1; a2; a3; a4]).
Proof.
  intros Ho. intros. unfold Hacl_EC_Format_fcontract_store. buf_simpl.
  rewrite !wshr_div, !join_word by (Z.div_mod_to_equations; lia). cbn zeta.
  rewrite four_stores by done.
  change 32%nat with (8 + (8 + (8 + 8)))%nat. rewrite !le_split_add, !Z.div_div by lia.
  assert (M : forall z y, z = y mod 256 ^ Z.of_nat 8 -> le_split 8 z = le_split 8 y)
    by (intros z y ->; apply le_split_mod).
  change (256 ^ Z.of_nat 8) with (2 ^ 64) in *. unfold fval5.
  f_equal; [|f_equal; [|f_equal]]; apply M; Z.div_mod_to_equations; lia.
Qed.

(** Two carry passes and the final subtraction give the canonical limbs. *)
Lemma contract_spec input x : fe RED x input ->
  let l := Hacl_EC_Format_fcontract_trim (Hacl_EC_Format_fcontract_second_carry_full
             (Hacl_EC_Format_fcontract_first_carry_full input)) in
  limbs5 (2 ^ 51) l /\ fval5 l = x mod prime.
Proof.
  intros [(a0 & a1 & a2 & a3 & a4 & -> & A0 & A1 & A2 & A3 & A4) Ex].
  unfold Hacl_EC_Format_fcontract_first_carry_full, Hacl_EC_Format_fcontract_second_carry_full.
  rewrite first_carry_pass_spec by (unfold RED in *; lia).
  destruct (carry_round a0 a1 a2 a3 a4) as (b0 & b1 & b2 & b3 & b4 & -> & Eb & B0 & B1 & B2 & B3 & B4 & _);
    try done.
  rewrite second_is_first, first_carry_pass_spec by lia.
  destruct (carry_round b0 b1 b2 b3 b4) as (c0 & c1 & c2 & c3 & c4 & -> & Ec & C0 & C1 & C2 & C3 & C4 & C0');
    try (unfold RED; lia).
  assert (Hc0 : c0 < 2 ^ 51) by (apply C0'; lia).
  buf_simpl. rewrite mask51, wshr_div, Z.div_small, Z.mod_small, wadd_small, Z.add_0_r by lia.
  destruct (trim_spec c0 c1 c2 c3 c4) as [Hl Ed]; try lia. split; [exact Hl|].
  rewrite Ed. apply eqp_iff. now rewrite Ec, Eb.
Qed.

(** Encoding yields the canonical representative. *)
Lemma fcontract_spec output input x : length output = 32%nat -> fe RED x input ->
  Hacl_EC_Format_fcontract output input = le_split 32 (x mod prime).
Proof.
  intros Ho Hx. unfold Hacl_EC_Format_fcontract. cbv zeta.
  destruct (contract_spec input x Hx) as [(d0 & d1 & d2 & d3 & d4 & -> & D0 & D1 & D2 & D3 & D4) <-].
  now rewrite store_spec.
Qed.

(** ** Points *)

Definition on_point (p : Curve25519_Spec.point) (l : list Z) : Prop :=
  exists lx lz, l = lx ++ lz /\ fe RED (fst p) lx /\ fe RED (snd p) lz.

Lemma on_point_length p l : on_point p l -> length l = 10%nat.
Proof. intros (lx & lz & -> & Hx & Hz). now rewrite length_app, (fe_length _ _ _ Hx), (fe_length _ _ _ Hz). Qed.

Lemma slice_app_5 (lx lz : list Z) : length lx = 5%nat -> length lz = 5%nat ->
  slice (lx ++ lz) 0 5 = lx /\ slice (lx ++ lz) 5 5 = lz.
Proof.
  intros Hx Hz. unfold slice. rewrite drop_0, take_app_length', drop_app_length', take_ge by lia. done.
Qed.

Lemma cswap_word b x y : word 64 x -> word 64 y ->
  Z.lxor x (Z.land (mask 64 b) (Z.lxor x y)) = (if b then y else x) /\
  Z.lxor y (Z.land (mask 64 b) (Z.lxor x y)) = (if b then x else y).
Proof.
  intros Hx Hy. rewrite Z.land_comm, land_mask by (lia || (apply word_lxor; lia || done)). destruct b.
  - rewrite <- Z.lxor_assoc, Z.lxor_nilpotent, Z.lxor_0_l. split; [done|].
    now rewrite (Z.lxor_comm x y), <- Z.lxor_assoc, Z.lxor_nilpotent, Z.lxor_0_l.
  - now rewrite !Z.lxor_0_r.
Qed.

Lemma swap_conditional__spec b a c x y : fe RED x a -> fe RED y c ->
  Hacl_EC_Point_swap_conditional_ a c (mask 64 b) 5 = Curve25519_Spec.cswap b (a, c).
Proof.
  intros [(a0 & a1 & a2 & a3 & a4 & -> & A) _] [(c0 & c1 & c2 & c3 & c4 & -> & C) _]. unfold RED in *.
  destruct (cswap_word b a0 c0) as [E0 F0], (cswap_word b a1 c1) as [E1 F1], (cswap_word b a2 c2) as [E2 F2],
    (cswap_word b a3 c3) as [E3 F3], (cswap_word b a4 c4) as [E4 F4]; [unfold word; lia..|].
  cbn [Hacl_EC_Point_swap_conditional_]. unfold Hacl_EC_Point_swap_conditional_step. cbn [Nat.sub]. buf_simpl.
  rewrite E0, E1, E2, E3, E4, F0, F1, F2, F3, F4. now destruct b.
Qed.

Lemma swap_mask b : wsub 64 0 (Z.b2z b) = mask 64 b.
Proof. now destruct b. Qed.

Lemma swap_conditional_spec b l m p q : on_point p l -> on_point q m ->
  Hacl_EC_Point_swap_conditional l m (Z.b2z b) = Curve25519_Spec.cswap b (l, m).
Proof.
  intros (lx & lz & -> & Hx & Hz) (mx & mz & -> & Kx & Kz). unfold Hacl_EC_Point_swap_conditional.
  rewrite swap_mask.
  destruct (slice_app_5 lx lz (fe_length _ _ _ Hx) (fe_length _ _ _ Hz)) as [-> ->].
  destruct (slice_app_5 mx mz (fe_length _ _ _ Kx) (fe_length _ _ _ Kz)) as [-> ->].
  rewrite (swap_conditional__spec b lx mx _ _ Hx Kx), (swap_conditional__spec b lz mz _ _ Hz Kz). now destruct b.
Qed.

Lemma point_copy_spec output l p : length output = 10%nat -> on_point p l -> Hacl_EC_Point_copy output l = l.
Proof.
  intros Ho (lx & lz & -> & Hx & Hz). unfold Hacl_EC_Point_copy.
  destruct (slice_app_5 lx lz) as [-> ->]; eauto using fe_length.
  apply fe_length in Hx, Hz. rewrite blit_blit_at by lia. apply blit_0_exact. rewrite length_app. lia.
Qed.

(** ** The ladder step *)

Section Ladder.
Context {T : Type} {U128Ops : UInt128Ops T} {U128 : UInt128 T}.

Ltac fe_solve :=
  first [assumption | reflexivity | eapply fe_length; eassumption | apply length_slice; lia
        | eapply fe_weaken; [|eassumption]; vm_compute; discriminate].
Ltac step_sum e := step_let (fe DIF e); [eapply (fe_weaken (RED + RED)); [done|apply fsum_spec; [done|fe_solve..]]|].
Ltac step_dif e := step_let (fe DIF e); [apply fdifference_spec; fe_solve|].
Ltac step_mul e := step_let (fe RED e); [apply fmul5_spec; fe_solve|].
Ltac step_sqr x := step_let (fe RED (x ^ (2 ^ Z.of_nat 1))); [apply fsquare_times_spec; (fe_solve || lia)|].

Lemma blit_5 (o l : list Z) B x : length o = 5%nat -> fe B x l -> fe B x (blit o 0 l).
Proof. intros Ho Hl. now rewrite blit_0_exact by (now rewrite (fe_length _ _ _ Hl)). Qed.

Definition monty_post (x z x' z' u : Z) (r : list Z * list Z * list Z * list Z) : Prop :=
  let A := x + z in let B := x - z in let C := x' + z' in let D := x' - z' in
  let E := A ^ 2 - B ^ 2 in
  let '(pp', ppq', p', pq') := r in
  on_point (A ^ 2 * B ^ 2, (E * 121665 + A ^ 2) * E) pp' /\
  on_point ((C * B + A * D) ^ 2, (C * B - A * D) ^ 2 * u) ppq' /\
  length p' = 10%nat /\ length pq' = 10%nat.

Lemma fmonty_values pp ppq p pq qmqp x z x' z' u :
  length pp = 10%nat -> length ppq = 10%nat -> on_point (x, z) p -> on_point (x', z') pq ->
  fe RED u (slice qmqp 0 5) ->
  monty_post x z x' z' u (Hacl_EC_AddAndDouble_fmonty (T := T) pp ppq p pq qmqp).
Proof.
  intros Hpp Hppq (lx & lz & -> & Hx & Hz) (mx & mz & -> & Kx & Kz) Hq. cbn [fst snd] in *.
  pose proof (fe_length _ _ _ Hx) as Lx. pose proof (fe_length _ _ _ Hz) as Lz.
  pose proof (fe_length _ _ _ Kx) as Mx. pose proof (fe_length _ _ _ Kz) as Mz.
  cbv beta delta [Hacl_EC_AddAndDouble_fmonty].
  step_let (fe RED u); [done|].
  do 4 (step_let (fun l : list Z => length l = 5%nat); [apply length_slice; lia|]).
  step_let (fe RED x); [now rewrite (proj1 (slice_app_5 lx lz Lx Lz))|].
  step_let (fe RED z); [now rewrite (proj2 (slice_app_5 lx lz Lx Lz))|].
  step_let (fe RED x'); [now rewrite (proj1 (slice_app_5 mx mz Mx Mz))|].
  step_let (fe RED z'); [now rewrite (proj2 (slice_app_5 mx mz Mx Mz))|].
  subst_let.
  do 8 (step_let (fun l : list Z => length l = 5%nat); [done|]).
  step_let (fe RED x); [now apply blit_5|].
  step_sum (x + z). step_dif (x - z).
  step_let (fe RED x'); [now apply blit_5|].
  step_sum (x' + z'). step_dif (x' - z').
  step_mul ((x' + z') * (x - z)). step_mul ((x + z) * (x' - z')).
  step_let (fe RED ((x' + z') * (x - z))); [apply blit_5; fe_solve|].
  step_sum ((x' + z') * (x - z) + (x + z) * (x' - z')).
  step_dif ((x' + z') * (x - z) - (x + z) * (x' - z')).
  step_sqr ((x' + z') * (x - z) + (x + z) * (x' - z')).
  step_sqr ((x' + z') * (x - z) - (x + z) * (x' - z')).
  step_mul (((x' + z') * (x - z) - (x + z) * (x' - z')) ^ 2 * u).
  step_sqr (x + z). step_sqr (x - z). step_mul ((x + z) ^ 2 * (x - z) ^ 2).
  step_dif ((x + z) ^ 2 - (x - z) ^ 2). subst_let.
  step_let (fe (2 ^ 52) (((x + z) ^ 2 - (x - z) ^ 2) * 121665)); [apply fscalar_spec; (fe_solve || lia)|].
  step_let (fe DIF (((x + z) ^ 2 - (x - z) ^ 2) * 121665 + (x + z) ^ 2)).
  { eapply (fe_weaken (2 ^ 52 + RED)); [done|]. apply fsum_spec; [done|fe_solve..]. }
  step_mul ((((x + z) ^ 2 - (x - z) ^ 2) * 121665 + (x + z) ^ 2) * ((x + z) ^ 2 - (x - z) ^ 2)).
  cbv beta iota zeta delta [monty_post]. split_and!.
  1-2: eexists _, _; split_and!; [reflexivity|eassumption..].
  all: rewrite length_app; erewrite !fe_length by eassumption; done.
Qed.

Lemma on_point_eqp p q l : fst p ≡p fst q -> snd p ≡p snd q -> on_point p l -> on_point q l.
Proof.
  intros E1 E2 (lx & lz & -> & Hx & Hz). exists lx, lz. split; [done|]. now rewrite <- E1, <- E2.
Qed.

(** The state of the ladder: the current pair in the first two buffers, the
    other two are scratch. *)
Definition ladder_inv (pq : Curve25519_Spec.point * Curve25519_Spec.point) (s : list Z * list Z) : Prop :=
  on_point (fst pq) (fst s) /\ on_point (snd pq) (snd s).

Ltac spec_ring :=
  unfold Curve25519_Spec.a24;
  rewrite ?fmul_eqp, ?fsub_eqp, ?fadd_eqp; apply (eqp_multiple 0); ring.

Lemma fmonty_spec pp ppq p pq qmqp st u :
  length pp = 10%nat -> length ppq = 10%nat -> ladder_inv st (p, pq) -> fe RED u (slice qmqp 0 5) ->
  let '(pp', ppq', p', pq') := Hacl_EC_AddAndDouble_fmonty (T := T) pp ppq p pq qmqp in
  ladder_inv (Curve25519_Spec.add_double u st) (pp', ppq') /\ length p' = 10%nat /\ length pq' = 10%nat.
Proof.
  intros Hpp Hppq [Hp Hq] Hu. destruct st as [[x z] [x' z']].
  pose proof (fmonty_values pp ppq p pq qmqp x z x' z' u Hpp Hppq Hp Hq Hu) as H.
  destruct (Hacl_EC_AddAndDouble_fmonty (T := T) pp ppq p pq qmqp) as [[[pp' ppq'] p'] pq'].
  destruct H as (H1 & H2 & H3 & H4). split; [|done].
  split; (eapply on_point_eqp; [| |eassumption]); cbn [fst snd Curve25519_Spec.add_double]; spec_ring.
Qed.

Lemma cswap_inv b st s : ladder_inv st s ->
  ladder_inv (Curve25519_Spec.cswap b st) (Curve25519_Spec.cswap b s).
Proof. destruct b; [intros [? ?]; now split|done]. Qed.

Lemma top_bit byt : 0 <= byt < 256 -> wshr byt 7 = Z.b2z (Z.testbit byt 7).
Proof.
  intros. rewrite wshr_div, Z.testbit_spec' by lia. symmetry. apply Z.mod_small.
  Z.div_mod_to_equations. lia.
Qed.

Definition step_post (st : Curve25519_Spec.point * Curve25519_Spec.point)
    (r : list Z * list Z * list Z * list Z) : Prop :=
  let '(nq, nqpq, nq2, nqpq2) := r in
  length nq = 10%nat /\ length nqpq = 10%nat /\ ladder_inv st (nq2, nqpq2).

Lemma small_loop_step_spec nq nqpq nq2 nqpq2 q byt st u :
  ladder_inv st (nq, nqpq) -> length nq2 = 10%nat -> length nqpq2 = 10%nat -> fe RED u (slice q 0 5) ->
  0 <= byt < 256 ->
  step_post (Curve25519_Spec.ladder_step u st (Z.testbit byt 7))
    (Hacl_EC_Ladder_SmallLoop_cmult_small_loop_step (T := T) nq nqpq nq2 nqpq2 q byt).
Proof.
  intros Hst H2 H3 Hq Hb. unfold Hacl_EC_Ladder_SmallLoop_cmult_small_loop_step.
  rewrite top_bit by done. set (b := Z.testbit byt 7).
  rewrite (swap_conditional_spec b nq nqpq _ _ (proj1 Hst) (proj2 Hst)).
  apply (cswap_inv b) in Hst. destruct (Curve25519_Spec.cswap b (nq, nqpq)) as [n1 n2].
  pose proof (fmonty_spec nq2 nqpq2 n1 n2 q _ u H2 H3 Hst Hq) as H.
  destruct (Hacl_EC_AddAndDouble_fmonty (T := T) nq2 nqpq2 n1 n2 q) as [[[m1 m2] k1] k2].
  destruct H as (Hm & ? & ?).
  rewrite (swap_conditional_spec b m1 m2 _ _ (proj1 Hm) (proj2 Hm)).
  apply (cswap_inv b) in Hm. destruct (Curve25519_Spec.cswap b (m1, m2)) as [m1' m2'].
  now split_and!.
Qed.

Definition loop_post (st : Curve25519_Spec.point * Curve25519_Spec.point)
    (r : list Z * list Z * list Z * list Z) : Prop :=
  let '(nq, nqpq, nq2, nqpq2) := r in
  ladder_inv st (nq, nqpq) /\ length nq2 = 10%nat /\ length nqpq2 = 10%nat.

Lemma double_step_spec nq nqpq nq2 nqpq2 q byt st u :
  loop_post st (nq, nqpq, nq2, nqpq2) -> fe RED u (slice q 0 5) -> 0 <= byt < 256 ->
  loop_post (Curve25519_Spec.ladder_step u (Curve25519_Spec.ladder_step u st (Z.testbit byt 7)) (Z.testbit byt 6))
    (Hacl_EC_Ladder_SmallLoop_cmult_small_loop_double_step (T := T) nq nqpq nq2 nqpq2 q byt).
Proof.
  intros (Hst & H2 & H3) Hq Hb. unfold Hacl_EC_Ladder_SmallLoop_cmult_small_loop_double_step.
  pose proof (small_loop_step_spec nq nqpq nq2 nqpq2 q byt st u Hst H2 H3 Hq Hb) as H.
  destruct (Hacl_EC_Ladder_SmallLoop_cmult_small_loop_step _ _ _ _ _ _) as [[[m1 m2] m3] m4].
  destruct H as (? & ? & H).
  assert (Eb : Z.testbit byt 6 = Z.testbit (wshl 8 byt 1) 7)
    by (unfold wshl; now rewrite wrap_bit, Z.shiftl_spec by lia).
  rewrite Eb.
  pose proof (small_loop_step_spec m3 m4 m1 m2 q (wshl 8 byt 1) _ u H) as H'.
  destruct (Hacl_EC_Ladder_SmallLoop_cmult_small_loop_step _ _ _ _ _ _) as [[[k1 k2] k3] k4].
  destruct H' as (? & ? & H'); [done..|now apply wshl_word|]. now split_and!.
Qed.

(** The bits of a byte from the top, [2 * i] of them. *)
Fixpoint top_bits (byt : Z) (i : nat) : list bool :=
  match i with
  | O => []
  | S i' => Z.testbit byt 7 :: Z.testbit byt 6 :: top_bits (wshl 8 byt 2) i'
  end.

Lemma small_loop_spec i : forall nq nqpq nq2 nqpq2 q byt st u,
  loop_post st (nq, nqpq, nq2, nqpq2) -> fe RED u (slice q 0 5) -> 0 <= byt < 256 ->
  loop_post (fold_left (Curve25519_Spec.ladder_step u) (top_bits byt i) st)
    (Hacl_EC_Ladder_SmallLoop_cmult_small_loop (T := T) nq nqpq nq2 nqpq2 q byt i).
Proof.
  induction i as [|i IH]; intros nq nqpq nq2 nqpq2 q byt st u Hst Hq Hb; [done|].
  cbn [Hacl_EC_Ladder_SmallLoop_cmult_small_loop top_bits fold_left].
  pose proof (double_step_spec nq nqpq nq2 nqpq2 q byt st u Hst Hq Hb) as H.
  destruct (Hacl_EC_Ladder_SmallLoop_cmult_small_loop_double_step _ _ _ _ _ _) as [[[m1 m2] m3] m4].
  apply IH; [done|done|now apply wshl_word].
Qed.

Lemma big_loop_spec n1 i : forall nq nqpq nq2 nqpq2 q st u,
  bytes n1 -> (i <= length n1)%nat ->
  loop_post st (nq, nqpq, nq2, nqpq2) -> fe RED u (slice q 0 5) ->
  loop_post (fold_left (Curve25519_Spec.ladder_step u)
               (mjoin ((fun b => top_bits b 4) <$> reverse (take i n1))) st)
    (Hacl_EC_Ladder_BigLoop_cmult_big_loop (T := T) n1 nq nqpq nq2 nqpq2 q i).
Proof.
  induction i as [|i IH]; intros nq nqpq nq2 nqpq2 q st u Hn Hi Hst Hq; [done|].
  destruct (lookup_lt_is_Some_2 n1 i ltac:(lia)) as [b Hb].
  assert (Hbb : 0 <= b < 256) by (now apply (Forall_lookup_1 _ _ _ _ Hn Hb)).
  rewrite (take_S_r n1 i b Hb), reverse_snoc. cbn [fmap list_fmap mjoin list_join].
  rewrite fold_left_app. cbn [Hacl_EC_Ladder_BigLoop_cmult_big_loop].
  rewrite (list_lookup_total_correct n1 i b Hb).
  pose proof (small_loop_spec 4 nq nqpq nq2 nqpq2 q b st u Hst Hq Hbb) as H.
  destruct (Hacl_EC_Ladder_SmallLoop_cmult_small_loop _ _ _ _ _ _ _) as [[[m1 m2] m3] m4].
  now apply IH; [|lia| |].
Qed.

(** ** From bytes to bits *)

Lemma top_bits_spec b : top_bits b 4 = Curve25519_Spec.scalar_bits 8 b.
Proof.
  unfold Curve25519_Spec.scalar_bits, wshl.
  cbn [top_bits]. change (reverse (seq 0 8)) with [7; 6; 5; 4; 3; 2; 1; 0]%nat.
  cbn [fmap list_fmap Z.of_nat Pos.of_succ_nat Pos.succ]. unfold wshl.
  repeat rewrite ?wrap_bit, ?Z.shiftl_spec by lia. done.
Qed.

Lemma scalar_bits_add n k : Curve25519_Spec.scalar_bits (8 + n) k =
  Curve25519_Spec.scalar_bits n (k / 2 ^ 8) ++ Curve25519_Spec.scalar_bits 8 k.
Proof.
  unfold Curve25519_Spec.scalar_bits. rewrite seq_app, reverse_app, fmap_app. f_equal.
  rewrite <- (fmap_add_seq 8 0), !fmap_reverse, <- list_fmap_compose. f_equal.
  apply list_fmap_ext. intros i j _. unfold compose. rewrite <- Z.shiftr_div_pow2, Z.shiftr_spec by lia.
  f_equal. lia.
Qed.

Lemma scalar_bits_bytes l : bytes l ->
  mjoin ((fun b => top_bits b 4) <$> reverse l) = Curve25519_Spec.scalar_bits (8 * length l) (le_combine l).
Proof.
  induction 1 as [|b l Hb _ IH]; [done|]. cbn [length le_combine].
  rewrite reverse_cons, fmap_app, join_app, IH. replace (8 * S (length l))%nat with (8 + 8 * length l)%nat by lia.
  rewrite scalar_bits_add. f_equal.
  - f_equal. change (2 ^ 8) with 256. Z.div_mod_to_equations. lia.
  - cbn [fmap list_fmap mjoin list_join]. rewrite app_nil_r, top_bits_spec.
    unfold Curve25519_Spec.scalar_bits. apply list_fmap_ext. intros i j Hi.
    assert (Hj : (j < 8)%nat).
    { apply list_elem_of_lookup_2, elem_of_reverse, elem_of_seq in Hi. lia. }
    replace (b + 256 * le_combine l) with (Z.lor b (Z.shiftl (le_combine l) 8)) by (rewrite Z_lor_add; lia).
    rewrite Z.lor_spec, Z.shiftl_spec_low, orb_false_r by lia. done.
Qed.

Lemma cmult_spec result n1 q u : length result = 10%nat -> bytes n1 -> length n1 = 32%nat ->
  on_point (u, 1) q ->
  on_point (fst (Curve25519_Spec.ladder u (le_combine n1))) (Hacl_EC_Ladder_cmult (T := T) result n1 q).
Proof.
  intros Hr Hn Hl Hq. unfold Hacl_EC_Ladder_cmult.
  assert (Hu : fe RED u (slice q 0 5)).
  { destruct Hq as (lx & lz & -> & Hx & Hz).
    now rewrite (proj1 (slice_app_5 lx lz (fe_length _ _ _ Hx) (fe_length _ _ _ Hz))). }
  rewrite (point_copy_spec (slice (replicate 40 0) 10 10) q _ eq_refl Hq).
  set (nq := (slice (replicate 40 0) 0 10).[0 <- 1]).
  set (nq2 := slice (replicate 40 0) 20 10). set (nqpq2 := slice (replicate 40 0) 30 10).
  assert (H0 : loop_post ((1, 0), (u, 1)) (nq, q, nq2, nqpq2)).
  { split_and!; [|done|done]. split; [|exact Hq]. exists [1; 0; 0; 0; 0], [0; 0; 0; 0; 0].
    split; [done|]. split; (split; [apply limbs5_intro; done|done]). }
  assert (Hb : mjoin ((fun b => top_bits b 4) <$> reverse (take 32 n1)) =
               Curve25519_Spec.scalar_bits 256 (le_combine n1)).
  { rewrite take_ge, scalar_bits_bytes, Hl by (assumption || lia). reflexivity. }
  pose proof (big_loop_spec n1 32 nq q nq2 nqpq2 q _ u Hn ltac:(lia) H0 Hu) as H. rewrite Hb in H.
  destruct (Hacl_EC_Ladder_BigLoop_cmult_big_loop _ _ _ _ _ _ _) as [[[m1 m2] m3] m4].
  destruct H as ([H _] & _ & _). cbn [fst] in H. now rewrite (point_copy_spec _ m1 _ Hr H).
Qed.

Lemma scalar_of_point_spec scalar l p : length scalar = 32%nat -> on_point p l ->
  Hacl_EC_Format_scalar_of_point (T := T) scalar l =
  le_split 32 (Curve25519_Spec.fmul (fst p) (Curve25519_Spec.finv (snd p))).
Proof.
  intros Hs (lx & lz & -> & Hx & Hz). unfold Hacl_EC_Format_scalar_of_point.
  destruct (slice_app_5 lx lz (fe_length _ _ _ Hx) (fe_length _ _ _ Hz)) as [-> ->].
  pose proof (crecip_spec (slice (replicate 10 0) 0 5) lz (snd p) eq_refl Hz) as Hi.
  pose proof (fmul5_spec (slice (replicate 10 0) 5 5) lx _ (fst p) _ eq_refl
    (fe_weaken _ _ _ _ RED_le_DIF Hx) (fe_weaken _ _ _ _ RED_le_DIF Hi)) as Hm.
  cbv zeta. unfold Hacl_Bignum_fmul. rewrite (fcontract_spec scalar _ _ Hs Hm). f_equal.
  unfold Curve25519_Spec.fmul. apply eqp_iff. now rewrite finv_eqp.
Qed.

(** ** Clamping *)

Lemma clamp_spec secret : bytes secret -> length secret = 32%nat ->
  let e := secret.[0 <- Z.land secret.[0] 248] in
  let e := e.[31 <- Z.lor (Z.land secret.[31] 127) 64] in
  bytes e /\ le_combine e = Curve25519_Spec.clamp (le_combine secret).
Proof.
  intros Hb Hl e0 e.
  assert (B : forall i, (i < 32)%nat -> word 8 secret.[i]).
  { intros i Hi. destruct (lookup_lt_is_Some_2 secret i ltac:(lia)) as [b E].
    rewrite (list_lookup_total_correct _ _ _ E). exact (Forall_lookup_1 _ _ _ _ Hb E). }
  assert (He : bytes e).
  { apply Forall_insert; [apply Forall_insert; [done|]|].
    - apply (word_land_l 8); [lia|apply B; lia|lia].
    - apply (word_lor 8); [lia|apply (word_land_l 8); [lia|apply B; lia|lia]|done]. }
  split; [done|]. assert (Le : length e = 32%nat) by (unfold e, e0; now rewrite !length_insert).
  pose proof (le_combine_bound e He) as Be. rewrite Le in Be.
  pose proof (le_combine_bound secret Hb) as Bs. rewrite Hl in Bs.
  apply (word_ext 256); [lia|exact Be| |].
  { unfold Curve25519_Spec.clamp. apply word_lor; [lia| |done]. now apply word_land_l. }
  intros i Hi. rewrite le_combine_testbit by (done || lia). unfold Curve25519_Spec.clamp.
  rewrite Z.lor_spec, Z.land_spec, (le_combine_testbit secret) by (done || lia).
  assert (H31 : 0 <= i / 8 < 32) by (Z.div_mod_to_equations; lia).
  pose proof (Z.mod_pos_bound i 8 ltac:(lia)) as Hm. pose proof (Z.div_mod i 8 ltac:(lia)) as Ei.
  unfold e, e0. destruct (Z.eq_dec (i / 8) 31) as [E31|N31]; [|destruct (Z.eq_dec (i / 8) 0) as [E0|N0]].
  - rewrite E31. change (Z.to_nat 31) with 31%nat. rewrite list_lookup_total_insert_eq by (rewrite length_insert; lia).
    rewrite Z.lor_spec, Z.land_spec.
    assert (Hc : i mod 8 = 0 \/ i mod 8 = 1 \/ i mod 8 = 2 \/ i mod 8 = 3 \/ i mod 8 = 4 \/ i mod 8 = 5 \/ i mod 8 = 6 \/ i mod 8 = 7) by lia.
    rewrite Ei, E31. destruct Hc as [->|[->|[->|[->|[->|[->|[->| ->]]]]]]]; reflexivity.
  - rewrite E0. change (Z.to_nat 0) with 0%nat. rewrite list_lookup_total_insert_ne by lia.
    rewrite list_lookup_total_insert_eq by lia. rewrite Z.land_spec.
    assert (Hc : i mod 8 = 0 \/ i mod 8 = 1 \/ i mod 8 = 2 \/ i mod 8 = 3 \/ i mod 8 = 4 \/ i mod 8 = 5 \/ i mod 8 = 6 \/ i mod 8 = 7) by lia.
    rewrite Ei, E0. destruct Hc as [->|[->|[->|[->|[->|[->|[->| ->]]]]]]]; cbn; now rewrite ?orb_false_r.
  - rewrite !list_lookup_total_insert_ne by lia.
    assert (Z.testbit (2 ^ 254) i = false) as -> by (apply Z.pow2_bits_false; lia).
    assert (Z.testbit (2 ^ 255 - 8) i = true) as ->; [|now rewrite andb_true_r, orb_false_r].
    replace (2 ^ 255 - 8) with (Z.shiftl (Z.ones 252) 3) by done.
    rewrite Z.shiftl_spec, Z.ones_spec_low by lia. done.
Qed.

(** The whole function. *)
Lemma scalarmult_spec mypublic secret basepoint :
  length mypublic = 32%nat -> bytes secret -> length secret = 32%nat ->
  bytes basepoint -> length basepoint = 32%nat ->
  Hacl_Curve25519_crypto_scalarmult (T := T) mypublic secret basepoint =
  Curve25519_Spec.scalarmult secret basepoint.
Proof.
  intros Hm Hs Ls Hb Lb. unfold Hacl_Curve25519_crypto_scalarmult, Hacl_EC_crypto_scalarmult.
  rewrite take_ge by lia. destruct (clamp_spec secret Hs Ls) as [He Ee].
  pose proof (fexpand_spec (slice (replicate 10 0) 0 5) basepoint eq_refl Hb Lb) as Hx.
  assert (Hq : on_point (le_combine basepoint mod 2 ^ 255, 1)
    (Hacl_EC_Format_fexpand (slice (replicate 10 0) 0 5) basepoint ++ (slice (replicate 10 0) 5 5).[0 <- 1])).
  { eexists _, _. split; [reflexivity|]. split; [exact Hx|]. split; [apply limbs5_intro; done|done]. }
  pose proof (cmult_spec ((slice (replicate 15 0) 0 10).[0 <- 1]) _ _ _ eq_refl He
    ltac:(now rewrite !length_insert) Hq) as Hn.
  rewrite Ee in Hn. cbv zeta. rewrite (scalar_of_point_spec mypublic _ _ Hm Hn).
  unfold Curve25519_Spec.scalarmult. now destruct (Curve25519_Spec.ladder _ _) as [[x2 z2] [x3 z3]].
Qed.
End Ladder.

(** ** Main results *)

Section Results.
Context {T : Type} {U128Ops : UInt128Ops T} {U128 : UInt128 T}.

(** C7: [Hacl_Curve25519_crypto_scalarmult] is X25519 (RFC 7748): the
    Montgomery ladder over the clamped secret from the u-coordinate of the base point
    with its top bit dropped, and the canonical little-endian encoding of the result. *)
Theorem x25519_refines mypublic secret basepoint :
  length mypublic = 32%nat -> bytes secret -> length secret = 32%nat ->
  bytes basepoint -> length basepoint = 32%nat ->
  Hacl_Curve25519_crypto_scalarmult (T := T) mypublic secret basepoint =
  Curve25519_Spec.scalarmult secret basepoint.
Proof. apply scalarmult_spec. Qed.

(** one step of the ladder, [Hacl_EC_AddAndDouble_fmonty], keeps the
    limbs of all four coordinates reduced and doubles the first point and adds the
    second to it, whatever the four buffers held before. *)
Theorem fmonty_step_invariant pp ppq p pq qmqp st u :
  length pp = 10%nat -> length ppq = 10%nat -> ladder_inv st (p, pq) -> fe RED u (slice qmqp 0 5) ->
  let '(pp', ppq', p', pq') := Hacl_EC_AddAndDouble_fmonty (T := T) pp ppq p pq qmqp in
  ladder_inv (Curve25519_Spec.add_double u st) (pp', ppq') /\ length p' = 10%nat /\ length pq' = 10%nat.
Proof. apply fmonty_spec. Qed.

End Results.

Lemma x25519_refines_witness :
  Hacl_Curve25519_crypto_scalarmult (T := Z) (replicate 32 0) (replicate 32 7) (9 :: replicate 31 0) =
  Curve25519_Spec.scalarmult (replicate 32 7) (9 :: replicate 31 0).
Proof.
  refine (x25519_refines (T := Z) (replicate 32 0) (replicate 32 7) (9 :: replicate 31 0) eq_refl _ eq_refl _ eq_refl).
  - now apply bytes_replicate.
  - constructor; [lia|now apply bytes_replicate].
Defined.

(** The base point and the neutral element, in limbs. *)
Lemma fe_small x : 0 <= x < RED -> fe RED x [x; 0; 0; 0; 0].
Proof. unfold RED. intros. split; [repeat eexists; unfold RED; lia|]. unfold fval5. apply (eqp_multiple 0). ring. Qed.

Lemma ladder_start u : 0 <= u < RED ->
  ladder_inv ((1, 0), (u, 1)) ([1; 0; 0; 0; 0; 0; 0; 0; 0; 0], [u; 0; 0; 0; 0; 1; 0; 0; 0; 0]).
Proof.
  intros Hu. split.
  - exists [1; 0; 0; 0; 0], [0; 0; 0; 0; 0]. split; [done|]. split; apply fe_small; unfold RED; lia.
  - exists [u; 0; 0; 0; 0], [1; 0; 0; 0; 0]. split; [done|]. split; apply fe_small; [done|unfold RED; lia].
Qed.

Lemma fmonty_step_invariant_witness :
  let '(pp', ppq', p', pq') := Hacl_EC_AddAndDouble_fmonty (T := Z) (replicate 10 0) (replicate 10 0)
    [1; 0; 0; 0; 0; 0; 0; 0; 0; 0] [9; 0; 0; 0; 0; 1; 0; 0; 0; 0] [9; 0; 0; 0; 0; 1; 0; 0; 0; 0] in
  ladder_inv (Curve25519_Spec.add_double 9 ((1, 0), (9, 1))) (pp', ppq') /\ length p' = 10%nat /\ length pq' = 10%nat.
Proof.
  apply (fmonty_step_invariant (T := Z)); [reflexivity|reflexivity|apply ladder_start; unfold RED; lia|].
  apply fe_small; unfold RED; lia.
Defined.
