(* ===== verification/NaCl.v ===== *)
(** * NaCl: the boxes of NaCl.c and the comparison of Hacl_Policies.c

    Authenticated encryption as the peer-to-peer layer uses it: XSalsa20 and
    Poly1305 under a shared key ([secretbox]) or under a Diffie-Hellman key
    ([box]).  Messages carry 32 bytes of zero padding in front; a sealed
    message has its tag in bytes 16 to 31 of that padding.

    A function returns its C result last, after the buffers it writes. *)

From stdpp Require Import base list numbers.
From Stdlib Require Import ZArith Lia.
From S2P Require Import Prelude Machine UInt128 Poly1305 CounterMode Salsa20 Curve25519 FieldProofs LadderProofs.

Local Open Scope Z_scope.
Local Open Scope buf_scope.

(** ** Constant-time comparison *)

Module Policies.

Definition Hacl_Policies_cmp_bytes_ (b1 b2 : list Z) (len : nat) (tmp : list Z) : list Z * Z :=
  let tmp := for_ 0 len (fun i tmp =>
    let bi1 := b1.[i] in
    let bi2 := b2.[i] in
    let z0 := tmp.[0] in
    tmp.[0 <- (FStar_UInt8_eq_mask bi1 bi2 & z0)%u8]) tmp in
  (tmp, tmp.[0]).

Definition Hacl_Policies_cmp_bytes (b1 b2 : list Z) (len : nat) : Z :=
  let tmp := [255] in
  let '(tmp, z) := Hacl_Policies_cmp_bytes_ b1 b2 len tmp in
  (! z)%u8.

End Policies.

(** ** The code of NaCl.c *)

Module NaCl.
Section Code.
Context {T : Type} {U128Ops : UInt128Ops T}.
Import Policies.

Definition Hacl_SecretBox_ZeroPad_set_zero_bytes (b : list Z) : list Z :=
  for_ 0 32 (fun i b => b.[i <- 0]) b.

Definition Hacl_SecretBox_ZeroPad_crypto_secretbox_detached
    (c mac m : list Z) (mlen : Z) (n1 k1 : list Z) : list Z * list Z * Z :=
  let mlen_ := wrap 32 mlen in
  let subkey := replicate 32 0 in
  let subkey := Salsa20.Hacl_Salsa20_hsalsa20 subkey k1 n1 in
  let c := Salsa20.Hacl_Salsa20_salsa20 c m (mlen_ + 32)%u32 subkey (drop 16 n1) 0 in
  let mac := Poly1305_64.Hacl_Poly1305_64_crypto_onetimeauth (T := T) mac (drop 32 c) mlen c in
  let c := Hacl_SecretBox_ZeroPad_set_zero_bytes c in
  let subkey := Hacl_SecretBox_ZeroPad_set_zero_bytes subkey in
  (c, mac, 0).

Definition Hacl_SecretBox_ZeroPad_crypto_secretbox_open_detached_decrypt
    (m c : list Z) (clen : Z) (n1 subkey : list Z) (verify : Z) : list Z * Z :=
  let clen_ := wrap 32 clen in
  if verify =? 0 then
    let m := Salsa20.Hacl_Salsa20_salsa20 m c (clen_ + 32)%u32 subkey (drop 16 n1) 0 in
    let subkey := Hacl_SecretBox_ZeroPad_set_zero_bytes subkey in
    let m := Hacl_SecretBox_ZeroPad_set_zero_bytes m in
    (m, 0)
  else (m, 0xffffffff).

Definition Hacl_SecretBox_ZeroPad_crypto_secretbox_open_detached
    (m c mac : list Z) (clen : Z) (n1 k1 : list Z) : list Z * Z :=
  let tmp := replicate 112 0 in
  let subkey := slice tmp 0 32 in
  let mackey := slice tmp 32 32 in
  let mackey_ := slice tmp 64 32 in
  let cmac := slice tmp 96 16 in
  let subkey := Salsa20.Hacl_Salsa20_hsalsa20 subkey k1 n1 in
  let mackey := Salsa20.Hacl_Salsa20_salsa20 mackey mackey_ 32 subkey (drop 16 n1) 0 in
  let cmac := Poly1305_64.Hacl_Poly1305_64_crypto_onetimeauth (T := T) cmac (drop 32 c) clen mackey in
  let result := Hacl_Policies_cmp_bytes mac cmac 16 in
  let verify := result in
  Hacl_SecretBox_ZeroPad_crypto_secretbox_open_detached_decrypt m c clen n1 subkey verify.

Definition Hacl_SecretBox_ZeroPad_crypto_secretbox_easy
    (c m : list Z) (mlen : Z) (n1 k1 : list Z) : list Z * Z :=
  let cmac := replicate 16 0 in
  let '(c, cmac, res) := Hacl_SecretBox_ZeroPad_crypto_secretbox_detached c cmac m mlen n1 k1 in
  let c := blit c 16 cmac in
  (c, res).

Definition Hacl_SecretBox_ZeroPad_crypto_secretbox_open_easy
    (m c : list Z) (clen : Z) (n1 k1 : list Z) : list Z * Z :=
  let mac := c in
  Hacl_SecretBox_ZeroPad_crypto_secretbox_open_detached m c mac clen n1 k1.

Definition Hacl_Box_ZeroPad_crypto_box_beforenm (k1 pk sk : list Z) : list Z * Z :=
  let tmp := replicate 48 0 in
  let hsalsa_k := slice tmp 0 32 in
  let hsalsa_n := slice tmp 32 16 in
  let hsalsa_k := Curve25519.Hacl_Curve25519_crypto_scalarmult (T := T) hsalsa_k sk pk in
  let k1 := Salsa20.Hacl_Salsa20_hsalsa20 k1 hsalsa_k hsalsa_n in
  (k1, 0).

Definition Hacl_Box_ZeroPad_crypto_box_detached_afternm
    (c mac m : list Z) (mlen : Z) (n1 k1 : list Z) : list Z * list Z * Z :=
  Hacl_SecretBox_ZeroPad_crypto_secretbox_detached c mac m mlen n1 k1.

Definition Hacl_Box_ZeroPad_crypto_box_detached
    (c mac m : list Z) (mlen : Z) (n1 pk sk : list Z) : list Z * list Z * Z :=
  let key := replicate 80 0 in
  let k1 := slice key 0 32 in
  let subkey := slice key 32 32 in
  let hsalsa_n := slice key 64 16 in
  let k1 := Curve25519.Hacl_Curve25519_crypto_scalarmult (T := T) k1 sk pk in
  let subkey := Salsa20.Hacl_Salsa20_hsalsa20 subkey k1 hsalsa_n in
  Hacl_SecretBox_ZeroPad_crypto_secretbox_detached c mac m mlen n1 subkey.

Definition Hacl_Box_ZeroPad_crypto_box_open_detached
    (m c mac : list Z) (mlen : Z) (n1 pk sk : list Z) : list Z * Z :=
  let key := replicate 80 0 in
  let k1 := slice key 0 32 in
  let subkey := slice key 32 32 in
  let hsalsa_n := slice key 64 16 in
  let k1 := Curve25519.Hacl_Curve25519_crypto_scalarmult (T := T) k1 sk pk in
  let subkey := Salsa20.Hacl_Salsa20_hsalsa20 subkey k1 hsalsa_n in
  Hacl_SecretBox_ZeroPad_crypto_secretbox_open_detached m c mac mlen n1 subkey.

Definition Hacl_Box_ZeroPad_crypto_box_easy_afternm
    (c m : list Z) (mlen : Z) (n1 k1 : list Z) : list Z * Z :=
  let cmac := replicate 16 0 in
  let '(c, cmac, z) := Hacl_Box_ZeroPad_crypto_box_detached_afternm c cmac m mlen n1 k1 in
  let c := blit c 16 cmac in
  (c, z).

Definition Hacl_Box_ZeroPad_crypto_box_easy
    (c m : list Z) (mlen : Z) (n1 pk sk : list Z) : list Z * Z :=
  let cmac := replicate 16 0 in
  let '(c, cmac, res) := Hacl_Box_ZeroPad_crypto_box_detached c cmac m mlen n1 pk sk in
  let c := blit c 16 cmac in
  (c, res).

Definition Hacl_Box_ZeroPad_crypto_box_open_easy
    (m c : list Z) (mlen : Z) (n1 pk sk : list Z) : list Z * Z :=
  let mac := drop 16 c in
  Hacl_Box_ZeroPad_crypto_box_open_detached m c mac mlen n1 pk sk.

Definition Hacl_Box_ZeroPad_crypto_box_open_detached_afternm
    (m c mac : list Z) (mlen : Z) (n1 k1 : list Z) : list Z * Z :=
  Hacl_SecretBox_ZeroPad_crypto_secretbox_open_detached m c mac mlen n1 k1.

Definition Hacl_Box_ZeroPad_crypto_box_open_easy_afternm
    (m c : list Z) (mlen : Z) (n1 k1 : list Z) : list Z * Z :=
  let mac := drop 16 c in
  Hacl_Box_ZeroPad_crypto_box_open_detached_afternm m c mac mlen n1 k1.

(** The two calls of the peer-to-peer sockets, which pass one buffer as both
    message and ciphertext. *)

Definition crypto_box_easy_afternm_inplace (buf : list Z) (mlen : Z) (n1 k1 : list Z) : list Z * Z :=
  let cmac := replicate 16 0 in
  let mlen_ := wrap 32 mlen in
  let subkey := replicate 32 0 in
  let subkey := Salsa20.Hacl_Salsa20_hsalsa20 subkey k1 n1 in
  let buf := Salsa20.Hacl_Salsa20_salsa20_inplace buf (mlen_ + 32)%u32 subkey (drop 16 n1) 0 in
  let cmac := Poly1305_64.Hacl_Poly1305_64_crypto_onetimeauth (T := T) cmac (drop 32 buf) mlen buf in
  let buf := Hacl_SecretBox_ZeroPad_set_zero_bytes buf in
  let buf := blit buf 16 cmac in
  (buf, 0).

Definition crypto_box_open_easy_afternm_inplace (buf : list Z) (mlen : Z) (n1 k1 : list Z) : list Z * Z :=
  let mac := drop 16 buf in
  let subkey := replicate 32 0 in
  let subkey := Salsa20.Hacl_Salsa20_hsalsa20 subkey k1 n1 in
  let mackey := Salsa20.Hacl_Salsa20_salsa20 (replicate 32 0) (replicate 32 0) 32 subkey (drop 16 n1) 0 in
  let cmac := Poly1305_64.Hacl_Poly1305_64_crypto_onetimeauth (T := T) (replicate 16 0) (drop 32 buf) mlen mackey in
  let verify := Hacl_Policies_cmp_bytes mac cmac 16 in
  let clen_ := wrap 32 mlen in
  if verify =? 0 then
    let buf := Salsa20.Hacl_Salsa20_salsa20_inplace buf (clen_ + 32)%u32 subkey (drop 16 n1) 0 in
    let buf := Hacl_SecretBox_ZeroPad_set_zero_bytes buf in
    (buf, 0)
  else (buf, 0xffffffff).

(** hacl_stubs.c: the length argument is the size of the OCaml buffer less the
    padding. *)
Definition ml_NaCl_crypto_box_easy_afternm (c m n k : list Z) : list Z :=
  fst (Hacl_Box_ZeroPad_crypto_box_easy_afternm c m (wrap 64 (Z.of_nat (length m) - 32)) n k).

Definition ml_NaCl_crypto_box_open_easy_afternm (m c n k : list Z) : list Z * Z :=
  Hacl_Box_ZeroPad_crypto_box_open_easy_afternm m c (wrap 64 (Z.of_nat (length c) - 32)) n k.

Definition ml_NaCl_crypto_secretbox_easy (c m n k : list Z) : list Z :=
  fst (Hacl_SecretBox_ZeroPad_crypto_secretbox_easy c m (wrap 64 (Z.of_nat (length m) - 32)) n k).

Definition ml_NaCl_crypto_secretbox_open_detached (m c mac n k : list Z) : list Z * Z :=
  Hacl_SecretBox_ZeroPad_crypto_secretbox_open_detached m c mac (wrap 64 (Z.of_nat (length c) - 32)) n k.

Definition ml_NaCl_crypto_box_beforenm (k pk sk : list Z) : list Z :=
  fst (Hacl_Box_ZeroPad_crypto_box_beforenm k pk sk).

(** The exported interface. *)

Definition NaCl_crypto_secretbox_detached := Hacl_SecretBox_ZeroPad_crypto_secretbox_detached.
Definition NaCl_crypto_secretbox_open_detached := Hacl_SecretBox_ZeroPad_crypto_secretbox_open_detached.
Definition NaCl_crypto_secretbox_easy := Hacl_SecretBox_ZeroPad_crypto_secretbox_easy.
Definition NaCl_crypto_secretbox_open_easy := Hacl_SecretBox_ZeroPad_crypto_secretbox_open_easy.
Definition NaCl_crypto_box_beforenm := Hacl_Box_ZeroPad_crypto_box_beforenm.
Definition NaCl_crypto_box_detached_afternm := Hacl_Box_ZeroPad_crypto_box_detached_afternm.
Definition NaCl_crypto_box_detached := Hacl_Box_ZeroPad_crypto_box_detached.
Definition NaCl_crypto_box_open_detached := Hacl_Box_ZeroPad_crypto_box_open_detached.
Definition NaCl_crypto_box_easy_afternm := Hacl_Box_ZeroPad_crypto_box_easy_afternm.
Definition NaCl_crypto_box_easy := Hacl_Box_ZeroPad_crypto_box_easy.
Definition NaCl_crypto_box_open_easy := Hacl_Box_ZeroPad_crypto_box_open_easy.
Definition NaCl_crypto_box_open_detached_afternm := Hacl_Box_ZeroPad_crypto_box_open_detached_afternm.
Definition NaCl_crypto_box_open_easy_afternm := Hacl_Box_ZeroPad_crypto_box_open_easy_afternm.

End Code.
End NaCl.

(** ** Specification: crypto_secretbox_xsalsa20poly1305 *)

Module Box_Spec.

(** XSalsa20: the first sixteen bytes of the nonce go into the key. *)
Definition xsalsa20 (key nonce m : list Z) : list Z :=
  Salsa20_Spec.encrypt (Salsa20_Spec.hsalsa key nonce) (drop 16 nonce) 0 m.

Definition pad : list Z := replicate 32 0.

(** Tag and ciphertext of a message; the Poly1305 key is the start of the key
    stream. *)
Definition seal (key nonce m : list Z) : list Z * list Z :=
  let s := xsalsa20 key nonce (pad ++ m) in
  (Poly1305_Spec.mac (take 32 s) (drop 32 s), drop 32 s).

Definition open (key nonce tag c : list Z) : option (list Z) :=
  if decide (Poly1305_Spec.mac (xsalsa20 key nonce pad) c = tag)
  then Some (drop 32 (xsalsa20 key nonce (pad ++ c)))
  else None.

(** The key two parties share. *)
Definition beforenm (pk sk : list Z) : list Z :=
  Salsa20_Spec.hsalsa (Curve25519_Spec.scalarmult sk pk) (replicate 16 0).

End Box_Spec.

Arguments Box_Spec.xsalsa20 : simpl never.
Arguments Box_Spec.pad : simpl never.

(** ** Refinement *)

Section Refinement.
Context {T : Type} {U128Ops : UInt128Ops T} {U128 : UInt128 T}.
Import Policies NaCl.

(** The comparison accumulates a mask; the result is 0 for equal prefixes and
    255 otherwise. *)
Lemma cmp_bytes_loop b1 b2 n : bytes b1 -> bytes b2 -> (n <= length b1)%nat -> (n <= length b2)%nat ->
  for_ 0 n (fun i tmp => tmp.[0 <- Z.land (FStar_UInt8_eq_mask b1.[i] b2.[i]) tmp.[0]]) [255] =
  [mask 8 (bool_decide (take n b1 = take n b2))].
Proof.
  intros H1 H2. induction n as [|n IH]; intros L1 L2; [now rewrite for_nil by lia|].
  rewrite for_last, IH by lia.
  destruct (lookup_lt_is_Some_2 b1 n ltac:(lia)) as [x Hx], (lookup_lt_is_Some_2 b2 n ltac:(lia)) as [y Hy].
  rewrite (list_lookup_total_correct _ _ _ Hx), (list_lookup_total_correct _ _ _ Hy).
  rewrite (take_S_r _ _ _ Hx), (take_S_r _ _ _ Hy).
  pose proof (Forall_lookup_1 _ _ _ _ H1 Hx). pose proof (Forall_lookup_1 _ _ _ _ H2 Hy).
  buf_simpl. rewrite eq_mask8_spec, mask_land by (done || lia). do 2 f_equal.
  apply eq_bool_prop_intro. rewrite andb_True, !bool_decide_spec, Is_true_true, Z.eqb_eq. split.
  - now intros [-> ->].
  - intros E. apply app_inj_tail in E as [-> ->]. done.
Qed.

Lemma cmp_bytes_spec b1 b2 n : bytes b1 -> bytes b2 -> (n <= length b1)%nat -> (n <= length b2)%nat ->
  Hacl_Policies_cmp_bytes b1 b2 n = if decide (take n b1 = take n b2) then 0 else 255.
Proof.
  intros. unfold Hacl_Policies_cmp_bytes, Hacl_Policies_cmp_bytes_. cbv zeta.
  rewrite cmp_bytes_loop by done. buf_simpl. rewrite wnot_mask by lia. now case_decide; case_bool_decide.
Qed.

Lemma set_zero_bytes_spec b : (32 <= length b)%nat ->
  Hacl_SecretBox_ZeroPad_set_zero_bytes b = Box_Spec.pad ++ drop 32 b.
Proof. intros. unfold Hacl_SecretBox_ZeroPad_set_zero_bytes. now rewrite (for_write (fun _ => 0)). Qed.

Lemma length_xsalsa20 key nonce m : length (Box_Spec.xsalsa20 key nonce m) = length m.
Proof. unfold Box_Spec.xsalsa20. apply length_encrypt. Qed.

Lemma bytes_xsalsa20 key nonce m : bytes m -> bytes (Box_Spec.xsalsa20 key nonce m).
Proof. unfold Box_Spec.xsalsa20. apply bytes_encrypt. Qed.

Lemma bytes_pad m : bytes m -> bytes (Box_Spec.pad ++ m).
Proof. intros. apply bytes_app. split; [now apply bytes_replicate|done]. Qed.

(** The tag key does not depend on the message. *)
Lemma xsalsa20_key key nonce m :
  take 32 (Box_Spec.xsalsa20 key nonce (Box_Spec.pad ++ m)) = Box_Spec.xsalsa20 key nonce Box_Spec.pad.
Proof. unfold Box_Spec.xsalsa20. rewrite encrypt_take. now rewrite take_app_length'. Qed.

Lemma xsalsa20_drop key nonce j m m' : length m = length m' -> drop j m = drop j m' ->
  drop j (Box_Spec.xsalsa20 key nonce m) = drop j (Box_Spec.xsalsa20 key nonce m').
Proof. unfold Box_Spec.xsalsa20, Salsa20_Spec.encrypt. apply xor_stream_drop. Qed.

Lemma xsalsa20_involutive key nonce m :
  Box_Spec.xsalsa20 key nonce (Box_Spec.xsalsa20 key nonce m) = m.
Proof. unfold Box_Spec.xsalsa20. apply encrypt_involutive. Qed.

Lemma length_mac key m : length (Poly1305_Spec.mac key m) = 16%nat.
Proof. apply length_le_split. Qed.

(** The cipher as the code calls it, on a padded message. *)
Lemma xsalsa20_call output key nonce pre m : length pre = 32%nat ->
  bytes pre -> bytes m -> length output = (32 + length m)%nat -> Z.of_nat (32 + length m) < 2 ^ 32 ->
  Salsa20.Hacl_Salsa20_salsa20 output (pre ++ m)
    (wadd 32 (wrap 32 (Z.of_nat (length m))) 32)
    (Salsa20.Hacl_Salsa20_hsalsa20 (replicate 32 0) key nonce) (drop 16 nonce) 0
  = Box_Spec.xsalsa20 key nonce (pre ++ m).
Proof.
  intros Hp Hbp Hbm Ho Hl. rewrite wrap_small, wadd_small by (unfold word; lia).
  replace (Z.of_nat (length m) + 32) with (Z.of_nat (length (pre ++ m))) by (rewrite length_app; lia).
  rewrite salsa20_spec; [|now apply bytes_app|rewrite length_app; lia|rewrite length_app; lia].
  rewrite hsalsa20_spec, (blit_0_exact (replicate 32 0)) by done.
  rewrite blit_0_exact by (rewrite length_encrypt, length_app; lia). reflexivity.
Qed.

Lemma secretbox_detached_spec c mac m n k :
  bytes m -> length c = (32 + length m)%nat -> length mac = 16%nat -> Z.of_nat (32 + length m) < 2 ^ 32 ->
  Hacl_SecretBox_ZeroPad_crypto_secretbox_detached (T := T) c mac (Box_Spec.pad ++ m) (Z.of_nat (length m)) n k =
  (Box_Spec.pad ++ snd (Box_Spec.seal k n m), fst (Box_Spec.seal k n m), 0).
Proof.
  intros Hm Hc Hmac Hl. unfold Hacl_SecretBox_ZeroPad_crypto_secretbox_detached. cbv zeta.
  rewrite xsalsa20_call by (done || now apply bytes_replicate). unfold Box_Spec.seal. cbv zeta. cbn [fst snd].
  set (s := Box_Spec.xsalsa20 k n (Box_Spec.pad ++ m)).
  assert (Ls : length s = (32 + length m)%nat) by (subst s; now rewrite length_xsalsa20, length_app).
  assert (Bs : bytes s) by (subst s; now apply bytes_xsalsa20, bytes_pad).
  replace (Z.of_nat (length m)) with (Z.of_nat (length (drop 32 s))) by (rewrite length_drop; lia).
  rewrite onetimeauth_spec; [|lia|now apply bytes_drop|done|lia|rewrite length_drop; lia].
  rewrite set_zero_bytes_spec by lia. rewrite blit_0_exact by (now rewrite length_mac, Hmac).
  do 2 f_equal. unfold Poly1305_Spec.mac. do 2 f_equal.
  - unfold slice. now rewrite !drop_0, take_take.
  - unfold slice. now rewrite skipn_firstn_comm, take_take.
Qed.

(** The key of the tag, recomputed on opening. *)
Lemma mackey_call key nonce :
  Salsa20.Hacl_Salsa20_salsa20 (replicate 32 0) (replicate 32 0) 32
    (Salsa20.Hacl_Salsa20_hsalsa20 (replicate 32 0) key nonce) (drop 16 nonce) 0
  = Box_Spec.xsalsa20 key nonce Box_Spec.pad.
Proof.
  pose proof (xsalsa20_call (replicate 32 0) key nonce Box_Spec.pad []) as H. rewrite app_nil_r in H.
  assert (E : wadd 32 (wrap 32 (Z.of_nat (length (@nil Z)))) 32 = 32) by reflexivity. rewrite E in H.
  unfold Box_Spec.pad in *. apply H; [done| |constructor|done|done]. now apply bytes_replicate.
Qed.

Lemma open_detached_spec m c mac n k pre :
  bytes pre -> length pre = 32%nat -> bytes c -> bytes mac -> (16 <= length mac)%nat ->
  length m = (32 + length c)%nat -> Z.of_nat (32 + length c) < 2 ^ 32 ->
  Hacl_SecretBox_ZeroPad_crypto_secretbox_open_detached (T := T) m (pre ++ c) mac (Z.of_nat (length c)) n k =
  match Box_Spec.open k n (take 16 mac) c with
  | Some p => (Box_Spec.pad ++ p, 0)
  | None => (m, 0xffffffff)
  end.
Proof.
  intros Bp Lp Bc Bm Lm Lo Hl. unfold Hacl_SecretBox_ZeroPad_crypto_secretbox_open_detached,
    Hacl_SecretBox_ZeroPad_crypto_secretbox_open_detached_decrypt.
  change (slice (replicate 112 0) 0 32) with (replicate 32 0).
  change (slice (replicate 112 0) 32 32) with (replicate 32 0).
  change (slice (replicate 112 0) 64 32) with (replicate 32 0).
  change (slice (replicate 112 0) 96 16) with (replicate 16 0).
  rewrite mackey_call, drop_app_length' by done. unfold Box_Spec.open.
  set (mk := Box_Spec.xsalsa20 k n Box_Spec.pad).
  assert (Lk : length mk = 32%nat) by apply length_xsalsa20.
  assert (Bk : bytes mk) by (now apply bytes_xsalsa20, bytes_replicate).
  rewrite onetimeauth_spec by (done || lia). rewrite blit_0_exact by (now rewrite length_mac).
  set (tag := Poly1305_Spec.mac mk c).
  assert (Lt : length tag = 16%nat) by apply length_mac.
  rewrite cmp_bytes_spec, (take_ge tag) by (done || lia || apply bytes_le_split).
  destruct (decide (take 16 mac = tag)) as [<-|N].
  - rewrite decide_True, xsalsa20_call by done. change (0 =? 0) with true. cbv iota.
    rewrite set_zero_bytes_spec by (rewrite length_xsalsa20, length_app; lia). do 2 f_equal.
    apply xsalsa20_drop; [now rewrite !length_app, Lp|now rewrite !drop_app_length'].
  - now rewrite decide_False by (intros E; now apply N).
Qed.

(** ** Sealing and opening *)

Lemma open_seal k n m : let '(tag, c) := Box_Spec.seal k n m in Box_Spec.open k n tag c = Some m.
Proof.
  unfold Box_Spec.seal, Box_Spec.open. cbv zeta. rewrite xsalsa20_key, decide_True by done. f_equal.
  rewrite (xsalsa20_drop _ _ 32 _ (Box_Spec.xsalsa20 k n (Box_Spec.pad ++ m))).
  - now rewrite xsalsa20_involutive, drop_app_length'.
  - rewrite length_app, length_drop, length_xsalsa20, length_app. change (length Box_Spec.pad) with 32%nat. lia.
  - now rewrite drop_app_length'.
Qed.

(** A sealed message: the tag in the second half of the padding. *)
Definition sealed (k n m : list Z) : list Z :=
  replicate 16 0 ++ fst (Box_Spec.seal k n m) ++ snd (Box_Spec.seal k n m).

Lemma sealed_lengths k n m :
  length (fst (Box_Spec.seal k n m)) = 16%nat /\ length (snd (Box_Spec.seal k n m)) = length m.
Proof.
  unfold Box_Spec.seal. cbn [fst snd]. split; [apply length_mac|].
  rewrite length_drop, length_xsalsa20, length_app. change (length Box_Spec.pad) with 32%nat. lia.
Qed.

Lemma sealed_bytes k n m : bytes m ->
  bytes (fst (Box_Spec.seal k n m)) /\ bytes (snd (Box_Spec.seal k n m)).
Proof.
  intros. unfold Box_Spec.seal. cbn [fst snd]. split; [apply bytes_le_split|].
  now apply bytes_drop, bytes_xsalsa20, bytes_pad.
Qed.

Lemma blit_tag tag (c : list Z) : length tag = 16%nat ->
  blit (Box_Spec.pad ++ c) 16 tag = replicate 16 0 ++ tag ++ c.
Proof.
  intros Ht. unfold blit, Box_Spec.pad. rewrite Ht. change (16 + 16)%nat with 32%nat.
  rewrite take_app_le by (rewrite length_replicate; lia). rewrite drop_app_length' by done. reflexivity.
Qed.

Lemma secretbox_easy_spec c m n k :
  bytes m -> length c = (32 + length m)%nat -> Z.of_nat (32 + length m) < 2 ^ 32 ->
  Hacl_SecretBox_ZeroPad_crypto_secretbox_easy (T := T) c (Box_Spec.pad ++ m) (Z.of_nat (length m)) n k =
  (sealed k n m, 0).
Proof.
  intros. unfold Hacl_SecretBox_ZeroPad_crypto_secretbox_easy. rewrite secretbox_detached_spec by done.
  cbv zeta. rewrite blit_tag by apply sealed_lengths. done.
Qed.

Lemma box_easy_afternm_spec c m n k :
  bytes m -> length c = (32 + length m)%nat -> Z.of_nat (32 + length m) < 2 ^ 32 ->
  Hacl_Box_ZeroPad_crypto_box_easy_afternm (T := T) c (Box_Spec.pad ++ m) (Z.of_nat (length m)) n k =
  (sealed k n m, 0).
Proof. apply secretbox_easy_spec. Qed.

Lemma box_open_easy_afternm_spec m pre tag c n k :
  bytes pre -> length pre = 16%nat -> bytes tag -> length tag = 16%nat -> bytes c ->
  length m = (32 + length c)%nat -> Z.of_nat (32 + length c) < 2 ^ 32 ->
  Hacl_Box_ZeroPad_crypto_box_open_easy_afternm (T := T) m (pre ++ tag ++ c) (Z.of_nat (length c)) n k =
  match Box_Spec.open k n tag c with
  | Some p => (Box_Spec.pad ++ p, 0)
  | None => (m, 0xffffffff)
  end.
Proof.
  intros. unfold Hacl_Box_ZeroPad_crypto_box_open_easy_afternm, Hacl_Box_ZeroPad_crypto_box_open_detached_afternm.
  rewrite drop_app_length' by done. rewrite app_assoc, open_detached_spec; try done.
  - now rewrite take_app_length'.
  - now apply bytes_app.
  - rewrite length_app. lia.
  - now apply bytes_app.
  - rewrite length_app. lia.
Qed.

(** ** Diffie-Hellman keys *)

Lemma length_scalarmult sk pk : length (Curve25519_Spec.scalarmult sk pk) = 32%nat.
Proof.
  unfold Curve25519_Spec.scalarmult. destruct (Curve25519_Spec.ladder _ _) as [[x2 z2] p]. apply length_le_split.
Qed.

Lemma dh_key output pk sk : (32 <= length output)%nat ->
  bytes pk -> length pk = 32%nat -> bytes sk -> length sk = 32%nat ->
  Salsa20.Hacl_Salsa20_hsalsa20 output
    (Curve25519.Hacl_Curve25519_crypto_scalarmult (T := T) (replicate 32 0) sk pk) (replicate 16 0)
  = blit output 0 (Box_Spec.beforenm pk sk).
Proof. intros. now rewrite scalarmult_spec, hsalsa20_spec. Qed.

Lemma box_beforenm_spec k pk sk : length k = 32%nat ->
  bytes pk -> length pk = 32%nat -> bytes sk -> length sk = 32%nat ->
  Hacl_Box_ZeroPad_crypto_box_beforenm (T := T) k pk sk = (Box_Spec.beforenm pk sk, 0).
Proof.
  intros. unfold Hacl_Box_ZeroPad_crypto_box_beforenm.
  change (slice (replicate 48 0) 0 32) with (replicate 32 0).
  change (slice (replicate 48 0) 32 16) with (replicate 16 0). cbv zeta.
  rewrite dh_key by (done || lia). now rewrite blit_0_exact.
Qed.

(** The one-call functions derive the same key as [beforenm]. *)
Lemma box_easy_is_afternm c m mlen n pk sk :
  bytes pk -> length pk = 32%nat -> bytes sk -> length sk = 32%nat ->
  Hacl_Box_ZeroPad_crypto_box_easy (T := T) c m mlen n pk sk =
  Hacl_Box_ZeroPad_crypto_box_easy_afternm (T := T) c m mlen n (Box_Spec.beforenm pk sk).
Proof.
  intros. unfold Hacl_Box_ZeroPad_crypto_box_easy, Hacl_Box_ZeroPad_crypto_box_detached,
    Hacl_Box_ZeroPad_crypto_box_easy_afternm, Hacl_Box_ZeroPad_crypto_box_detached_afternm.
  change (slice (replicate 80 0) 0 32) with (replicate 32 0).
  change (slice (replicate 80 0) 32 32) with (replicate 32 0).
  change (slice (replicate 80 0) 64 16) with (replicate 16 0). cbv zeta.
  rewrite dh_key by done. now rewrite blit_0_exact.
Qed.

Lemma box_open_easy_is_afternm m c mlen n pk sk :
  bytes pk -> length pk = 32%nat -> bytes sk -> length sk = 32%nat ->
  Hacl_Box_ZeroPad_crypto_box_open_easy (T := T) m c mlen n pk sk =
  Hacl_Box_ZeroPad_crypto_box_open_easy_afternm (T := T) m c mlen n (Box_Spec.beforenm pk sk).
Proof.
  intros. unfold Hacl_Box_ZeroPad_crypto_box_open_easy, Hacl_Box_ZeroPad_crypto_box_open_detached,
    Hacl_Box_ZeroPad_crypto_box_open_easy_afternm, Hacl_Box_ZeroPad_crypto_box_open_detached_afternm.
  change (slice (replicate 80 0) 0 32) with (replicate 32 0).
  change (slice (replicate 80 0) 32 32) with (replicate 32 0).
  change (slice (replicate 80 0) 64 16) with (replicate 16 0). cbv zeta.
  rewrite dh_key by done. now rewrite blit_0_exact.
Qed.


(** ** One buffer for message and ciphertext *)

Lemma salsa20_inplace_call buf len key nonce : bytes buf -> (32 + len)%nat = length buf ->
  Z.of_nat (length buf) < 2 ^ 32 ->
  Salsa20.Hacl_Salsa20_salsa20_inplace buf (wadd 32 (wrap 32 (Z.of_nat len)) 32) key nonce 0 =
  Salsa20.Hacl_Salsa20_salsa20 buf buf (wadd 32 (wrap 32 (Z.of_nat len)) 32) key nonce 0.
Proof.
  intros Hb Hl Hs. rewrite wrap_small, wadd_small by (unfold word; lia).
  replace (Z.of_nat len + 32) with (Z.of_nat (length buf)) by lia. now apply salsa20_inplace_spec.
Qed.

Lemma easy_inplace_spec buf len n k : bytes buf -> (32 + len)%nat = length buf ->
  Z.of_nat (length buf) < 2 ^ 32 ->
  crypto_box_easy_afternm_inplace (T := T) buf (Z.of_nat len) n k =
  Hacl_Box_ZeroPad_crypto_box_easy_afternm (T := T) buf buf (Z.of_nat len) n k.
Proof.
  intros. unfold crypto_box_easy_afternm_inplace. cbv zeta. now rewrite salsa20_inplace_call.
Qed.

Lemma open_easy_inplace_spec buf len n k : bytes buf -> (32 + len)%nat = length buf ->
  Z.of_nat (length buf) < 2 ^ 32 ->
  crypto_box_open_easy_afternm_inplace (T := T) buf (Z.of_nat len) n k =
  Hacl_Box_ZeroPad_crypto_box_open_easy_afternm (T := T) buf buf (Z.of_nat len) n k.
Proof.
  intros. unfold crypto_box_open_easy_afternm_inplace. cbv zeta. now rewrite salsa20_inplace_call.
Qed.

End Refinement.

(** The length argument of the stubs: the size of the buffer less 32. *)
Lemma stub_length {A} (l1 l2 : list A) : length l1 = 32%nat -> Z.of_nat (32 + length l2) < 2 ^ 32 ->
  wrap 64 (Z.of_nat (length (l1 ++ l2)) - 32) = Z.of_nat (length l2).
Proof. intros. rewrite length_app, wrap_small by (unfold word; lia). lia. Qed.

Lemma sealed_split k n m : sealed k n m =
  (replicate 16 0 ++ fst (Box_Spec.seal k n m)) ++ snd (Box_Spec.seal k n m).
Proof. unfold sealed. now rewrite app_assoc. Qed.

Lemma length_sealed k n m : length (sealed k n m) = (32 + length m)%nat.
Proof.
  unfold sealed. destruct (sealed_lengths k n m) as [H1 H2]. rewrite !length_app, length_replicate, H1, H2. lia.
Qed.

Lemma bytes_sealed k n m : bytes m -> bytes (sealed k n m).
Proof.
  intros H. destruct (sealed_bytes k n m H). unfold sealed. rewrite !bytes_app.
  split; [now apply bytes_replicate|done].
Qed.

Lemma open_sealed k n m :
  Box_Spec.open k n (fst (Box_Spec.seal k n m)) (snd (Box_Spec.seal k n m)) = Some m.
Proof. pose proof (open_seal k n m) as H. now destruct (Box_Spec.seal k n m). Qed.

Lemma slice_tag (tag c : list Z) : length tag = 16%nat ->
  slice ((replicate 16 0 ++ tag) ++ c) 16 16 = tag.
Proof.
  intros H. unfold slice. rewrite <- app_assoc, drop_app_length' by done. now rewrite take_app_length'.
Qed.

(** A tag other than the right one opens nothing. *)
Lemma open_other_tag k n m tag : tag <> fst (Box_Spec.seal k n m) ->
  Box_Spec.open k n tag (snd (Box_Spec.seal k n m)) = None.
Proof.
  intros H. unfold Box_Spec.open. rewrite decide_False; [done|]. intros <-. apply H.
  unfold Box_Spec.seal. cbv zeta. cbn [fst snd]. now rewrite xsalsa20_key.
Qed.

Section Sealed.
Context {T : Type} {U128Ops : UInt128Ops T} {U128 : UInt128 T}.
Import NaCl.

(** Opening a sealed message, or one whose tag was replaced. *)
Lemma box_open_sealed out k n m : bytes m -> length out = (32 + length m)%nat ->
  Z.of_nat (32 + length m) < 2 ^ 32 ->
  Hacl_Box_ZeroPad_crypto_box_open_easy_afternm (T := T) out (sealed k n m) (Z.of_nat (length m)) n k =
  (Box_Spec.pad ++ m, 0).
Proof.
  intros Hm Ho Hl. destruct (sealed_lengths k n m) as [L1 L2], (sealed_bytes k n m Hm) as [B1 B2].
  unfold sealed. rewrite <- L2.
  rewrite box_open_easy_afternm_spec; try (done || rewrite L2; done); [|now apply bytes_replicate].
  now rewrite open_sealed.
Qed.

Lemma box_easy_inplace_sealed k n m : bytes m -> Z.of_nat (32 + length m) < 2 ^ 32 ->
  crypto_box_easy_afternm_inplace (T := T) (Box_Spec.pad ++ m) (Z.of_nat (length m)) n k = (sealed k n m, 0).
Proof.
  intros. assert (L : length (Box_Spec.pad ++ m) = (32 + length m)%nat) by now rewrite length_app.
  rewrite easy_inplace_spec; [|now apply bytes_pad|done|now rewrite L]. now apply box_easy_afternm_spec.
Qed.

Lemma box_open_inplace_sealed k n m : bytes m -> Z.of_nat (32 + length m) < 2 ^ 32 ->
  crypto_box_open_easy_afternm_inplace (T := T) (sealed k n m) (Z.of_nat (length m)) n k = (Box_Spec.pad ++ m, 0).
Proof.
  intros. pose proof (length_sealed k n m) as L.
  rewrite open_easy_inplace_spec; [|now apply bytes_sealed|done|now rewrite L]. now apply box_open_sealed.
Qed.

End Sealed.

(** ** Main results *)

Section Results.
Context {T : Type} {U128Ops : UInt128Ops T} {U128 : UInt128 T}.
Import Policies NaCl.

(** C1: encrypting a padded message in place with [crypto_box_easy_afternm],
    as the sockets of the peer-to-peer layer do, returns 0 and keeps the length
    of the buffer, and opening that buffer in place under the same key and nonce
    returns 0 and the padded message. *)
Theorem box_inplace_roundtrip k n m :
  bytes m -> Z.of_nat (32 + length m) < 2 ^ 32 ->
  let '(buf, r) := crypto_box_easy_afternm_inplace (T := T) (replicate 32 0 ++ m) (Z.of_nat (length m)) n k in
  r = 0 /\ length buf = (32 + length m)%nat /\ bytes buf /\
  crypto_box_open_easy_afternm_inplace (T := T) buf (Z.of_nat (length m)) n k = (replicate 32 0 ++ m, 0).
Proof.
  intros Hm Hl. rewrite (box_easy_inplace_sealed k n m Hm Hl).
  repeat split; [apply length_sealed|now apply bytes_sealed|now apply box_open_inplace_sealed].
Qed.

(** C2: [crypto_box_open_easy_afternm] in place, on every branch: the buffer
    holds sixteen bytes, a tag and a ciphertext; the call returns 0 and the padded
    plaintext exactly when the tag is the Poly1305 tag of the ciphertext under the
    first 32 bytes of the key stream, and otherwise returns 0xffffffff and leaves
    the buffer as it was. *)
Theorem box_open_inplace_spec k n pre tag c :
  bytes pre -> length pre = 16%nat -> bytes tag -> length tag = 16%nat -> bytes c ->
  Z.of_nat (32 + length c) < 2 ^ 32 ->
  crypto_box_open_easy_afternm_inplace (T := T) (pre ++ tag ++ c) (Z.of_nat (length c)) n k =
  if decide (Poly1305_Spec.mac (Box_Spec.xsalsa20 k n (replicate 32 0)) c = tag)
  then (replicate 32 0 ++ drop 32 (Box_Spec.xsalsa20 k n (replicate 32 0 ++ c)), 0)
  else (pre ++ tag ++ c, 0xffffffff).
Proof.
  intros Bp Lp Bt Lt Bc Hl.
  assert (L : length (pre ++ tag ++ c) = (32 + length c)%nat) by (rewrite !length_app; lia).
  rewrite open_easy_inplace_spec; [|now rewrite !bytes_app|done|now rewrite L].
  rewrite box_open_easy_afternm_spec by done. unfold Box_Spec.open, Box_Spec.pad. now case_decide.
Qed.

(** C3: [crypto_box_easy_afternm] with distinct buffers, called through its
    stub, is XSalsa20-Poly1305: sixteen zero bytes, the tag, the ciphertext; and
    the in-place call gives the same bytes. *)
Theorem box_easy_refines k n m c :
  bytes m -> Z.of_nat (32 + length m) < 2 ^ 32 -> length c = (32 + length m)%nat ->
  let '(tag, cipher) := Box_Spec.seal k n m in
  ml_NaCl_crypto_box_easy_afternm (T := T) c (replicate 32 0 ++ m) n k = replicate 16 0 ++ tag ++ cipher /\
  crypto_box_easy_afternm_inplace (T := T) (replicate 32 0 ++ m) (Z.of_nat (length m)) n k =
  (replicate 16 0 ++ tag ++ cipher, 0).
Proof.
  intros Hm Hl Hc. pose proof (box_easy_inplace_sealed (T := T) k n m Hm Hl) as E. unfold sealed in E.
  unfold ml_NaCl_crypto_box_easy_afternm. rewrite (stub_length (replicate 32 0) m) by done.
  rewrite (box_easy_afternm_spec (T := T) c m n k) by done. unfold sealed. destruct (Box_Spec.seal k n m) as [tag cipher]. split; [done|exact E].
Qed.

(** a box whose tag was replaced by any other sixteen bytes is refused:
    the stub of [crypto_box_open_easy_afternm] returns a non-zero value and does
    not write the output buffer. *)
Theorem box_tampered_tag_rejected k n m tag out :
  bytes m -> Z.of_nat (32 + length m) < 2 ^ 32 -> length out = (32 + length m)%nat ->
  bytes tag -> length tag = 16%nat -> tag <> fst (Box_Spec.seal k n m) ->
  ml_NaCl_crypto_box_open_easy_afternm (T := T) out
    (blit (ml_NaCl_crypto_box_easy_afternm (T := T) (replicate (32 + length m) 0) (replicate 32 0 ++ m) n k) 16 tag)
    n k = (out, 0xffffffff).
Proof.
  intros Hm Hl Ho Bt Lt Ht. destruct (sealed_lengths k n m) as [L1 L2], (sealed_bytes k n m Hm) as [B1 B2].
  unfold ml_NaCl_crypto_box_easy_afternm, ml_NaCl_crypto_box_open_easy_afternm.
  rewrite (stub_length (replicate 32 0) m) by done.
  rewrite (box_easy_afternm_spec (T := T) _ m n k) by (done || now rewrite length_replicate).
  cbn [fst]. unfold sealed.
  rewrite blit_mid by (done || now rewrite Lt).
  rewrite app_assoc, stub_length, <- app_assoc by (rewrite ?L2, ?length_app, ?length_replicate; done || lia).
  rewrite box_open_easy_afternm_spec; try (done || rewrite L2; done); [|now apply bytes_replicate].
  now rewrite open_other_tag.
Qed.

(** a secret box made by the stub of [crypto_secretbox_easy] opens with
    the stub of [crypto_secretbox_open_detached] when the tag is read from bytes 16
    to 31 of the box, as the OCaml binding does. *)
Theorem secretbox_roundtrip k n m c out :
  bytes m -> Z.of_nat (32 + length m) < 2 ^ 32 ->
  length c = (32 + length m)%nat -> length out = (32 + length m)%nat ->
  let box := ml_NaCl_crypto_secretbox_easy (T := T) c (replicate 32 0 ++ m) n k in
  ml_NaCl_crypto_secretbox_open_detached (T := T) out box (slice box 16 16) n k = (replicate 32 0 ++ m, 0).
Proof.
  intros Hm Hl Hc Ho. destruct (sealed_lengths k n m) as [L1 L2], (sealed_bytes k n m Hm) as [B1 B2].
  unfold ml_NaCl_crypto_secretbox_easy, ml_NaCl_crypto_secretbox_open_detached. cbv zeta.
  rewrite (stub_length (replicate 32 0) m) by done. rewrite (secretbox_easy_spec (T := T) c m n k) by done.
  cbn [fst]. rewrite sealed_split, slice_tag, stub_length
    by (rewrite ?length_app, ?length_replicate, ?L1, ?L2; done || lia).
  rewrite open_detached_spec; rewrite ?length_app, ?length_replicate, ?L1, ?L2; try (done || lia).
  - now rewrite take_ge, open_sealed by lia.
  - apply bytes_app; split; [now apply bytes_replicate|done].
Qed.

(** C39: [crypto_secretbox_open_easy] compares the tag with the first sixteen
    bytes of the box, while [crypto_secretbox_easy] writes the tag at offset 16 and
    zeroes the first sixteen bytes: it opens the box of a message only if the tag of
    that message happens to be sixteen zero bytes. *)
Theorem secretbox_open_easy_wants_zero_tag k n m out :
  bytes m -> Z.of_nat (32 + length m) < 2 ^ 32 -> length out = (32 + length m)%nat ->
  Hacl_SecretBox_ZeroPad_crypto_secretbox_open_easy (T := T) out
    (fst (Hacl_SecretBox_ZeroPad_crypto_secretbox_easy (T := T) (replicate (32 + length m) 0)
            (replicate 32 0 ++ m) (Z.of_nat (length m)) n k))
    (Z.of_nat (length m)) n k =
  if decide (fst (Box_Spec.seal k n m) = replicate 16 0) then (replicate 32 0 ++ m, 0) else (out, 0xffffffff).
Proof.
  intros Hm Hl Ho. destruct (sealed_lengths k n m) as [L1 L2], (sealed_bytes k n m Hm) as [B1 B2].
  rewrite (secretbox_easy_spec (T := T) _ m n k) by (done || now rewrite length_replicate). cbn [fst].
  unfold Hacl_SecretBox_ZeroPad_crypto_secretbox_open_easy. cbv zeta. rewrite sealed_split, <- L2.
  rewrite open_detached_spec; rewrite ?length_app, ?length_replicate, ?L1, ?L2; try (done || lia);
    rewrite ?bytes_app; try (repeat split; try done; now apply bytes_replicate).
  rewrite <- !app_assoc, take_app_length' by done. case_decide as E.
  - now rewrite <- E, open_sealed.
  - now rewrite open_other_tag by congruence.
Qed.

(** The one-call boxes are the two-step ones: [crypto_box_easy] and
    [crypto_box_open_easy] under a public and a secret key do what their [_afternm]
    variants do under the key [crypto_box_beforenm] writes, which is HSalsa20 of the
    X25519 shared secret. *)
Theorem box_easy_equiv_beforenm c m mlen n pk sk kbuf :
  bytes pk -> length pk = 32%nat -> bytes sk -> length sk = 32%nat -> length kbuf = 32%nat ->
  let '(k, r) := Hacl_Box_ZeroPad_crypto_box_beforenm (T := T) kbuf pk sk in
  r = 0 /\ k = Salsa20_Spec.hsalsa (Curve25519_Spec.scalarmult sk pk) (replicate 16 0) /\
  Hacl_Box_ZeroPad_crypto_box_easy (T := T) c m mlen n pk sk =
    Hacl_Box_ZeroPad_crypto_box_easy_afternm (T := T) c m mlen n k /\
  Hacl_Box_ZeroPad_crypto_box_open_easy (T := T) m c mlen n pk sk =
    Hacl_Box_ZeroPad_crypto_box_open_easy_afternm (T := T) m c mlen n k.
Proof.
  intros. rewrite box_beforenm_spec by done.
  repeat split; [now apply box_easy_is_afternm|now apply box_open_easy_is_afternm].
Qed.

(** Two parties whose X25519 secrets agree exchange a message: what one
    seals with [crypto_box_easy] for the other's public key, the other opens with
    [crypto_box_open_easy] from the sender's public key. *)
Lemma box_two_party pka ska pkb skb n m c out :
  bytes pka -> length pka = 32%nat -> bytes ska -> length ska = 32%nat ->
  bytes pkb -> length pkb = 32%nat -> bytes skb -> length skb = 32%nat ->
  Curve25519_Spec.scalarmult ska pkb = Curve25519_Spec.scalarmult skb pka ->
  bytes m -> Z.of_nat (32 + length m) < 2 ^ 32 ->
  length c = (32 + length m)%nat -> length out = (32 + length m)%nat ->
  let box := fst (Hacl_Box_ZeroPad_crypto_box_easy (T := T) c (replicate 32 0 ++ m) (Z.of_nat (length m)) n pkb ska) in
  Hacl_Box_ZeroPad_crypto_box_open_easy (T := T) out box (Z.of_nat (length m)) n pka skb =
  (replicate 32 0 ++ m, 0).
Proof.
  intros ? ? ? ? ? ? ? ? E Hm Hl Hc Ho. cbv zeta. rewrite box_easy_is_afternm, box_open_easy_is_afternm by done.
  unfold Box_Spec.beforenm. rewrite E. set (k := Salsa20_Spec.hsalsa _ _).
  rewrite (box_easy_afternm_spec (T := T) c m n k) by done. cbn [fst]. now apply box_open_sealed.
Qed.

End Results.

(** the two 128-bit back ends are interchangeable: compiled with
    [unsigned __int128] or with the structs of FStar.c, X25519, Poly1305 and the boxes
    built from them return the same bytes. *)
Theorem backends_agree c m n pk sk out :
  bytes pk -> length pk = 32%nat -> bytes sk -> length sk = 32%nat -> length out = 32%nat ->
  bytes m -> length c = (32 + length m)%nat -> Z.of_nat (32 + length m) < 2 ^ 32 ->
  Curve25519.Hacl_Curve25519_crypto_scalarmult (T := Z) out sk pk =
    Curve25519.Hacl_Curve25519_crypto_scalarmult (T := FStar.FStar_UInt128_uint128) out sk pk /\
  Poly1305_64.Hacl_Poly1305_64_crypto_onetimeauth (T := Z) out m (Z.of_nat (length m)) pk =
    Poly1305_64.Hacl_Poly1305_64_crypto_onetimeauth (T := FStar.FStar_UInt128_uint128) out m (Z.of_nat (length m)) pk /\
  NaCl.Hacl_Box_ZeroPad_crypto_box_easy (T := Z) c (replicate 32 0 ++ m) (Z.of_nat (length m)) n pk sk =
    NaCl.Hacl_Box_ZeroPad_crypto_box_easy (T := FStar.FStar_UInt128_uint128) c (replicate 32 0 ++ m) (Z.of_nat (length m)) n pk sk.
Proof.
  intros. split; [now rewrite !scalarmult_spec|]. split; [rewrite !onetimeauth_spec by (done || lia); done|].
  rewrite !box_easy_is_afternm by done. set (k := Box_Spec.beforenm pk sk).
  rewrite (box_easy_afternm_spec (T := Z) c m n k) by done.
  now rewrite (box_easy_afternm_spec (T := FStar.FStar_UInt128_uint128) c m n k).
Qed.

(** ** Witnesses *)

Local Notation zeros n := (replicate n 0).

Lemma bytes_sample : bytes [104; 101; 108; 108; 111].
Proof. repeat constructor; lia. Qed.

Lemma box_inplace_roundtrip_witness :
  let '(buf, r) := NaCl.crypto_box_easy_afternm_inplace (T := Z) (zeros 32 ++ [104; 101; 108; 108; 111]) 5 (zeros 24) (zeros 32) in
  r = 0 /\ length buf = 37%nat /\ bytes buf /\
  NaCl.crypto_box_open_easy_afternm_inplace (T := Z) buf 5 (zeros 24) (zeros 32)
  = (zeros 32 ++ [104; 101; 108; 108; 111], 0).
Proof.
  refine (box_inplace_roundtrip (T := Z) (zeros 32) (zeros 24) [104; 101; 108; 108; 111] bytes_sample _).
  simpl; lia.
Defined.

Lemma box_open_inplace_spec_witness :
  NaCl.crypto_box_open_easy_afternm_inplace (T := Z) (zeros 16 ++ zeros 16 ++ [104; 101; 108; 108; 111]) 5 (zeros 24) (zeros 32) =
  if decide (Poly1305_Spec.mac (Box_Spec.xsalsa20 (zeros 32) (zeros 24) (zeros 32)) [104; 101; 108; 108; 111] = zeros 16)
  then (zeros 32 ++ drop 32 (Box_Spec.xsalsa20 (zeros 32) (zeros 24) (zeros 32 ++ [104; 101; 108; 108; 111])), 0)
  else (zeros 16 ++ zeros 16 ++ [104; 101; 108; 108; 111], 0xffffffff).
Proof.
  refine (box_open_inplace_spec (T := Z) (zeros 32) (zeros 24) (zeros 16) (zeros 16) [104; 101; 108; 108; 111]
            _ eq_refl _ eq_refl bytes_sample _); try (now apply bytes_replicate); simpl; lia.
Defined.

Lemma box_easy_refines_witness :
  let '(tag, cipher) := Box_Spec.seal (zeros 32) (zeros 24) [104; 101; 108; 108; 111] in
  NaCl.ml_NaCl_crypto_box_easy_afternm (T := Z) (zeros 37) (zeros 32 ++ [104; 101; 108; 108; 111]) (zeros 24) (zeros 32)
  = zeros 16 ++ tag ++ cipher /\
  NaCl.crypto_box_easy_afternm_inplace (T := Z) (zeros 32 ++ [104; 101; 108; 108; 111]) 5 (zeros 24) (zeros 32)
  = (zeros 16 ++ tag ++ cipher, 0).
Proof.
  refine (box_easy_refines (T := Z) (zeros 32) (zeros 24) [104; 101; 108; 108; 111] (zeros 37) bytes_sample _ eq_refl).
  simpl; lia.
Defined.

(** Whatever the tag of a message is, this is another one. *)
Definition other_tag (t : list Z) : list Z := if decide (t = zeros 16) then replicate 16 1 else zeros 16.

Lemma other_tag_spec t : bytes (other_tag t) /\ length (other_tag t) = 16%nat /\ other_tag t <> t.
Proof.
  unfold other_tag. case_decide as E.
  - subst. split; [now apply bytes_replicate|done].
  - split; [now apply bytes_replicate|]. split; [done|congruence].
Qed.

Lemma box_tampered_tag_rejected_witness :
  let tag := other_tag (fst (Box_Spec.seal (zeros 32) (zeros 24) [104])) in
  NaCl.ml_NaCl_crypto_box_open_easy_afternm (T := Z) (zeros 33)
    (blit (NaCl.ml_NaCl_crypto_box_easy_afternm (T := Z) (zeros 33) (zeros 32 ++ [104]) (zeros 24) (zeros 32)) 16 tag)
    (zeros 24) (zeros 32) = (zeros 33, 0xffffffff).
Proof.
  intros tag. destruct (other_tag_spec (fst (Box_Spec.seal (zeros 32) (zeros 24) [104]))) as (Hb & Hl & Hn).
  refine (box_tampered_tag_rejected (T := Z) (zeros 32) (zeros 24) [104] tag (zeros 33) _ _ eq_refl Hb Hl Hn).
  - repeat constructor; lia.
  - simpl; lia.
Defined.

Lemma secretbox_roundtrip_witness :
  let box := NaCl.ml_NaCl_crypto_secretbox_easy (T := Z) (zeros 37) (zeros 32 ++ [104; 101; 108; 108; 111]) (zeros 24) (zeros 32) in
  NaCl.ml_NaCl_crypto_secretbox_open_detached (T := Z) (zeros 37) box (slice box 16 16) (zeros 24) (zeros 32)
  = (zeros 32 ++ [104; 101; 108; 108; 111], 0).
Proof.
  refine (secretbox_roundtrip (T := Z) (zeros 32) (zeros 24) [104; 101; 108; 108; 111] (zeros 37) (zeros 37)
            bytes_sample _ eq_refl eq_refl).
  simpl; lia.
Defined.

Lemma secretbox_open_easy_wants_zero_tag_witness :
  NaCl.Hacl_SecretBox_ZeroPad_crypto_secretbox_open_easy (T := Z) (zeros 37)
    (fst (NaCl.Hacl_SecretBox_ZeroPad_crypto_secretbox_easy (T := Z) (zeros 37)
            (zeros 32 ++ [104; 101; 108; 108; 111]) 5 (zeros 24) (zeros 32))) 5 (zeros 24) (zeros 32) =
  if decide (fst (Box_Spec.seal (zeros 32) (zeros 24) [104; 101; 108; 108; 111]) = zeros 16)
  then (zeros 32 ++ [104; 101; 108; 108; 111], 0) else (zeros 37, 0xffffffff).
Proof.
  refine (secretbox_open_easy_wants_zero_tag (T := Z) (zeros 32) (zeros 24) [104; 101; 108; 108; 111] (zeros 37)
            bytes_sample _ eq_refl).
  simpl; lia.
Defined.

Lemma box_easy_equiv_beforenm_witness :
  let '(k, r) := NaCl.Hacl_Box_ZeroPad_crypto_box_beforenm (T := Z) (zeros 32) (replicate 32 9) (replicate 32 7) in
  r = 0 /\ k = Salsa20_Spec.hsalsa (Curve25519_Spec.scalarmult (replicate 32 7) (replicate 32 9)) (zeros 16) /\
  NaCl.Hacl_Box_ZeroPad_crypto_box_easy (T := Z) (zeros 33) (zeros 33) 1 (zeros 24) (replicate 32 9) (replicate 32 7) =
    NaCl.Hacl_Box_ZeroPad_crypto_box_easy_afternm (T := Z) (zeros 33) (zeros 33) 1 (zeros 24) k /\
  NaCl.Hacl_Box_ZeroPad_crypto_box_open_easy (T := Z) (zeros 33) (zeros 33) 1 (zeros 24) (replicate 32 9) (replicate 32 7) =
    NaCl.Hacl_Box_ZeroPad_crypto_box_open_easy_afternm (T := Z) (zeros 33) (zeros 33) 1 (zeros 24) k.
Proof.
  refine (box_easy_equiv_beforenm (T := Z) (zeros 33) (zeros 33) 1 (zeros 24) (replicate 32 9) (replicate 32 7) (zeros 32)
            _ eq_refl _ eq_refl eq_refl); now apply bytes_replicate.
Defined.

Lemma backends_agree_witness :
  Curve25519.Hacl_Curve25519_crypto_scalarmult (T := Z) (zeros 32) (replicate 32 7) (replicate 32 9) =
    Curve25519.Hacl_Curve25519_crypto_scalarmult (T := FStar.FStar_UInt128_uint128) (zeros 32) (replicate 32 7) (replicate 32 9).
Proof.
  refine (proj1 (backends_agree (zeros 37) [104; 101; 108; 108; 111] (zeros 24) (replicate 32 9) (replicate 32 7) (zeros 32)
            _ eq_refl _ eq_refl eq_refl bytes_sample eq_refl _)); try (now apply bytes_replicate); simpl; lia.
Defined.
