(* ===== verification/SHA2.v ===== *)
(** * SHA2: the hash functions of Hacl_SHA2_256.c, Hacl_SHA2_384.c and Hacl_SHA2_512.c

    The state of a computation is one array: round constants, message
    schedule, chaining value and block counter.  The file holds the code of
    the three functions and the definition of SHA-2 they are compared with
    (FIPS 180-4), stated once for both word sizes.

    The stores of the constants, which the source writes one by one, are block
    copies here. *)

From stdpp Require Import base list numbers.
From Stdlib Require Import ZArith Lia.
From S2P Require Import Prelude Machine UInt128.

Local Open Scope Z_scope.
Local Open Scope buf_scope.

(** ** Constants *)

Definition sha256_k : list Z := Eval cbv in concat
  [[0x428a2f98; 0x71374491; 0xb5c0fbcf; 0xe9b5dba5]; [0x3956c25b; 0x59f111f1; 0x923f82a4; 0xab1c5ed5];
   [0xd807aa98; 0x12835b01; 0x243185be; 0x550c7dc3]; [0x72be5d74; 0x80deb1fe; 0x9bdc06a7; 0xc19bf174];
   [0xe49b69c1; 0xefbe4786; 0x0fc19dc6; 0x240ca1cc]; [0x2de92c6f; 0x4a7484aa; 0x5cb0a9dc; 0x76f988da];
   [0x983e5152; 0xa831c66d; 0xb00327c8; 0xbf597fc7]; [0xc6e00bf3; 0xd5a79147; 0x06ca6351; 0x14292967];
   [0x27b70a85; 0x2e1b2138; 0x4d2c6dfc; 0x53380d13]; [0x650a7354; 0x766a0abb; 0x81c2c92e; 0x92722c85];
   [0xa2bfe8a1; 0xa81a664b; 0xc24b8b70; 0xc76c51a3]; [0xd192e819; 0xd6990624; 0xf40e3585; 0x106aa070];
   [0x19a4c116; 0x1e376c08; 0x2748774c; 0x34b0bcb5]; [0x391c0cb3; 0x4ed8aa4a; 0x5b9cca4f; 0x682e6ff3];
   [0x748f82ee; 0x78a5636f; 0x84c87814; 0x8cc70208]; [0x90befffa; 0xa4506ceb; 0xbef9a3f7; 0xc67178f2]].

Definition sha256_h : list Z := Eval cbv in concat
  [[0x6a09e667; 0xbb67ae85; 0x3c6ef372; 0xa54ff53a]; [0x510e527f; 0x9b05688c; 0x1f83d9ab; 0x5be0cd19]].

Definition sha512_k : list Z := Eval cbv in concat
  [[0x428a2f98d728ae22; 0x7137449123ef65cd; 0xb5c0fbcfec4d3b2f; 0xe9b5dba58189dbbc];
   [0x3956c25bf348b538; 0x59f111f1b605d019; 0x923f82a4af194f9b; 0xab1c5ed5da6d8118];
   [0xd807aa98a3030242; 0x12835b0145706fbe; 0x243185be4ee4b28c; 0x550c7dc3d5ffb4e2];
   [0x72be5d74f27b896f; 0x80deb1fe3b1696b1; 0x9bdc06a725c71235; 0xc19bf174cf692694];
   [0xe49b69c19ef14ad2; 0xefbe4786384f25e3; 0x0fc19dc68b8cd5b5; 0x240ca1cc77ac9c65];
   [0x2de92c6f592b0275; 0x4a7484aa6ea6e483; 0x5cb0a9dcbd41fbd4; 0x76f988da831153b5];
   [0x983e5152ee66dfab; 0xa831c66d2db43210; 0xb00327c898fb213f; 0xbf597fc7beef0ee4];
   [0xc6e00bf33da88fc2; 0xd5a79147930aa725; 0x06ca6351e003826f; 0x142929670a0e6e70];
   [0x27b70a8546d22ffc; 0x2e1b21385c26c926; 0x4d2c6dfc5ac42aed; 0x53380d139d95b3df];
   [0x650a73548baf63de; 0x766a0abb3c77b2a8; 0x81c2c92e47edaee6; 0x92722c851482353b];
   [0xa2bfe8a14cf10364; 0xa81a664bbc423001; 0xc24b8b70d0f89791; 0xc76c51a30654be30];
   [0xd192e819d6ef5218; 0xd69906245565a910; 0xf40e35855771202a; 0x106aa07032bbd1b8];
   [0x19a4c116b8d2d0c8; 0x1e376c085141ab53; 0x2748774cdf8eeb99; 0x34b0bcb5e19b48a8];
   [0x391c0cb3c5c95a63; 0x4ed8aa4ae3418acb; 0x5b9cca4f7763e373; 0x682e6ff3d6b2b8a3];
   [0x748f82ee5defb2fc; 0x78a5636f43172f60; 0x84c87814a1f0ab72; 0x8cc702081a6439ec];
   [0x90befffa23631e28; 0xa4506cebde82bde9; 0xbef9a3f7b2c67915; 0xc67178f2e372532b];
   [0xca273eceea26619c; 0xd186b8c721c0c207; 0xeada7dd6cde0eb1e; 0xf57d4f7fee6ed178];
   [0x06f067aa72176fba; 0x0a637dc5a2c898a6; 0x113f9804bef90dae; 0x1b710b35131c471b];
   [0x28db77f523047d84; 0x32caab7b40c72493; 0x3c9ebe0a15c9bebc; 0x431d67c49c100d4c];
   [0x4cc5d4becb3e42b6; 0x597f299cfc657e2a; 0x5fcb6fab3ad6faec; 0x6c44198c4a475817]].

Definition sha512_h : list Z := Eval cbv in concat
  [[0x6a09e667f3bcc908; 0xbb67ae8584caa73b; 0x3c6ef372fe94f82b; 0xa54ff53a5f1d36f1];
   [0x510e527fade682d1; 0x9b05688c2b3e6c1f; 0x1f83d9abfb41bd6b; 0x5be0cd19137e2179]].

Definition sha384_h : list Z := Eval cbv in concat
  [[0xcbbb9d5dc1059ed8; 0x629a292a367cd507; 0x9159015a3070dd17; 0x152fecd8f70e5939];
   [0x67332667ffc00b31; 0x8eb44a8768581511; 0xdb0c2e0d64f98fa7; 0x47b5481dbefa4fa4]].

(** ** Hacl_SHA2_256.c *)

Module SHA2_256.

Definition Hacl_Hash_Lib_LoadStore_uint32s_from_be_bytes (output input : list Z) (len : nat) : list Z :=
  for_ 0 len (fun i output =>
    let inputi := load32_be input (4 * i) in
    output.[i <- inputi]) output.

Definition Hacl_Hash_Lib_LoadStore_uint32s_to_be_bytes (output input : list Z) (len : nat) : list Z :=
  for_ 0 len (fun i output =>
    let hd1 := input.[i] in
    store32_be output (4 * i) hd1) output.

Definition Hacl_Impl_SHA2_256_init (state : list Z) : list Z :=
  let state := blit state 0 sha256_k in
  let state := blit state 128 sha256_h in
  state.[136 <- 0].

Definition Hacl_Impl_SHA2_256_update (state data : list Z) : list Z :=
  let data_w := replicate 16 0 in
  let data_w := Hacl_Hash_Lib_LoadStore_uint32s_from_be_bytes data_w data 16 in
  let state := for_ 0 16 (fun i state =>
    let b := data_w.[i] in
    state.[64 + i <- b]) state in
  let state := for_ 16 64 (fun i state =>
    let t16 := state.[64 + (i - 16)] in
    let t15 := state.[64 + (i - 15)] in
    let t7 := state.[64 + (i - 7)] in
    let t2 := state.[64 + (i - 2)] in
    state.[64 + i <-
      ((((t2 >> 17) .| (t2 << (32 - 17))) ^^ (((t2 >> 19) .| (t2 << (32 - 19))) ^^ (t2 >> 10)))
       + t7
       + (((t15 >> 7) .| (t15 << (32 - 7))) ^^ (((t15 >> 18) .| (t15 << (32 - 18))) ^^ (t15 >> 3)))
       + t16)%u32]) state in
  let hash_0 := blit (replicate 8 0) 0 (slice state 128 8) in
  let hash_0 := for_ 0 64 (fun i hash_0 =>
    let a := hash_0.[0] in
    let b := hash_0.[1] in
    let c := hash_0.[2] in
    let d := hash_0.[3] in
    let e := hash_0.[4] in
    let f1 := hash_0.[5] in
    let g := hash_0.[6] in
    let h := hash_0.[7] in
    let kt := state.[i] in
    let wst := state.[64 + i] in
    let t1 :=
      (h
       + (((e >> 6) .| (e << (32 - 6))) ^^ (((e >> 11) .| (e << (32 - 11))) ^^ ((e >> 25) .| (e << (32 - 25)))))
       + ((e & f1) ^^ (! e & g))
       + kt
       + wst)%u32 in
    let t2 :=
      ((((a >> 2) .| (a << (32 - 2))) ^^ (((a >> 13) .| (a << (32 - 13))) ^^ ((a >> 22) .| (a << (32 - 22)))))
       + ((a & b) ^^ ((a & c) ^^ (b & c))))%u32 in
    let x1 := (t1 + t2)%u32 in
    let x5 := (d + t1)%u32 in
    let hash_0 := hash_0.[0 <- x1] in
    let hash_0 := hash_0.[1 <- a] in
    let hash_0 := hash_0.[2 <- b] in
    let hash_0 := hash_0.[3 <- c] in
    let hash_0 := hash_0.[4 <- x5] in
    let hash_0 := hash_0.[5 <- e] in
    let hash_0 := hash_0.[6 <- f1] in
    hash_0.[7 <- g]) hash_0 in
  let state := for_ 0 8 (fun i state =>
    let xi := state.[128 + i] in
    let yi := hash_0.[i] in
    state.[128 + i <- (xi + yi)%u32]) state in
  let c0 := state.[136] in
  let one1 := 1 in
  state.[136 <- (c0 + one1)%u32].

Definition Hacl_Impl_SHA2_256_update_multi (state data : list Z) (n1 : nat) : list Z :=
  for_ 0 n1 (fun i state =>
    let b := drop (i * 64) data in
    Hacl_Impl_SHA2_256_update state b) state.

Definition Hacl_Impl_SHA2_256_update_last (state data : list Z) (len : Z) : list Z :=
  let blocks := replicate 128 0 in
  let nb := if len <? 56 then 1%nat else 2%nat in
  let final_blocks := if len <? 56 then drop 64 blocks else blocks in
  let final_blocks := blit final_blocks 0 (take (Z.to_nat len) data) in
  let n1 := state.[136] in
  let pad0len := ((64 - ((len + 8 + 1)%u32 mod 64)%Z)%u32 mod 64)%Z in
  let encodedlen := ((n1 * 64 + len) * 8)%u64 in
  let final_blocks := final_blocks.[Z.to_nat len <- 0x80] in
  let final_blocks := store64_be final_blocks (Z.to_nat (len + 1 + pad0len)%u32) encodedlen in
  Hacl_Impl_SHA2_256_update_multi state final_blocks nb.

Definition Hacl_Impl_SHA2_256_finish (state hash1 : list Z) : list Z :=
  let hash_w := drop 128 state in
  Hacl_Hash_Lib_LoadStore_uint32s_to_be_bytes hash1 hash_w 8.

Definition Hacl_Impl_SHA2_256_hash (hash1 input : list Z) (len : Z) : list Z :=
  let state := replicate 137 0 in
  let n1 := len / 64 in
  let r := len mod 64 in
  let input_blocks := input in
  let input_last := drop (Z.to_nat (n1 * 64)%u32) input in
  let state := Hacl_Impl_SHA2_256_init state in
  let state := Hacl_Impl_SHA2_256_update_multi state input_blocks (Z.to_nat n1) in
  let state := Hacl_Impl_SHA2_256_update_last state input_last r in
  Hacl_Impl_SHA2_256_finish state hash1.

(** The exported interface. *)

Definition Hacl_SHA2_256_init := Hacl_Impl_SHA2_256_init.
Definition Hacl_SHA2_256_update := Hacl_Impl_SHA2_256_update.
Definition Hacl_SHA2_256_update_multi := Hacl_Impl_SHA2_256_update_multi.
Definition Hacl_SHA2_256_update_last := Hacl_Impl_SHA2_256_update_last.
Definition Hacl_SHA2_256_finish := Hacl_Impl_SHA2_256_finish.
Definition Hacl_SHA2_256_hash := Hacl_Impl_SHA2_256_hash.

End SHA2_256.

(** ** Hacl_SHA2_512.c *)

Module SHA2_512.
Section Code.
Context {T : Type} {U128Ops : UInt128Ops T}.

Definition Hacl_Hash_Lib_LoadStore_uint64s_from_be_bytes (output input : list Z) (len : nat) : list Z :=
  for_ 0 len (fun i output =>
    let inputi := load64_be input (8 * i) in
    output.[i <- inputi]) output.

Definition Hacl_Hash_Lib_LoadStore_uint64s_to_be_bytes (output input : list Z) (len : nat) : list Z :=
  for_ 0 len (fun i output =>
    let hd1 := input.[i] in
    store64_be output (8 * i) hd1) output.

Definition Hacl_Impl_SHA2_512_init (state : list Z) : list Z :=
  let state := blit state 0 sha512_k in
  let state := blit state 160 sha512_h in
  state.[168 <- 0].

Definition Hacl_Impl_SHA2_512_update (state data : list Z) : list Z :=
  let data_w := replicate 16 0 in
  let data_w := Hacl_Hash_Lib_LoadStore_uint64s_from_be_bytes data_w data 16 in
  let state := for_ 0 16 (fun i state =>
    let b := data_w.[i] in
    state.[80 + i <- b]) state in
  let state := for_ 16 80 (fun i state =>
    let t16 := state.[80 + (i - 16)] in
    let t15 := state.[80 + (i - 15)] in
    let t7 := state.[80 + (i - 7)] in
    let t2 := state.[80 + (i - 2)] in
    state.[80 + i <-
      ((((t2 >> 19) .| (t2 << (64 - 19))) ^^ (((t2 >> 61) .| (t2 << (64 - 61))) ^^ (t2 >> 6)))
       + t7
       + (((t15 >> 1) .| (t15 << (64 - 1))) ^^ (((t15 >> 8) .| (t15 << (64 - 8))) ^^ (t15 >> 7)))
       + t16)%u64]) state in
  let hash_0 := blit (replicate 8 0) 0 (slice state 160 8) in
  let hash_0 := for_ 0 80 (fun i hash_0 =>
    let a := hash_0.[0] in
    let b := hash_0.[1] in
    let c := hash_0.[2] in
    let d := hash_0.[3] in
    let e := hash_0.[4] in
    let f1 := hash_0.[5] in
    let g := hash_0.[6] in
    let h := hash_0.[7] in
    let k_t := state.[i] in
    let ws_t := state.[80 + i] in
    let t1 :=
      (h
       + (((e >> 14) .| (e << (64 - 14))) ^^ (((e >> 18) .| (e << (64 - 18))) ^^ ((e >> 41) .| (e << (64 - 41)))))
       + ((e & f1) ^^ (! e & g))
       + k_t
       + ws_t)%u64 in
    let t2 :=
      ((((a >> 28) .| (a << (64 - 28))) ^^ (((a >> 34) .| (a << (64 - 34))) ^^ ((a >> 39) .| (a << (64 - 39)))))
       + ((a & b) ^^ ((a & c) ^^ (b & c))))%u64 in
    let x1 := (t1 + t2)%u64 in
    let x5 := (d + t1)%u64 in
    let hash_0 := hash_0.[0 <- x1] in
    let hash_0 := hash_0.[1 <- a] in
    let hash_0 := hash_0.[2 <- b] in
    let hash_0 := hash_0.[3 <- c] in
    let hash_0 := hash_0.[4 <- x5] in
    let hash_0 := hash_0.[5 <- e] in
    let hash_0 := hash_0.[6 <- f1] in
    hash_0.[7 <- g]) hash_0 in
  let state := for_ 0 8 (fun i state =>
    let xi := state.[160 + i] in
    let yi := hash_0.[i] in
    state.[160 + i <- (xi + yi)%u64]) state in
  let c0 := state.[168] in
  let one1 := 1 in
  state.[168 <- (c0 + one1)%u64].

Definition Hacl_Impl_SHA2_512_update_multi (state data : list Z) (n1 : nat) : list Z :=
  for_ 0 n1 (fun i state =>
    let b := drop (i * 128) data in
    Hacl_Impl_SHA2_512_update state b) state.

Definition Hacl_Impl_SHA2_512_update_last (state data : list Z) (len : Z) : list Z :=
  let blocks := replicate 256 0 in
  let nb := if len <? 112 then 1%nat else 2%nat in
  let final_blocks := if len <? 112 then drop 128 blocks else blocks in
  let final_blocks := blit final_blocks 0 (take (Z.to_nat (wrap 32 len)) data) in
  let n1 := state.[168] in
  let encodedlen : T :=
    u128_shift_left (u128_add (u128_mul_wide n1 128) (u128_of_u64 len)) 3 in
  let pad0len := ((256 - (wrap 32 len + 16 + 1))%u32 mod 128)%Z in
  let final_blocks := final_blocks.[Z.to_nat (wrap 32 len) <- 0x80] in
  let final_blocks := u128_store_be final_blocks (Z.to_nat (wrap 32 len + 1 + pad0len)%u32) encodedlen in
  Hacl_Impl_SHA2_512_update_multi state final_blocks nb.

Definition Hacl_Impl_SHA2_512_finish (state hash1 : list Z) : list Z :=
  let hash_w := drop 160 state in
  Hacl_Hash_Lib_LoadStore_uint64s_to_be_bytes hash1 hash_w 8.

Definition Hacl_Impl_SHA2_512_hash (hash1 input : list Z) (len : Z) : list Z :=
  let state := replicate 169 0 in
  let n1 := len / 128 in
  let r := len mod 128 in
  let input_blocks := input in
  let input_last := drop (Z.to_nat (n1 * 128)%u32) input in
  let state := Hacl_Impl_SHA2_512_init state in
  let state := Hacl_Impl_SHA2_512_update_multi state input_blocks (Z.to_nat n1) in
  let state := Hacl_Impl_SHA2_512_update_last state input_last r in
  Hacl_Impl_SHA2_512_finish state hash1.

(** The exported interface. *)

Definition Hacl_SHA2_512_init := Hacl_Impl_SHA2_512_init.
Definition Hacl_SHA2_512_update := Hacl_Impl_SHA2_512_update.
Definition Hacl_SHA2_512_update_multi := Hacl_Impl_SHA2_512_update_multi.
Definition Hacl_SHA2_512_update_last := Hacl_Impl_SHA2_512_update_last.
Definition Hacl_SHA2_512_finish := Hacl_Impl_SHA2_512_finish.
Definition Hacl_SHA2_512_hash := Hacl_Impl_SHA2_512_hash.

End Code.
End SHA2_512.

(** ** Hacl_SHA2_384.c *)

Module SHA2_384.
Section Code.
Context {T : Type} {U128Ops : UInt128Ops T}.

(** The file has its own copies of the loads and stores of Hacl_SHA2_512.c. *)
Import SHA2_512.

Definition Hacl_Impl_SHA2_384_init (state : list Z) : list Z :=
  let state := blit state 0 sha512_k in
  let state := blit state 160 sha384_h in
  state.[168 <- 0].

Definition Hacl_Impl_SHA2_384_update (state data : list Z) : list Z :=
  let data_w := replicate 16 0 in
  let data_w := Hacl_Hash_Lib_LoadStore_uint64s_from_be_bytes data_w data 16 in
  let state := for_ 0 16 (fun i state =>
    let b := data_w.[i] in
    state.[80 + i <- b]) state in
  let state := for_ 16 80 (fun i state =>
    let t16 := state.[80 + (i - 16)] in
    let t15 := state.[80 + (i - 15)] in
    let t7 := state.[80 + (i - 7)] in
    let t2 := state.[80 + (i - 2)] in
    state.[80 + i <-
      ((((t2 >> 19) .| (t2 << (64 - 19))) ^^ (((t2 >> 61) .| (t2 << (64 - 61))) ^^ (t2 >> 6)))
       + t7
       + (((t15 >> 1) .| (t15 << (64 - 1))) ^^ (((t15 >> 8) .| (t15 << (64 - 8))) ^^ (t15 >> 7)))
       + t16)%u64]) state in
  let hash_0 := blit (replicate 8 0) 0 (slice state 160 8) in
  let hash_0 := for_ 0 80 (fun i hash_0 =>
    let a := hash_0.[0] in
    let b := hash_0.[1] in
    let c := hash_0.[2] in
    let d := hash_0.[3] in
    let e := hash_0.[4] in
    let f1 := hash_0.[5] in
    let g := hash_0.[6] in
    let h := hash_0.[7] in
    let k_t := state.[i] in
    let ws_t := state.[80 + i] in
    let t1 :=
      (h
       + (((e >> 14) .| (e << (64 - 14))) ^^ (((e >> 18) .| (e << (64 - 18))) ^^ ((e >> 41) .| (e << (64 - 41)))))
       + ((e & f1) ^^ (! e & g))
       + k_t
       + ws_t)%u64 in
    let t2 :=
      ((((a >> 28) .| (a << (64 - 28))) ^^ (((a >> 34) .| (a << (64 - 34))) ^^ ((a >> 39) .| (a << (64 - 39)))))
       + ((a & b) ^^ ((a & c) ^^ (b & c))))%u64 in
    let x1 := (t1 + t2)%u64 in
    let x5 := (d + t1)%u64 in
    let hash_0 := hash_0.[0 <- x1] in
    let hash_0 := hash_0.[1 <- a] in
    let hash_0 := hash_0.[2 <- b] in
    let hash_0 := hash_0.[3 <- c] in
    let hash_0 := hash_0.[4 <- x5] in
    let hash_0 := hash_0.[5 <- e] in
    let hash_0 := hash_0.[6 <- f1] in
    hash_0.[7 <- g]) hash_0 in
  let state := for_ 0 8 (fun i state =>
    let xi := state.[160 + i] in
    let yi := hash_0.[i] in
    state.[160 + i <- (xi + yi)%u64]) state in
  let c0 := state.[168] in
  let one1 := 1 in
  state.[168 <- (c0 + one1)%u64].

Definition Hacl_Impl_SHA2_384_update_multi (state data : list Z) (n1 : nat) : list Z :=
  for_ 0 n1 (fun i state =>
    let b := drop (i * 128) data in
    Hacl_Impl_SHA2_384_update state b) state.

Definition Hacl_Impl_SHA2_384_update_last (state data : list Z) (len : Z) : list Z :=
  let blocks := replicate 256 0 in
  let nb := if len <? 112 then 1%nat else 2%nat in
  let final_blocks := if len <? 112 then drop 128 blocks else blocks in
  let final_blocks := blit final_blocks 0 (take (Z.to_nat (wrap 32 len)) data) in
  let n1 := state.[168] in
  let encodedlen : T :=
    u128_shift_left (u128_add (u128_mul_wide n1 128) (u128_of_u64 len)) 3 in
  let pad0len := ((128 - ((wrap 32 len + 16 + 1)%u32 mod 128)%Z)%u32 mod 128)%Z in
  let final_blocks := final_blocks.[Z.to_nat (wrap 32 len) <- 0x80] in
  let final_blocks := u128_store_be final_blocks (Z.to_nat (wrap 32 len + 1 + pad0len)%u32) encodedlen in
  Hacl_Impl_SHA2_384_update_multi state final_blocks nb.

Definition Hacl_Impl_SHA2_384_finish (state hash1 : list Z) : list Z :=
  let hash_w := drop 160 state in
  Hacl_Hash_Lib_LoadStore_uint64s_to_be_bytes hash1 hash_w 6.

Definition Hacl_Impl_SHA2_384_hash (hash1 input : list Z) (len : Z) : list Z :=
  let state := replicate 169 0 in
  let n1 := len / 128 in
  let r := len mod 128 in
  let input_blocks := input in
  let input_last := drop (Z.to_nat (n1 * 128)%u32) input in
  let state := Hacl_Impl_SHA2_384_init state in
  let state := Hacl_Impl_SHA2_384_update_multi state input_blocks (Z.to_nat n1) in
  let state := Hacl_Impl_SHA2_384_update_last state input_last r in
  Hacl_Impl_SHA2_384_finish state hash1.

(** The exported interface. *)

Definition Hacl_SHA2_384_init := Hacl_Impl_SHA2_384_init.
Definition Hacl_SHA2_384_update := Hacl_Impl_SHA2_384_update.
Definition Hacl_SHA2_384_update_multi := Hacl_Impl_SHA2_384_update_multi.
Definition Hacl_SHA2_384_update_last := Hacl_Impl_SHA2_384_update_last.
Definition Hacl_SHA2_384_finish := Hacl_Impl_SHA2_384_finish.
Definition Hacl_SHA2_384_hash := Hacl_Impl_SHA2_384_hash.

End Code.
End SHA2_384.

(** ** Specification: FIPS 180-4 *)

Module SHA2_Spec.

(** The parameters in which the functions differ. *)
Record params := {
  width : Z;                         (* bits of a word *)
  wbytes : nat;                      (* bytes of a word *)
  rounds : nat;
  lbytes : nat;                      (* bytes of the length field *)
  sigma0 : Z -> Z; sigma1 : Z -> Z;  (* of the message schedule *)
  Sigma0 : Z -> Z; Sigma1 : Z -> Z;  (* of the rounds *)
  K : list Z;
  H0 : list Z;
  hwords : nat                       (* words of the digest *)
}.

Definition rotr (w x n : Z) : Z := Z.lor (wshr x n) (wshl w x (w - n)).

Definition sha256 : params := {|
  width := 32; wbytes := 4; rounds := 64; lbytes := 8;
  sigma0 x := Z.lxor (rotr 32 x 7) (Z.lxor (rotr 32 x 18) (wshr x 3));
  sigma1 x := Z.lxor (rotr 32 x 17) (Z.lxor (rotr 32 x 19) (wshr x 10));
  Sigma0 x := Z.lxor (rotr 32 x 2) (Z.lxor (rotr 32 x 13) (rotr 32 x 22));
  Sigma1 x := Z.lxor (rotr 32 x 6) (Z.lxor (rotr 32 x 11) (rotr 32 x 25));
  K := sha256_k; H0 := sha256_h; hwords := 8
|}.

Definition sha512_like (h0 : list Z) (n : nat) : params := {|
  width := 64; wbytes := 8; rounds := 80; lbytes := 16;
  sigma0 x := Z.lxor (rotr 64 x 1) (Z.lxor (rotr 64 x 8) (wshr x 7));
  sigma1 x := Z.lxor (rotr 64 x 19) (Z.lxor (rotr 64 x 61) (wshr x 6));
  Sigma0 x := Z.lxor (rotr 64 x 28) (Z.lxor (rotr 64 x 34) (rotr 64 x 39));
  Sigma1 x := Z.lxor (rotr 64 x 14) (Z.lxor (rotr 64 x 18) (rotr 64 x 41));
  K := sha512_k; H0 := h0; hwords := n
|}.

Definition sha512 : params := sha512_like sha512_h 8.
Definition sha384 : params := sha512_like sha384_h 6.

Section Hash.
Variable P : params.

Definition block_size : nat := 16 * wbytes P.
Definition add (x y : Z) : Z := wadd (width P) x y.
Definition Ch (x y z : Z) : Z := Z.lxor (Z.land x y) (Z.land (wnot (width P) x) z).
Definition Maj (x y z : Z) : Z := Z.lxor (Z.land x y) (Z.lxor (Z.land x z) (Z.land y z)).

(** Big-endian words of a block. *)
Definition words (block : list Z) : list Z :=
  (fun i => be_combine (slice block (wbytes P * i) (wbytes P))) <$> seq 0 16.

(** One more word of the message schedule. *)
Definition next (ws : list Z) : Z :=
  let t := length ws in
  add (add (add (sigma1 P ws.[t - 2]) ws.[t - 7]) (sigma0 P ws.[t - 15])) ws.[t - 16].
Definition schedule (m : list Z) : list Z := Nat.iter (rounds P - 16) (fun ws => ws ++ [next ws]) m.

Definition round (s : list Z) (kw : Z * Z) : list Z :=
  match s with
  | [a; b; c; d; e; f; g; h] =>
      let t1 := add (add (add (add h (Sigma1 P e)) (Ch e f g)) (fst kw)) (snd kw) in
      let t2 := add (Sigma0 P a) (Maj a b c) in
      [add t1 t2; a; b; c; add d t1; e; f; g]
  | _ => s
  end.

Definition compress (h block : list Z) : list Z :=
  zip_with add h (fold_left round (zip (K P) (schedule (words block))) h).

(** A one bit, zeros, and the length in bits, up to a multiple of the block size. *)
Definition zeros (len : nat) : nat :=
  (block_size - (len + lbytes P + 1) mod block_size) mod block_size.
Definition padding (len : nat) : list Z :=
  [0x80] ++ replicate (zeros len) 0 ++ be_split (lbytes P) (8 * Z.of_nat len).

Definition absorb (h msg : list Z) : list Z := fold_left compress (chunks block_size msg) h.

Definition hash (msg : list Z) : list Z :=
  concat (be_split (wbytes P) <$> take (hwords P) (absorb (H0 P) (msg ++ padding (length msg)))).

End Hash.
End SHA2_Spec.
