(* ===== verification/SHA2Proofs.v ===== *)
(** * SHA2Proofs: the hash functions compute SHA-2

    The three code bases are one loop structure at two word sizes.  The
    structure is refined once, over the parameters of [SHA2_Spec]; each source
    file is an instance.  The invariant [absorbed p st] says that the state
    [st] has processed the bytes [p], so the incremental calls compose. *)

From stdpp Require Import base list numbers.
From Stdlib Require Import ZArith Lia.
From S2P Require Import Prelude Machine UInt128 CounterMode SHA2.

Local Open Scope Z_scope.
Local Open Scope buf_scope.

(** ** Loops over a part of the state *)

Lemma mid_read (a b c : list Z) i : (i < length b)%nat -> (a ++ b ++ c).[length a + i] = b.[i].
Proof.
  intros. rewrite lookup_total_app_r by lia. rewrite Nat.add_sub_swap, Nat.sub_diag, Nat.add_0_l by lia.
  now rewrite lookup_total_app_l by lia.
Qed.

Lemma mid_write (a b c : list Z) i v : (i < length b)%nat ->
  (a ++ b ++ c).[length a + i <- v] = a ++ b.[i <- v] ++ c.
Proof. intros. now rewrite insert_app_r, insert_app_l by lia. Qed.

(** A loop that only touches the middle part is a loop on that part. *)
Lemma for_mid (a b c : list Z) lo hi f g :
  (forall i b', (lo <= i < hi)%nat -> length b' = length b ->
     f i (a ++ b' ++ c) = a ++ g i b' ++ c /\ length (g i b') = length b) ->
  for_ lo hi f (a ++ b ++ c) = a ++ for_ lo hi g b ++ c /\ length (for_ lo hi g b) = length b.
Proof.
  intros H. destruct (Nat.le_gt_cases lo hi) as [Hle|Hgt]; [|now rewrite !for_nil by lia].
  induction hi as [|hi IH]; [now rewrite !for_nil by lia|].
  destruct (Nat.eq_dec lo (S hi)) as [->|]; [now rewrite !for_nil by lia|].
  rewrite !for_last by lia. destruct IH as [-> Hl]; [intros; apply H; (lia || done)|lia|].
  apply H; (lia || done).
Qed.

(** A loop reading two arrays in step is a fold over their pairs. *)
Lemma for_zip {S : Type} (f : S -> Z * Z -> S) (a b : list Z) n s : length a = n -> length b = n ->
  for_ 0 n (fun i s => f s (a.[i], b.[i])) s = fold_left f (zip a b) s.
Proof.
  revert a b. induction n as [|n IH]; intros a b Ha Hb.
  { destruct a; [|discriminate]. now rewrite for_nil by lia. }
  destruct (exists_last (l := a)) as (a' & x & ->); [now intros ->|].
  destruct (exists_last (l := b)) as (b' & y & ->); [now intros ->|].
  rewrite length_app in Ha, Hb. cbn in Ha, Hb.
  rewrite for_last, zip_with_app, fold_left_app by lia. cbn.
  rewrite !list_lookup_total_middle by lia. f_equal.
  rewrite <- (IH a' b') by lia. apply for_ext. intros i s' Hi.
  now rewrite !lookup_total_app_l by lia.
Qed.

Section Generic.
#[local] Set Default Proof Using "All".
Variable P : SHA2_Spec.params.
Local Notation R := (SHA2_Spec.rounds P).
Local Notation BS := (SHA2_Spec.block_size P).
Hypothesis K_length : length (SHA2_Spec.K P) = R.
Hypothesis H0_length : length (SHA2_Spec.H0 P) = 8%nat.
Hypothesis R_ge : (16 <= R)%nat.
Hypothesis wbytes_pos : (0 < SHA2_Spec.wbytes P)%nat.
Hypothesis width_pos : 0 <= SHA2_Spec.width P.

(** The code of one round, on the working variables. *)
Definition round_code (hash_0 : list Z) (kt wst : Z) : list Z :=
  let a := hash_0.[0] in
  let b := hash_0.[1] in
  let c := hash_0.[2] in
  let d := hash_0.[3] in
  let e := hash_0.[4] in
  let f1 := hash_0.[5] in
  let g := hash_0.[6] in
  let h := hash_0.[7] in
  let t1 := SHA2_Spec.add P (SHA2_Spec.add P (SHA2_Spec.add P (SHA2_Spec.add P h (SHA2_Spec.Sigma1 P e))
              (SHA2_Spec.Ch P e f1 g)) kt) wst in
  let t2 := SHA2_Spec.add P (SHA2_Spec.Sigma0 P a) (SHA2_Spec.Maj a b c) in
  let x1 := SHA2_Spec.add P t1 t2 in
  let x5 := SHA2_Spec.add P d t1 in
  let hash_0 := hash_0.[0 <- x1] in
  let hash_0 := hash_0.[1 <- a] in
  let hash_0 := hash_0.[2 <- b] in
  let hash_0 := hash_0.[3 <- c] in
  let hash_0 := hash_0.[4 <- x5] in
  let hash_0 := hash_0.[5 <- e] in
  let hash_0 := hash_0.[6 <- f1] in
  hash_0.[7 <- g].

(** The code of [update], with the word size abstracted. *)
Definition update_code (state data : list Z) : list Z :=
  let data_w := SHA2_Spec.words P data in
  let state := for_ 0 16 (fun i state =>
    let b := data_w.[i] in
    state.[R + i <- b]) state in
  let state := for_ 16 R (fun i state =>
    let t16 := state.[R + (i - 16)] in
    let t15 := state.[R + (i - 15)] in
    let t7 := state.[R + (i - 7)] in
    let t2 := state.[R + (i - 2)] in
    state.[R + i <- SHA2_Spec.add P (SHA2_Spec.add P (SHA2_Spec.add P (SHA2_Spec.sigma1 P t2) t7)
                      (SHA2_Spec.sigma0 P t15)) t16]) state in
  let hash_0 := blit (replicate 8 0) 0 (slice state (R + R) 8) in
  let hash_0 := for_ 0 R (fun i hash_0 => round_code hash_0 state.[i] state.[R + i]) hash_0 in
  let state := for_ 0 8 (fun i state =>
    let xi := state.[R + R + i] in
    let yi := hash_0.[i] in
    state.[R + R + i <- SHA2_Spec.add P xi yi]) state in
  let c0 := state.[R + R + 8] in
  let one1 := 1 in
  state.[R + R + 8 <- SHA2_Spec.add P c0 one1].

(** *** The message schedule *)

Lemma length_iter_snoc (f : list Z -> Z) n m :
  length (Nat.iter n (fun l => l ++ [f l]) m) = (n + length m)%nat.
Proof. induction n as [|n IH]; [done|]. rewrite iter_S, length_app, IH. cbn. lia. Qed.

Lemma schedule_loop m ws : length m = 16%nat -> length ws = R ->
  for_ 16 R (fun i ws =>
    ws.[i <- SHA2_Spec.add P (SHA2_Spec.add P (SHA2_Spec.add P (SHA2_Spec.sigma1 P ws.[i - 2]) ws.[i - 7])
               (SHA2_Spec.sigma0 P ws.[i - 15])) ws.[i - 16]]) (m ++ drop 16 ws)
  = SHA2_Spec.schedule P m.
Proof.
  intros Hm Hws.
  assert (G : forall i, (16 <= i <= R)%nat ->
    for_ 16 i (fun i ws =>
      ws.[i <- SHA2_Spec.add P (SHA2_Spec.add P (SHA2_Spec.add P (SHA2_Spec.sigma1 P ws.[i - 2]) ws.[i - 7])
                 (SHA2_Spec.sigma0 P ws.[i - 15])) ws.[i - 16]]) (m ++ drop 16 ws)
    = Nat.iter (i - 16) (fun ws => ws ++ [SHA2_Spec.next P ws]) m ++ drop i ws).
  { intros i Hi. induction i as [|i IH]; [lia|]. destruct (Nat.eq_dec (S i) 16) as [E|].
    - rewrite E, for_nil, Nat.sub_diag by lia. reflexivity.
    - rewrite for_last, IH by lia. replace (S i - 16)%nat with (S (i - 16)) by lia.
      rewrite iter_S. set (l := Nat.iter _ _ _).
      assert (Ll : length l = i) by (subst l; rewrite (length_iter_snoc (SHA2_Spec.next P)); lia).
      destruct (lookup_lt_is_Some_2 ws i ltac:(lia)) as [x Hx]. rewrite (drop_S ws x i Hx).
      rewrite insert_app_r_alt by lia. rewrite Ll, Nat.sub_diag. cbn.
      rewrite !lookup_total_app_l by lia. rewrite <- app_assoc. cbn.
      unfold SHA2_Spec.next. now rewrite Ll. }
  rewrite G by lia. now rewrite drop_ge, app_nil_r by lia.
Qed.

Lemma length_schedule m : length m = 16%nat -> length (SHA2_Spec.schedule P m) = R.
Proof. intros. unfold SHA2_Spec.schedule. rewrite (length_iter_snoc (SHA2_Spec.next P)).  lia. Qed.

Lemma length_sha_words b : length (SHA2_Spec.words P b) = 16%nat.
Proof. unfold SHA2_Spec.words. now rewrite length_fmap, length_seq. Qed.

Lemma length_round s kw : length s = 8%nat -> length (SHA2_Spec.round P s kw) = 8%nat.
Proof. intros. destruct_list s. reflexivity. Qed.

Lemma length_rounds l s : length s = 8%nat -> length (fold_left (SHA2_Spec.round P) l s) = 8%nat.
Proof. revert s. induction l; intros; [done|]. cbn. auto using length_round. Qed.

Lemma length_compress h b : length h = 8%nat -> length (SHA2_Spec.compress P h b) = 8%nat.
Proof. intros. unfold SHA2_Spec.compress. now rewrite length_zip_with, length_rounds, H. Qed.

Lemma length_absorb h m : length h = 8%nat -> length (SHA2_Spec.absorb P h m) = 8%nat.
Proof.
  unfold SHA2_Spec.absorb. generalize (chunks (SHA2_Spec.block_size P) m). intros l. revert h.
  induction l; intros; [done|]. cbn. auto using length_compress.
Qed.

(** *** One block *)

Definition sha_state (ws h : list Z) (c : Z) : list Z := SHA2_Spec.K P ++ ws ++ h ++ [c].

Lemma load_words_loop (ws m : list Z) : length m = 16%nat -> length ws = R ->
  for_ 0 16 (fun i ws => ws.[i <- m.[i]]) ws = m ++ drop 16 ws.
Proof.
  intros Hm Hws. rewrite (for_write (fun i => m.[i])) by lia.
  now rewrite fmap_lookup_total, take_ge by lia.
Qed.

Lemma add8_loop h h' : length h = 8%nat -> length h' = 8%nat ->
  for_ 0 8 (fun i h => h.[i <- SHA2_Spec.add P h.[i] h'.[i]]) h = zip_with (SHA2_Spec.add P) h h'.
Proof. intros H1 H2. destruct_list h. destruct_list h'. reflexivity. Qed.

Lemma round_loop (st W h : list Z) : length W = R -> length h = 8%nat ->
  (forall i, (i < R)%nat -> st.[i] = (SHA2_Spec.K P).[i] /\ st.[R + i] = W.[i]) ->
  for_ 0 R (fun i h => round_code h st.[i] st.[R + i]) h =
  fold_left (SHA2_Spec.round P) (zip (SHA2_Spec.K P) W) h.
Proof.
  intros HW Hh Hst. rewrite <- (for_zip (SHA2_Spec.round P) _ _ R) by done.
  apply (for_ext_inv (fun h : list Z => length h = 8%nat)); [done|].
  intros i s Hi Hs. split; [|now apply length_round].
  destruct (Hst i) as [-> ->]; [lia|]. destruct_list s. reflexivity.
Qed.

Lemma update_code_spec ws h c data : length ws = R -> length h = 8%nat ->
  exists ws', length ws' = R /\
    update_code (sha_state ws h c) data = sha_state ws' (SHA2_Spec.compress P h data) (SHA2_Spec.add P c 1).
Proof.
  intros Hws Hh. set (m := SHA2_Spec.words P data).
  assert (Lm : length m = 16%nat) by apply length_sha_words.
  set (W := SHA2_Spec.schedule P m). assert (LW : length W = R) by now apply length_schedule.
  exists W. split; [done|]. unfold update_code, sha_state. cbv zeta. fold m.
  (* the message goes into the schedule *)
  destruct (for_mid (SHA2_Spec.K P) ws (h ++ [c]) 0 16 (fun i state => state.[R + i <- m.[i]])
    (fun i ws => ws.[i <- m.[i]])) as [-> L1].
  { intros i b Hi Hb. rewrite <- K_length, mid_write, length_insert by lia. done. }
  rewrite load_words_loop in * by done.
  (* which is extended *)
  destruct (for_mid (SHA2_Spec.K P) (m ++ drop 16 ws) (h ++ [c]) 16 R (fun i state =>
      state.[R + i <- SHA2_Spec.add P (SHA2_Spec.add P (SHA2_Spec.add P (SHA2_Spec.sigma1 P state.[R + (i - 2)])
        state.[R + (i - 7)]) (SHA2_Spec.sigma0 P state.[R + (i - 15)])) state.[R + (i - 16)]])
    (fun i ws =>
      ws.[i <- SHA2_Spec.add P (SHA2_Spec.add P (SHA2_Spec.add P (SHA2_Spec.sigma1 P ws.[i - 2]) ws.[i - 7])
               (SHA2_Spec.sigma0 P ws.[i - 15])) ws.[i - 16]])) as [-> L2].
  { intros i b Hi Hb. rewrite <- K_length. rewrite !mid_read, mid_write, length_insert by lia. done. }
  rewrite schedule_loop in * by done. fold W.
  (* the rounds *)
  rewrite (app_assoc (SHA2_Spec.K P) W), slice_mid by (rewrite ?length_app; lia).
  rewrite blit_0_exact by done. rewrite <- (app_assoc (SHA2_Spec.K P) W).
  rewrite (round_loop _ W); [|done|done|].
  2: { intros i Hi. split; [now rewrite lookup_total_app_l by lia|].
       rewrite <- K_length at 1. apply mid_read. lia. }
  set (h' := fold_left _ _ _). assert (Lh' : length h' = 8%nat) by now apply length_rounds.
  (* the chaining value and the counter *)
  rewrite (app_assoc (SHA2_Spec.K P) W).
  assert (LKW : length (SHA2_Spec.K P ++ W) = (R + R)%nat) by (rewrite length_app; lia).
  destruct (for_mid (SHA2_Spec.K P ++ W) h [c] 0 8
    (fun i state => state.[R + R + i <- SHA2_Spec.add P state.[R + R + i] h'.[i]])
    (fun i h => h.[i <- SHA2_Spec.add P h.[i] h'.[i]])) as [-> L3].
  { intros i b Hi Hb. rewrite <- LKW, mid_read, mid_write, length_insert by lia. done. }
  rewrite add8_loop in * by done. set (hn := zip_with _ h h') in *.
  assert (Lhn : length hn = 8%nat) by (rewrite L3; done).
  assert (E8 : (R + R + 8)%nat = (length ((SHA2_Spec.K P ++ W) ++ hn) + 0)%nat) by (rewrite length_app; lia).
  rewrite (app_assoc (SHA2_Spec.K P ++ W)), E8.
  pose proof (mid_read ((SHA2_Spec.K P ++ W) ++ hn) [c] [] 0) as Er.
  pose proof (mid_write ((SHA2_Spec.K P ++ W) ++ hn) [c] [] 0) as Ew.
  rewrite !app_nil_r in *. rewrite Er, Ew by (cbn; lia). rewrite <- !app_assoc. reflexivity.
Qed.

(** *** The bytes absorbed so far *)

Definition absorbed (p st : list Z) : Prop :=
  exists ws n, length ws = R /\ length p = (BS * n)%nat /\
    st = sha_state ws (SHA2_Spec.absorb P (SHA2_Spec.H0 P) p) (wrap (SHA2_Spec.width P) (Z.of_nat n)).

Lemma BS_pos : (0 < BS)%nat.
Proof. unfold SHA2_Spec.block_size. lia. Qed.

Lemma compress_take h data : SHA2_Spec.compress P h (take BS data) = SHA2_Spec.compress P h data.
Proof.
  unfold SHA2_Spec.compress. do 4 f_equal. unfold SHA2_Spec.words. apply list_fmap_ext.
  intros i j Hj. apply lookup_seq in Hj as [-> Hi]. rewrite slice_take; [done|].
  unfold SHA2_Spec.block_size. nia.
Qed.

Lemma absorb_app h n p q : length p = (BS * n)%nat ->
  SHA2_Spec.absorb P h (p ++ q) = SHA2_Spec.absorb P (SHA2_Spec.absorb P h p) q.
Proof.
  intros. unfold SHA2_Spec.absorb.  now rewrite (chunks_app BS n), fold_left_app by (done || apply BS_pos).
Qed.

Lemma absorb_block h b : length b = BS -> SHA2_Spec.absorb P h b = SHA2_Spec.compress P h b.
Proof.
  intros. unfold SHA2_Spec.absorb.  rewrite chunks_short; [done|]. pose proof BS_pos. lia.
Qed.

Lemma update_absorbed p st data : absorbed p st -> (BS <= length data)%nat ->
  absorbed (p ++ take BS data) (update_code st data).
Proof.
  intros (ws & n & Hws & Hp & ->) Hd.
  destruct (update_code_spec ws (SHA2_Spec.absorb P (SHA2_Spec.H0 P) p)
    (wrap (SHA2_Spec.width P) (Z.of_nat n)) data) as (ws' & Hws' & ->); [done|now apply length_absorb|].
  exists ws', (S n). split; [done|]. split; [rewrite length_app, length_take; lia|].
  rewrite (absorb_app _ n) by done. rewrite (absorb_block _ (take BS data)) by (rewrite length_take; lia). rewrite compress_take.
  f_equal. unfold SHA2_Spec.add, wadd, wrap. rewrite Zplus_mod_idemp_l. f_equal. lia.
Qed.

Definition update_multi_code (st data : list Z) (n : nat) : list Z :=
  for_ 0 n (fun i st => let b := drop (i * BS) data in update_code st b) st.

Lemma update_multi_absorbed p st data n : absorbed p st -> (BS * n <= length data)%nat ->
  absorbed (p ++ take (BS * n) data) (update_multi_code st data n).
Proof.
  intros Hst. unfold update_multi_code. induction n as [|n IH]; intros Hd.
  - rewrite for_nil, Nat.mul_0_r, take_0, app_nil_r by lia. done.
  - rewrite for_last by lia. cbv zeta. rewrite (Nat.mul_comm n).
    replace (take (BS * S n) data) with (take (BS * n) data ++ take BS (drop (BS * n) data))
      by (rewrite take_take_drop; f_equal; lia).
    rewrite app_assoc. apply update_absorbed; [apply IH; lia|]. rewrite length_drop. lia.
Qed.

(** *** The last block *)

(** Data, a one bit, zeros and the length laid out in a zeroed buffer. *)
Lemma final_blocks_spec (data enc : list Z) total zs :
  (length data + 1 + zs + length enc)%nat = total ->
  blit ((blit (replicate total 0) 0 data).[length data <- 0x80]) (length data + 1 + zs) enc =
  data ++ [0x80] ++ replicate zs 0 ++ enc.
Proof.
  intros Ht. rewrite blit_0, drop_replicate.
  replace (total - length data)%nat with (1 + (zs + length enc))%nat by lia.
  rewrite insert_app_r_alt, Nat.sub_diag by lia.
  rewrite replicate_add, replicate_add. change (replicate 1 0) with [0]. cbn [app insert list_insert].
  change (data ++ 0x80 :: ?l) with (data ++ [0x80] ++ l). unfold blit.
  rewrite (app_assoc data), (app_assoc _ (replicate zs 0)).
  assert (L : length ((data ++ [0x80]) ++ replicate zs 0) = (length data + 1 + zs)%nat)
    by (rewrite !length_app, length_replicate; cbn; lia).
  rewrite take_app_length', drop_app_ge by lia.
  rewrite drop_ge, app_nil_r, <- !app_assoc by (rewrite length_replicate; lia). done.
Qed.

Lemma zeros_mod n len : SHA2_Spec.zeros P (BS * n + len) = SHA2_Spec.zeros P len.
Proof.
  unfold SHA2_Spec.zeros. 
  replace (BS * n + len + SHA2_Spec.lbytes P + 1)%nat with (len + SHA2_Spec.lbytes P + 1 + n * BS)%nat by lia.
  now rewrite Nat.Div0.mod_add.
Qed.

(** The number of zeros, in integers. *)
Lemma zeros_Z len : Z.of_nat (SHA2_Spec.zeros P len) =
  (Z.of_nat BS - (Z.of_nat len + Z.of_nat (SHA2_Spec.lbytes P) + 1) mod Z.of_nat BS) mod Z.of_nat BS.
Proof.
  pose proof BS_pos. unfold SHA2_Spec.zeros.
  pose proof (Nat.mod_upper_bound (len + SHA2_Spec.lbytes P + 1) BS ltac:(lia)).
  rewrite Nat2Z.inj_mod, Nat2Z.inj_sub, Nat2Z.inj_mod, !Nat2Z.inj_add by lia. done.
Qed.

Lemma digest_of_absorbed p st data fin nb : absorbed p st ->
  fin = data ++ SHA2_Spec.padding P (length p + length data) -> length fin = (BS * nb)%nat ->
  absorbed (p ++ data ++ SHA2_Spec.padding P (length (p ++ data))) (update_multi_code st fin nb).
Proof.
  intros Hst -> Hl. rewrite length_app.
  pose proof (update_multi_absorbed p st _ nb Hst (Nat.eq_le_incl _ _ (eq_sym Hl))) as H.
  now rewrite take_ge in H by lia.
Qed.

(** The layout of [update_last] finishes the padded message. *)
Lemma last_absorbed p st data nb total : absorbed p st -> total = (BS * nb)%nat ->
  (length data + 1 + SHA2_Spec.zeros P (length data) + SHA2_Spec.lbytes P = total)%nat ->
  absorbed (p ++ data ++ SHA2_Spec.padding P (length (p ++ data)))
    (update_multi_code st
      (blit ((blit (replicate total 0) 0 data).[length data <- 0x80])
         (length data + 1 + SHA2_Spec.zeros P (length data))
         (be_split (SHA2_Spec.lbytes P) (8 * Z.of_nat (length p + length data)))) nb).
Proof.
  intros Hst -> Ht. rewrite final_blocks_spec by (now rewrite length_be_split).
  apply digest_of_absorbed; [done| |].
  - destruct Hst as (_ & n & _ & Hp & _). unfold SHA2_Spec.padding. now rewrite Hp, zeros_mod.
  - rewrite !length_app, length_replicate, length_be_split. cbn [length]. lia.
Qed.

Lemma finish_absorbed p st : absorbed p st ->
  slice st (R + R) 8 = SHA2_Spec.absorb P (SHA2_Spec.H0 P) p.
Proof.
  intros (ws & n & Hws & Hp & ->). unfold sha_state. rewrite (app_assoc _ ws).
  apply slice_mid; [rewrite length_app; lia|now apply length_absorb].
Qed.

Lemma counter_absorbed p st : absorbed p st -> exists n, length p = (BS * n)%nat /\
  st.[R + R + 8] = wrap (SHA2_Spec.width P) (Z.of_nat n).
Proof.
  intros (ws & n & Hws & Hp & ->). exists n. split; [done|]. unfold sha_state.
  pose proof (length_absorb (SHA2_Spec.H0 P) p H0_length) as La.
  rewrite (app_assoc _ ws), (app_assoc _ (SHA2_Spec.absorb _ _ _)).
  apply list_lookup_total_middle. rewrite !length_app. lia.
Qed.

Lemma init_absorbed st : length st = (R + R + 9)%nat ->
  absorbed [] (blit (blit st 0 (SHA2_Spec.K P)) (R + R) (SHA2_Spec.H0 P)).[R + R + 8 <- 0].
Proof.
  intros Hst. set (a := take R st). set (ws := slice st R R).
  assert (Hws : length ws = R) by (apply length_slice; lia).
  assert (Ha : length a = R) by (subst a; rewrite length_take; lia).
  set (h := slice st (R + R) 8). assert (Hh : length h = 8%nat) by (apply length_slice; lia).
  set (c := drop (R + R + 8) st). assert (Hc : length c = 1%nat) by (subst c; rewrite length_drop; lia).
  assert (E : st = a ++ ws ++ h ++ c).
  { subst a ws h c. unfold slice. rewrite <- (drop_drop st 8 (R + R)), take_drop.
    rewrite <- (drop_drop st R R), take_drop. symmetry. apply take_drop. }
  exists ws, 0%nat. split; [done|]. split; [cbn; lia|]. rewrite E. clearbody a ws h c.
  change (a ++ ws ++ h ++ c) with ([] ++ a ++ (ws ++ h ++ c)). rewrite blit_mid by (done || lia).
  cbn [app]. rewrite (app_assoc _ ws), blit_mid by (rewrite ?length_app; lia).
  destruct_list c. rewrite (app_assoc _ (SHA2_Spec.H0 P)), insert_app_r_alt by (rewrite !length_app; lia).
  replace (R + R + 8 - length ((SHA2_Spec.K P ++ ws) ++ SHA2_Spec.H0 P))%nat with 0%nat
    by (rewrite !length_app; lia).
  unfold sha_state, SHA2_Spec.absorb, wrap. rewrite Z.mod_0_l by lia. rewrite <- !app_assoc. reflexivity.
Qed.
End Generic.

(** ** Conversions between words and big-endian bytes *)

Lemma be_load_loop (f : list Z -> nat -> Z) k output input n : length output = n ->
  for_ 0 n (fun i output => output.[i <- f input (k * i)%nat]) output = (fun i => f input (k * i)%nat) <$> seq 0 n.
Proof.
  intros <-. rewrite (for_write (fun i => f input (k * i)%nat)) by lia. now rewrite drop_ge, app_nil_r by lia.
Qed.

Lemma be_store_loop k output (input : list Z) n : (n <= length input)%nat -> (k * n <= length output)%nat ->
  for_ 0 n (fun i output => blit output (k * i) (be_split k input.[i])) output =
  blit output 0 (concat (be_split k <$> take n input)).
Proof.
  intros Hi Ho. rewrite (for_blit k (fun i => be_split k input.[i])); [|intros; apply length_be_split|done].
  rewrite blit_0. rewrite <- (fmap_lookup_total input n), <- list_fmap_compose by done. unfold compose.
  assert (L : length (concat ((fun i => be_split k input.[i]) <$> seq 0 n)) = (k * n)%nat).
  { clear Hi Ho. induction n as [|n IH]; [cbn; lia|].
    rewrite seq_S, fmap_app, concat_app, length_app, IH. cbn. rewrite app_nil_r, length_be_split. lia. }
  now rewrite L.
Qed.

Lemma length_be_concat k (l : list Z) : length (concat (be_split k <$> l)) = (k * length l)%nat.
Proof. induction l as [|a l IH]; cbn; [lia|]. rewrite length_app, length_be_split, IH. lia. Qed.

(** Full blocks and rest of a message, in integers. *)
Lemma split_length (k : nat) (kz : Z) (l : list Z) : Z.of_nat k = kz -> (0 < k)%nat -> exists n r,
  Z.of_nat (length l) / kz = Z.of_nat n /\ Z.of_nat (length l) mod kz = Z.of_nat r /\
  length l = (k * n + r)%nat /\ (r < k)%nat.
Proof.
  intros <- ?. exists (length l / k)%nat, (length l mod k)%nat. rewrite Nat2Z.inj_div, Nat2Z.inj_mod.
  split_and!; [done|done|apply Nat.div_mod_eq|apply Nat.mod_upper_bound; lia].
Qed.

(** Bring the code and its generic form to the same literals. *)
Ltac sha_norm :=
  cbv beta iota zeta delta [round_code SHA2_Spec.add SHA2_Spec.Ch SHA2_Spec.Maj SHA2_Spec.rotr
    SHA2_Spec.sha256 SHA2_Spec.sha512 SHA2_Spec.sha384 SHA2_Spec.sha512_like
    SHA2_Spec.width SHA2_Spec.wbytes SHA2_Spec.rounds SHA2_Spec.sigma0 SHA2_Spec.sigma1
    SHA2_Spec.Sigma0 SHA2_Spec.Sigma1];
  repeat match goal with
  | |- context [wsub ?w ?w ?n] => let v := eval vm_compute in (wsub w w n) in change (wsub w w n) with v
  | |- context [Z.sub ?w ?n] => let v := eval vm_compute in (w - n) in change (w - n) with v
  end.
Ltac sha_update_code load k :=
  lazymatch goal with |- (let a := ?v in @?f a) = ?r => change (f v = r) end; cbv beta;
  let_eq; [cbv beta zeta; rewrite (be_load_loop load k) by done; reflexivity|];
  let_eq; [reflexivity|];
  let_eq; [apply for_ext; intros; sha_norm; reflexivity|];
  let_eq; [reflexivity|];
  let_eq; [apply for_ext; intros; sha_norm; reflexivity|];
  let_eq; [reflexivity|]; reflexivity.

(** ** SHA-256 *)

Section SHA256.
Import SHA2_256.
Local Notation P := SHA2_Spec.sha256.

Lemma ok256_R : (16 <= SHA2_Spec.rounds P)%nat.
Proof. cbn. lia. Qed.
Lemma ok256_wb : (0 < SHA2_Spec.wbytes P)%nat.
Proof. cbn. lia. Qed.
Lemma ok256_w : 0 <= SHA2_Spec.width P.
Proof. cbn. lia. Qed.

Lemma update256_code st data : Hacl_Impl_SHA2_256_update st data = update_code P st data.
Proof.
  cbv beta delta [Hacl_Impl_SHA2_256_update update_code Hacl_Hash_Lib_LoadStore_uint32s_from_be_bytes].
  sha_update_code load32_be 4%nat.
Qed.

Lemma update_multi256_code st data n : Hacl_Impl_SHA2_256_update_multi st data n = update_multi_code P st data n.
Proof. apply for_ext. intros i s _. apply update256_code. Qed.

Definition absorbed256 : list Z -> list Z -> Prop := absorbed P.

Lemma init256_absorbed st : length st = 137%nat -> absorbed256 [] (Hacl_Impl_SHA2_256_init st).
Proof. intros. apply (init_absorbed P); (done || cbn; lia). Qed.

Lemma update256_absorbed p st data : absorbed256 p st -> (64 <= length data)%nat ->
  absorbed256 (p ++ take 64 data) (Hacl_Impl_SHA2_256_update st data).
Proof. intros. rewrite update256_code. apply (update_absorbed P); (done || cbn; lia). Qed.

Lemma update_multi256_absorbed p st data n : absorbed256 p st -> (64 * n <= length data)%nat ->
  absorbed256 (p ++ take (64 * n) data) (Hacl_Impl_SHA2_256_update_multi st data n).
Proof. intros. rewrite update_multi256_code. apply (update_multi_absorbed P); (done || cbn; lia). Qed.

Lemma finish256_spec p st out : absorbed256 p st -> (32 <= length out)%nat ->
  Hacl_Impl_SHA2_256_finish st out =
  blit out 0 (concat (be_split 4 <$> SHA2_Spec.absorb P (SHA2_Spec.H0 P) p)).
Proof.
  intros Hst Ho. assert (E := finish_absorbed P eq_refl eq_refl ok256_R ok256_wb ok256_w p st Hst).
  assert (La := length_absorb P eq_refl eq_refl ok256_R ok256_wb ok256_w (SHA2_Spec.H0 P) p eq_refl). rewrite <- E in La |- *.
  change (slice st (SHA2_Spec.rounds P + SHA2_Spec.rounds P) 8) with (take 8 (drop 128 st)) in *.
  rewrite length_take in La. apply be_store_loop; lia.
Qed.

Lemma update_last256_absorbed p st data : absorbed256 p st -> (length data < 64)%nat ->
  Z.of_nat (length p) < 64 * 2 ^ 32 ->
  absorbed256 (p ++ data ++ SHA2_Spec.padding P (length (p ++ data)))
    (Hacl_Impl_SHA2_256_update_last st data (Z.of_nat (length data))).
Proof.
  intros Hst Hd Hp. destruct (counter_absorbed P eq_refl eq_refl ok256_R ok256_wb ok256_w p st Hst) as (n & Hn & Hc).
  change (SHA2_Spec.block_size P) with 64%nat in Hn.
  change (SHA2_Spec.rounds P + SHA2_Spec.rounds P + 8)%nat with 136%nat in Hc.
  unfold Hacl_Impl_SHA2_256_update_last. cbv zeta. rewrite Hc, Nat2Z.id, take_ge by lia.
  change (SHA2_Spec.width P) with 32. rewrite (wrap_small 32) by (unfold word; lia).
  pose proof (last_absorbed P eq_refl eq_refl ok256_R ok256_wb ok256_w p st data) as L.
  change (SHA2_Spec.lbytes P) with 8%nat in L. change (SHA2_Spec.block_size P) with 64%nat in L.
  set (len := length data) in *. set (zs := SHA2_Spec.zeros P len) in *.
  assert (Hz : (len + 1 + zs + 8 = if (Z.of_nat len <? 56)%Z then 64 else 128)%nat /\
    (64 - (Z.of_nat len + 8 + 1) mod 64) mod 64 = Z.of_nat zs).
  { pose proof (zeros_Z P eq_refl eq_refl ok256_R ok256_wb ok256_w len) as E. fold zs in E.
    change (Z.of_nat (SHA2_Spec.block_size P)) with 64 in E. change (Z.of_nat (SHA2_Spec.lbytes P)) with 8 in E.
    split; [|done]. destruct (Z.ltb_spec (Z.of_nat len) 56); Z.div_mod_to_equations; lia. }
  destruct Hz as [Ht Ez]. rewrite !(wadd_small 32 _ 8), !(wadd_small 32 _ 1) by lia.
  rewrite (wsub_small 32) by (Z.div_mod_to_equations; lia). rewrite Ez.
  rewrite (wadd_small 32) by (destruct (Z.of_nat len <? 56); lia).
  replace (Z.to_nat (Z.of_nat len + 1 + Z.of_nat zs)) with (len + 1 + zs)%nat by lia.
  rewrite (wmul_small 64 _ 64), wadd_small, wmul_small by lia.
  replace ((Z.of_nat n * 64 + Z.of_nat len) * 8) with (8 * Z.of_nat (length p + len)) by lia.
  rewrite update_multi256_code. unfold store64_be.
  destruct (Z.of_nat len <? 56); [apply (L 1%nat 64%nat)|apply (L 2%nat 128%nat)]; done.
Qed.

(** Finishing gives the digest of everything that was absorbed. *)
Lemma digest256_spec p st data out : absorbed256 p st -> (length data < 64)%nat ->
  Z.of_nat (length p) < 64 * 2 ^ 32 -> (32 <= length out)%nat ->
  Hacl_Impl_SHA2_256_finish (Hacl_Impl_SHA2_256_update_last st data (Z.of_nat (length data))) out =
  blit out 0 (SHA2_Spec.hash P (p ++ data)).
Proof.
  intros Hst Hd Hp Ho. rewrite (finish256_spec _ _ _ (update_last256_absorbed p st data Hst Hd Hp) Ho).
  unfold SHA2_Spec.hash. rewrite <- app_assoc. do 2 f_equal.
  rewrite take_ge; [done|]. rewrite (length_absorb P eq_refl eq_refl ok256_R ok256_wb ok256_w); done.
Qed.

Lemma hash256_spec input out : Z.of_nat (length input) < 2 ^ 32 -> (32 <= length out)%nat ->
  Hacl_Impl_SHA2_256_hash out input (Z.of_nat (length input)) = blit out 0 (SHA2_Spec.hash P input).
Proof.
  intros Hl Ho. unfold Hacl_Impl_SHA2_256_hash. cbv zeta.
  destruct (split_length 64 64 input eq_refl ltac:(lia)) as (n & r & -> & -> & Hnr & Hr).
  rewrite Nat2Z.id, wmul_small by lia.
  replace (Z.to_nat (Z.of_nat n * 64)) with (64 * n)%nat by lia.
  pose proof (update_multi256_absorbed [] _ input n (init256_absorbed (replicate 137 0) eq_refl)) as Hst.
  replace r with (length (drop (64 * n) input)) by (rewrite length_drop; lia).
  cbn [app] in Hst. rewrite (digest256_spec _ _ _ _ (Hst ltac:(lia))); [|rewrite ?length_drop, ?length_take; lia..].
  now rewrite take_drop.
Qed.
End SHA256.

(** ** SHA-512 and SHA-384

    The two differ in the initial value, the length of the digest and the way
    the number of padding zeros is computed. *)

Section SHA512Like.
Context {T : Type} {U128Ops : UInt128Ops T} {U128 : UInt128 T}.
Variables (h0 : list Z) (nwords : nat).
Hypothesis h0_length : length h0 = 8%nat.
Hypothesis nwords_le : (nwords <= 8)%nat.
Local Notation P := (SHA2_Spec.sha512_like h0 nwords).

Lemma ok512_R : (16 <= SHA2_Spec.rounds P)%nat.
Proof. clear h0_length nwords_le. cbn. lia. Qed.
Lemma ok512_wb : (0 < SHA2_Spec.wbytes P)%nat.
Proof. clear h0_length nwords_le. cbn. lia. Qed.
Lemma ok512_w : 0 <= SHA2_Spec.width P.
Proof. clear h0_length nwords_le. cbn. lia. Qed.

Lemma update512_code st data : SHA2_512.Hacl_Impl_SHA2_512_update st data = update_code P st data.
Proof.
  cbv beta delta [SHA2_512.Hacl_Impl_SHA2_512_update update_code
    SHA2_512.Hacl_Hash_Lib_LoadStore_uint64s_from_be_bytes].
  sha_update_code load64_be 8%nat.
Qed.

Lemma update_multi512_code st data n :
  SHA2_512.Hacl_Impl_SHA2_512_update_multi st data n = update_multi_code P st data n.
Proof. apply for_ext. intros i s _. apply update512_code. Qed.

(** The bit length as a 128-bit integer. *)
Lemma encodedlen_rep n len : 0 <= n < 2 ^ 64 -> 0 <= len < 128 ->
  rep (u128_shift_left (u128_add (u128_mul_wide n 128) (u128_of_u64 len)) 3 : T) (8 * (128 * n + len)).
Proof.
  intros Hn Hl.
  assert (R : rep (u128_add (u128_mul_wide n 128) (u128_of_u64 len) : T) (n * 128 + len)).
  { apply rep_add; [apply rep_mul_wide|apply rep_of_u64|]; unfold word; lia. }
  pose proof (rep_shift_left _ _ 3 R ltac:(lia)) as R'. rewrite Z.mod_small in R' by lia.
  now replace (8 * (128 * n + len)) with ((n * 128 + len) * 2 ^ 3) by lia.
Qed.

(** The body of both [update_last]s, for any way to compute the zeros. *)
Lemma last512_absorbed p st data pad0len : absorbed P p st -> (length data < 128)%nat ->
  Z.of_nat (length p) < 128 * 2 ^ 64 ->
  pad0len = Z.of_nat (SHA2_Spec.zeros P (length data)) ->
  let len := Z.of_nat (length data) in
  let final_blocks := if len <? 112 then drop 128 (replicate 256 0) else replicate 256 0 in
  let final_blocks := blit final_blocks 0 (take (Z.to_nat (wrap 32 len)) data) in
  let encodedlen : T := u128_shift_left (u128_add (u128_mul_wide st.[168] 128) (u128_of_u64 len)) 3 in
  let final_blocks := final_blocks.[Z.to_nat (wrap 32 len) <- 0x80] in
  let final_blocks := u128_store_be final_blocks (Z.to_nat (wadd 32 (wadd 32 (wrap 32 len) 1) pad0len)) encodedlen in
  absorbed P (p ++ data ++ SHA2_Spec.padding P (length (p ++ data)))
    (SHA2_512.Hacl_Impl_SHA2_512_update_multi st final_blocks (if len <? 112 then 1%nat else 2%nat)).
Proof.
  intros Hst Hd Hp -> len.
  destruct (counter_absorbed P eq_refl h0_length ok512_R ok512_wb ok512_w p st Hst) as (n & Hn & Hc).
  change (SHA2_Spec.block_size P) with 128%nat in Hn.
  change (SHA2_Spec.rounds P + SHA2_Spec.rounds P + 8)%nat with 168%nat in Hc.
  pose proof (last_absorbed P eq_refl h0_length ok512_R ok512_wb ok512_w p st data) as L.
  pose proof (zeros_Z P eq_refl h0_length ok512_R ok512_wb ok512_w (length data)) as Ez.
  change (SHA2_Spec.lbytes P) with 16%nat in L. change (SHA2_Spec.block_size P) with 128%nat in L.
  change (Z.of_nat (SHA2_Spec.block_size P)) with 128 in Ez. change (Z.of_nat (SHA2_Spec.lbytes P)) with 16 in Ez.
  set (zs := SHA2_Spec.zeros P (length data)) in *.
  change (SHA2_Spec.width P) with 64 in Hc. rewrite (wrap_small 64) in Hc by (unfold word; lia).
  assert (Ht : (length data + 1 + zs + 16 = if (len <? 112)%Z then 128 else 256)%nat)
    by (destruct (Z.ltb_spec len 112); Z.div_mod_to_equations; lia).
  assert (El : Z.to_nat len = length data) by lia.
  cbv zeta. rewrite Hc, (wrap_small 32 len), El, take_ge by (unfold word; lia).
  pose proof (encodedlen_rep (Z.of_nat n) len ltac:(lia) ltac:(lia)) as R.
  replace (8 * (128 * Z.of_nat n + len)) with (8 * Z.of_nat (length p + length data)) in R by lia.
  assert (Hzs : Z.of_nat zs < 128) by (rewrite Ez; apply Z.mod_pos_bound; lia).
  rewrite (wadd_small 32 len 1), (wadd_small 32) by lia.
  replace (Z.to_nat (len + 1 + Z.of_nat zs)) with (length data + 1 + zs)%nat by lia.
  rewrite update_multi512_code.
  change (drop 128 (replicate 256 0)) with (replicate 128 0).
  revert Ht. destruct (len <? 112); intros Ht; rewrite (rep_store_be _ _ _ _ R)
    by (rewrite length_insert, length_blit; rewrite ?length_replicate; lia).
  - apply (L 1%nat 128%nat); done.
  - apply (L 2%nat 256%nat); done.
Qed.

(** The digest is a prefix of the chaining value. *)
Lemma finish512_loop p st out : absorbed P p st -> (8 * nwords <= length out)%nat ->
  for_ 0 nwords (fun i output => blit output (8 * i) (be_split 8 (drop 160 st).[i])) out =
  blit out 0 (concat (be_split 8 <$> take nwords (SHA2_Spec.absorb P (SHA2_Spec.H0 P) p))).
Proof.
  intros Hst Ho. assert (E := finish_absorbed P eq_refl h0_length ok512_R ok512_wb ok512_w p st Hst).
  assert (La := length_absorb P eq_refl h0_length ok512_R ok512_wb ok512_w (SHA2_Spec.H0 P) p h0_length).
  rewrite <- E in La |- *.
  change (slice st (SHA2_Spec.rounds P + SHA2_Spec.rounds P) 8) with (take 8 (drop 160 st)) in *.
  rewrite length_take in La. rewrite take_take, Nat.min_l by lia. apply be_store_loop; lia.
Qed.

End SHA512Like.

Section SHA512.
Context {T : Type} {U128Ops : UInt128Ops T} {U128 : UInt128 T}.
Import SHA2_512.
Local Notation P := SHA2_Spec.sha512.

Definition absorbed512 : list Z -> list Z -> Prop := absorbed P.

Lemma init512_absorbed st : length st = 169%nat -> absorbed512 [] (Hacl_Impl_SHA2_512_init st).
Proof. intros. apply (init_absorbed P); (done || cbn; lia). Qed.

Lemma update512_absorbed p st data : absorbed512 p st -> (128 <= length data)%nat ->
  absorbed512 (p ++ take 128 data) (Hacl_Impl_SHA2_512_update st data).
Proof.
  intros. change (Hacl_Impl_SHA2_512_update st data) with (SHA2_512.Hacl_Impl_SHA2_512_update st data).
  rewrite (update512_code sha512_h 8). apply (update_absorbed P); (done || cbn; lia).
Qed.

Lemma update_multi512_absorbed p st data n : absorbed512 p st -> (128 * n <= length data)%nat ->
  absorbed512 (p ++ take (128 * n) data) (Hacl_Impl_SHA2_512_update_multi st data n).
Proof.
  intros. change (Hacl_Impl_SHA2_512_update_multi st data n) with (SHA2_512.Hacl_Impl_SHA2_512_update_multi st data n).
  rewrite (update_multi512_code sha512_h 8). apply (update_multi_absorbed P); (done || cbn; lia).
Qed.

Lemma update_last512_absorbed p st data : absorbed512 p st -> (length data < 128)%nat ->
  Z.of_nat (length p) < 128 * 2 ^ 64 ->
  absorbed512 (p ++ data ++ SHA2_Spec.padding P (length (p ++ data)))
    (Hacl_Impl_SHA2_512_update_last (T := T) st data (Z.of_nat (length data))).
Proof.
  intros Hst Hd Hp. refine (last512_absorbed sha512_h 8 eq_refl _ p st data _ Hst Hd Hp _); [lia|].
  rewrite (zeros_Z P eq_refl eq_refl (ok512_R _ _) (ok512_wb _ _) (ok512_w _ _)).
  change (Z.of_nat (SHA2_Spec.block_size P)) with 128. change (Z.of_nat (SHA2_Spec.lbytes P)) with 16.
  rewrite wrap_small, !(wadd_small 32 _ 16), !(wadd_small 32 _ 1), wsub_small
    by (unfold word; Z.div_mod_to_equations; lia).
  Z.div_mod_to_equations. lia.
Qed.

Lemma digest512_spec p st data out : absorbed512 p st -> (length data < 128)%nat ->
  Z.of_nat (length p) < 128 * 2 ^ 64 -> (8 * 8 <= length out)%nat ->
  Hacl_Impl_SHA2_512_finish (Hacl_Impl_SHA2_512_update_last (T := T) st data (Z.of_nat (length data))) out =
  blit out 0 (SHA2_Spec.hash P (p ++ data)).
Proof.
  intros Hst Hd Hp Ho. unfold SHA2_Spec.hash. rewrite <- app_assoc.
  exact (finish512_loop sha512_h 8 eq_refl ltac:(lia) _ _ out (update_last512_absorbed p st data Hst Hd Hp) Ho).
Qed.

Lemma hash512_spec input out : Z.of_nat (length input) < 2 ^ 32 -> (8 * 8 <= length out)%nat ->
  Hacl_Impl_SHA2_512_hash (T := T) out input (Z.of_nat (length input)) = blit out 0 (SHA2_Spec.hash P input).
Proof.
  intros Hl Ho. unfold Hacl_Impl_SHA2_512_hash. cbv zeta.
  destruct (split_length 128 128 input eq_refl ltac:(lia)) as (n & r & -> & -> & Hnr & Hr).
  rewrite Nat2Z.id, wmul_small by lia.
  replace (Z.to_nat (Z.of_nat n * 128)) with (128 * n)%nat by lia.
  pose proof (update_multi512_absorbed [] _ input n (init512_absorbed (replicate 169 0) eq_refl)) as Hst.
  replace r with (length (drop (128 * n) input)) by (rewrite length_drop; lia).
  cbn [app] in Hst. rewrite (digest512_spec _ _ _ _ (Hst ltac:(lia))); [|rewrite ?length_drop, ?length_take; lia..].
  now rewrite take_drop.
Qed.
End SHA512.

Section SHA384.
Context {T : Type} {U128Ops : UInt128Ops T} {U128 : UInt128 T}.
Import SHA2_384.
Local Notation P := SHA2_Spec.sha384.

Lemma update384_is_512 st data :
  Hacl_Impl_SHA2_384_update st data = SHA2_512.Hacl_Impl_SHA2_512_update st data.
Proof.
  cbv beta delta [Hacl_Impl_SHA2_384_update SHA2_512.Hacl_Impl_SHA2_512_update].
  reflexivity.
Qed.

Lemma update_multi384_is_512 st data n :
  Hacl_Impl_SHA2_384_update_multi st data n = SHA2_512.Hacl_Impl_SHA2_512_update_multi st data n.
Proof. apply for_ext. intros i s _. apply update384_is_512. Qed.

Definition absorbed384 : list Z -> list Z -> Prop := absorbed P.

Lemma init384_absorbed st : length st = 169%nat -> absorbed384 [] (Hacl_Impl_SHA2_384_init st).
Proof. intros. apply (init_absorbed P); (done || cbn; lia). Qed.

Lemma update384_absorbed p st data : absorbed384 p st -> (128 <= length data)%nat ->
  absorbed384 (p ++ take 128 data) (Hacl_Impl_SHA2_384_update st data).
Proof.
  intros. rewrite update384_is_512. rewrite (update512_code sha384_h 6). apply (update_absorbed P); (done || cbn; lia).
Qed.

Lemma update_multi384_absorbed p st data n : absorbed384 p st -> (128 * n <= length data)%nat ->
  absorbed384 (p ++ take (128 * n) data) (Hacl_Impl_SHA2_384_update_multi st data n).
Proof.
  intros. rewrite update_multi384_is_512. rewrite (update_multi512_code sha384_h 6). apply (update_multi_absorbed P); (done || cbn; lia).
Qed.

Lemma update_last384_absorbed p st data : absorbed384 p st -> (length data < 128)%nat ->
  Z.of_nat (length p) < 128 * 2 ^ 64 ->
  absorbed384 (p ++ data ++ SHA2_Spec.padding P (length (p ++ data)))
    (Hacl_Impl_SHA2_384_update_last (T := T) st data (Z.of_nat (length data))).
Proof.
  intros Hst Hd Hp. unfold Hacl_Impl_SHA2_384_update_last. cbv zeta. rewrite update_multi384_is_512.
  refine (last512_absorbed sha384_h 6 eq_refl _ p st data _ Hst Hd Hp _); [lia|].
  rewrite (zeros_Z P eq_refl eq_refl (ok512_R _ _) (ok512_wb _ _) (ok512_w _ _)).
  change (Z.of_nat (SHA2_Spec.block_size P)) with 128. change (Z.of_nat (SHA2_Spec.lbytes P)) with 16.
  rewrite wrap_small, !(wadd_small 32 _ 16), !(wadd_small 32 _ 1), wsub_small
    by (unfold word; Z.div_mod_to_equations; lia).
  Z.div_mod_to_equations. lia.
Qed.

Lemma digest384_spec p st data out : absorbed384 p st -> (length data < 128)%nat ->
  Z.of_nat (length p) < 128 * 2 ^ 64 -> (8 * 6 <= length out)%nat ->
  Hacl_Impl_SHA2_384_finish (Hacl_Impl_SHA2_384_update_last (T := T) st data (Z.of_nat (length data))) out =
  blit out 0 (SHA2_Spec.hash P (p ++ data)).
Proof.
  intros Hst Hd Hp Ho. unfold SHA2_Spec.hash. rewrite <- app_assoc.
  exact (finish512_loop sha384_h 6 eq_refl ltac:(lia) _ _ out (update_last384_absorbed p st data Hst Hd Hp) Ho).
Qed.

Lemma hash384_spec input out : Z.of_nat (length input) < 2 ^ 32 -> (8 * 6 <= length out)%nat ->
  Hacl_Impl_SHA2_384_hash (T := T) out input (Z.of_nat (length input)) = blit out 0 (SHA2_Spec.hash P input).
Proof.
  intros Hl Ho. unfold Hacl_Impl_SHA2_384_hash. cbv zeta.
  destruct (split_length 128 128 input eq_refl ltac:(lia)) as (n & r & -> & -> & Hnr & Hr).
  rewrite Nat2Z.id, wmul_small by lia.
  replace (Z.to_nat (Z.of_nat n * 128)) with (128 * n)%nat by lia.
  pose proof (update_multi384_absorbed [] _ input n (init384_absorbed (replicate 169 0) eq_refl)) as Hst.
  replace r with (length (drop (128 * n) input)) by (rewrite length_drop; lia).
  cbn [app] in Hst. rewrite (digest384_spec _ _ _ _ (Hst ltac:(lia))); [|rewrite ?length_drop, ?length_take; lia..].
  now rewrite take_drop.
Qed.
End SHA384.

(** Whole blocks fed piece by piece. *)
Lemma absorb_pieces256 pieces : forall p st,
  Forall (fun d => (length d mod 64 = 0)%nat) pieces -> absorbed256 p st ->
  absorbed256 (p ++ concat pieces)
    (fold_left (fun st d => SHA2_256.Hacl_Impl_SHA2_256_update_multi st d (length d / 64)) pieces st).
Proof.
  induction pieces as [|d ds IH]; intros p st Hp Hst; cbn [concat fold_left]; [now rewrite app_nil_r|].
  inversion Hp as [|? ? Hd Hds]; subst. rewrite app_assoc. apply IH; [done|].
  assert (E : (64 * (length d / 64))%nat = length d) by (pose proof (Nat.div_mod_eq (length d) 64); lia).
  pose proof (update_multi256_absorbed p st d (length d / 64) Hst ltac:(lia)) as H.
  now rewrite E, take_ge in H by lia.
Qed.

(** ** Main results *)

(** C20: [Hacl_SHA2_256] one-shot hashing is SHA-256 (FIPS 180-4): padding,
    message schedule, 64 rounds and big-endian output, for every input shorter than
    4 GiB; only the first 32 bytes of the output buffer change. *)
Theorem sha256_refines input out : Z.of_nat (length input) < 2 ^ 32 -> (32 <= length out)%nat ->
  SHA2_256.Hacl_Impl_SHA2_256_hash out input (Z.of_nat (length input)) =
  blit out 0 (SHA2_Spec.hash SHA2_Spec.sha256 input).
Proof. apply hash256_spec. Qed.

(** C21: any way of feeding SHA-256 incrementally gives the same digest:
    [init], any number of [update_multi] calls on whole blocks, an [update_last] on
    fewer than 64 bytes and [finish] hash the concatenation of the pieces. *)
Theorem sha256_incremental_equiv st (pieces : list (list Z)) last out :
  length st = 137%nat -> Forall (fun d => (length d mod 64 = 0)%nat) pieces -> (length last < 64)%nat ->
  Z.of_nat (length (concat pieces ++ last)) < 2 ^ 32 -> (32 <= length out)%nat ->
  let st := SHA2_256.Hacl_Impl_SHA2_256_init st in
  let st := fold_left (fun st d => SHA2_256.Hacl_Impl_SHA2_256_update_multi st d (length d / 64)) pieces st in
  let st := SHA2_256.Hacl_Impl_SHA2_256_update_last st last (Z.of_nat (length last)) in
  SHA2_256.Hacl_Impl_SHA2_256_finish st out =
  SHA2_256.Hacl_Impl_SHA2_256_hash out (concat pieces ++ last) (Z.of_nat (length (concat pieces ++ last))).
Proof.
  intros Hst Hp Hl Hlen Ho. cbv zeta.
  rewrite hash256_spec, (digest256_spec (concat pieces)); try done.
  - apply (absorb_pieces256 pieces [] _ Hp). now apply init256_absorbed.
  - rewrite length_app in Hlen. lia.
Qed.

(** C22: SHA-512 and SHA-384 one-shot hashing are those of FIPS 180-4, for
    either 128-bit back end that counts the length. *)
Theorem sha512_sha384_refine {T : Type} {U128Ops : UInt128Ops T} {U128 : UInt128 T} input out out' :
  Z.of_nat (length input) < 2 ^ 32 -> (64 <= length out)%nat -> (48 <= length out')%nat ->
  SHA2_512.Hacl_Impl_SHA2_512_hash (T := T) out input (Z.of_nat (length input)) =
    blit out 0 (SHA2_Spec.hash SHA2_Spec.sha512 input) /\
  SHA2_384.Hacl_Impl_SHA2_384_hash (T := T) out' input (Z.of_nat (length input)) =
    blit out' 0 (SHA2_Spec.hash SHA2_Spec.sha384 input).
Proof. intros. split; [now apply hash512_spec|now apply hash384_spec]. Qed.

(** The constants: the first [w] bits of the fractional parts of the square and
    cube roots of primes. *)
Definition is_prime (n : nat) : bool :=
  (2 <=? n)%nat && forallb (fun d => negb (Nat.eqb (n mod d) 0)) (seq 2 (n - 2)).
Definition primes_below (n : nat) : list nat := base.filter (fun i => Is_true (is_prime i)) (seq 0 n).

(** [k] is the fraction of the [e]-th root of [p] in [w] bits. *)
Definition root_fraction (e w : Z) (p : nat) (k : Z) : bool :=
  existsb (fun i => let r := Z.of_nat i * 2 ^ w + k in
    (0 <=? k) && (k <? 2 ^ w) &&
    (r ^ e <=? Z.of_nat p * 2 ^ (e * w)) && (Z.of_nat p * 2 ^ (e * w) <? (r + 1) ^ e)) (seq 0 21).

(** the tables of constants are those of FIPS 180-4: the 64 and 80 round
    constants are the cube roots of the first 64 and 80 primes, the initial values of
    SHA-256 and SHA-512 the square roots of the first eight primes, and those of
    SHA-384 of the ninth to the sixteenth. *)
Theorem sha2_constants_are_roots :
  let ps := primes_below 410 in
  length ps = 80%nat /\
  zip_with (root_fraction 3 32) (take 64 ps) sha256_k = replicate 64 true /\
  zip_with (root_fraction 3 64) ps sha512_k = replicate 80 true /\
  zip_with (root_fraction 2 32) (take 8 ps) sha256_h = replicate 8 true /\
  zip_with (root_fraction 2 64) (take 8 ps) sha512_h = replicate 8 true /\
  zip_with (root_fraction 2 64) (take 8 (drop 8 ps)) sha384_h = replicate 8 true.
Proof. vm_compute. repeat split. Qed.

Lemma sha256_refines_witness :
  SHA2_256.Hacl_Impl_SHA2_256_hash (replicate 32 0) [97; 98; 99] 3 =
  blit (replicate 32 0) 0 (SHA2_Spec.hash SHA2_Spec.sha256 [97; 98; 99]).
Proof. refine (sha256_refines [97; 98; 99] (replicate 32 0) _ _); simpl; lia. Defined.

Lemma sha256_incremental_equiv_witness :
  let st := SHA2_256.Hacl_Impl_SHA2_256_init (replicate 137 0) in
  let st := fold_left (fun st d => SHA2_256.Hacl_Impl_SHA2_256_update_multi st d (length d / 64))
              [replicate 64 1; replicate 128 2] st in
  let st := SHA2_256.Hacl_Impl_SHA2_256_update_last st [97; 98; 99] 3 in
  SHA2_256.Hacl_Impl_SHA2_256_finish st (replicate 32 0) =
  SHA2_256.Hacl_Impl_SHA2_256_hash (replicate 32 0) (concat [replicate 64 1; replicate 128 2] ++ [97; 98; 99]) 195.
Proof.
  refine (sha256_incremental_equiv (replicate 137 0) [replicate 64 1; replicate 128 2] [97; 98; 99] (replicate 32 0)
            eq_refl _ _ _ _); [repeat constructor|simpl; lia|simpl; lia|simpl; lia].
Defined.

Lemma sha512_sha384_refine_witness :
  SHA2_512.Hacl_Impl_SHA2_512_hash (T := Z) (replicate 64 0) [97; 98; 99] 3 =
    blit (replicate 64 0) 0 (SHA2_Spec.hash SHA2_Spec.sha512 [97; 98; 99]) /\
  SHA2_384.Hacl_Impl_SHA2_384_hash (T := Z) (replicate 48 0) [97; 98; 99] 3 =
    blit (replicate 48 0) 0 (SHA2_Spec.hash SHA2_Spec.sha384 [97; 98; 99]).
Proof. refine (sha512_sha384_refine (T := Z) [97; 98; 99] (replicate 64 0) (replicate 48 0) _ _ _); simpl; lia. Defined.
