(* ===== verification/HMAC.v ===== *)
(** * HMAC: the message authentication code of Hacl_HMAC_SHA2_256.c

    The file repeats the static functions of Hacl_SHA2_256.c word for word;
    the model uses those of [SHA2].  The code is refined to HMAC-SHA-256
    (RFC 2104). *)

From stdpp Require Import base list numbers.
From Stdlib Require Import ZArith Lia.
From S2P Require Import Prelude Machine UInt128 CounterMode SHA2 SHA2Proofs.

Local Open Scope Z_scope.
Local Open Scope buf_scope.

Module HMAC_SHA2_256.
Import SHA2_256.

Definition Hacl_Impl_HMAC_SHA2_256_xor_bytes_inplace (a b : list Z) (len : nat) : list Z :=
  for_ 0 len (fun i a =>
    let xi := a.[i] in
    let yi := b.[i] in
    a.[i <- (xi ^^ yi)%u8]) a.

Definition Hacl_Impl_HMAC_SHA2_256_hmac_core (mac key data : list Z) (len : Z) : list Z :=
  let ipad := replicate 64 0x36 in
  let opad := replicate 64 0x5c in
  let ipad := Hacl_Impl_HMAC_SHA2_256_xor_bytes_inplace ipad key 64 in
  let state0 := replicate 137 0 in
  let n0 := len / 64 in
  let r0 := len mod 64 in
  let blocks0 := data in
  let last0 := drop (Z.to_nat (n0 * 64)%u32) data in
  let state0 := Hacl_Impl_SHA2_256_init state0 in
  let state0 := Hacl_Impl_SHA2_256_update state0 ipad in
  let state0 := Hacl_Impl_SHA2_256_update_multi state0 blocks0 (Z.to_nat n0) in
  let state0 := Hacl_Impl_SHA2_256_update_last state0 last0 r0 in
  let ipad := Hacl_Impl_SHA2_256_finish state0 ipad in
  let s4 := slice ipad 0 32 in
  let opad := Hacl_Impl_HMAC_SHA2_256_xor_bytes_inplace opad key 64 in
  let state1 := replicate 137 0 in
  let state1 := Hacl_Impl_SHA2_256_init state1 in
  let state1 := Hacl_Impl_SHA2_256_update state1 opad in
  let state1 := Hacl_Impl_SHA2_256_update_last state1 s4 32 in
  Hacl_Impl_SHA2_256_finish state1 mac.

Definition Hacl_Impl_HMAC_SHA2_256_hmac
    (mac key : list Z) (keylen : Z) (data : list Z) (datalen : Z) : list Z :=
  let nkey := replicate 64 0x00 in
  let nkey :=
    if keylen <=? 64 then blit nkey 0 (take (Z.to_nat keylen) key)
    else Hacl_Impl_SHA2_256_hash nkey key keylen in
  Hacl_Impl_HMAC_SHA2_256_hmac_core mac nkey data datalen.

Definition Hacl_HMAC_SHA2_256_hmac_core := Hacl_Impl_HMAC_SHA2_256_hmac_core.

Definition Hacl_HMAC_SHA2_256_hmac := Hacl_Impl_HMAC_SHA2_256_hmac.

(** hacl_stubs.c: the lengths are those of the OCaml buffers. *)
Definition ml_Hacl_HMAC_SHA2_256_hmac (mac key data : list Z) : list Z :=
  Hacl_HMAC_SHA2_256_hmac mac key (wrap 32 (Z.of_nat (length key))) data (wrap 32 (Z.of_nat (length data))).

End HMAC_SHA2_256.

(** ** Specification: RFC 2104 with SHA-256 *)

Module HMAC_Spec.

Definition H : list Z -> list Z := SHA2_Spec.hash SHA2_Spec.sha256.

(** Keys longer than a block are hashed; shorter ones are padded with zeros. *)
Definition block_key (key : list Z) : list Z :=
  let k := if (length key <=? 64)%nat then key else H key in
  k ++ replicate (64 - length k) 0.

Definition xor_pad (k : list Z) (b : Z) : list Z := (fun x => Z.lxor b x) <$> k.

Definition hmac (key msg : list Z) : list Z :=
  let k := block_key key in
  H (xor_pad k 0x5c ++ H (xor_pad k 0x36 ++ msg)).

End HMAC_Spec.

(** ** Refinement *)

Section Refinement.
Import SHA2_256 HMAC_SHA2_256.

Lemma length_sha256 m : length (SHA2_Spec.hash SHA2_Spec.sha256 m) = 32%nat.
Proof.
  unfold SHA2_Spec.hash. rewrite length_be_concat, length_take.
  rewrite (length_absorb SHA2_Spec.sha256 eq_refl eq_refl ok256_R ok256_wb ok256_w); done.
Qed.

Lemma xor_inplace_spec b key : length key = 64%nat ->
  Hacl_Impl_HMAC_SHA2_256_xor_bytes_inplace (replicate 64 b) key 64 = HMAC_Spec.xor_pad key b.
Proof.
  intros Hk. unfold Hacl_Impl_HMAC_SHA2_256_xor_bytes_inplace. cbv zeta.
  rewrite xor_loop_inplace, xor_loop by (rewrite ?length_replicate; lia).
  rewrite take_ge by done. unfold HMAC_Spec.xor_pad. rewrite blit_0_exact.
  - rewrite <- Hk. clear Hk. induction key as [|x key IH]; [done|]. cbn. now rewrite IH.
  - now rewrite length_zip_with, length_replicate, Hk.
Qed.

Lemma length_xor_pad k b : length (HMAC_Spec.xor_pad k b) = length k.
Proof. apply length_fmap. Qed.

(** One block of key, then the message. *)
Lemma keyed_absorbed k : length k = 64%nat ->
  absorbed256 k (Hacl_Impl_SHA2_256_update (Hacl_Impl_SHA2_256_init (replicate 137 0)) k).
Proof.
  intros Hk. pose proof (update256_absorbed [] _ k (init256_absorbed (replicate 137 0) eq_refl)) as H.
  rewrite take_ge in H by lia. apply H. lia.
Qed.

Lemma hmac_core_spec mac key data : length key = 64%nat -> (32 <= length mac)%nat ->
  Z.of_nat (length data) < 2 ^ 32 ->
  Hacl_Impl_HMAC_SHA2_256_hmac_core mac key data (Z.of_nat (length data)) =
  blit mac 0 (HMAC_Spec.H (HMAC_Spec.xor_pad key 0x5c ++ HMAC_Spec.H (HMAC_Spec.xor_pad key 0x36 ++ data))).
Proof.
  intros Hk Hm Hd. unfold Hacl_Impl_HMAC_SHA2_256_hmac_core. cbv zeta.
  rewrite !xor_inplace_spec by done.
  destruct (split_length 64 64 data eq_refl ltac:(lia)) as (n & r & -> & -> & Hnr & Hr).
  rewrite Nat2Z.id, wmul_small by lia.
  replace (Z.to_nat (Z.of_nat n * 64)) with (64 * n)%nat by lia.
  pose proof (update_multi256_absorbed _ _ data n
    (keyed_absorbed (HMAC_Spec.xor_pad key 0x36) ltac:(now rewrite length_xor_pad))) as Hst.
  replace r with (length (drop (64 * n) data)) by (rewrite length_drop; lia).
  rewrite (digest256_spec _ _ _ _ (Hst ltac:(lia)));
    [|rewrite ?length_drop, ?length_app, ?length_take, ?length_xor_pad; lia..].
  rewrite <- app_assoc, take_drop. fold (HMAC_Spec.H (HMAC_Spec.xor_pad key 0x36 ++ data)).
  set (inner := HMAC_Spec.H _). assert (Li : length inner = 32%nat) by apply length_sha256.
  replace (slice (blit (HMAC_Spec.xor_pad key 0x36) 0 inner) 0 32) with inner.
  2: { unfold slice. rewrite blit_0, drop_0, take_app_length'; done. }
  replace 32 with (Z.of_nat (length inner)) at 1 by (now rewrite Li).
  rewrite (digest256_spec _ _ inner _ (keyed_absorbed (HMAC_Spec.xor_pad key 0x5c) ltac:(now rewrite length_xor_pad)));
    [done|rewrite ?length_xor_pad; lia..].
Qed.

Lemma hmac_spec mac key data : (32 <= length mac)%nat ->
  Z.of_nat (length key) < 2 ^ 32 -> Z.of_nat (length data) < 2 ^ 32 ->
  Hacl_HMAC_SHA2_256_hmac mac key (Z.of_nat (length key)) data (Z.of_nat (length data)) =
  blit mac 0 (HMAC_Spec.hmac key data).
Proof.
  intros Hm Hk Hd. unfold Hacl_HMAC_SHA2_256_hmac, Hacl_Impl_HMAC_SHA2_256_hmac. cbv zeta.
  assert (E : (if Z.of_nat (length key) <=? 64
               then blit (replicate 64 0) 0 (take (Z.to_nat (Z.of_nat (length key))) key)
               else Hacl_Impl_SHA2_256_hash (replicate 64 0) key (Z.of_nat (length key)))
              = HMAC_Spec.block_key key /\ length (HMAC_Spec.block_key key) = 64%nat).
  { unfold HMAC_Spec.block_key. rewrite Nat2Z.id.
    destruct (Z.leb_spec (Z.of_nat (length key)) 64), (Nat.leb_spec (length key) 64); try lia.
    - rewrite take_ge, blit_0, drop_replicate by lia. split; [done|].
      rewrite length_app, length_replicate. lia.
    - rewrite hash256_spec by (rewrite ?length_replicate; lia).
      rewrite blit_0, drop_replicate. split; [done|]. unfold HMAC_Spec.H.
      rewrite length_app, length_replicate, length_sha256. lia. }
  destruct E as [-> Lk]. now apply hmac_core_spec.
Qed.
End Refinement.

(** ** Main results *)

(** C23: [Hacl_HMAC_SHA2_256_hmac] is HMAC-SHA-256 (RFC 2104): keys longer
    than a block hashed, shorter ones zero-padded, inner and outer hash, for keys and
    data shorter than 4 GiB. *)
Theorem hmac_refines mac key data : (32 <= length mac)%nat ->
  Z.of_nat (length key) < 2 ^ 32 -> Z.of_nat (length data) < 2 ^ 32 ->
  HMAC_SHA2_256.Hacl_HMAC_SHA2_256_hmac mac key (Z.of_nat (length key)) data (Z.of_nat (length data)) =
  blit mac 0 (HMAC_Spec.hmac key data).
Proof. apply hmac_spec. Qed.

Lemma hmac_refines_witness :
  HMAC_SHA2_256.Hacl_HMAC_SHA2_256_hmac (replicate 32 0) (replicate 70 1) 70 [97; 98; 99] 3 =
  blit (replicate 32 0) 0 (HMAC_Spec.hmac (replicate 70 1) [97; 98; 99]).
Proof. refine (hmac_refines (replicate 32 0) (replicate 70 1) [97; 98; 99] _ _ _); simpl; lia. Defined.
