(* ===== verification/AEAD.v ===== *)
(** * AEAD: AEAD_Poly1305_64.c and Hacl_Chacha20Poly1305.c

    Authenticated encryption with associated data.  The first file holds the
    Poly1305 code of Hacl_Poly1305_64.c once more, word for word, and on top of
    it the block functions that pad each part of the input to 16 bytes; the
    model takes the former from [Poly1305].  The second file is the AEAD of
    RFC 7539, section 2.8. *)

From stdpp Require Import base list numbers.
From Stdlib Require Import ZArith Lia.
From S2P Require Import Prelude Machine UInt128 Poly1305 CounterMode Chacha20 Salsa20 Curve25519 FieldProofs LadderProofs NaCl.

Local Open Scope Z_scope.
Local Open Scope buf_scope.

(** ** The code *)

Module AEAD_Poly1305_64.
Section Code.
Context {T : Type} {U128Ops : UInt128Ops T}.
Import Poly1305_64.

Definition AEAD_Poly1305_64_mk_state (r acc : list Z) : poly1305_state :=
  Hacl_Impl_Poly1305_64_mk_state r acc.

Definition AEAD_Poly1305_64_mul_div_16 (len1 : Z) : Z := (16 * (len1 >> 4))%u32.

Definition AEAD_Poly1305_64_pad_last (st : poly1305_state) (input : list Z) (len1 : Z) : poly1305_state :=
  if negb (len1 =? 0) then
    let b := replicate 16 0 in
    let b := blit b 0 (take (Z.to_nat len1) input) in
    let b0 := b in
    Hacl_Impl_Poly1305_64_poly1305_update (T := T) st b0
  else st.

Definition AEAD_Poly1305_64_poly1305_blocks_init
    (st : poly1305_state) (input : list Z) (len1 : Z) (k1 : list Z) : poly1305_state :=
  let len_16 := (len1 >> 4)%u32 in
  let rem_16 := (len1 & 15)%u32 in
  let kr := k1 in
  let len_ := (16 * (len1 >> 4))%u32 in
  let part_input := input in
  let last_block := drop (Z.to_nat len_) input in
  let st := Hacl_Standalone_Poly1305_64_poly1305_partial (T := T) st part_input len_16 kr in
  AEAD_Poly1305_64_pad_last st last_block rem_16.

Definition AEAD_Poly1305_64_poly1305_blocks_continue
    (st : poly1305_state) (input : list Z) (len1 : Z) : poly1305_state :=
  let len_16 := (len1 >> 4)%u32 in
  let rem_16 := (len1 & 15)%u32 in
  let len_ := (16 * (len1 >> 4))%u32 in
  let part_input := input in
  let last_block := drop (Z.to_nat len_) input in
  let st := Hacl_Standalone_Poly1305_64_poly1305_blocks (T := T) st part_input (Z.to_nat len_16) in
  AEAD_Poly1305_64_pad_last st last_block rem_16.

(** The test [!(0 == 0)] of the source is kept; it is never true. *)
Definition AEAD_Poly1305_64_poly1305_blocks_finish_ (st : poly1305_state) (input : list Z) : poly1305_state :=
  let st := Hacl_Impl_Poly1305_64_poly1305_update (T := T) st input in
  let x2 := drop 16 input in
  let st := if negb (0 =? 0)
            then Hacl_Impl_Poly1305_64_poly1305_process_last_block (T := T) st x2 0
            else st in
  {| r := r st; h := Hacl_Impl_Poly1305_64_poly1305_last_pass (h st) |}.

Definition AEAD_Poly1305_64_poly1305_blocks_finish
    (st : poly1305_state) (input mac key_s : list Z) : list Z :=
  let st := Hacl_Impl_Poly1305_64_poly1305_update (T := T) st input in
  let x2 := drop 16 input in
  let st := if negb (0 =? 0)
            then Hacl_Impl_Poly1305_64_poly1305_process_last_block (T := T) st x2 0
            else st in
  let st := {| r := r st; h := Hacl_Impl_Poly1305_64_poly1305_last_pass (h st) |} in
  let acc0 := h st in
  let k_ := u128_load_le key_s 0 in
  let h0 := acc0.[0] in
  let h1 := acc0.[1] in
  let h2 := acc0.[2] in
  let acc_ :=
    u128_logor
      (u128_shift_left (u128_of_u64 ((h2 << 24) .| (h1 >> 20))%u64) 64)
      (u128_of_u64 ((h1 << 44) .| h0)%u64) in
  let mac_ := u128_add_mod acc_ k_ in
  u128_store_le mac 0 mac_.

End Code.
End AEAD_Poly1305_64.

Module Chacha20Poly1305.
Section Code.
Context {T : Type} {U128Ops : UInt128Ops T}.
Import AEAD_Poly1305_64 Chacha20 Policies.

Definition Hacl_Chacha20Poly1305_aead_encrypt_poly
    (c : list Z) (mlen : Z) (mac aad1 : list Z) (aadlen : Z) (tmp : list Z) : list Z :=
  let lb := drop 64 tmp in
  let mk := tmp in
  let key_s := drop 16 mk in
  let tmp1 := replicate 6 0 in
  let st := AEAD_Poly1305_64_mk_state (slice tmp1 0 3) (slice tmp1 3 3) in
  let st := AEAD_Poly1305_64_poly1305_blocks_init (T := T) st aad1 aadlen mk in
  let st := AEAD_Poly1305_64_poly1305_blocks_continue (T := T) st c mlen in
  AEAD_Poly1305_64_poly1305_blocks_finish (T := T) st lb mac key_s.

Definition Hacl_Chacha20Poly1305_encode_length (lb : list Z) (aad_len mlen : Z) : list Z :=
  let lb := store64_le lb 0 aad_len in
  store64_le lb 8 mlen.

Definition Hacl_Chacha20Poly1305_aead_encrypt_
    (c mac m : list Z) (mlen : Z) (aad1 : list Z) (aadlen : Z) (k1 n1 : list Z) : list Z * list Z * Z :=
  let tmp := replicate 80 0 in
  let tmp := at_off tmp 64 (fun lb => Hacl_Chacha20Poly1305_encode_length lb aadlen mlen) in
  let c := Hacl_Chacha20_chacha20 c m mlen k1 n1 1 in
  let tmp := Hacl_Chacha20_chacha20_key_block tmp k1 n1 0 in
  let mac := Hacl_Chacha20Poly1305_aead_encrypt_poly c mlen mac aad1 aadlen tmp in
  (c, mac, 0).

Definition Hacl_Chacha20Poly1305_aead_encrypt
    (c mac m : list Z) (mlen : Z) (aad1 : list Z) (aadlen : Z) (k1 n1 : list Z) : list Z * list Z * Z :=
  Hacl_Chacha20Poly1305_aead_encrypt_ c mac m mlen aad1 aadlen k1 n1.

Definition Hacl_Chacha20Poly1305_aead_decrypt
    (m c : list Z) (mlen : Z) (mac aad1 : list Z) (aadlen : Z) (k1 n1 : list Z) : list Z * Z :=
  let tmp := replicate 80 0 in
  let tmp := at_off tmp 64 (fun lb => Hacl_Chacha20Poly1305_encode_length lb aadlen mlen) in
  let rmac := replicate 16 0 in
  let tmp := Hacl_Chacha20_chacha20_key_block tmp k1 n1 0 in
  let rmac := Hacl_Chacha20Poly1305_aead_encrypt_poly c mlen rmac aad1 aadlen tmp in
  let result := Hacl_Policies_cmp_bytes mac rmac 16 in
  let verify := result in
  if verify =? 0 then
    let m := Hacl_Chacha20_chacha20 m c mlen k1 n1 1 in
    (m, 0)
  else (m, 1).

End Code.
End Chacha20Poly1305.

(** ** Specification: RFC 7539, section 2.8 *)

Module AEAD_Spec.

Definition pad16 (m : list Z) : list Z := m ++ replicate ((16 - length m mod 16) mod 16) 0.

(** The bytes that are authenticated. *)
Definition mac_data (aad c : list Z) : list Z :=
  pad16 aad ++ pad16 c ++ le_split 8 (Z.of_nat (length aad)) ++ le_split 8 (Z.of_nat (length c)).

Definition tag (key nonce aad c : list Z) : list Z :=
  Poly1305_Spec.mac (take 32 (Chacha20_Spec.block key nonce 0)) (mac_data aad c).

Definition seal (key nonce aad m : list Z) : list Z * list Z :=
  let c := Chacha20_Spec.encrypt key nonce 1 m in (c, tag key nonce aad c).

Definition open (key nonce aad c t : list Z) : option (list Z) :=
  if decide (tag key nonce aad c = t) then Some (Chacha20_Spec.encrypt key nonce 1 c) else None.

End AEAD_Spec.

(** ** Refinement *)

Section Refinement.
Context {T : Type} {U128Ops : UInt128Ops T} {U128 : UInt128 T}.
Import Poly1305_64 AEAD_Poly1305_64 Chacha20Poly1305 Chacha20 Policies.

Lemma length_pad16 m : exists n, length (AEAD_Spec.pad16 m) = (16 * n)%nat.
Proof.
  unfold AEAD_Spec.pad16. rewrite length_app, length_replicate.
  pose proof (Nat.div_mod_eq (length m) 16). pose proof (Nat.mod_upper_bound (length m) 16 ltac:(lia)).
  destruct (Nat.eq_dec (length m mod 16) 0) as [E|E].
  - exists (length m / 16)%nat. rewrite E, Nat.sub_0_r, Nat.Div0.mod_same. lia.
  - exists (length m / 16 + 1)%nat. rewrite (Nat.mod_small (16 - _)) by lia. lia.
Qed.

Lemma poly_app rr acc n a b : length a = (16 * n)%nat ->
  Poly1305_Spec.poly rr acc (a ++ b) = Poly1305_Spec.poly rr (Poly1305_Spec.poly rr acc a) b.
Proof. intros. unfold Poly1305_Spec.poly. now rewrite (chunks_app 16 n), fold_left_app by (done || lia). Qed.

Lemma poly_block rr acc b : length b = 16%nat -> Poly1305_Spec.poly rr acc b = Poly1305_Spec.step rr acc b.
Proof. intros. unfold Poly1305_Spec.poly. rewrite chunks_short; [done|lia]. Qed.

(** Absorbing an input padded to whole blocks. *)
Lemma continue_spec rr acc st m : st_inv rr acc st -> bytes m -> Z.of_nat (length m) < 2 ^ 32 ->
  st_inv rr (Poly1305_Spec.poly rr acc (AEAD_Spec.pad16 m))
    (AEAD_Poly1305_64_poly1305_blocks_continue (T := T) st m (Z.of_nat (length m))).
Proof.
  intros Hst Hm Hl. unfold AEAD_Poly1305_64_poly1305_blocks_continue, AEAD_Poly1305_64_pad_last. cbv zeta.
  rewrite wshr_div, (Z_land_ones_lit _ 15 4) by (done || lia).
  set (n := (length m / 16)%nat). set (rem := (length m mod 16)%nat).
  assert (En : Z.of_nat (length m) / 2 ^ 4 = Z.of_nat n) by (subst n; now rewrite Nat2Z.inj_div).
  assert (Er : Z.of_nat (length m) mod 2 ^ 4 = Z.of_nat rem) by (subst rem; now rewrite Nat2Z.inj_mod).
  assert (Hnm : (length m = 16 * n + rem)%nat) by apply Nat.div_mod_eq.
  assert (Hrem : (rem < 16)%nat) by now apply Nat.mod_upper_bound.
  rewrite En, Er, !Nat2Z.id, wmul_small by lia.
  replace (Z.to_nat (16 * Z.of_nat n)) with (16 * n)%nat by lia.
  pose proof (blocks_spec n _ _ _ m Hst Hm ltac:(lia)) as Hinv.
  unfold AEAD_Spec.pad16. fold rem. destruct (Z.eqb_spec (Z.of_nat rem) 0) as [E|E]; cbn [negb].
  - assert (rem = 0%nat) as -> by lia. cbn [replicate Nat.sub Nat.modulo]. cbn. rewrite app_nil_r.
    now rewrite take_ge in Hinv by lia.
  - rewrite (Nat.mod_small (16 - rem)) by lia.
    rewrite <- (take_drop (16 * n) m) at 1. rewrite <- app_assoc.
    rewrite (poly_app _ _ n) by (rewrite length_take; lia).
    assert (Ld : length (drop (16 * n) m) = rem) by (rewrite length_drop; lia).
    rewrite poly_block by (rewrite length_app, length_replicate; lia).
    rewrite (take_ge (drop (16 * n) m)), blit_0, Ld, drop_replicate by lia.
    rewrite <- (take_ge (drop (16 * n) m ++ replicate (16 - rem) 0) 16) at 1
      by (rewrite length_app, length_replicate; lia).
    apply update_spec; [done| |rewrite length_app, length_replicate; lia].
    apply bytes_app. split; [now apply bytes_drop|now apply bytes_replicate].
Qed.

Lemma blocks_init_is_continue st m len k :
  AEAD_Poly1305_64_poly1305_blocks_init (T := T) st m len k =
  AEAD_Poly1305_64_poly1305_blocks_continue (T := T) (Hacl_Poly1305_64_init (T := T) st k) m len.
Proof. reflexivity. Qed.

Lemma blocks_finish_is_finish st lb mac key_s :
  AEAD_Poly1305_64_poly1305_blocks_finish (T := T) st lb mac key_s =
  (let st := Hacl_Impl_Poly1305_64_poly1305_update (T := T) st lb in
   Hacl_Poly1305_64_finish (T := T) {| r := r st; h := Hacl_Impl_Poly1305_64_poly1305_last_pass (h st) |} mac key_s).
Proof. reflexivity. Qed.

Lemma bytes_chacha_block key nonce ctr : bytes (Chacha20_Spec.block key nonce ctr).
Proof. apply bytes_unwords. Qed.

(** The tag over both inputs and their lengths, keyed by [b]. *)
Lemma encrypt_poly_spec c mac aad b :
  bytes c -> bytes aad -> Z.of_nat (length c) < 2 ^ 32 -> Z.of_nat (length aad) < 2 ^ 32 ->
  length mac = 16%nat -> bytes b -> length b = 64%nat ->
  Hacl_Chacha20Poly1305_aead_encrypt_poly (T := T) c (Z.of_nat (length c)) mac aad (Z.of_nat (length aad))
    (b ++ le_split 8 (Z.of_nat (length aad)) ++ le_split 8 (Z.of_nat (length c)))
  = Poly1305_Spec.mac (take 32 b) (AEAD_Spec.mac_data aad c).
Proof.
  intros Bc Ba Lc La Lm Bb Lb. unfold Hacl_Chacha20Poly1305_aead_encrypt_poly. cbv zeta.
  set (lens := le_split 8 _ ++ le_split 8 _).
  assert (Blens : bytes lens) by (apply bytes_app; auto with word).
  assert (Llens : length lens = 16%nat) by (subst lens; now rewrite length_app, !length_le_split).
  rewrite blocks_init_is_continue, blocks_finish_is_finish, drop_app_length' by done. cbv zeta.
  set (tmp := b ++ lens).
  assert (Btmp : bytes tmp) by now apply bytes_app.
  assert (Ltmp : length tmp = 80%nat) by (subst tmp; now rewrite length_app, Lb, Llens).
  pose proof (init_inv (AEAD_Poly1305_64_mk_state (slice (replicate 6 0) 0 3) (slice (replicate 6 0) 3 3)) tmp
    eq_refl eq_refl Btmp ltac:(lia)) as H0.
  pose proof (continue_spec _ _ _ aad H0 Ba La) as H1. pose proof (continue_spec _ _ _ c H1 Bc Lc) as H2.
  pose proof (update_spec _ _ _ lens H2 Blens ltac:(lia)) as H3. rewrite take_ge in H3 by lia.
  destruct (length_pad16 aad) as [na Ea], (length_pad16 c) as [nc Ec].
  rewrite <- poly_block, <- (poly_app _ _ nc), <- (poly_app _ _ na) in H3 by done.
  rewrite (finish_spec _ _ _ _ _ H3);
    [|now apply poly_range|lia|now apply bytes_drop|rewrite length_drop; lia].
  rewrite blit_0_exact by (now rewrite length_le_split). unfold Poly1305_Spec.mac, AEAD_Spec.mac_data.
  assert (E1 : slice tmp 0 16 = slice (take 32 b) 0 16).
  { unfold slice, tmp. rewrite !drop_0, take_app_le, take_take by lia. done. }
  assert (E2 : slice (drop 16 tmp) 0 16 = slice (take 32 b) 16 16).
  { unfold slice, tmp. rewrite drop_0, drop_app_le, take_app_le by (rewrite ?length_drop; lia).
    rewrite skipn_firstn_comm, take_take. done. }
  now rewrite E1, E2.
Qed.

Lemma encode_length_spec lb a c : length lb = 16%nat ->
  Hacl_Chacha20Poly1305_encode_length lb a c = le_split 8 a ++ le_split 8 c.
Proof.
  intros Hl. unfold Hacl_Chacha20Poly1305_encode_length, store64_le.
  rewrite blit_blit_at by (rewrite ?length_le_split; lia). apply blit_0_exact.
  rewrite length_app, !length_le_split. lia.
Qed.

(** The scratch buffer of both directions: key block, then lengths. *)
Lemma tmp_spec key nonce a c :
  Hacl_Chacha20_chacha20_key_block
    (at_off (replicate 80 0) 64 (fun lb => Hacl_Chacha20Poly1305_encode_length lb a c)) key nonce 0 =
  Chacha20_Spec.block key nonce 0 ++ le_split 8 a ++ le_split 8 c.
Proof.
  unfold at_off. rewrite encode_length_spec by done. change (take 64 (replicate 80 0)) with (replicate 64 0).
  rewrite chacha20_key_block_spec; [|rewrite !length_app, length_replicate; lia|done].
  rewrite blit_0, length_chacha_block, drop_app_length' by done. done.
Qed.

Lemma aead_encrypt_spec c mac m aad key nonce :
  bytes m -> bytes aad -> length c = length m -> length mac = 16%nat ->
  Z.of_nat (length m) < 2 ^ 32 -> Z.of_nat (length aad) < 2 ^ 32 ->
  Hacl_Chacha20Poly1305_aead_encrypt (T := T) c mac m (Z.of_nat (length m)) aad (Z.of_nat (length aad)) key nonce =
  (fst (AEAD_Spec.seal key nonce aad m), snd (AEAD_Spec.seal key nonce aad m), 0).
Proof.
  intros Bm Ba Lc Lm Hm Ha. unfold Hacl_Chacha20Poly1305_aead_encrypt, Hacl_Chacha20Poly1305_aead_encrypt_. cbv zeta.
  rewrite chacha20_spec, tmp_spec by (done || lia).
  rewrite blit_0_exact by (now rewrite length_chacha_encrypt, Lc). unfold AEAD_Spec.seal. cbv zeta. cbn [fst snd].
  do 2 f_equal. pose proof (encrypt_poly_spec (Chacha20_Spec.encrypt key nonce 1 m) mac aad
    (Chacha20_Spec.block key nonce 0)) as E. rewrite length_chacha_encrypt in E.
  apply E; (done || apply bytes_chacha_block || apply length_chacha_block || now apply bytes_chacha_encrypt).
Qed.

Lemma aead_decrypt_spec m c mac aad key nonce :
  bytes c -> bytes aad -> bytes mac -> length m = length c -> length mac = 16%nat ->
  Z.of_nat (length c) < 2 ^ 32 -> Z.of_nat (length aad) < 2 ^ 32 ->
  Hacl_Chacha20Poly1305_aead_decrypt (T := T) m c (Z.of_nat (length c)) mac aad (Z.of_nat (length aad)) key nonce =
  match AEAD_Spec.open key nonce aad c mac with
  | Some p => (p, 0)
  | None => (m, 1)
  end.
Proof.
  intros Bc Ba Bmac Lm Lmac Hc Ha. unfold Hacl_Chacha20Poly1305_aead_decrypt. cbv zeta.
  rewrite tmp_spec, encrypt_poly_spec by (done || apply bytes_chacha_block || apply length_chacha_block).
  fold (AEAD_Spec.tag key nonce aad c). unfold AEAD_Spec.open.
  assert (Lt : length (AEAD_Spec.tag key nonce aad c) = 16%nat) by apply length_le_split.
  rewrite cmp_bytes_spec, !take_ge by (done || lia || apply bytes_le_split).
  destruct (decide (mac = AEAD_Spec.tag key nonce aad c)) as [->|N].
  - rewrite decide_True by done. change (0 =? 0) with true. cbv iota.
    rewrite chacha20_spec by (done || lia). now rewrite blit_0_exact by (now rewrite length_chacha_encrypt, Lm).
  - rewrite decide_False by (intros E; now apply N). done.
Qed.

Lemma aead_open_seal key nonce aad m :
  AEAD_Spec.open key nonce aad (fst (AEAD_Spec.seal key nonce aad m)) (snd (AEAD_Spec.seal key nonce aad m)) = Some m.
Proof.
  unfold AEAD_Spec.open, AEAD_Spec.seal. cbv zeta. cbn [fst snd].
  now rewrite decide_True, chacha_encrypt_involutive.
Qed.
End Refinement.

(** ** Main results *)

Section Results.
Context {T : Type} {U128Ops : UInt128Ops T} {U128 : UInt128 T}.
Import Chacha20Poly1305.

(** C18: [Hacl_Chacha20Poly1305_aead_encrypt] is the ChaCha20-Poly1305
    construction of RFC 7539: it writes the ciphertext and the tag over the padded
    additional data, the padded ciphertext and the two lengths, and returns 0. *)
Theorem aead_encrypt_refines c mac m aad key nonce :
  bytes m -> bytes aad -> length c = length m -> length mac = 16%nat ->
  Z.of_nat (length m) < 2 ^ 32 -> Z.of_nat (length aad) < 2 ^ 32 ->
  Hacl_Chacha20Poly1305_aead_encrypt (T := T) c mac m (Z.of_nat (length m)) aad (Z.of_nat (length aad)) key nonce =
  (fst (AEAD_Spec.seal key nonce aad m), snd (AEAD_Spec.seal key nonce aad m), 0).
Proof. apply aead_encrypt_spec. Qed.

(** C17: [Hacl_Chacha20Poly1305_aead_decrypt] on every branch: it returns 0
    and the plain text exactly when the given tag is the right one, and otherwise
    returns 1 and leaves the output buffer as it was. *)
Theorem aead_decrypt_branches m c mac aad key nonce :
  bytes c -> bytes aad -> bytes mac -> length m = length c -> length mac = 16%nat ->
  Z.of_nat (length c) < 2 ^ 32 -> Z.of_nat (length aad) < 2 ^ 32 ->
  Hacl_Chacha20Poly1305_aead_decrypt (T := T) m c (Z.of_nat (length c)) mac aad (Z.of_nat (length aad)) key nonce =
  if decide (AEAD_Spec.tag key nonce aad c = mac) then (Chacha20_Spec.encrypt key nonce 1 c, 0) else (m, 1).
Proof. intros. rewrite aead_decrypt_spec by done. unfold AEAD_Spec.open. now case_decide. Qed.

(** C16: what [aead_encrypt] seals, [aead_decrypt] opens under the same key,
    nonce and additional data. *)
Theorem aead_roundtrip c mac m aad key nonce out :
  bytes m -> bytes aad -> length c = length m -> length mac = 16%nat -> length out = length m ->
  Z.of_nat (length m) < 2 ^ 32 -> Z.of_nat (length aad) < 2 ^ 32 ->
  let '(c', mac', r) := Hacl_Chacha20Poly1305_aead_encrypt (T := T) c mac m (Z.of_nat (length m))
                          aad (Z.of_nat (length aad)) key nonce in
  r = 0 /\
  Hacl_Chacha20Poly1305_aead_decrypt (T := T) out c' (Z.of_nat (length c')) mac' aad (Z.of_nat (length aad)) key nonce =
  (m, 0).
Proof.
  intros. rewrite aead_encrypt_spec by done. split; [done|].
  assert (L : length (fst (AEAD_Spec.seal key nonce aad m)) = length m) by apply length_chacha_encrypt.
  rewrite aead_decrypt_spec; try (done || rewrite L; done).
  - now rewrite aead_open_seal.
  - now apply bytes_chacha_encrypt.
  - apply bytes_le_split.
Qed.

End Results.

Lemma bytes_hi : bytes [104; 105].
Proof. repeat constructor; lia. Qed.

Lemma aead_encrypt_refines_witness :
  Chacha20Poly1305.Hacl_Chacha20Poly1305_aead_encrypt (T := Z) (replicate 2 0) (replicate 16 0) [104; 105] 2
    (replicate 5 1) 5 (replicate 32 2) (replicate 12 3) =
  (fst (AEAD_Spec.seal (replicate 32 2) (replicate 12 3) (replicate 5 1) [104; 105]),
   snd (AEAD_Spec.seal (replicate 32 2) (replicate 12 3) (replicate 5 1) [104; 105]), 0).
Proof.
  refine (aead_encrypt_refines (T := Z) (replicate 2 0) (replicate 16 0) [104; 105] (replicate 5 1)
            (replicate 32 2) (replicate 12 3) bytes_hi _ eq_refl eq_refl _ _);
    [now apply bytes_replicate|simpl; lia|simpl; lia].
Defined.

Lemma aead_decrypt_branches_witness :
  Chacha20Poly1305.Hacl_Chacha20Poly1305_aead_decrypt (T := Z) (replicate 2 0) [104; 105] 2 (replicate 16 0)
    (replicate 5 1) 5 (replicate 32 2) (replicate 12 3) =
  if decide (AEAD_Spec.tag (replicate 32 2) (replicate 12 3) (replicate 5 1) [104; 105] = replicate 16 0)
  then (Chacha20_Spec.encrypt (replicate 32 2) (replicate 12 3) 1 [104; 105], 0) else (replicate 2 0, 1).
Proof.
  refine (aead_decrypt_branches (T := Z) (replicate 2 0) [104; 105] (replicate 16 0) (replicate 5 1)
            (replicate 32 2) (replicate 12 3) bytes_hi _ _ eq_refl eq_refl _ _);
    [now apply bytes_replicate|now apply bytes_replicate|simpl; lia|simpl; lia].
Defined.

Lemma aead_roundtrip_witness :
  let '(c', mac', r) := Chacha20Poly1305.Hacl_Chacha20Poly1305_aead_encrypt (T := Z) (replicate 2 0) (replicate 16 0)
                          [104; 105] 2 (replicate 5 1) 5 (replicate 32 2) (replicate 12 3) in
  r = 0 /\
  Chacha20Poly1305.Hacl_Chacha20Poly1305_aead_decrypt (T := Z) (replicate 2 9) c' (Z.of_nat (length c')) mac'
    (replicate 5 1) 5 (replicate 32 2) (replicate 12 3) = ([104; 105], 0).
Proof.
  refine (aead_roundtrip (T := Z) (replicate 2 0) (replicate 16 0) [104; 105] (replicate 5 1)
            (replicate 32 2) (replicate 12 3) (replicate 2 9) bytes_hi _ eq_refl eq_refl eq_refl _ _);
    [now apply bytes_replicate|simpl; lia|simpl; lia].
Defined.
