(* ===== verification/BignumQ.v ===== *)
(** * BignumQ: scalars modulo the order of the Ed25519 base point

    The part of Hacl_Ed25519.c that computes modulo
    q = 2^252 + 27742317777372353535851937790883648493: numbers of 264 bits in
    five limbs of 56 bits (40 in the last), products and hashes of 512 bits in
    ten limbs, and Barrett reduction between them.  The proofs show that every
    result is the canonical representative modulo q and that no intermediate
    word overflows. *)

From stdpp Require Import base list numbers.
From Stdlib Require Import ZArith Lia.
From S2P Require Import Prelude Machine UInt128.

Local Open Scope Z_scope.
Local Open Scope buf_scope.

(** ** The code *)

Module BignumQ.

Definition Hacl_Lib_Create64_make_h64_5 (b : list Z) (s0 s1 s2 s3 s4 : Z) : list Z :=
  let b := b.[0 <- s0] in
  let b := b.[1 <- s1] in
  let b := b.[2 <- s2] in
  let b := b.[3 <- s3] in
  b.[4 <- s4].

Definition Hacl_Lib_Create64_make_h64_10 (b : list Z) (s0 s1 s2 s3 s4 s5 s6 s7 s8 s9 : Z) : list Z :=
  let b := b.[0 <- s0] in
  let b := b.[1 <- s1] in
  let b := b.[2 <- s2] in
  let b := b.[3 <- s3] in
  let b := b.[4 <- s4] in
  let b := b.[5 <- s5] in
  let b := b.[6 <- s6] in
  let b := b.[7 <- s7] in
  let b := b.[8 <- s8] in
  b.[9 <- s9].

(** *** Loads and stores of 56-bit limbs *)

Definition Hacl_Impl_Load56_load_64_bytes (out b : list Z) : list Z :=
  let z := load64_le b 0 in
  let b0 := (z & 0xffffffffffffff)%u64 in
  let z0 := load64_le b 7 in
  let b1 := (z0 & 0xffffffffffffff)%u64 in
  let z1 := load64_le b 14 in
  let b2 := (z1 & 0xffffffffffffff)%u64 in
  let z2 := load64_le b 21 in
  let b3 := (z2 & 0xffffffffffffff)%u64 in
  let z3 := load64_le b 28 in
  let b4 := (z3 & 0xffffffffffffff)%u64 in
  let z4 := load64_le b 35 in
  let b5 := (z4 & 0xffffffffffffff)%u64 in
  let z5 := load64_le b 42 in
  let b6 := (z5 & 0xffffffffffffff)%u64 in
  let z6 := load64_le b 49 in
  let b7 := (z6 & 0xffffffffffffff)%u64 in
  let z7 := load64_le b 56 in
  let b88 := (z7 & 0xffffffffffffff)%u64 in
  let b63 := b.[63] in
  let b9 := b63 in
  Hacl_Lib_Create64_make_h64_10 out b0 b1 b2 b3 b4 b5 b6 b7 b88 b9.

Definition Hacl_Impl_Load56_load_32_bytes (out b : list Z) : list Z :=
  let z := load64_le b 0 in
  let b0 := (z & 0xffffffffffffff)%u64 in
  let z0 := load64_le b 7 in
  let b1 := (z0 & 0xffffffffffffff)%u64 in
  let z1 := load64_le b 14 in
  let b2 := (z1 & 0xffffffffffffff)%u64 in
  let z2 := load64_le b 21 in
  let b3 := (z2 & 0xffffffffffffff)%u64 in
  let b4 := load32_le b 28 in
  let b41 := b4 in
  Hacl_Lib_Create64_make_h64_5 out b0 b1 b2 b3 b41.

Definition Hacl_Impl_Store56_store_56 (out b : list Z) : list Z :=
  let b0 := b.[0] in
  let b1 := b.[1] in
  let b2 := b.[2] in
  let b3 := b.[3] in
  let b4 := b.[4] in
  let b41 := wrap 32 b4 in
  let out := store64_le out 0 b0 in
  let out := store64_le out 7 b1 in
  let out := store64_le out 14 b2 in
  let out := store64_le out 21 b3 in
  store32_le out 28 b41.

(** The scalar of a signature is not below the order. *)
Definition Hacl_Impl_Ed25519_PointEqual_gte_q (s : list Z) : bool :=
  let s0 := s.[0] in
  let s1 := s.[1] in
  let s2 := s.[2] in
  let s3 := s.[3] in
  let s4 := s.[4] in
  if 0x00000010000000 <? s4 then true
  else if s4 <? 0x00000010000000 then false
  else if 0x00000000000000 <? s3 then true
  else if 0x000000000014de <? s2 then true
  else if s2 <? 0x000000000014de then false
  else if 0xf9dea2f79cd658 <? s1 then true
  else if s1 <? 0xf9dea2f79cd658 then false
  else if 0x12631a5cf5d3ed <=? s0 then true
  else false.

(** *** Arithmetic *)

Definition Hacl_Impl_BignumQ_Mul_make_m (m1 : list Z) : list Z :=
  Hacl_Lib_Create64_make_h64_5 m1
    0x12631a5cf5d3ed 0xf9dea2f79cd658 0x000000000014de 0x00000000000000 0x00000010000000.

Definition Hacl_Impl_BignumQ_Mul_make_mu (m1 : list Z) : list Z :=
  Hacl_Lib_Create64_make_h64_5 m1
    0x9ce5a30a2c131b 0x215d086329a7ed 0xffffffffeb2106 0xffffffffffffff 0x00000fffffffff.

Definition Hacl_Impl_BignumQ_Mul_choose (z x y : list Z) (b : Z) : list Z :=
  let mask := (b - 1)%u64 in
  let x0 := x.[0] in
  let x1 := x.[1] in
  let x2 := x.[2] in
  let x3 := x.[3] in
  let x4 := x.[4] in
  let y0 := y.[0] in
  let y1 := y.[1] in
  let y2 := y.[2] in
  let y3 := y.[3] in
  let y4 := y.[4] in
  let z0 := (((y0 ^^ x0) & mask) ^^ x0)%u64 in
  let z1 := (((y1 ^^ x1) & mask) ^^ x1)%u64 in
  let z2 := (((y2 ^^ x2) & mask) ^^ x2)%u64 in
  let z3 := (((y3 ^^ x3) & mask) ^^ x3)%u64 in
  let z4 := (((y4 ^^ x4) & mask) ^^ x4)%u64 in
  Hacl_Lib_Create64_make_h64_5 z z0 z1 z2 z3 z4.

Definition Hacl_Impl_BignumQ_Mul_lt (a b : Z) : Z := ((a - b) >> 63)%u64.

Definition Hacl_Impl_BignumQ_Mul_shiftl_56 (b : Z) : Z := (b << 56)%u64.

Definition Hacl_Impl_BignumQ_Mul_sub_mod_264 (z x y : list Z) : list Z :=
  let x0 := x.[0] in
  let x1 := x.[1] in
  let x2 := x.[2] in
  let x3 := x.[3] in
  let x4 := x.[4] in
  let y0 := y.[0] in
  let y1 := y.[1] in
  let y2 := y.[2] in
  let y3 := y.[3] in
  let y4 := y.[4] in
  let b := Hacl_Impl_BignumQ_Mul_lt x0 y0 in
  let t0 := (Hacl_Impl_BignumQ_Mul_shiftl_56 b + x0 - y0)%u64 in
  let y11 := (y1 + b)%u64 in
  let b1 := Hacl_Impl_BignumQ_Mul_lt x1 y11 in
  let t1 := (Hacl_Impl_BignumQ_Mul_shiftl_56 b1 + x1 - y11)%u64 in
  let y21 := (y2 + b1)%u64 in
  let b2 := Hacl_Impl_BignumQ_Mul_lt x2 y21 in
  let t2 := (Hacl_Impl_BignumQ_Mul_shiftl_56 b2 + x2 - y21)%u64 in
  let y31 := (y3 + b2)%u64 in
  let b3 := Hacl_Impl_BignumQ_Mul_lt x3 y31 in
  let t3 := (Hacl_Impl_BignumQ_Mul_shiftl_56 b3 + x3 - y31)%u64 in
  let y41 := (y4 + b3)%u64 in
  let b4 := Hacl_Impl_BignumQ_Mul_lt x4 y41 in
  let t4 := ((b4 << 40) + x4 - y41)%u64 in
  Hacl_Lib_Create64_make_h64_5 z t0 t1 t2 t3 t4.

Definition Hacl_Impl_BignumQ_Mul_subm_conditional (z x : list Z) : list Z :=
  let tmp := replicate 5 0 in
  let x0 := x.[0] in
  let x1 := x.[1] in
  let x2 := x.[2] in
  let x3 := x.[3] in
  let x4 := x.[4] in
  let tmp := Hacl_Lib_Create64_make_h64_5 tmp x0 x1 x2 x3 x4 in
  let y0 := 0x12631a5cf5d3ed in
  let y1 := 0xf9dea2f79cd658 in
  let y2 := 0x000000000014de in
  let y3 := 0x00000000000000 in
  let y4 := 0x00000010000000 in
  let b := Hacl_Impl_BignumQ_Mul_lt x0 y0 in
  let t0 := (Hacl_Impl_BignumQ_Mul_shiftl_56 b + x0 - y0)%u64 in
  let y11 := (y1 + b)%u64 in
  let b1 := Hacl_Impl_BignumQ_Mul_lt x1 y11 in
  let t1 := (Hacl_Impl_BignumQ_Mul_shiftl_56 b1 + x1 - y11)%u64 in
  let y21 := (y2 + b1)%u64 in
  let b2 := Hacl_Impl_BignumQ_Mul_lt x2 y21 in
  let t2 := (Hacl_Impl_BignumQ_Mul_shiftl_56 b2 + x2 - y21)%u64 in
  let y31 := (y3 + b2)%u64 in
  let b3 := Hacl_Impl_BignumQ_Mul_lt x3 y31 in
  let t3 := (Hacl_Impl_BignumQ_Mul_shiftl_56 b3 + x3 - y31)%u64 in
  let y41 := (y4 + b3)%u64 in
  let b4 := Hacl_Impl_BignumQ_Mul_lt x4 y41 in
  let t4 := (Hacl_Impl_BignumQ_Mul_shiftl_56 b4 + x4 - y41)%u64 in
  let z := Hacl_Lib_Create64_make_h64_5 z t0 t1 t2 t3 t4 in
  Hacl_Impl_BignumQ_Mul_choose z tmp z b4.

Definition Hacl_Impl_BignumQ_Mul_mod_264 (r t : list Z) : list Z :=
  let x0 := t.[0] in
  let x1 := t.[1] in
  let x2 := t.[2] in
  let x3 := t.[3] in
  let x4 := t.[4] in
  let x4_ := (x4 & 0xffffffffff)%u64 in
  Hacl_Lib_Create64_make_h64_5 r x0 x1 x2 x3 x4_.

Definition Hacl_Impl_BignumQ_Mul_div_248 (out t : list Z) : list Z :=
  let x4 := t.[4] in
  let x5 := t.[5] in
  let x6 := t.[6] in
  let x7 := t.[7] in
  let x8 := t.[8] in
  let x9 := t.[9] in
  let z0 := (((x5 & 0xffffff) << 32) .| (x4 >> 24))%u64 in
  let z1 := (((x6 & 0xffffff) << 32) .| (x5 >> 24))%u64 in
  let z2 := (((x7 & 0xffffff) << 32) .| (x6 >> 24))%u64 in
  let z3 := (((x8 & 0xffffff) << 32) .| (x7 >> 24))%u64 in
  let z4 := (((x9 & 0xffffff) << 32) .| (x8 >> 24))%u64 in
  Hacl_Lib_Create64_make_h64_5 out z0 z1 z2 z3 z4.

Definition Hacl_Impl_BignumQ_Mul_div_264 (out t : list Z) : list Z :=
  let x4 := t.[4] in
  let x5 := t.[5] in
  let x6 := t.[6] in
  let x7 := t.[7] in
  let x8 := t.[8] in
  let x9 := t.[9] in
  let z0 := (((x5 & 0xffffffffff) << 16) .| (x4 >> 40))%u64 in
  let z1 := (((x6 & 0xffffffffff) << 16) .| (x5 >> 40))%u64 in
  let z2 := (((x7 & 0xffffffffff) << 16) .| (x6 >> 40))%u64 in
  let z3 := (((x8 & 0xffffffffff) << 16) .| (x7 >> 40))%u64 in
  let z4 := (((x9 & 0xffffffffff) << 16) .| (x8 >> 40))%u64 in
  Hacl_Lib_Create64_make_h64_5 out z0 z1 z2 z3 z4.

Definition Hacl_Impl_BignumQ_Mul_add_modq_ (out x y : list Z) : list Z :=
  let tmp := replicate 5 0 in
  let x0 := x.[0] in
  let x1 := x.[1] in
  let x2 := x.[2] in
  let x3 := x.[3] in
  let x4 := x.[4] in
  let y0 := y.[0] in
  let y1 := y.[1] in
  let y2 := y.[2] in
  let y3 := y.[3] in
  let y4 := y.[4] in
  let z0 := (x0 + y0)%u64 in
  let z1 := (x1 + y1)%u64 in
  let z2 := (x2 + y2)%u64 in
  let z3 := (x3 + y3)%u64 in
  let z4 := (x4 + y4)%u64 in
  let carry1 := (z0 >> 56)%u64 in
  let x01 := (z0 & 0xffffffffffffff)%u64 in
  let z1_ := (z1 + carry1)%u64 in
  let carry2 := (z1_ >> 56)%u64 in
  let x11 := (z1_ & 0xffffffffffffff)%u64 in
  let z2_ := (z2 + carry2)%u64 in
  let carry3 := (z2_ >> 56)%u64 in
  let x21 := (z2_ & 0xffffffffffffff)%u64 in
  let z3_ := (z3 + carry3)%u64 in
  let carry4 := (z3_ >> 56)%u64 in
  let x31 := (z3_ & 0xffffffffffffff)%u64 in
  let x41 := (z4 + carry4)%u64 in
  let tmp := Hacl_Lib_Create64_make_h64_5 tmp x01 x11 x21 x31 x41 in
  Hacl_Impl_BignumQ_Mul_subm_conditional out tmp.

Definition Hacl_Impl_BignumQ_Mul_add_modq (out x y : list Z) : list Z :=
  Hacl_Impl_BignumQ_Mul_add_modq_ out x y.

Section Wide.
Context {T : Type} {U128Ops : UInt128Ops T}.

Definition Hacl_Lib_Create128_make_h128_9 (b : list T) (s0 s1 s2 s3 s4 s5 s6 s7 s8 : T) : list T :=
  let b := b.[0 <- s0] in
  let b := b.[1 <- s1] in
  let b := b.[2 <- s2] in
  let b := b.[3 <- s3] in
  let b := b.[4 <- s4] in
  let b := b.[5 <- s5] in
  let b := b.[6 <- s6] in
  let b := b.[7 <- s7] in
  b.[8 <- s8].

Definition Hacl_Impl_BignumQ_Mul_low_mul_5 (z x y : list Z) : list Z :=
  let x0 := x.[0] in
  let x1 := x.[1] in
  let x2 := x.[2] in
  let x3 := x.[3] in
  let x4 := x.[4] in
  let y0 := y.[0] in
  let y1 := y.[1] in
  let y2 := y.[2] in
  let y3 := y.[3] in
  let y4 := y.[4] in
  let xy00 : T := u128_mul_wide x0 y0 in
  let xy01 : T := u128_mul_wide x0 y1 in
  let xy02 : T := u128_mul_wide x0 y2 in
  let xy03 : T := u128_mul_wide x0 y3 in
  let xy04 : T := u128_mul_wide x0 y4 in
  let xy10 : T := u128_mul_wide x1 y0 in
  let xy11 : T := u128_mul_wide x1 y1 in
  let xy12 : T := u128_mul_wide x1 y2 in
  let xy13 : T := u128_mul_wide x1 y3 in
  let xy20 : T := u128_mul_wide x2 y0 in
  let xy21 : T := u128_mul_wide x2 y1 in
  let xy22 : T := u128_mul_wide x2 y2 in
  let xy30 : T := u128_mul_wide x3 y0 in
  let xy31 : T := u128_mul_wide x3 y1 in
  let xy40 : T := u128_mul_wide x4 y0 in
  let x5 := xy00 in
  let carry1 := u128_shift_right x5 56 in
  let t0 := (u128_to_u64 x5 & 0xffffffffffffff)%u64 in
  let x6 := u128_add (u128_add xy01 xy10) carry1 in
  let carry2 := u128_shift_right x6 56 in
  let t11 := (u128_to_u64 x6 & 0xffffffffffffff)%u64 in
  let x7 := u128_add (u128_add (u128_add xy02 xy11) xy20) carry2 in
  let carry3 := u128_shift_right x7 56 in
  let t21 := (u128_to_u64 x7 & 0xffffffffffffff)%u64 in
  let x8 := u128_add (u128_add (u128_add (u128_add xy03 xy12) xy21) xy30) carry3 in
  let carry4 := u128_shift_right x8 56 in
  let t31 := (u128_to_u64 x8 & 0xffffffffffffff)%u64 in
  let t4 := (u128_to_u64 (u128_add (u128_add (u128_add (u128_add (u128_add xy04 xy13) xy22) xy31) xy40) carry4)
             & 0xffffffffff)%u64 in
  Hacl_Lib_Create64_make_h64_5 z t0 t11 t21 t31 t4.

Definition Hacl_Impl_BignumQ_Mul_mul_5 (z : list T) (x y : list Z) : list T :=
  let x0 := x.[0] in
  let x1 := x.[1] in
  let x2 := x.[2] in
  let x3 := x.[3] in
  let x4 := x.[4] in
  let y0 := y.[0] in
  let y1 := y.[1] in
  let y2 := y.[2] in
  let y3 := y.[3] in
  let y4 := y.[4] in
  let xy00 := u128_mul_wide x0 y0 in
  let xy01 := u128_mul_wide x0 y1 in
  let xy02 := u128_mul_wide x0 y2 in
  let xy03 := u128_mul_wide x0 y3 in
  let xy04 := u128_mul_wide x0 y4 in
  let xy10 := u128_mul_wide x1 y0 in
  let xy11 := u128_mul_wide x1 y1 in
  let xy12 := u128_mul_wide x1 y2 in
  let xy13 := u128_mul_wide x1 y3 in
  let xy14 := u128_mul_wide x1 y4 in
  let xy20 := u128_mul_wide x2 y0 in
  let xy21 := u128_mul_wide x2 y1 in
  let xy22 := u128_mul_wide x2 y2 in
  let xy23 := u128_mul_wide x2 y3 in
  let xy24 := u128_mul_wide x2 y4 in
  let xy30 := u128_mul_wide x3 y0 in
  let xy31 := u128_mul_wide x3 y1 in
  let xy32 := u128_mul_wide x3 y2 in
  let xy33 := u128_mul_wide x3 y3 in
  let xy34 := u128_mul_wide x3 y4 in
  let xy40 := u128_mul_wide x4 y0 in
  let xy41 := u128_mul_wide x4 y1 in
  let xy42 := u128_mul_wide x4 y2 in
  let xy43 := u128_mul_wide x4 y3 in
  let xy44 := u128_mul_wide x4 y4 in
  let z0 := xy00 in
  let z1 := u128_add xy01 xy10 in
  let z2 := u128_add (u128_add xy02 xy11) xy20 in
  let z3 := u128_add (u128_add (u128_add xy03 xy12) xy21) xy30 in
  let z4 := u128_add (u128_add (u128_add (u128_add xy04 xy13) xy22) xy31) xy40 in
  let z5 := u128_add (u128_add (u128_add xy14 xy23) xy32) xy41 in
  let z6 := u128_add (u128_add xy24 xy33) xy42 in
  let z7 := u128_add xy34 xy43 in
  let z8 := xy44 in
  Hacl_Lib_Create128_make_h128_9 z z0 z1 z2 z3 z4 z5 z6 z7 z8.

Definition Hacl_Impl_BignumQ_Mul_carry (out : list Z) (z : list T) : list Z :=
  let z0 := z.[0] in
  let z1 := z.[1] in
  let z2 := z.[2] in
  let z3 := z.[3] in
  let z4 := z.[4] in
  let z5 := z.[5] in
  let z6 := z.[6] in
  let z7 := z.[7] in
  let z8 := z.[8] in
  let carry1 := u128_shift_right z0 56 in
  let x0 := (u128_to_u64 z0 & 0xffffffffffffff)%u64 in
  let z1_ := u128_add z1 carry1 in
  let carry2 := u128_shift_right z1_ 56 in
  let x11 := (u128_to_u64 z1_ & 0xffffffffffffff)%u64 in
  let z2_ := u128_add z2 carry2 in
  let carry3 := u128_shift_right z2_ 56 in
  let x21 := (u128_to_u64 z2_ & 0xffffffffffffff)%u64 in
  let z3_ := u128_add z3 carry3 in
  let carry4 := u128_shift_right z3_ 56 in
  let x31 := (u128_to_u64 z3_ & 0xffffffffffffff)%u64 in
  let z4_ := u128_add z4 carry4 in
  let carry5 := u128_shift_right z4_ 56 in
  let x41 := (u128_to_u64 z4_ & 0xffffffffffffff)%u64 in
  let z5_ := u128_add z5 carry5 in
  let carry6 := u128_shift_right z5_ 56 in
  let x51 := (u128_to_u64 z5_ & 0xffffffffffffff)%u64 in
  let z6_ := u128_add z6 carry6 in
  let carry7 := u128_shift_right z6_ 56 in
  let x61 := (u128_to_u64 z6_ & 0xffffffffffffff)%u64 in
  let z7_ := u128_add z7 carry7 in
  let carry8 := u128_shift_right z7_ 56 in
  let x71 := (u128_to_u64 z7_ & 0xffffffffffffff)%u64 in
  let z8_ := u128_add z8 carry8 in
  let y8 := u128_of_u64 0 in
  let carry9 := u128_shift_right z8_ 56 in
  let x81 := (u128_to_u64 z8_ & 0xffffffffffffff)%u64 in
  let z9_ := u128_add y8 carry9 in
  let x9 := u128_to_u64 z9_ in
  Hacl_Lib_Create64_make_h64_10 out x0 x11 x21 x31 x41 x51 x61 x71 x81 x9.

(** The scratch array [tmp] of thirty words: [q1] and later [qmul] at 0, [r]
    at 5, [qmu_] at 10, [qmu_264] at 20, [s] at 25. *)
Definition Hacl_Impl_BignumQ_Mul_barrett_reduction__1 (qmu : list T) (t mu1 tmp : list Z) : list T * list Z :=
  let q1 := slice tmp 0 5 in
  let qmu_ := slice tmp 10 10 in
  let qmu_264 := slice tmp 20 5 in
  let q1 := Hacl_Impl_BignumQ_Mul_div_248 q1 t in
  let qmu := Hacl_Impl_BignumQ_Mul_mul_5 qmu q1 mu1 in
  let qmu_ := Hacl_Impl_BignumQ_Mul_carry qmu_ qmu in
  let qmu_264 := Hacl_Impl_BignumQ_Mul_div_264 qmu_264 qmu_ in
  (qmu, q1 ++ slice tmp 5 5 ++ qmu_ ++ qmu_264 ++ drop 25 tmp).

Definition Hacl_Impl_BignumQ_Mul_barrett_reduction__2 (t m1 tmp : list Z) : list Z :=
  let qmul := slice tmp 0 5 in
  let r := slice tmp 5 5 in
  let qmu_264 := slice tmp 20 5 in
  let s := slice tmp 25 5 in
  let r := Hacl_Impl_BignumQ_Mul_mod_264 r t in
  let qmul := Hacl_Impl_BignumQ_Mul_low_mul_5 qmul qmu_264 m1 in
  let s := Hacl_Impl_BignumQ_Mul_sub_mod_264 s r qmul in
  qmul ++ r ++ slice tmp 10 10 ++ qmu_264 ++ s.

Definition Hacl_Impl_BignumQ_Mul_barrett_reduction__ (z t m1 mu1 tmp : list Z) : list Z :=
  let qmu := replicate 9 (u128_of_u64 0) in
  let '(qmu, tmp) := Hacl_Impl_BignumQ_Mul_barrett_reduction__1 qmu t mu1 tmp in
  let tmp := Hacl_Impl_BignumQ_Mul_barrett_reduction__2 t m1 tmp in
  let s := slice tmp 25 5 in
  Hacl_Impl_BignumQ_Mul_subm_conditional z s.

Definition Hacl_Impl_BignumQ_Mul_barrett_reduction_ (z t : list Z) : list Z :=
  let tmp := replicate 40 0 in
  let m1 := slice tmp 0 5 in
  let mu1 := slice tmp 5 5 in
  let tmp1 := slice tmp 10 30 in
  let m1 := Hacl_Impl_BignumQ_Mul_make_m m1 in
  let mu1 := Hacl_Impl_BignumQ_Mul_make_mu mu1 in
  Hacl_Impl_BignumQ_Mul_barrett_reduction__ z t m1 mu1 tmp1.

Definition Hacl_Impl_BignumQ_Mul_barrett_reduction (z t : list Z) : list Z :=
  Hacl_Impl_BignumQ_Mul_barrett_reduction_ z t.

Definition Hacl_Impl_BignumQ_Mul_mul_modq (out x y : list Z) : list Z :=
  let z_ := replicate 10 0 in
  let z := replicate 9 (u128_of_u64 0) in
  let z := Hacl_Impl_BignumQ_Mul_mul_5 z x y in
  let z_ := Hacl_Impl_BignumQ_Mul_carry z_ z in
  Hacl_Impl_BignumQ_Mul_barrett_reduction_ out z_.

End Wide.
End BignumQ.

(** ** Numbers as limbs of 56 bits *)

Definition order : Z := 2 ^ 252 + 27742317777372353535851937790883648493.

Definition val5 (a0 a1 a2 a3 a4 : Z) : Z := a0 + 2 ^ 56 * a1 + 2 ^ 112 * a2 + 2 ^ 168 * a3 + 2 ^ 224 * a4.

Definition limb (a : Z) : Prop := 0 <= a < 2 ^ 56.

(** [scal n l]: the five limbs [l] represent [n]. *)
Definition scal (n : Z) (l : list Z) : Prop :=
  exists a0 a1 a2 a3 a4, l = [a0; a1; a2; a3; a4] /\ limb a0 /\ limb a1 /\ limb a2 /\ limb a3 /\ limb a4 /\
    n = val5 a0 a1 a2 a3 a4.

(** [wide n l]: the ten limbs [l] represent [n]. *)
Definition wide (n : Z) (l : list Z) : Prop :=
  exists a0 a1 a2 a3 a4 a5 a6 a7 a8 a9, l = [a0; a1; a2; a3; a4; a5; a6; a7; a8; a9] /\
    limb a0 /\ limb a1 /\ limb a2 /\ limb a3 /\ limb a4 /\ limb a5 /\ limb a6 /\ limb a7 /\ limb a8 /\ limb a9 /\
    n = val5 a0 a1 a2 a3 a4 + 2 ^ 280 * val5 a5 a6 a7 a8 a9.

Lemma scal_length n l : scal n l -> length l = 5%nat.
Proof. now intros (a0 & a1 & a2 & a3 & a4 & -> & _). Qed.

Lemma scal_nonneg n l : scal n l -> 0 <= n.
Proof. intros (a0 & a1 & a2 & a3 & a4 & _ & B0 & B1 & B2 & B3 & B4 & ->). unfold val5, limb in *. lia. Qed.

Lemma make_5 b s0 s1 s2 s3 s4 : length b = 5%nat ->
  BignumQ.Hacl_Lib_Create64_make_h64_5 b s0 s1 s2 s3 s4 = [s0; s1; s2; s3; s4].
Proof. intros Hb. destruct_list b. reflexivity. Qed.

Lemma make_10 b s0 s1 s2 s3 s4 s5 s6 s7 s8 s9 : length b = 10%nat ->
  BignumQ.Hacl_Lib_Create64_make_h64_10 b s0 s1 s2 s3 s4 s5 s6 s7 s8 s9 = [s0; s1; s2; s3; s4; s5; s6; s7; s8; s9].
Proof. intros Hb. destruct_list b. reflexivity. Qed.

Lemma mask56 x : Z.land x 0xffffffffffffff = x mod 2 ^ 56.
Proof. now apply Z_land_ones_lit. Qed.

Section Scalars.
Import BignumQ.

(** ** Subtraction with borrow *)

(** One limb of the subtraction, of [w] bits. *)
Lemma borrow_step w x y : 0 < w <= 62 -> 0 <= x < 2 ^ w -> 0 <= y <= 2 ^ w ->
  Hacl_Impl_BignumQ_Mul_lt x y = - ((x - y) / 2 ^ w) /\
  wsub 64 (wadd 64 (wshl 64 (Hacl_Impl_BignumQ_Mul_lt x y) w) x) y = (x - y) mod 2 ^ w /\
  0 <= - ((x - y) / 2 ^ w) <= 1.
Proof.
  intros Hw Hx Hy. unfold Hacl_Impl_BignumQ_Mul_lt.
  assert (Hp : 0 < 2 ^ w) by (apply Z.pow_pos_nonneg; lia).
  assert (Hp' : 2 ^ w <= 2 ^ 62) by (apply Z.pow_le_mono_r; lia).
  rewrite wshr_div by lia. unfold wsub at 1 3. unfold wrap. destruct (Z.lt_ge_cases x y) as [Hlt|Hge].
  - assert (E : (x - y) mod 2 ^ 64 = x - y + 2 ^ 64) by (symmetry; apply Z.mod_unique_pos with (q := -1); lia).
    assert (E1 : (x - y) mod 2 ^ 64 / 2 ^ 63 = 1) by (rewrite E; symmetry; apply Z.div_unique_pos with (r := x - y + 2 ^ 63); lia).
    assert (E2 : (x - y) / 2 ^ w = -1) by (symmetry; apply Z.div_unique_pos with (r := x - y + 2 ^ w); lia).
    assert (E3 : (x - y) mod 2 ^ w = x - y + 2 ^ w) by (symmetry; apply Z.mod_unique_pos with (q := -1); lia).
    rewrite E1, E2, E3. split; [lia|]. split; [|lia]. rewrite wshl_small, wadd_small, wsub_small by lia. lia.
  - assert (E1 : (x - y) mod 2 ^ 64 / 2 ^ 63 = 0).
    { rewrite Z.mod_small by lia. apply Z.div_small. lia. }
    assert (E2 : (x - y) / 2 ^ w = 0) by (apply Z.div_small; lia).
    assert (E3 : (x - y) mod 2 ^ w = x - y) by (apply Z.mod_small; lia).
    rewrite E1, E2, E3. split; [lia|]. split; [|lia]. rewrite wshl_small, wadd_small, wsub_small by lia. lia.
Qed.

Definition borrow (w x y b t : Z) : Prop :=
  b = Hacl_Impl_BignumQ_Mul_lt x y /\ t = wsub 64 (wadd 64 (wshl 64 b w) x) y.

Lemma borrow_spec w x y b t : 0 < w <= 62 -> 0 <= x < 2 ^ w -> 0 <= y <= 2 ^ w -> borrow w x y b t ->
  0 <= b <= 1 /\ 0 <= t < 2 ^ w /\ t = x - y + 2 ^ w * b.
Proof.
  intros Hw Hx Hy [-> ->]. destruct (borrow_step w x y Hw Hx Hy) as (-> & -> & B).
  assert (Hp : 0 < 2 ^ w) by (apply Z.pow_pos_nonneg; lia).
  pose proof (Z.mod_pos_bound (x - y) (2 ^ w) Hp). split; [exact B|]. split; [lia|].
  pose proof (Z.div_mod (x - y) (2 ^ w) ltac:(lia)). lia.
Qed.

(** The chain of five, the last limb of [w] bits: the difference modulo
    2^(224 + w), and whether it was negative. *)
Definition sub5 (w x0 x1 x2 x3 x4 y0 y1 y2 y3 y4 b4 t0 t1 t2 t3 t4 : Z) : Prop :=
  exists b0 b1 b2 b3, borrow 56 x0 y0 b0 t0 /\ borrow 56 x1 (wadd 64 y1 b0) b1 t1 /\
    borrow 56 x2 (wadd 64 y2 b1) b2 t2 /\ borrow 56 x3 (wadd 64 y3 b2) b3 t3 /\ borrow w x4 (wadd 64 y4 b3) b4 t4.

Lemma sub5_spec w x0 x1 x2 x3 x4 y0 y1 y2 y3 y4 b4 t0 t1 t2 t3 t4 : 0 < w <= 56 ->
  limb x0 -> limb x1 -> limb x2 -> limb x3 -> 0 <= x4 < 2 ^ w ->
  limb y0 -> limb y1 -> limb y2 -> limb y3 -> 0 <= y4 < 2 ^ w ->
  sub5 w x0 x1 x2 x3 x4 y0 y1 y2 y3 y4 b4 t0 t1 t2 t3 t4 ->
  limb t0 /\ limb t1 /\ limb t2 /\ limb t3 /\ 0 <= t4 < 2 ^ w /\
  b4 = (if val5 x0 x1 x2 x3 x4 <? val5 y0 y1 y2 y3 y4 then 1 else 0) /\
  val5 t0 t1 t2 t3 t4 = val5 x0 x1 x2 x3 x4 - val5 y0 y1 y2 y3 y4 + 2 ^ 224 * (2 ^ w * b4).
Proof.
  unfold limb. intros Hw X0 X1 X2 X3 X4 Y0 Y1 Y2 Y3 Y4 (b0 & b1 & b2 & b3 & H0 & H1 & H2 & H3 & H4).
  assert (Hp' : 2 ^ w <= 2 ^ 56) by (apply Z.pow_le_mono_r; lia).
  apply borrow_spec in H0 as (B0 & T0 & E0); [|lia..]. rewrite wadd_small in H1 by lia.
  apply borrow_spec in H1 as (B1 & T1 & E1); [|lia..]. rewrite wadd_small in H2 by lia.
  apply borrow_spec in H2 as (B2 & T2 & E2); [|lia..]. rewrite wadd_small in H3 by lia.
  apply borrow_spec in H3 as (B3 & T3 & E3); [|lia..]. rewrite wadd_small in H4 by lia.
  apply borrow_spec in H4 as (B4 & T4 & E4); [|lia..].
  set (W := 2 ^ w) in *. clearbody W. unfold val5.
  split_and!; [lia..| |lia].
  assert (Hb : b4 = 0 \/ b4 = 1) by lia. clear B4.
  destruct Hb as [-> | ->]; symmetry.
  - destruct (Z.ltb_spec (x0 + 2 ^ 56 * x1 + 2 ^ 112 * x2 + 2 ^ 168 * x3 + 2 ^ 224 * x4)
      (y0 + 2 ^ 56 * y1 + 2 ^ 112 * y2 + 2 ^ 168 * y3 + 2 ^ 224 * y4)); lia.
  - destruct (Z.ltb_spec (x0 + 2 ^ 56 * x1 + 2 ^ 112 * x2 + 2 ^ 168 * x3 + 2 ^ 224 * x4)
      (y0 + 2 ^ 56 * y1 + 2 ^ 112 * y2 + 2 ^ 168 * y3 + 2 ^ 224 * y4)); lia.
Qed.

(** Choosing one of two numbers without a branch. *)
Lemma choose_word x y (b : bool) : word 64 x -> word 64 y ->
  Z.lxor (Z.land (Z.lxor y x) (wsub 64 (if b then 1 else 0) 1)) x = if b then x else y.
Proof.
  intros Hx Hy. assert (E : wsub 64 (if b then 1 else 0) 1 = mask 64 (negb b)) by now destruct b.
  rewrite E, land_mask by (lia || (apply word_lxor; lia || done)). destruct b; cbn [negb].
  - apply Z.lxor_0_l.
  - now rewrite Z.lxor_assoc, Z.lxor_nilpotent, Z.lxor_0_r.
Qed.

Lemma choose_spec z x y X Y (b : bool) : length z = 5%nat -> scal X x -> scal Y y ->
  Hacl_Impl_BignumQ_Mul_choose z x y (if b then 1 else 0) = if b then x else y.
Proof.
  intros Hz (x0 & x1 & x2 & x3 & x4 & -> & X0 & X1 & X2 & X3 & X4 & _) (y0 & y1 & y2 & y3 & y4 & -> & Y0 & Y1 & Y2 & Y3 & Y4 & _).
  unfold Hacl_Impl_BignumQ_Mul_choose. buf_simpl. rewrite make_5 by done. unfold limb in *.
  rewrite !choose_word by (unfold word; lia). now destruct b.
Qed.

Lemma order_val : order = val5 0x12631a5cf5d3ed 0xf9dea2f79cd658 0x000000000014de 0x00000000000000 0x00000010000000.
Proof. reflexivity. Qed.

Lemma subm_conditional_spec z x X : length z = 5%nat -> scal X x -> X < 2 * order ->
  scal (X mod order) (Hacl_Impl_BignumQ_Mul_subm_conditional z x).
Proof.
  intros Hz Hx HX. pose proof Hx as (x0 & x1 & x2 & x3 & x4 & -> & X0 & X1 & X2 & X3 & X4 & EX).
  unfold Hacl_Impl_BignumQ_Mul_subm_conditional. buf_simpl. unfold Hacl_Impl_BignumQ_Mul_shiftl_56.
  rewrite !make_5 by done. cbv zeta.
  match goal with |- context [Hacl_Impl_BignumQ_Mul_choose _ _ [?a0; ?a1; ?a2; ?a3; ?a4] ?b] =>
    assert (HS : sub5 56 x0 x1 x2 x3 x4 0x12631a5cf5d3ed 0xf9dea2f79cd658 0x000000000014de 0x00000000000000 0x00000010000000
      b a0 a1 a2 a3 a4) by (do 4 eexists; split_and!; split; reflexivity);
    revert HS; generalize b, a0, a1, a2, a3, a4
  end.
  intros b t0 t1 t2 t3 t4 HS. apply sub5_spec in HS as (T0 & T1 & T2 & T3 & T4 & Eb & ET); try (done || (unfold limb; lia)).
  rewrite <- order_val, <- EX in *.
  assert (HX0 : 0 <= X) by (eapply scal_nonneg; eassumption).
  assert (Ht : scal (val5 t0 t1 t2 t3 t4) [t0; t1; t2; t3; t4]) by (exists t0, t1, t2, t3, t4; now split_and!).
  subst b. destruct (Z.ltb_spec X order) as [Hlt|Hge].
  - rewrite (choose_spec _ _ _ X _ true), Z.mod_small by (done || lia). exact Hx.
  - rewrite (choose_spec _ _ _ X _ false) by done.
    replace (X mod order) with (val5 t0 t1 t2 t3 t4); [exact Ht|]. rewrite ET. apply Z.mod_unique_pos with (q := 1); lia.
Qed.

(** ** Addition *)

Lemma add_modq_spec out x y X Y : length out = 5%nat -> scal X x -> scal Y y -> X < order -> Y < order ->
  scal ((X + Y) mod order) (Hacl_Impl_BignumQ_Mul_add_modq out x y).
Proof.
  intros Ho (x0 & x1 & x2 & x3 & x4 & -> & X0 & X1 & X2 & X3 & X4 & EX) (y0 & y1 & y2 & y3 & y4 & -> & Y0 & Y1 & Y2 & Y3 & Y4 & EY) HX HY.
  unfold Hacl_Impl_BignumQ_Mul_add_modq, Hacl_Impl_BignumQ_Mul_add_modq_. buf_simpl. unfold limb in *.
  rewrite make_5, !mask56 by done. rewrite !(wadd_small 64 _ y0), !(wadd_small 64 _ y1), !(wadd_small 64 _ y2),
    !(wadd_small 64 _ y3), !(wadd_small 64 _ y4) by lia.
  rewrite (wshr_div (x0 + y0)) by lia. set (c0 := (x0 + y0) / 2 ^ 56).
  assert (B0 : 0 <= c0 <= 1) by (subst c0; Z.div_mod_to_equations; lia).
  rewrite (wadd_small 64 _ c0), (wshr_div (x1 + y1 + c0)) by lia. set (c1 := (x1 + y1 + c0) / 2 ^ 56).
  assert (B1 : 0 <= c1 <= 1) by (subst c1; clearbody c0; Z.div_mod_to_equations; lia).
  rewrite (wadd_small 64 _ c1), (wshr_div (x2 + y2 + c1)) by lia. set (c2 := (x2 + y2 + c1) / 2 ^ 56).
  assert (B2 : 0 <= c2 <= 1) by (subst c2; clearbody c1; Z.div_mod_to_equations; lia).
  rewrite (wadd_small 64 _ c2), (wshr_div (x3 + y3 + c2)) by lia. set (c3 := (x3 + y3 + c2) / 2 ^ 56).
  assert (B3 : 0 <= c3 <= 1) by (subst c3; clearbody c2; Z.div_mod_to_equations; lia).
  rewrite (wadd_small 64 _ c3) by lia.
  apply subm_conditional_spec; [done| |lia].
  eexists _, _, _, _, _. split; [reflexivity|].
  assert (M : forall v, v mod 2 ^ 56 = v - 2 ^ 56 * (v / 2 ^ 56)) by (intros v; pose proof (Z.div_mod v (2 ^ 56) ltac:(lia)); lia).
  assert (EV : X + Y = val5 ((x0 + y0) mod 2 ^ 56) ((x1 + y1 + c0) mod 2 ^ 56) ((x2 + y2 + c1) mod 2 ^ 56)
    ((x3 + y3 + c2) mod 2 ^ 56) (x4 + y4 + c3)).
  { rewrite !M. fold c0 c1 c2 c3. unfold val5 in *. lia. }
  unfold limb. unfold order, val5 in *. split_and!; try (apply Z.mod_pos_bound; lia); lia.
Qed.

(** ** Shifts *)

Lemma mask24 x : Z.land x 0xffffff = x mod 2 ^ 24.
Proof. now apply Z_land_ones_lit. Qed.
Lemma mask40 x : Z.land x 0xffffffffff = x mod 2 ^ 40.
Proof. now apply Z_land_ones_lit. Qed.

Lemma join_24 hi lo : limb lo -> Z.lor (wshl 64 (Z.land hi 0xffffff) 32) (wshr lo 24) = lo / 2 ^ 24 + 2 ^ 32 * (hi mod 2 ^ 24).
Proof.
  unfold limb. intros Hl. rewrite wshr_div, join_word, mask24 by (Z.div_mod_to_equations; lia).
  change (64 - 32) with 32. rewrite (Z.mod_small (hi mod 2 ^ 24)); [done|]. pose proof (Z.mod_pos_bound hi (2 ^ 24) ltac:(lia)). lia.
Qed.

Lemma join_40 hi lo : limb lo -> Z.lor (wshl 64 (Z.land hi 0xffffffffff) 16) (wshr lo 40) = lo / 2 ^ 40 + 2 ^ 16 * (hi mod 2 ^ 40).
Proof.
  unfold limb. intros Hl. rewrite wshr_div, join_word, mask40 by (Z.div_mod_to_equations; lia).
  change (64 - 16) with 48. rewrite (Z.mod_small (hi mod 2 ^ 40)); [done|]. pose proof (Z.mod_pos_bound hi (2 ^ 40) ltac:(lia)). lia.
Qed.

(** Five limbs cut out of ten, [k] bits into the fifth. *)
Lemma cut_limbs k a0 a1 a2 a3 a4 a5 a6 a7 a8 a9 : 0 < k < 56 ->
  limb a0 -> limb a1 -> limb a2 -> limb a3 -> limb a4 -> limb a5 -> limb a6 -> limb a7 -> limb a8 -> 0 <= a9 < 2 ^ k ->
  let join lo hi := lo / 2 ^ k + 2 ^ (56 - k) * (hi mod 2 ^ k) in
  scal ((val5 a0 a1 a2 a3 a4 + 2 ^ 280 * val5 a5 a6 a7 a8 a9) / (2 ^ 224 * 2 ^ k))
    [join a4 a5; join a5 a6; join a6 a7; join a7 a8; join a8 a9].
Proof.
  intros Hk A0 A1 A2 A3 A4 A5 A6 A7 A8 A9 join. unfold limb in *.
  assert (HK : 2 ^ 56 = 2 ^ k * 2 ^ (56 - k)) by (rewrite <- Z.pow_add_r by lia; f_equal; lia).
  assert (P1 : 0 < 2 ^ k) by (apply Z.pow_pos_nonneg; lia). assert (P2 : 0 < 2 ^ (56 - k)) by (apply Z.pow_pos_nonneg; lia).
  set (K := 2 ^ k) in *. set (J := 2 ^ (56 - k)) in *. clearbody K J.
  assert (Q : forall a, 0 <= a < 2 ^ 56 -> 0 <= a / K < J).
  { intros a Ha. split; [apply Z.div_pos; lia|apply Z.div_lt_upper_bound; lia]. }
  assert (L : forall a b, 0 <= a < 2 ^ 56 -> 0 <= join a b < 2 ^ 56).
  { intros a b Ha. subst join. cbv beta. specialize (Q a Ha). pose proof (Z.mod_pos_bound b K P1). nia. }
  eexists _, _, _, _, _. split; [reflexivity|]. split_and!; try (apply L; lia).
  assert (D : forall a, a = K * (a / K) + a mod K) by (intros a; apply Z.div_mod; lia).
  symmetry. apply Z.div_unique_pos with (r := a0 + 2 ^ 56 * a1 + 2 ^ 112 * a2 + 2 ^ 168 * a3 + 2 ^ 224 * (a4 mod K)).
  - pose proof (Z.mod_pos_bound a4 K P1). lia.
  - unfold val5. subst join. cbv beta. rewrite (Z.mod_small a9 K) by lia.
    pose proof (D a4) as D4. pose proof (D a5) as D5. pose proof (D a6) as D6. pose proof (D a7) as D7. pose proof (D a8) as D8.
    set (q4 := a4 / K) in *. set (q5 := a5 / K) in *. set (q6 := a6 / K) in *. set (q7 := a7 / K) in *. set (q8 := a8 / K) in *.
    set (r4 := a4 mod K) in *. set (r5 := a5 mod K) in *. set (r6 := a6 mod K) in *. set (r7 := a7 mod K) in *. set (r8 := a8 mod K) in *.
    rewrite D4, D5, D6, D7, D8. ring [HK].
Qed.

Lemma wide_top n l : wide n l -> n < 2 ^ 544 -> exists a0 a1 a2 a3 a4 a5 a6 a7 a8 a9,
  l = [a0; a1; a2; a3; a4; a5; a6; a7; a8; a9] /\
  (limb a0 /\ limb a1 /\ limb a2 /\ limb a3 /\ limb a4 /\ limb a5 /\ limb a6 /\ limb a7 /\ limb a8 /\ 0 <= a9 < 2 ^ 40) /\
  (n < 2 ^ 512 -> a9 < 2 ^ 8) /\ n = val5 a0 a1 a2 a3 a4 + 2 ^ 280 * val5 a5 a6 a7 a8 a9.
Proof.
  intros (a0 & a1 & a2 & a3 & a4 & a5 & a6 & a7 & a8 & a9 & -> & A0 & A1 & A2 & A3 & A4 & A5 & A6 & A7 & A8 & A9 & E) Hn.
  exists a0, a1, a2, a3, a4, a5, a6, a7, a8, a9. split; [done|]. unfold limb, val5 in *. split_and!; lia.
Qed.

Lemma div_248_spec out t N : length out = 5%nat -> wide N t -> N < 2 ^ 512 ->
  scal (N / 2 ^ 248) (Hacl_Impl_BignumQ_Mul_div_248 out t).
Proof.
  intros Ho Ht HN. apply wide_top in Ht as (a0 & a1 & a2 & a3 & a4 & a5 & a6 & a7 & a8 & a9 & -> & A & A9 & ->); [|lia].
  unfold Hacl_Impl_BignumQ_Mul_div_248. buf_simpl. rewrite make_5, !join_24 by (done || tauto).
  apply (cut_limbs 24); try tauto; [lia|]. specialize (A9 HN). lia.
Qed.

Lemma div_264_spec out t N : length out = 5%nat -> wide N t -> N < 2 ^ 544 ->
  scal (N / 2 ^ 264) (Hacl_Impl_BignumQ_Mul_div_264 out t).
Proof.
  intros Ho Ht HN. apply wide_top in Ht as (a0 & a1 & a2 & a3 & a4 & a5 & a6 & a7 & a8 & a9 & -> & A & _ & ->); [|lia].
  unfold Hacl_Impl_BignumQ_Mul_div_264. buf_simpl. rewrite make_5, !join_40 by (done || tauto).
  apply (cut_limbs 40); try tauto. lia.
Qed.

Lemma mod_264_spec r t N : length r = 5%nat -> wide N t -> N < 2 ^ 544 ->
  scal (N mod 2 ^ 264) (Hacl_Impl_BignumQ_Mul_mod_264 r t).
Proof.
  intros Hr Ht HN. apply wide_top in Ht as (a0 & a1 & a2 & a3 & a4 & a5 & a6 & a7 & a8 & a9 & -> & A & _ & ->); [|lia].
  unfold Hacl_Impl_BignumQ_Mul_mod_264. buf_simpl. rewrite make_5, mask40 by done.
  pose proof (Z.mod_pos_bound a4 (2 ^ 40) ltac:(lia)) as B. pose proof (Z.div_mod a4 (2 ^ 40) ltac:(lia)) as E.
  eexists _, _, _, _, _. split; [reflexivity|]. split_and!; try tauto; [unfold limb in *; lia|].
  symmetry. apply Z.mod_unique_pos with (q := a4 / 2 ^ 40 + 2 ^ 16 * val5 a5 a6 a7 a8 a9); unfold limb, val5 in *; lia.
Qed.

(** Below 2^264 the last limb has 40 bits. *)
Lemma scal_264 n l : scal n l -> n < 2 ^ 264 -> exists a0 a1 a2 a3 a4, l = [a0; a1; a2; a3; a4] /\
  limb a0 /\ limb a1 /\ limb a2 /\ limb a3 /\ 0 <= a4 < 2 ^ 40 /\ n = val5 a0 a1 a2 a3 a4.
Proof.
  intros (a0 & a1 & a2 & a3 & a4 & -> & A0 & A1 & A2 & A3 & A4 & E) Hn. exists a0, a1, a2, a3, a4.
  unfold limb, val5 in *. split_and!; (done || lia).
Qed.

Lemma sub_mod_264_spec z x y X Y : length z = 5%nat -> scal X x -> scal Y y -> X < 2 ^ 264 -> Y < 2 ^ 264 ->
  scal ((X - Y) mod 2 ^ 264) (Hacl_Impl_BignumQ_Mul_sub_mod_264 z x y).
Proof.
  intros Hz Hx Hy HX HY. pose proof (scal_nonneg _ _ Hx). pose proof (scal_nonneg _ _ Hy).
  apply scal_264 in Hx as (x0 & x1 & x2 & x3 & x4 & -> & X0 & X1 & X2 & X3 & X4 & EX); [|done].
  apply scal_264 in Hy as (y0 & y1 & y2 & y3 & y4 & -> & Y0 & Y1 & Y2 & Y3 & Y4 & EY); [|done].
  unfold Hacl_Impl_BignumQ_Mul_sub_mod_264. buf_simpl. unfold Hacl_Impl_BignumQ_Mul_shiftl_56.
  rewrite make_5 by done. cbv zeta.
  match goal with |- scal _ [?a0; ?a1; ?a2; ?a3; wsub 64 (wadd 64 (wshl 64 ?b 40) ?c) ?d] =>
    assert (HS : sub5 40 x0 x1 x2 x3 x4 y0 y1 y2 y3 y4 b a0 a1 a2 a3 (wsub 64 (wadd 64 (wshl 64 b 40) c) d))
      by (do 4 eexists; split_and!; split; reflexivity);
    revert HS; generalize (wsub 64 (wadd 64 (wshl 64 b 40) c) d); generalize b, a0, a1, a2, a3
  end.
  intros b t0 t1 t2 t3 t4 HS. apply sub5_spec in HS as (T0 & T1 & T2 & T3 & T4 & Eb & ET); try (done || lia).
  rewrite <- EX, <- EY in *. exists t0, t1, t2, t3, t4. split_and!; try done; [unfold limb; lia|].
  symmetry. apply Z.mod_unique_pos with (q := - b); unfold limb, val5 in *; lia.
Qed.

(** Both halves of Barrett's argument: the estimate of the quotient is at most
    one too small. *)
Lemma barrett_estimate x : 0 <= x < 2 ^ 512 ->
  let q3 := (x / 2 ^ 248 * (2 ^ 512 / order)) / 2 ^ 264 in
  0 <= q3 < 2 ^ 264 /\ 0 <= x - q3 * order < 2 * order.
Proof.
  intros Hx. cbv zeta. set (mu := 2 ^ 512 / order). vm_compute in mu. subst mu.
  set (a := x / 2 ^ 248). assert (Ha : 0 <= a < 2 ^ 264 /\ 0 <= x - 2 ^ 248 * a < 2 ^ 248) by (subst a; Z.div_mod_to_equations; lia).
  clearbody a. unfold order. Z.div_mod_to_equations. lia.
Qed.

(** ** Products *)

Section Wide.
Context {T : Type} {U128Ops : UInt128Ops T} {U128 : UInt128 T}.

(** One limb of a carry chain: its low 56 bits and the carry into the next. *)
Lemma carry56 (z z' : T) v v' : rep z v -> rep z' v' -> v < 2 ^ 119 -> v' < 2 ^ 118 -> exists d m,
  Z.land (u128_to_u64 z) 0xffffffffffffff = m /\ rep (u128_add z' (u128_shift_right z 56)) (v' + d) /\
  limb m /\ 0 <= d < 2 ^ 63 /\ 0 <= v' /\ v = 2 ^ 56 * d + m.
Proof.
  intros Rz Rz' Hv Hv'. pose proof (rep_range _ _ Rz). pose proof (rep_range _ _ Rz').
  exists (v / 2 ^ 56), (v mod 2 ^ 56). pose proof (Z.mod_pos_bound v (2 ^ 56) ltac:(lia)).
  assert (D : 0 <= v / 2 ^ 56 < 2 ^ 63) by (Z.div_mod_to_equations; lia).
  split_and!; try (done || lia); [now apply (rep_low_bits z v _ 56)| |apply Z.div_mod; lia].
  apply rep_add; [done|apply rep_shift_right; [done|lia]|lia].
Qed.

Lemma carry9_spec out (z0 z1 z2 z3 z4 z5 z6 z7 z8 : T) v0 v1 v2 v3 v4 v5 v6 v7 v8 : length out = 10%nat ->
  rep z0 v0 /\ v0 < 2 ^ 118 -> rep z1 v1 /\ v1 < 2 ^ 118 -> rep z2 v2 /\ v2 < 2 ^ 118 -> rep z3 v3 /\ v3 < 2 ^ 118 ->
  rep z4 v4 /\ v4 < 2 ^ 118 -> rep z5 v5 /\ v5 < 2 ^ 118 -> rep z6 v6 /\ v6 < 2 ^ 118 -> rep z7 v7 /\ v7 < 2 ^ 118 ->
  rep z8 v8 /\ v8 < 2 ^ 111 ->
  wide (val5 v0 v1 v2 v3 v4 + 2 ^ 280 * val5 v5 v6 v7 v8 0)
    (Hacl_Impl_BignumQ_Mul_carry out [z0; z1; z2; z3; z4; z5; z6; z7; z8]).
Proof.
  intros Ho [R0 V0] [R1 V1] [R2 V2] [R3 V3] [R4 V4] [R5 V5] [R6 V6] [R7 V7] [R8 V8].
  unfold Hacl_Impl_BignumQ_Mul_carry. buf_simpl. rewrite make_10 by done.
  destruct (carry56 z0 z1 v0 v1 R0 R1) as (d0 & m0 & -> & S1 & M0 & D0 & P1 & E0); [lia..|].
  destruct (carry56 _ z2 _ v2 S1 R2) as (d1 & m1 & -> & S2 & M1 & D1 & P2 & E1); [lia..|].
  destruct (carry56 _ z3 _ v3 S2 R3) as (d2 & m2 & -> & S3 & M2 & D2 & P3 & E2); [lia..|].
  destruct (carry56 _ z4 _ v4 S3 R4) as (d3 & m3 & -> & S4 & M3 & D3 & P4 & E3); [lia..|].
  destruct (carry56 _ z5 _ v5 S4 R5) as (d4 & m4 & -> & S5 & M4 & D4 & P5 & E4); [lia..|].
  destruct (carry56 _ z6 _ v6 S5 R6) as (d5 & m5 & -> & S6 & M5 & D5 & P6 & E5); [lia..|].
  destruct (carry56 _ z7 _ v7 S6 R7) as (d6 & m6 & -> & S7 & M6 & D6 & P7 & E6); [lia..|].
  destruct (carry56 _ z8 _ v8 S7 R8) as (d7 & m7 & -> & S8 & M7 & D7 & P8 & E7); [lia..|].
  assert (RZ : rep (u128_of_u64 0 : T) 0) by (apply rep_of_u64; unfold word; lia).
  destruct (carry56 _ _ _ 0 S8 RZ) as (d8 & m8 & -> & S9 & M8 & D8 & _ & E8); [lia..|].
  rewrite (rep_to_u64_small _ _ S9) by lia. rewrite Z.add_0_l.
  exists m0, m1, m2, m3, m4, m5, m6, m7, m8, d8. unfold limb, val5 in *. split_and!; (done || lia).
Qed.

(** A column of a product: a sum of [n] products of limbs. *)
Definition column (n : Z) (z : T) (v : Z) : Prop := rep z v /\ v < n * 2 ^ 112.

Lemma column_mul x y : limb x -> limb y -> column 1 (u128_mul_wide x y) (x * y).
Proof.
  unfold limb. intros Hx Hy. split; [apply rep_mul_wide; unfold word; lia|].
  pose proof (Z.mul_le_mono_nonneg x (2 ^ 56 - 1) y (2 ^ 56 - 1) ltac:(lia) ltac:(lia) ltac:(lia) ltac:(lia)). lia.
Qed.

Lemma column_weaken n m z v : n <= m -> column n z v -> column m z v.
Proof. intros Hn [Rz Hv]. split; [done|lia]. Qed.

Lemma column_add n m a b x y : n + m <= 5 -> column n a x -> column m b y -> column (n + m) (u128_add a b) (x + y).
Proof. intros Hn [Ra Ba] [Rb Bb]. split; [apply rep_add; [done|done|lia]|lia]. Qed.

Lemma column_bound n z v : n <= 5 -> column n z v -> rep z v /\ v < 2 ^ 118.
Proof. intros Hn [Rz Hv]. split; [done|lia]. Qed.

Ltac column_sum := apply (column_bound 5); [lia|]; repeat lazymatch goal with
  | |- column 1 _ _ => apply column_mul; assumption
  | |- column ?n (u128_mul_wide _ _) _ => apply (column_weaken 1); [lia|]
  | |- column ?n (u128_add _ _) _ => apply (column_add (n - 1) 1); [lia| |]
  end.

Lemma mul_5_carry out (z : list T) x y X Y : length out = 10%nat -> length z = 9%nat ->
  scal X x -> scal Y y -> X < 2 ^ 264 -> Y < 2 ^ 264 ->
  wide (X * Y) (Hacl_Impl_BignumQ_Mul_carry out (Hacl_Impl_BignumQ_Mul_mul_5 z x y)).
Proof.
  intros Ho Hz Hx Hy HX HY.
  apply scal_264 in Hx as (x0 & x1 & x2 & x3 & x4 & -> & X0 & X1 & X2 & X3 & X4 & EX); [|done].
  apply scal_264 in Hy as (y0 & y1 & y2 & y3 & y4 & -> & Y0 & Y1 & Y2 & Y3 & Y4 & EY); [|done].
  assert (H44 : x4 * y4 < 2 ^ 111) by (pose proof (Z.mul_le_mono_nonneg x4 (2 ^ 40) y4 (2 ^ 40)); lia).
  assert (X4' : limb x4) by (unfold limb; lia). assert (Y4' : limb y4) by (unfold limb; lia). clear X4 Y4 HX HY.
  unfold Hacl_Impl_BignumQ_Mul_mul_5. buf_simpl. destruct_list z. unfold Hacl_Lib_Create128_make_h128_9. buf_simpl. cbv zeta.
  replace (X * Y) with (val5 (x0 * y0) (x0 * y1 + x1 * y0) (x0 * y2 + x1 * y1 + x2 * y0) (x0 * y3 + x1 * y2 + x2 * y1 + x3 * y0)
    (x0 * y4 + x1 * y3 + x2 * y2 + x3 * y1 + x4 * y0) + 2 ^ 280 * val5 (x1 * y4 + x2 * y3 + x3 * y2 + x4 * y1)
    (x2 * y4 + x3 * y3 + x4 * y2) (x3 * y4 + x4 * y3) (x4 * y4) 0) by (rewrite EX, EY; clear; unfold val5; ring).
  apply carry9_spec; [exact Ho|column_sum..|]. split; [|exact H44]. now apply column_mul.
Qed.

Lemma low_mul_5_spec z x y X Y : length z = 5%nat -> scal X x -> scal Y y -> X < 2 ^ 264 -> Y < 2 ^ 264 ->
  scal ((X * Y) mod 2 ^ 264) (Hacl_Impl_BignumQ_Mul_low_mul_5 (T := T) z x y).
Proof.
  intros Hz Hx Hy HX HY.
  apply scal_264 in Hx as (x0 & x1 & x2 & x3 & x4 & -> & X0 & X1 & X2 & X3 & X4 & EX); [|done].
  apply scal_264 in Hy as (y0 & y1 & y2 & y3 & y4 & -> & Y0 & Y1 & Y2 & Y3 & Y4 & EY); [|done].
  assert (X4' : limb x4) by (unfold limb; lia). assert (Y4' : limb y4) by (unfold limb; lia). clear X4 Y4 HX HY.
  unfold Hacl_Impl_BignumQ_Mul_low_mul_5. buf_simpl. rewrite make_5 by done. cbv zeta.
  assert (C0 : rep (u128_mul_wide x0 y0 : T) (x0 * y0) /\ x0 * y0 < 2 ^ 118) by column_sum.
  assert (C1 : rep (u128_add (u128_mul_wide x0 y1) (u128_mul_wide x1 y0) : T) (x0 * y1 + x1 * y0) /\
    x0 * y1 + x1 * y0 < 2 ^ 118) by column_sum.
  assert (C2 : rep (u128_add (u128_add (u128_mul_wide x0 y2) (u128_mul_wide x1 y1)) (u128_mul_wide x2 y0) : T)
    (x0 * y2 + x1 * y1 + x2 * y0) /\ x0 * y2 + x1 * y1 + x2 * y0 < 2 ^ 118) by column_sum.
  assert (C3 : rep (u128_add (u128_add (u128_add (u128_mul_wide x0 y3) (u128_mul_wide x1 y2)) (u128_mul_wide x2 y1))
    (u128_mul_wide x3 y0) : T) (x0 * y3 + x1 * y2 + x2 * y1 + x3 * y0) /\
    x0 * y3 + x1 * y2 + x2 * y1 + x3 * y0 < 2 ^ 118) by column_sum.
  assert (C4 : rep (u128_add (u128_add (u128_add (u128_add (u128_mul_wide x0 y4) (u128_mul_wide x1 y3)) (u128_mul_wide x2 y2))
    (u128_mul_wide x3 y1)) (u128_mul_wide x4 y0) : T) (x0 * y4 + x1 * y3 + x2 * y2 + x3 * y1 + x4 * y0) /\
    x0 * y4 + x1 * y3 + x2 * y2 + x3 * y1 + x4 * y0 < 2 ^ 118) by column_sum.
  assert (EP : X * Y = val5 (x0 * y0) (x0 * y1 + x1 * y0) (x0 * y2 + x1 * y1 + x2 * y0) (x0 * y3 + x1 * y2 + x2 * y1 + x3 * y0)
    (x0 * y4 + x1 * y3 + x2 * y2 + x3 * y1 + x4 * y0) + 2 ^ 280 * val5 (x1 * y4 + x2 * y3 + x3 * y2 + x4 * y1)
    (x2 * y4 + x3 * y3 + x4 * y2) (x3 * y4 + x4 * y3) (x4 * y4) 0) by (rewrite EX, EY; clear; unfold val5; ring).
  revert C0 C1 C2 C3 C4 EP. generalize (x0 * y0), (x0 * y1 + x1 * y0), (x0 * y2 + x1 * y1 + x2 * y0),
    (x0 * y3 + x1 * y2 + x2 * y1 + x3 * y0), (x0 * y4 + x1 * y3 + x2 * y2 + x3 * y1 + x4 * y0),
    (val5 (x1 * y4 + x2 * y3 + x3 * y2 + x4 * y1) (x2 * y4 + x3 * y3 + x4 * y2) (x3 * y4 + x4 * y3) (x4 * y4) 0).
  intros v0 v1 v2 v3 v4 top [R0 V0] [R1 V1] [R2 V2] [R3 V3] [R4 V4] EP. rewrite EP. clear EP EX EY.
  destruct (carry56 _ _ _ _ R0 R1) as (d0 & m0 & -> & S1 & M0 & D0 & _ & E0); [lia..|].
  destruct (carry56 _ _ _ _ S1 R2) as (d1 & m1 & -> & S2 & M1 & D1 & _ & E1); [lia..|].
  destruct (carry56 _ _ _ _ S2 R3) as (d2 & m2 & -> & S3 & M2 & D2 & _ & E2); [lia..|].
  destruct (carry56 _ _ _ _ S3 R4) as (d3 & m3 & -> & S4 & M3 & D3 & _ & E3); [lia..|].
  rewrite (rep_low_bits _ _ _ 40 S4) by (lia || done).
  pose proof (Z.mod_pos_bound (v4 + d3) (2 ^ 40) ltac:(lia)) as B4. pose proof (Z.div_mod (v4 + d3) (2 ^ 40) ltac:(lia)) as E4.
  exists m0, m1, m2, m3, ((v4 + d3) mod 2 ^ 40). split; [reflexivity|]. split_and!; try done; [unfold limb; lia|].
  symmetry. apply Z.mod_unique_pos with (q := (v4 + d3) / 2 ^ 40 + 2 ^ 16 * top); unfold limb, val5 in *; lia.
Qed.

(** ** Barrett reduction *)

Lemma make_m_spec b : length b = 5%nat -> scal order (Hacl_Impl_BignumQ_Mul_make_m b).
Proof.
  intros Hb. unfold Hacl_Impl_BignumQ_Mul_make_m. rewrite make_5 by done. eexists _, _, _, _, _.
  split; [reflexivity|]. unfold limb. split_and!; (lia || reflexivity).
Qed.

Lemma make_mu_spec b : length b = 5%nat -> scal (2 ^ 512 / order) (Hacl_Impl_BignumQ_Mul_make_mu b).
Proof.
  intros Hb. unfold Hacl_Impl_BignumQ_Mul_make_mu. rewrite make_5 by done. eexists _, _, _, _, _.
  split; [reflexivity|]. unfold limb. split_and!; (lia || reflexivity).
Qed.

Lemma wide_length n l : wide n l -> length l = 10%nat.
Proof. now intros (? & ? & ? & ? & ? & ? & ? & ? & ? & ? & -> & _). Qed.

(** The estimate of the quotient, from the number. *)
Definition quotient (N : Z) : Z := (N / 2 ^ 248 * (2 ^ 512 / order)) / 2 ^ 264.

Lemma barrett_1_spec (qmu : list T) t mu1 tmp N : length qmu = 9%nat -> length tmp = 30%nat ->
  wide N t -> 0 <= N < 2 ^ 512 -> scal (2 ^ 512 / order) mu1 ->
  let '(_, tmp') := Hacl_Impl_BignumQ_Mul_barrett_reduction__1 qmu t mu1 tmp in
  length tmp' = 30%nat /\ scal (quotient N) (slice tmp' 20 5).
Proof.
  intros Hqm Htmp Ht HN Hmu. unfold Hacl_Impl_BignumQ_Mul_barrett_reduction__1, quotient. cbv zeta.
  assert (Hq : scal (N / 2 ^ 248) (Hacl_Impl_BignumQ_Mul_div_248 (slice tmp 0 5) t)).
  { apply div_248_spec; [apply length_slice; lia|done|lia]. }
  set (q1 := Hacl_Impl_BignumQ_Mul_div_248 _ t) in *.
  assert (Bq : 0 <= N / 2 ^ 248 < 2 ^ 264) by (Z.div_mod_to_equations; lia).
  set (mu := 2 ^ 512 / order) in *. vm_compute in mu.
  assert (Hw : wide (N / 2 ^ 248 * mu) (Hacl_Impl_BignumQ_Mul_carry (slice tmp 10 10) (Hacl_Impl_BignumQ_Mul_mul_5 qmu q1 mu1))).
  { apply mul_5_carry; try done; [apply length_slice; lia|lia]. }
  set (qmu_ := Hacl_Impl_BignumQ_Mul_carry _ _) in *.
  assert (H3 : scal (N / 2 ^ 248 * mu / 2 ^ 264) (Hacl_Impl_BignumQ_Mul_div_264 (slice tmp 20 5) qmu_)).
  { apply div_264_spec; [apply length_slice; lia|done|subst mu; lia]. }
  set (qmu_264 := Hacl_Impl_BignumQ_Mul_div_264 _ _) in *.
  apply scal_length in Hq as Lq. apply wide_length in Hw as Lw. apply scal_length in H3 as L3.
  clearbody q1 qmu_ qmu_264 mu. assert (L5 : length (slice tmp 5 5) = 5%nat) by (apply length_slice; lia). split.
  - rewrite !length_app, length_drop. lia.
  - rewrite (app_assoc q1), (app_assoc (q1 ++ _)). rewrite slice_mid; [done|rewrite !length_app; lia|done].
Qed.

Lemma barrett_2_spec t m1 tmp N q3 : length tmp = 30%nat -> wide N t -> N < 2 ^ 512 -> scal order m1 ->
  scal q3 (slice tmp 20 5) -> q3 < 2 ^ 264 -> 0 <= N - q3 * order < 2 * order ->
  scal (N - q3 * order) (slice (Hacl_Impl_BignumQ_Mul_barrett_reduction__2 (T := T) t m1 tmp) 25 5).
Proof.
  intros Htmp Ht HN Hm H3 Bq Br. unfold Hacl_Impl_BignumQ_Mul_barrett_reduction__2. cbv zeta.
  assert (Hr : scal (N mod 2 ^ 264) (Hacl_Impl_BignumQ_Mul_mod_264 (slice tmp 5 5) t)).
  { apply mod_264_spec; [apply length_slice; lia|done|lia]. }
  set (r := Hacl_Impl_BignumQ_Mul_mod_264 _ t) in *.
  assert (Hl : scal ((q3 * order) mod 2 ^ 264) (Hacl_Impl_BignumQ_Mul_low_mul_5 (T := T) (slice tmp 0 5) (slice tmp 20 5) m1)).
  { apply low_mul_5_spec; try done. apply length_slice. lia. }
  set (qmul := Hacl_Impl_BignumQ_Mul_low_mul_5 _ _ _) in *.
  assert (Hs : scal (N - q3 * order) (Hacl_Impl_BignumQ_Mul_sub_mod_264 (slice tmp 25 5) r qmul)).
  { replace (N - q3 * order) with ((N mod 2 ^ 264 - (q3 * order) mod 2 ^ 264) mod 2 ^ 264).
    - apply sub_mod_264_spec; [apply length_slice; lia|done|done|apply Z.mod_pos_bound; lia|apply Z.mod_pos_bound; lia].
    - rewrite <- Zminus_mod. apply Z.mod_small. unfold order in *. lia. }
  set (s := Hacl_Impl_BignumQ_Mul_sub_mod_264 _ r qmul) in *.
  apply scal_length in Hr as Lr. apply scal_length in Hl as Ll. apply scal_length in Hs as Ls. clearbody r qmul s.
  rewrite (app_assoc qmul), (app_assoc (qmul ++ r)), (app_assoc ((qmul ++ r) ++ _)).
  rewrite <- (app_nil_r s) at 1. rewrite slice_mid; [done| |done].
  rewrite !length_app, !length_slice by lia. lia.
Qed.

Lemma barrett_reduction_spec z t N : length z = 5%nat -> wide N t -> 0 <= N < 2 ^ 512 ->
  scal (N mod order) (Hacl_Impl_BignumQ_Mul_barrett_reduction (T := T) z t).
Proof.
  intros Hz Ht HN. unfold Hacl_Impl_BignumQ_Mul_barrett_reduction, Hacl_Impl_BignumQ_Mul_barrett_reduction_,
    Hacl_Impl_BignumQ_Mul_barrett_reduction__. cbv zeta.
  set (m1 := Hacl_Impl_BignumQ_Mul_make_m _). assert (Hm : scal order m1) by now apply make_m_spec.
  set (mu1 := Hacl_Impl_BignumQ_Mul_make_mu _). assert (Hmu : scal (2 ^ 512 / order) mu1) by now apply make_mu_spec.
  clearbody m1 mu1. destruct (barrett_estimate N HN) as [Q1 Q2]. fold (quotient N) in Q1, Q2.
  pose proof (barrett_1_spec (replicate 9 (u128_of_u64 0)) t mu1 (slice (replicate 40 0) 10 30) N eq_refl eq_refl Ht HN Hmu) as H1.
  destruct (Hacl_Impl_BignumQ_Mul_barrett_reduction__1 _ t mu1 _) as [qmu tmp]. destruct H1 as [Ltmp H3].
  pose proof (barrett_2_spec t m1 tmp N (quotient N) Ltmp Ht (proj2 HN) Hm H3 (proj2 Q1) Q2) as H2.
  replace (N mod order) with ((N - quotient N * order) mod order).
  - apply subm_conditional_spec; [done|exact H2|exact (proj2 Q2)].
  - symmetry. apply Z.mod_unique_pos with (q := N / order - quotient N); [apply Z.mod_pos_bound; done|].
    pose proof (Z.div_mod N order ltac:(done)). lia.
Qed.

Lemma mul_modq_spec out x y X Y : length out = 5%nat -> scal X x -> scal Y y -> X < 2 ^ 264 -> Y < 2 ^ 264 -> X * Y < 2 ^ 512 ->
  scal ((X * Y) mod order) (Hacl_Impl_BignumQ_Mul_mul_modq (T := T) out x y).
Proof.
  intros Ho Hx Hy HX HY HXY. pose proof (scal_nonneg _ _ Hx). pose proof (scal_nonneg _ _ Hy).
  unfold Hacl_Impl_BignumQ_Mul_mul_modq. cbv zeta. apply barrett_reduction_spec; [done| |split; [apply Z.mul_nonneg_nonneg; lia|done]].
  now apply mul_5_carry.
Qed.

End Wide.

(** ** Bytes *)

Lemma load56 V a : Z.land ((V / a) mod 2 ^ 64) 0xffffffffffffff = (V / a) mod 2 ^ 56.
Proof.
  rewrite mask56. change (2 ^ 64) with (2 ^ 56 * 2 ^ 8). rewrite Z.rem_mul_r by done.
  rewrite (Z.mul_comm (2 ^ 56)), Z.mod_add, Z.mod_mod; done.
Qed.

Lemma limb_mod z : limb (z mod 2 ^ 56).
Proof. now apply Z.mod_pos_bound. Qed.

(** The limbs of a number of 64 bytes, the last one from its last byte. *)
Lemma load_64_bytes_spec out b : length out = 10%nat -> bytes b -> length b = 64%nat ->
  wide (le_combine b) (Hacl_Impl_Load56_load_64_bytes out b).
Proof.
  intros Ho Hb Hl. unfold Hacl_Impl_Load56_load_64_bytes, load64_le. rewrite make_10 by done.
  rewrite !le_combine_slice by (done || lia).
  assert (E : b.[63] = le_combine b / 256 ^ 63).
  { rewrite <- le_combine_drop with (n := 63%nat) by (done || lia).
    destruct (drop 63 b) as [|x [|]] eqn:D; apply (f_equal length) in D as L; rewrite length_drop, Hl in L; try discriminate.
    cbn [le_combine]. rewrite Z.mul_0_r, Z.add_0_r.
    rewrite <- (take_drop 63 b), lookup_total_app_r, length_take, D by (rewrite length_take; lia). now rewrite Hl. }
  rewrite E. pose proof (le_combine_bound b Hb) as B. rewrite Hl in B. set (V := le_combine b) in *.
  change (256 ^ Z.of_nat 8) with (2 ^ 64). rewrite !load56.
  eexists _, _, _, _, _, _, _, _, _, _. split; [reflexivity|].
  do 9 (split; [apply limb_mod|]). change (256 ^ Z.of_nat 64) with (2 ^ 512) in B.
  split; [unfold limb; Z.div_mod_to_equations; lia|].
  unfold val5. clear - B. cbn [Z.of_nat Pos.of_succ_nat Pos.succ]. Z.div_mod_to_equations. lia.
Qed.

Lemma load_32_bytes_spec out b : length out = 5%nat -> bytes b -> (32 <= length b)%nat ->
  scal (le_combine (take 32 b)) (Hacl_Impl_Load56_load_32_bytes out b).
Proof.
  intros Ho Hb Hl. unfold Hacl_Impl_Load56_load_32_bytes, load64_le, load32_le. rewrite make_5 by done.
  rewrite !le_combine_slice, le_combine_take by (done || lia). set (V := le_combine b) in *.
  change (256 ^ Z.of_nat 8) with (2 ^ 64). rewrite !load56.
  eexists _, _, _, _, _. split; [reflexivity|]. do 4 (split; [apply limb_mod|]).
  split; [unfold limb; pose proof (Z.mod_pos_bound (V / 256 ^ Z.of_nat 28) (256 ^ Z.of_nat 4) eq_refl); lia|].
  unfold val5. clear. cbn [Z.of_nat Pos.of_succ_nat Pos.succ]. Z.div_mod_to_equations. lia.
Qed.

(** Each store of eight bytes overlaps the next by one byte, which is zero. *)
Lemma blit_overlap {A} (out p s q : list A) n : n = length p -> (length s <= length q)%nat ->
  (length p + length q <= length out)%nat -> blit (blit out 0 (p ++ s)) n q = blit out 0 (p ++ q).
Proof.
  intros -> Hs Hq. rewrite !blit_0. unfold blit. rewrite <- (app_assoc p s), take_app_length, <- !app_assoc. do 2 f_equal.
  rewrite app_assoc, drop_app_ge, drop_drop, !length_app by (rewrite length_app; lia). f_equal. lia.
Qed.

Lemma le_split_low n z y : z = y mod 256 ^ Z.of_nat n -> le_split n z = le_split n y.
Proof. intros ->. apply le_split_mod. Qed.

Lemma store_56_spec out l X : length out = 32%nat -> scal X l -> X < 2 ^ 256 ->
  Hacl_Impl_Store56_store_56 out l = le_split 32 X.
Proof.
  intros Ho (a0 & a1 & a2 & a3 & a4 & -> & B0 & B1 & B2 & B3 & B4 & ->) HX. unfold limb, val5 in *.
  unfold Hacl_Impl_Store56_store_56, store64_le, store32_le. buf_simpl.
  unfold wrap. rewrite Z.mod_small by lia.
  assert (S : forall z, 0 <= z < 2 ^ 56 -> le_split 8 z = le_split 7 z ++ [0]).
  { intros z Hz. change 8%nat with (7 + 1)%nat. rewrite le_split_add, (Z.div_small z) by done. done. }
  pose proof length_le_split as L. rewrite !S by lia.
  rewrite blit_overlap by (rewrite ?length_app, ?L; cbn; lia). rewrite app_assoc.
  rewrite blit_overlap by (rewrite ?length_app, ?L; cbn; lia). rewrite app_assoc.
  rewrite blit_overlap by (rewrite ?length_app, ?L; cbn; lia). rewrite app_assoc.
  rewrite blit_overlap by (rewrite ?length_app, ?L; cbn; lia). rewrite <- !app_assoc.
  rewrite blit_0_exact by (rewrite !length_app, !L; lia).
  change 32%nat with (7 + (7 + (7 + (7 + 4))))%nat. rewrite !le_split_add, !Z.div_div by lia.
  change (256 ^ Z.of_nat 7) with (2 ^ 56).
  repeat (apply (f_equal2 app)); apply le_split_low;
    [change (256 ^ Z.of_nat 7) with (2 ^ 56)..|change (256 ^ Z.of_nat 4) with (2 ^ 32)]; Z.div_mod_to_equations; lia.
Qed.

(** The comparison of [gte_q], limb by limb from the top. *)
Lemma gte_q_spec s X : scal X s -> Hacl_Impl_Ed25519_PointEqual_gte_q s = (order <=? X).
Proof.
  intros (a0 & a1 & a2 & a3 & a4 & -> & B0 & B1 & B2 & B3 & B4 & ->). unfold limb, val5 in *.
  unfold Hacl_Impl_Ed25519_PointEqual_gte_q. buf_simpl. unfold order.
  repeat match goal with |- (if ?a <? ?b then _ else _) = _ => destruct (Z.ltb_spec a b) end;
    try (symmetry; apply Z.leb_le; lia); try (symmetry; apply Z.leb_gt; lia).
  destruct (Z.leb_spec 0x12631a5cf5d3ed a0); symmetry; [apply Z.leb_le|apply Z.leb_gt]; lia.
Qed.

(** ** The two computations of a signature *)

Section Signature.
Context {T : Type} {U128Ops : UInt128Ops T} {U128 : UInt128 T}.

Lemma order_mod z : 0 <= z mod order < order.
Proof. now apply Z.mod_pos_bound. Qed.

Lemma scalar_reduce z t b : length z = 5%nat -> length t = 10%nat -> bytes b -> length b = 64%nat ->
  scal (le_combine b mod order)
    (Hacl_Impl_BignumQ_Mul_barrett_reduction (T := T) z (Hacl_Impl_Load56_load_64_bytes t b)).
Proof.
  intros Hz Ht Hb Hl. apply barrett_reduction_spec; [done|now apply load_64_bytes_spec|].
  pose proof (le_combine_bound b Hb) as B. now rewrite Hl in B.
Qed.

Lemma store_mod out l z : length out = 32%nat -> scal (z mod order) l ->
  Hacl_Impl_Store56_store_56 out l = le_split 32 (z mod order).
Proof.
  intros Ho Hl. apply store_56_spec; [done|exact Hl|]. pose proof (order_mod z). unfold order in *. lia.
Qed.

Lemma scalar_muladd aq ha s r h a R H : length aq = 5%nat -> length ha = 5%nat -> length s = 5%nat ->
  scal R r -> R < order -> scal H h -> H < order -> bytes a -> (32 <= length a)%nat ->
  scal ((R + H * le_combine (take 32 a)) mod order)
    (Hacl_Impl_BignumQ_Mul_add_modq s r
      (Hacl_Impl_BignumQ_Mul_mul_modq (T := T) ha h (Hacl_Impl_Load56_load_32_bytes aq a))).
Proof.
  intros Haq Hha Hs Hr HR Hh HH Ha Hl. pose proof (load_32_bytes_spec aq a Haq Ha Hl) as HA.
  assert (BA : 0 <= le_combine (take 32 a) < 2 ^ 256).
  { pose proof (le_combine_bound (take 32 a) (Forall_take _ 32 _ Ha)) as B. rewrite length_take, Nat.min_l in B by lia. exact B. }
  revert HA BA. generalize (le_combine (take 32 a)). intros A HA BA. pose proof (scal_nonneg _ _ Hh) as BH.
  rewrite <- Z.add_mod_idemp_r by done. apply add_modq_spec; [done|done| |done|apply order_mod].
  apply mul_modq_spec; [done..|unfold order in *; lia|lia|].
  apply Z.le_lt_trans with (order * 2 ^ 256); [apply Z.mul_le_mono_nonneg; lia|done].
Qed.

End Signature.
End Scalars.

(** ** Main results *)

Section Results.
Context {T : Type} {U128Ops : UInt128Ops T} {U128 : UInt128 T}.
Import BignumQ.

(** Reduction of a hash: the 64 bytes loaded as ten limbs, reduced by
    Barrett's method and stored again are the 32 bytes of the canonical
    representative modulo the order q of the base point, for all 2^512 inputs. *)
Theorem scalar_reduce_canonical out z t b :
  length out = 32%nat -> length z = 5%nat -> length t = 10%nat -> bytes b -> length b = 64%nat ->
  Hacl_Impl_Store56_store_56 out
    (Hacl_Impl_BignumQ_Mul_barrett_reduction (T := T) z (Hacl_Impl_Load56_load_64_bytes t b)) =
  le_split 32 (le_combine b mod order).
Proof.
  intros Ho Hz Ht Hb Hl. apply store_mod; [done|]. now apply scalar_reduce.
Qed.

(** The second half of a signature: from reduced [r] and [h] and the 32
    bytes of a secret scalar [a], [load_32_bytes], [mul_modq], [add_modq] and
    [store_56] compute the bytes of (r + h * a) mod q. *)
Theorem scalar_muladd_canonical out aq ha s r h a R H :
  length out = 32%nat -> length aq = 5%nat -> length ha = 5%nat -> length s = 5%nat ->
  scal R r -> R < order -> scal H h -> H < order -> bytes a -> length a = 32%nat ->
  Hacl_Impl_Store56_store_56 out
    (Hacl_Impl_BignumQ_Mul_add_modq s r
      (Hacl_Impl_BignumQ_Mul_mul_modq (T := T) ha h (Hacl_Impl_Load56_load_32_bytes aq a))) =
  le_split 32 ((R + H * le_combine a) mod order).
Proof.
  intros Ho Haq Hha Hs Hr HR Hh HH Ha Hl. apply store_mod; [done|]. rewrite <- (take_ge a 32) at 1 by lia.
  apply scalar_muladd; (done || lia).
Qed.

End Results.

Lemma scalar_reduce_canonical_witness :
  BignumQ.Hacl_Impl_Store56_store_56 (replicate 32 0)
    (BignumQ.Hacl_Impl_BignumQ_Mul_barrett_reduction (T := Z) (replicate 5 0)
      (BignumQ.Hacl_Impl_Load56_load_64_bytes (replicate 10 0) (replicate 64 255))) =
  le_split 32 (le_combine (replicate 64 255) mod order).
Proof.
  apply (scalar_reduce_canonical (T := Z)); [reflexivity..|now apply bytes_replicate|reflexivity].
Defined.

(** The largest operands: q - 1 twice, and 32 bytes of ones. *)
Lemma scal_top : scal (order - 1) [0x12631a5cf5d3ec; 0xf9dea2f79cd658; 0x14de; 0; 0x10000000].
Proof. do 5 eexists. split; [reflexivity|]. unfold limb. repeat (split; [lia|]). reflexivity. Qed.

Lemma scalar_muladd_canonical_witness :
  let top := [0x12631a5cf5d3ec; 0xf9dea2f79cd658; 0x14de; 0; 0x10000000] in
  BignumQ.Hacl_Impl_Store56_store_56 (replicate 32 0)
    (BignumQ.Hacl_Impl_BignumQ_Mul_add_modq (replicate 5 0) top
      (BignumQ.Hacl_Impl_BignumQ_Mul_mul_modq (T := Z) (replicate 5 0) top
        (BignumQ.Hacl_Impl_Load56_load_32_bytes (replicate 5 0) (replicate 32 255)))) =
  le_split 32 ((order - 1 + (order - 1) * le_combine (replicate 32 255)) mod order).
Proof.
  apply (scalar_muladd_canonical (T := Z));
    [reflexivity..|exact scal_top|lia|exact scal_top|lia|now apply bytes_replicate|reflexivity].
Defined.
