(* ===== verification/Ed25519.v ===== *)
(** * Ed25519: the code of Hacl_Ed25519.c

    Field elements are those of [Curve25519]: the file has a copy of the field
    arithmetic of Hacl_Curve25519.c, and of Hacl_SHA2_512.c, which are not
    modelled again.  A point in extended coordinates is four field elements
    (X, Y, Z, T) in one buffer of twenty limbs.  Scalars modulo the order of
    the base point are those of [BignumQ].

    As in [Curve25519], scratch arrays are split into the disjoint parts that
    pointers designate, and a function returns the buffers it writes. *)

From stdpp Require Import base list numbers.
From Stdlib Require Import ZArith Lia.
From S2P Require Import Prelude Machine UInt128 Curve25519 SHA2 BignumQ.

Local Open Scope Z_scope.
Local Open Scope buf_scope.

Module Ed25519.
Section Code.
Context {T : Type} {U128Ops : UInt128Ops T}.
Import Curve25519 SHA2_512 BignumQ.

(** ** Field elements *)

(** The exponent (p + 3) / 8 = 2^252 - 2. *)
Definition Hacl_Bignum_Crecip_crecip_ (out z : list Z) : list Z :=
  let buf := replicate 20 0 in
  let a := slice buf 0 5 in
  let t00 := slice buf 5 5 in
  let b0 := slice buf 10 5 in
  let c0 := slice buf 15 5 in
  let a := Hacl_Bignum_Fsquare_fsquare_times (T := T) a z 1 in
  let t00 := Hacl_Bignum_Fsquare_fsquare_times (T := T) t00 a 2 in
  let b0 := Hacl_Bignum_Fmul_fmul (T := T) b0 t00 z in
  let a := Hacl_Bignum_Fmul_fmul (T := T) a b0 a in
  let t00 := Hacl_Bignum_Fsquare_fsquare_times (T := T) t00 a 1 in
  let b0 := Hacl_Bignum_Fmul_fmul (T := T) b0 t00 b0 in
  let t01 := Hacl_Bignum_Fsquare_fsquare_times (T := T) t00 b0 5 in
  let b1 := Hacl_Bignum_Fmul_fmul (T := T) b0 t01 b0 in
  let t01 := Hacl_Bignum_Fsquare_fsquare_times (T := T) t01 b1 10 in
  let c0 := Hacl_Bignum_Fmul_fmul (T := T) c0 t01 b1 in
  let t01 := Hacl_Bignum_Fsquare_fsquare_times (T := T) t01 c0 20 in
  let t01 := Hacl_Bignum_Fmul_fmul (T := T) t01 t01 c0 in
  let t01 := Hacl_Bignum_Fsquare_fsquare_times_inplace (T := T) t01 10 in
  let b1 := Hacl_Bignum_Fmul_fmul (T := T) b1 t01 b1 in
  let t0 := Hacl_Bignum_Fsquare_fsquare_times (T := T) t01 b1 50 in
  let a1 := Hacl_Bignum_Fsquare_fsquare_times (T := T) a z 1 in
  let c := Hacl_Bignum_Fmul_fmul (T := T) c0 t0 b1 in
  let t0 := Hacl_Bignum_Fsquare_fsquare_times (T := T) t0 c 100 in
  let t0 := Hacl_Bignum_Fmul_fmul (T := T) t0 t0 c in
  let t0 := Hacl_Bignum_Fsquare_fsquare_times_inplace (T := T) t0 50 in
  let t0 := Hacl_Bignum_Fmul_fmul (T := T) t0 t0 b1 in
  let t0 := Hacl_Bignum_Fsquare_fsquare_times_inplace (T := T) t0 2 in
  Hacl_Bignum_Fmul_fmul (T := T) out t0 a1.

Definition Hacl_EC_Format_reduce (out : list Z) : list Z :=
  let out := Hacl_EC_Format_fcontract_first_carry_full out in
  let out := Hacl_EC_Format_fcontract_second_carry_full out in
  Hacl_EC_Format_fcontract_trim out.

Definition Hacl_Bignum25519_fsum (a b : list Z) : list Z := Hacl_Bignum_fsum a b.

Definition Hacl_Bignum25519_fdifference (a b : list Z) : list Z := Hacl_Bignum_fdifference a b.

Definition Hacl_Bignum25519_reduce_513 (a : list Z) : list Z :=
  let t0 := a.[0] in
  let t1 := a.[1] in
  let t2 := a.[2] in
  let t3 := a.[3] in
  let t4 := a.[4] in
  let t1_ := (t1 + (t0 >> 51))%u64 in
  let t0_ := (t0 & 0x7ffffffffffff)%u64 in
  let t2_ := (t2 + (t1_ >> 51))%u64 in
  let t1__ := (t1_ & 0x7ffffffffffff)%u64 in
  let t3_ := (t3 + (t2_ >> 51))%u64 in
  let t2__ := (t2_ & 0x7ffffffffffff)%u64 in
  let t4_ := (t4 + (t3_ >> 51))%u64 in
  let t3__ := (t3_ & 0x7ffffffffffff)%u64 in
  let a := Hacl_Lib_Create64_make_h64_5 a t0_ t1__ t2__ t3__ t4_ in
  let a := Hacl_Bignum_Modulo_carry_top a in
  let i0 := a.[0] in
  let i1 := a.[1] in
  let i0_ := (i0 & 0x7ffffffffffff)%u64 in
  let i1_ := (i1 + (i0 >> 51))%u64 in
  let a := a.[0 <- i0_] in
  a.[1 <- i1_].

Definition Hacl_Bignum25519_fdifference_reduced (a b : list Z) : list Z :=
  let a := Hacl_Bignum25519_fdifference a b in
  Hacl_Bignum25519_reduce_513 a.

Definition Hacl_Bignum25519_fmul (out a b : list Z) : list Z := Hacl_Bignum_fmul (T := T) out a b.

Definition Hacl_Bignum25519_times_2 (out a : list Z) : list Z :=
  let a0 := a.[0] in
  let a1 := a.[1] in
  let a2 := a.[2] in
  let a3 := a.[3] in
  let a4 := a.[4] in
  let o0 := (2 * a0)%u64 in
  let o1 := (2 * a1)%u64 in
  let o2 := (2 * a2)%u64 in
  let o3 := (2 * a3)%u64 in
  let o4 := (2 * a4)%u64 in
  Hacl_Lib_Create64_make_h64_5 out o0 o1 o2 o3 o4.

Definition Hacl_Bignum25519_times_d (out a : list Z) : list Z :=
  let d1 := replicate 5 0 in
  let d1 := Hacl_Lib_Create64_make_h64_5 d1
    0x00034dca135978a3 0x0001a8283b156ebd 0x0005e7a26001c029 0x000739c663a03cbb 0x00052036cee2b6ff in
  Hacl_Bignum25519_fmul out d1 a.

Definition Hacl_Bignum25519_times_2d (out a : list Z) : list Z :=
  let d2 := replicate 5 0 in
  let d2 := Hacl_Lib_Create64_make_h64_5 d2
    0x00069b9426b2f159 0x00035050762add7a 0x0003cf44c0038052 0x0006738cc7407977 0x0002406d9dc56dff in
  Hacl_Bignum25519_fmul out a d2.

Definition Hacl_Bignum25519_fsquare (out a : list Z) : list Z :=
  let tmp := replicate 5 (u128_of_u64 0 : T) in
  let out := blit out 0 (take 5 a) in
  snd (Hacl_Bignum_Fsquare_fsquare_ tmp out).

Definition Hacl_Bignum25519_inverse (out a : list Z) : list Z := Hacl_Bignum_Crecip_crecip (T := T) out a.

Definition Hacl_Bignum25519_reduce (out : list Z) : list Z := Hacl_EC_Format_reduce out.

(** ** Points in extended coordinates *)

(** The coordinate a pointer into the point designates. *)
Definition Hacl_Impl_Ed25519_ExtPoint_getx (p : list Z) : list Z := slice p 0 5.
Definition Hacl_Impl_Ed25519_ExtPoint_gety (p : list Z) : list Z := slice p 5 5.
Definition Hacl_Impl_Ed25519_ExtPoint_getz (p : list Z) : list Z := slice p 10 5.
Definition Hacl_Impl_Ed25519_ExtPoint_gett (p : list Z) : list Z := slice p 15 5.

Definition Hacl_Impl_Ed25519_G_make_g (g1 : list Z) : list Z :=
  let gx := Hacl_Impl_Ed25519_ExtPoint_getx g1 in
  let gy := Hacl_Impl_Ed25519_ExtPoint_gety g1 in
  let gz := Hacl_Impl_Ed25519_ExtPoint_getz g1 in
  let gt1 := Hacl_Impl_Ed25519_ExtPoint_gett g1 in
  let gx := Hacl_Lib_Create64_make_h64_5 gx
    0x00062d608f25d51a 0x000412a4b4f6592a 0x00075b7171a4b31d 0x0001ff60527118fe 0x000216936d3cd6e5 in
  let gy := Hacl_Lib_Create64_make_h64_5 gy
    0x0006666666666658 0x0004cccccccccccc 0x0001999999999999 0x0003333333333333 0x0006666666666666 in
  let gz := Hacl_Lib_Create64_make_h64_5 gz 0x0000000000000001 0 0 0 0 in
  let gt1 := Hacl_Lib_Create64_make_h64_5 gt1
    0x00068ab3a5b7dda3 0x00000eea2a5eadbb 0x0002af8df483c27e 0x000332b375274732 0x00067875f0fd78b7 in
  gx ++ gy ++ gz ++ gt1.

Definition Hacl_Impl_Store51_store_51_ (output input : list Z) : list Z :=
  let t0 := input.[0] in
  let t1 := input.[1] in
  let t2 := input.[2] in
  let t3 := input.[3] in
  let t4 := input.[4] in
  let o0 := ((t1 << 51) .| t0)%u64 in
  let o1 := ((t2 << 38) .| (t1 >> 13))%u64 in
  let o2 := ((t3 << 25) .| (t2 >> 26))%u64 in
  let o3 := ((t4 << 12) .| (t3 >> 39))%u64 in
  let output := store64_le output 0 o0 in
  let output := store64_le output 8 o1 in
  let output := store64_le output 16 o2 in
  store64_le output 24 o3.

Definition Hacl_Impl_Ed25519_PointCompress_x_mod_2 (x : list Z) : Z :=
  let x0 := x.[0] in
  (x0 & 1)%u64.

Definition Hacl_Impl_Ed25519_PointCompress_point_compress (z p : list Z) : list Z :=
  let tmp := replicate 15 0 in
  let zinv := slice tmp 0 5 in
  let x := slice tmp 5 5 in
  let out := slice tmp 10 5 in
  let px := Hacl_Impl_Ed25519_ExtPoint_getx p in
  let py := Hacl_Impl_Ed25519_ExtPoint_gety p in
  let pz := Hacl_Impl_Ed25519_ExtPoint_getz p in
  let zinv := Hacl_Bignum25519_inverse zinv pz in
  let x := Hacl_Bignum25519_fmul x px zinv in
  let x := Hacl_Bignum25519_reduce x in
  let out := Hacl_Bignum25519_fmul out py zinv in
  let out := Hacl_Bignum25519_reduce out in
  let b := Hacl_Impl_Ed25519_PointCompress_x_mod_2 x in
  let z := Hacl_Impl_Store51_store_51_ z out in
  let xbyte := wrap 8 b in
  let o31 := z.[31] in
  z.[31 <- (o31 + (xbyte << 7))%u8].

Definition Hacl_Impl_Ed25519_SwapConditional_swap_conditional_step
    (a_ b_ a b : list Z) (swap1 : Z) : list Z * list Z :=
  let a0 := a.[0] in
  let a1 := a.[1] in
  let a2 := a.[2] in
  let a3 := a.[3] in
  let a4 := a.[4] in
  let b0 := b.[0] in
  let b1 := b.[1] in
  let b2 := b.[2] in
  let b3 := b.[3] in
  let b4 := b.[4] in
  let x0 := (swap1 & (a0 ^^ b0))%u64 in
  let x1 := (swap1 & (a1 ^^ b1))%u64 in
  let x2 := (swap1 & (a2 ^^ b2))%u64 in
  let x3 := (swap1 & (a3 ^^ b3))%u64 in
  let x4 := (swap1 & (a4 ^^ b4))%u64 in
  let a0_ := (a0 ^^ x0)%u64 in
  let b0_ := (b0 ^^ x0)%u64 in
  let a1_ := (a1 ^^ x1)%u64 in
  let b1_ := (b1 ^^ x1)%u64 in
  let a2_ := (a2 ^^ x2)%u64 in
  let b2_ := (b2 ^^ x2)%u64 in
  let a3_ := (a3 ^^ x3)%u64 in
  let b3_ := (b3 ^^ x3)%u64 in
  let a4_ := (a4 ^^ x4)%u64 in
  let b4_ := (b4 ^^ x4)%u64 in
  (Hacl_Lib_Create64_make_h64_5 a_ a0_ a1_ a2_ a3_ a4_, Hacl_Lib_Create64_make_h64_5 b_ b0_ b1_ b2_ b3_ b4_).

Definition Hacl_Impl_Ed25519_SwapConditional_swap_conditional
    (a_ b_ a b : list Z) (iswap : Z) : list Z * list Z :=
  let swap1 := (0 - iswap)%u64 in
  let '(ax, bx) := Hacl_Impl_Ed25519_SwapConditional_swap_conditional_step
    (Hacl_Impl_Ed25519_ExtPoint_getx a_) (Hacl_Impl_Ed25519_ExtPoint_getx b_)
    (Hacl_Impl_Ed25519_ExtPoint_getx a) (Hacl_Impl_Ed25519_ExtPoint_getx b) swap1 in
  let '(ay, by_) := Hacl_Impl_Ed25519_SwapConditional_swap_conditional_step
    (Hacl_Impl_Ed25519_ExtPoint_gety a_) (Hacl_Impl_Ed25519_ExtPoint_gety b_)
    (Hacl_Impl_Ed25519_ExtPoint_gety a) (Hacl_Impl_Ed25519_ExtPoint_gety b) swap1 in
  let '(az, bz) := Hacl_Impl_Ed25519_SwapConditional_swap_conditional_step
    (Hacl_Impl_Ed25519_ExtPoint_getz a_) (Hacl_Impl_Ed25519_ExtPoint_getz b_)
    (Hacl_Impl_Ed25519_ExtPoint_getz a) (Hacl_Impl_Ed25519_ExtPoint_getz b) swap1 in
  let '(at_, bt) := Hacl_Impl_Ed25519_SwapConditional_swap_conditional_step
    (Hacl_Impl_Ed25519_ExtPoint_gett a_) (Hacl_Impl_Ed25519_ExtPoint_gett b_)
    (Hacl_Impl_Ed25519_ExtPoint_gett a) (Hacl_Impl_Ed25519_ExtPoint_gett b) swap1 in
  (ax ++ ay ++ az ++ at_, bx ++ by_ ++ bz ++ bt).

(** Each call reads all it needs before it writes, so the buffers may be the
    same. *)
Definition Hacl_Impl_Ed25519_SwapConditional_swap_conditional_inplace
    (a b : list Z) (iswap : Z) : list Z * list Z :=
  let swap1 := (0 - iswap)%u64 in
  let '(ax, bx) := Hacl_Impl_Ed25519_SwapConditional_swap_conditional_step
    (Hacl_Impl_Ed25519_ExtPoint_getx a) (Hacl_Impl_Ed25519_ExtPoint_getx b)
    (Hacl_Impl_Ed25519_ExtPoint_getx a) (Hacl_Impl_Ed25519_ExtPoint_getx b) swap1 in
  let '(ay, by_) := Hacl_Impl_Ed25519_SwapConditional_swap_conditional_step
    (Hacl_Impl_Ed25519_ExtPoint_gety a) (Hacl_Impl_Ed25519_ExtPoint_gety b)
    (Hacl_Impl_Ed25519_ExtPoint_gety a) (Hacl_Impl_Ed25519_ExtPoint_gety b) swap1 in
  let '(az, bz) := Hacl_Impl_Ed25519_SwapConditional_swap_conditional_step
    (Hacl_Impl_Ed25519_ExtPoint_getz a) (Hacl_Impl_Ed25519_ExtPoint_getz b)
    (Hacl_Impl_Ed25519_ExtPoint_getz a) (Hacl_Impl_Ed25519_ExtPoint_getz b) swap1 in
  let '(at_, bt) := Hacl_Impl_Ed25519_SwapConditional_swap_conditional_step
    (Hacl_Impl_Ed25519_ExtPoint_gett a) (Hacl_Impl_Ed25519_ExtPoint_gett b)
    (Hacl_Impl_Ed25519_ExtPoint_gett a) (Hacl_Impl_Ed25519_ExtPoint_gett b) swap1 in
  (ax ++ ay ++ az ++ at_, bx ++ by_ ++ bz ++ bt).

Definition Hacl_Impl_Ed25519_SwapConditional_copy (output input : list Z) : list Z :=
  blit output 0 (take 20 input).

Definition Hacl_Impl_Ed25519_PointAdd_point_add (out p q1 : list Z) : list Z :=
  let tmp := replicate 30 0 in
  let tmp1 := slice tmp 0 5 in
  let tmp2 := slice tmp 5 5 in
  let tmp3 := slice tmp 10 5 in
  let tmp4 := slice tmp 15 5 in
  let tmp5 := slice tmp 20 5 in
  let tmp6 := slice tmp 25 5 in
  let x1 := Hacl_Impl_Ed25519_ExtPoint_getx p in
  let y1 := Hacl_Impl_Ed25519_ExtPoint_gety p in
  let x2 := Hacl_Impl_Ed25519_ExtPoint_getx q1 in
  let y2 := Hacl_Impl_Ed25519_ExtPoint_gety q1 in
  let tmp1 := blit tmp1 0 x1 in
  let tmp2 := blit tmp2 0 x2 in
  let tmp1 := Hacl_Bignum25519_fdifference_reduced tmp1 y1 in
  let tmp2 := Hacl_Bignum25519_fdifference tmp2 y2 in
  let tmp3 := Hacl_Bignum25519_fmul tmp3 tmp1 tmp2 in
  let tmp1 := blit tmp1 0 y1 in
  let tmp2 := blit tmp2 0 y2 in
  let tmp1 := Hacl_Bignum25519_fsum tmp1 x1 in
  let tmp2 := Hacl_Bignum25519_fsum tmp2 x2 in
  let tmp4 := Hacl_Bignum25519_fmul tmp4 tmp1 tmp2 in
  let z1 := Hacl_Impl_Ed25519_ExtPoint_getz p in
  let t1 := Hacl_Impl_Ed25519_ExtPoint_gett p in
  let z2 := Hacl_Impl_Ed25519_ExtPoint_getz q1 in
  let t2 := Hacl_Impl_Ed25519_ExtPoint_gett q1 in
  let tmp1 := Hacl_Bignum25519_times_2d tmp1 t1 in
  let tmp2 := Hacl_Bignum25519_fmul tmp2 tmp1 t2 in
  let tmp1 := Hacl_Bignum25519_times_2 tmp1 z1 in
  let tmp5 := Hacl_Bignum25519_fmul tmp5 tmp1 z2 in
  let tmp1 := blit tmp1 0 tmp3 in
  let tmp6 := blit tmp6 0 tmp2 in
  let tmp1 := Hacl_Bignum25519_fdifference_reduced tmp1 tmp4 in
  let tmp6 := Hacl_Bignum25519_fdifference tmp6 tmp5 in
  let tmp5 := Hacl_Bignum25519_fsum tmp5 tmp2 in
  let tmp4 := Hacl_Bignum25519_fsum tmp4 tmp3 in
  let x3 := Hacl_Impl_Ed25519_ExtPoint_getx out in
  let y3 := Hacl_Impl_Ed25519_ExtPoint_gety out in
  let z3 := Hacl_Impl_Ed25519_ExtPoint_getz out in
  let t3 := Hacl_Impl_Ed25519_ExtPoint_gett out in
  let x3 := Hacl_Bignum25519_fmul x3 tmp1 tmp6 in
  let y3 := Hacl_Bignum25519_fmul y3 tmp5 tmp4 in
  let t3 := Hacl_Bignum25519_fmul t3 tmp1 tmp4 in
  let z3 := Hacl_Bignum25519_fmul z3 tmp5 tmp6 in
  x3 ++ y3 ++ z3 ++ t3.

(** Returns the parts 1 to 4 of [tmp]. *)
Definition Hacl_Impl_Ed25519_PointDouble_point_double_step_1 (p tmp1 tmp2 tmp3 tmp4 : list Z)
    : list Z * list Z * list Z * list Z :=
  let x1 := Hacl_Impl_Ed25519_ExtPoint_getx p in
  let y1 := Hacl_Impl_Ed25519_ExtPoint_gety p in
  let z1 := Hacl_Impl_Ed25519_ExtPoint_getz p in
  let tmp1 := Hacl_Bignum25519_fsquare tmp1 x1 in
  let tmp2 := Hacl_Bignum25519_fsquare tmp2 y1 in
  let tmp3 := Hacl_Bignum25519_fsquare tmp3 z1 in
  let tmp4 := Hacl_Bignum25519_times_2 tmp4 tmp3 in
  let tmp3 := blit tmp3 0 tmp1 in
  let tmp3 := Hacl_Bignum25519_fsum tmp3 tmp2 in
  let tmp3 := Hacl_Bignum25519_reduce_513 tmp3 in
  (tmp1, tmp2, tmp3, tmp4).

(** Returns the parts 2, 4, 5 and 6 of [tmp]. *)
Definition Hacl_Impl_Ed25519_PointDouble_point_double_step_2 (p tmp1 tmp2 tmp3 tmp4 tmp5 tmp6 : list Z)
    : list Z * list Z * list Z * list Z :=
  let x1 := Hacl_Impl_Ed25519_ExtPoint_getx p in
  let y1 := Hacl_Impl_Ed25519_ExtPoint_gety p in
  let tmp5 := blit tmp5 0 x1 in
  let tmp5 := Hacl_Bignum25519_fsum tmp5 y1 in
  let tmp6 := Hacl_Bignum25519_fsquare tmp6 tmp5 in
  let tmp5 := blit tmp5 0 tmp3 in
  let tmp6 := Hacl_Bignum25519_fdifference tmp6 tmp5 in
  let tmp2 := Hacl_Bignum25519_fdifference_reduced tmp2 tmp1 in
  let tmp4 := Hacl_Bignum25519_reduce_513 tmp4 in
  let tmp4 := Hacl_Bignum25519_fsum tmp4 tmp2 in
  (tmp2, tmp4, tmp5, tmp6).

Definition Hacl_Impl_Ed25519_PointDouble_point_double_ (out p tmp : list Z) : list Z :=
  let tmp1 := slice tmp 0 5 in
  let tmp2 := slice tmp 5 5 in
  let tmp3 := slice tmp 10 5 in
  let tmp4 := slice tmp 15 5 in
  let tmp5 := slice tmp 20 5 in
  let tmp6 := slice tmp 25 5 in
  let x3 := Hacl_Impl_Ed25519_ExtPoint_getx out in
  let y3 := Hacl_Impl_Ed25519_ExtPoint_gety out in
  let z3 := Hacl_Impl_Ed25519_ExtPoint_getz out in
  let t3 := Hacl_Impl_Ed25519_ExtPoint_gett out in
  let '(tmp1, tmp2, tmp3, tmp4) := Hacl_Impl_Ed25519_PointDouble_point_double_step_1 p tmp1 tmp2 tmp3 tmp4 in
  let '(tmp2, tmp4, tmp5, tmp6) :=
    Hacl_Impl_Ed25519_PointDouble_point_double_step_2 p tmp1 tmp2 tmp3 tmp4 tmp5 tmp6 in
  let x3 := Hacl_Bignum25519_fmul x3 tmp4 tmp6 in
  let y3 := Hacl_Bignum25519_fmul y3 tmp2 tmp3 in
  let t3 := Hacl_Bignum25519_fmul t3 tmp3 tmp6 in
  let z3 := Hacl_Bignum25519_fmul z3 tmp4 tmp2 in
  x3 ++ y3 ++ z3 ++ t3.

Definition Hacl_Impl_Ed25519_PointDouble_point_double (out p : list Z) : list Z :=
  let tmp := replicate 30 0 in
  Hacl_Impl_Ed25519_PointDouble_point_double_ out p tmp.

(** ** Scalar multiplication *)

Definition Hacl_Impl_Ed25519_Ladder_Step_ith_bit (k1 : list Z) (i : Z) : Z :=
  let q1 := (i >> 3)%u32 in
  let r := (i & 7)%u32 in
  let kq := k1.[Z.to_nat q1] in
  ((kq >> r) & 1)%u8.

Definition Hacl_Impl_Ed25519_Ladder_Step_swap_cond_inplace (p q1 : list Z) (iswap : Z) : list Z * list Z :=
  Hacl_Impl_Ed25519_SwapConditional_swap_conditional_inplace p q1 iswap.

Definition Hacl_Impl_Ed25519_Ladder_Step_swap_cond (p_ q_ p q1 : list Z) (iswap : Z) : list Z * list Z :=
  Hacl_Impl_Ed25519_SwapConditional_swap_conditional p_ q_ p q1 iswap.

(** [b] holds four points: [nq], [nqpq], [nq2] and [nqpq2]. *)
Definition Hacl_Impl_Ed25519_Ladder_Step_loop_step_1 (b k1 : list Z) (ctr i : Z) : list Z :=
  let nq := slice b 0 20 in
  let nqpq := slice b 20 20 in
  let bit := i in
  let '(nq, nqpq) := Hacl_Impl_Ed25519_Ladder_Step_swap_cond_inplace nq nqpq bit in
  nq ++ nqpq ++ drop 40 b.

Definition Hacl_Impl_Ed25519_Ladder_Step_loop_step_2 (b k1 : list Z) (ctr : Z) : list Z :=
  let nq := slice b 0 20 in
  let nqpq := slice b 20 20 in
  let nq2 := slice b 40 20 in
  let nqpq2 := slice b 60 20 in
  let nq2 := Hacl_Impl_Ed25519_PointDouble_point_double nq2 nq in
  let nqpq2 := Hacl_Impl_Ed25519_PointAdd_point_add nqpq2 nq nqpq in
  nq ++ nqpq ++ nq2 ++ nqpq2.

Definition Hacl_Impl_Ed25519_Ladder_Step_loop_step_3 (b k1 : list Z) (ctr i : Z) : list Z :=
  let nq := slice b 0 20 in
  let nqpq := slice b 20 20 in
  let nq2 := slice b 40 20 in
  let nqpq2 := slice b 60 20 in
  let bit := i in
  let '(nq, nqpq) := Hacl_Impl_Ed25519_Ladder_Step_swap_cond nq nqpq nq2 nqpq2 bit in
  nq ++ nqpq ++ nq2 ++ nqpq2.

Definition Hacl_Impl_Ed25519_Ladder_Step_loop_step (b k1 : list Z) (ctr : Z) : list Z :=
  let bit := Hacl_Impl_Ed25519_Ladder_Step_ith_bit k1 ctr in
  let b := Hacl_Impl_Ed25519_Ladder_Step_loop_step_1 b k1 ctr bit in
  let b := Hacl_Impl_Ed25519_Ladder_Step_loop_step_2 b k1 ctr in
  Hacl_Impl_Ed25519_Ladder_Step_loop_step_3 b k1 ctr bit.

Definition Hacl_Impl_Ed25519_Ladder_point_mul_ (b k1 : list Z) : list Z :=
  for_ 0 256 (fun i b => Hacl_Impl_Ed25519_Ladder_Step_loop_step b k1 (256 - Z.of_nat i - 1)%u32) b.

Definition Hacl_Impl_Ed25519_Ladder_make_point_inf (b : list Z) : list Z :=
  let x := slice b 0 5 in
  let y := slice b 5 5 in
  let z := slice b 10 5 in
  let t := slice b 15 5 in
  let x := Hacl_Lib_Create64_make_h64_5 x 0 0 0 0 0 in
  let y := Hacl_Lib_Create64_make_h64_5 y 1 0 0 0 0 in
  let z := Hacl_Lib_Create64_make_h64_5 z 1 0 0 0 0 in
  let t := Hacl_Lib_Create64_make_h64_5 t 0 0 0 0 0 in
  x ++ y ++ z ++ t ++ drop 20 b.

Definition Hacl_Impl_Ed25519_Ladder_point_mul (result scalar q1 : list Z) : list Z :=
  let b := replicate 80 0 in
  let b := Hacl_Impl_Ed25519_Ladder_make_point_inf b in
  let b := at_off b 20 (fun nqpq => Hacl_Impl_Ed25519_SwapConditional_copy nqpq q1) in
  let b := Hacl_Impl_Ed25519_Ladder_point_mul_ b scalar in
  Hacl_Impl_Ed25519_SwapConditional_copy result b.

(** ** Keys *)

Definition Hacl_Impl_Ed25519_SecretExpand_secret_expand (expanded secret : list Z) : list Z :=
  let expanded := Hacl_SHA2_512_hash (T := T) expanded secret 32 in
  let h_low0 := expanded.[0] in
  let h_low31 := expanded.[31] in
  let expanded := expanded.[0 <- (h_low0 & 0xf8)%u8] in
  expanded.[31 <- ((h_low31 & 127) .| 64)%u8].

Definition Hacl_Impl_Ed25519_SecretToPublic_point_mul_g (result scalar : list Z) : list Z :=
  let g1 := replicate 20 0 in
  let g1 := Hacl_Impl_Ed25519_G_make_g g1 in
  Hacl_Impl_Ed25519_Ladder_point_mul result scalar g1.

Definition Hacl_Impl_Ed25519_SecretToPublic_secret_to_public_ (out secret expanded_secret : list Z) : list Z :=
  let a := expanded_secret in
  let res := replicate 20 0 in
  let res := Hacl_Impl_Ed25519_SecretToPublic_point_mul_g res a in
  Hacl_Impl_Ed25519_PointCompress_point_compress out res.

Definition Hacl_Impl_Ed25519_SecretToPublic_secret_to_public (out secret : list Z) : list Z :=
  let expanded := replicate 64 0 in
  let expanded := Hacl_Impl_Ed25519_SecretExpand_secret_expand expanded secret in
  Hacl_Impl_Ed25519_SecretToPublic_secret_to_public_ out secret expanded.

(** ** Comparison and decompression of points *)

Definition Hacl_Impl_Ed25519_PointEqual_eq (a b : list Z) : bool :=
  let a0 := a.[0] in
  let a1 := a.[1] in
  let a2 := a.[2] in
  let a3 := a.[3] in
  let a4 := a.[4] in
  let b0 := b.[0] in
  let b1 := b.[1] in
  let b2 := b.[2] in
  let b3 := b.[3] in
  let b4 := b.[4] in
  (a0 =? b0) && (a1 =? b1) && (a2 =? b2) && (a3 =? b3) && (a4 =? b4).

(** The parts of [tmp] the function writes are scratch of its own. *)
Definition Hacl_Impl_Ed25519_PointEqual_point_equal_1 (p q1 tmp : list Z) : bool :=
  let pxqz := slice tmp 0 5 in
  let qxpz := slice tmp 5 5 in
  let pxqz := Hacl_Bignum25519_fmul pxqz
    (Hacl_Impl_Ed25519_ExtPoint_getx p) (Hacl_Impl_Ed25519_ExtPoint_getz q1) in
  let pxqz := Hacl_Bignum25519_reduce pxqz in
  let qxpz := Hacl_Bignum25519_fmul qxpz
    (Hacl_Impl_Ed25519_ExtPoint_getx q1) (Hacl_Impl_Ed25519_ExtPoint_getz p) in
  let qxpz := Hacl_Bignum25519_reduce qxpz in
  Hacl_Impl_Ed25519_PointEqual_eq pxqz qxpz.

Definition Hacl_Impl_Ed25519_PointEqual_point_equal_2 (p q1 tmp : list Z) : bool :=
  let pyqz := slice tmp 10 5 in
  let qypz := slice tmp 15 5 in
  let pyqz := Hacl_Bignum25519_fmul pyqz
    (Hacl_Impl_Ed25519_ExtPoint_gety p) (Hacl_Impl_Ed25519_ExtPoint_getz q1) in
  let pyqz := Hacl_Bignum25519_reduce pyqz in
  let qypz := Hacl_Bignum25519_fmul qypz
    (Hacl_Impl_Ed25519_ExtPoint_gety q1) (Hacl_Impl_Ed25519_ExtPoint_getz p) in
  let qypz := Hacl_Bignum25519_reduce qypz in
  Hacl_Impl_Ed25519_PointEqual_eq pyqz qypz.

Definition Hacl_Impl_Ed25519_PointEqual_point_equal_ (p q1 tmp : list Z) : bool :=
  let b := Hacl_Impl_Ed25519_PointEqual_point_equal_1 p q1 tmp in
  if b then Hacl_Impl_Ed25519_PointEqual_point_equal_2 p q1 tmp else false.

Definition Hacl_Impl_Ed25519_PointEqual_point_equal (p q1 : list Z) : bool :=
  let tmp := replicate 20 0 in
  Hacl_Impl_Ed25519_PointEqual_point_equal_ p q1 tmp.

Definition Hacl_Impl_Ed25519_Pow2_252m2_pow2_252m2 (out z : list Z) : list Z :=
  Hacl_Bignum_Crecip_crecip_ out z.

Definition Hacl_Impl_Ed25519_RecoverX_is_0 (x : list Z) : bool :=
  let x0 := x.[0] in
  let x1 := x.[1] in
  let x2 := x.[2] in
  let x3 := x.[3] in
  let x4 := x.[4] in
  (x0 =? 0) && (x1 =? 0) && (x2 =? 0) && (x3 =? 0) && (x4 =? 0).

(** [x3] and [t0] are the parts of [tmp] at 5 and 10. *)
Definition Hacl_Impl_Ed25519_RecoverX_recover_x_step_5 (x : list Z) (sign1 : Z) (x3 t0 : list Z) : list Z :=
  let x0 := x3.[0] in
  let x00 := (x0 & 1)%u64 in
  let x3 :=
    if negb (x00 =? sign1) then
      let t0 := Hacl_Lib_Create64_make_h64_5 t0 0 0 0 0 0 in
      let x3 := Hacl_Bignum25519_fdifference x3 t0 in
      let x3 := Hacl_Bignum25519_reduce_513 x3 in
      Hacl_Bignum25519_reduce x3
    else x3 in
  blit x 0 (take 5 x3).

(** The last part: a square root of [x2], when it has one. *)
Definition recover_x_root (x : list Z) (sign1 : Z) (x2 x3 t0 t1 : list Z) : list Z * bool :=
  let x3 := Hacl_Impl_Ed25519_Pow2_252m2_pow2_252m2 x3 x2 in
  let t0 := Hacl_Bignum25519_fsquare t0 x3 in
  let t1 := blit t1 0 x2 in
  let t1 := Hacl_Bignum25519_fdifference t1 t0 in
  let t1 := Hacl_Bignum25519_reduce_513 t1 in
  let t1 := Hacl_Bignum25519_reduce t1 in
  let t1_is_0 := Hacl_Impl_Ed25519_RecoverX_is_0 t1 in
  let x3 :=
    if negb t1_is_0 then
      let sqrt_m1 := replicate 5 0 in
      let sqrt_m1 := Hacl_Lib_Create64_make_h64_5 sqrt_m1
        0x00061b274a0ea0b0 0x0000d5a5fc8f189d 0x0007ef5e9cbd0c60 0x00078595a6804c9e 0x0002b8324804fc1d in
      Hacl_Bignum25519_fmul x3 x3 sqrt_m1
    else x3 in
  let x3 := Hacl_Bignum25519_reduce x3 in
  let t0 := Hacl_Bignum25519_fsquare t0 x3 in
  let t1 := blit t1 0 x2 in
  let t1 := Hacl_Bignum25519_fdifference t1 t0 in
  let t1 := Hacl_Bignum25519_reduce_513 t1 in
  let t1 := Hacl_Bignum25519_reduce t1 in
  let z1 := Hacl_Impl_Ed25519_RecoverX_is_0 t1 in
  if negb z1 then (x, false)
  else (Hacl_Impl_Ed25519_RecoverX_recover_x_step_5 x sign1 x3 t0, true).

Definition Hacl_Impl_Ed25519_RecoverX_recover_x_ (x y : list Z) (sign1 : Z) (tmp : list Z) : list Z * bool :=
  let x20 := slice tmp 0 5 in
  let x30 := slice tmp 5 5 in
  let t00 := slice tmp 10 5 in
  let t10 := slice tmp 15 5 in
  let x0 := y.[0] in
  let x1 := y.[1] in
  let x2 := y.[2] in
  let x3 := y.[3] in
  let x4 := y.[4] in
  let b := (0x7ffffffffffed <=? x0) && (x1 =? 0x7ffffffffffff) && (x2 =? 0x7ffffffffffff) &&
    (x3 =? 0x7ffffffffffff) && (x4 =? 0x7ffffffffffff) in
  if b then (x, false)
  else
    let tmp0 := replicate 25 0 in
    let one10 := slice tmp0 0 5 in
    let y2 := slice tmp0 5 5 in
    let dyyi := slice tmp0 10 5 in
    let dyy := slice tmp0 15 5 in
    let one10 := Hacl_Lib_Create64_make_h64_5 one10 1 0 0 0 0 in
    let y2 := Hacl_Bignum25519_fsquare y2 y in
    let dyy := Hacl_Bignum25519_times_d dyy y2 in
    let dyy := Hacl_Bignum25519_fsum dyy one10 in
    let dyy := Hacl_Bignum25519_reduce_513 dyy in
    let dyyi := Hacl_Bignum25519_inverse dyyi dyy in
    let one10 := Hacl_Bignum25519_fdifference one10 y2 in
    let x20 := Hacl_Bignum25519_fmul x20 dyyi one10 in
    let x20 := Hacl_Bignum25519_reduce x20 in
    let x2_is_0 := Hacl_Impl_Ed25519_RecoverX_is_0 x20 in
    let '(x, z) :=
      if x2_is_0 then
        if sign1 =? 0 then (Hacl_Lib_Create64_make_h64_5 x 0 0 0 0 0, 1) else (x, 0)
      else (x, 2) in
    if z =? 0 then (x, false)
    else if z =? 1 then (x, true)
    else recover_x_root x sign1 x20 x30 t00 t10.

Definition Hacl_Impl_Ed25519_RecoverX_recover_x (x y : list Z) (sign1 : Z) : list Z * bool :=
  let tmp := replicate 20 0 in
  Hacl_Impl_Ed25519_RecoverX_recover_x_ x y sign1 tmp.

Definition Hacl_Impl_Load51_load_51 (output input : list Z) : list Z :=
  Hacl_EC_Format_fexpand output input.

Definition Hacl_Impl_Ed25519_PointDecompress_point_decompress (out s : list Z) : list Z * bool :=
  let tmp := replicate 10 0 in
  let y := slice tmp 0 5 in
  let x := slice tmp 5 5 in
  let s31 := s.[31] in
  let sign1 := (s31 >> 7)%u8 in
  let y := Hacl_Impl_Load51_load_51 y s in
  let '(x, z) := Hacl_Impl_Ed25519_RecoverX_recover_x x y sign1 in
  if negb z then (out, false)
  else
    let outx := Hacl_Impl_Ed25519_ExtPoint_getx out in
    let outy := Hacl_Impl_Ed25519_ExtPoint_gety out in
    let outz := Hacl_Impl_Ed25519_ExtPoint_getz out in
    let outt := Hacl_Impl_Ed25519_ExtPoint_gett out in
    let outx := blit outx 0 x in
    let outy := blit outy 0 y in
    let outz := Hacl_Lib_Create64_make_h64_5 outz 1 0 0 0 0 in
    let outt := Hacl_Bignum25519_fmul outt x y in
    (outx ++ outy ++ outz ++ outt, true).

(** ** Hashes of a message behind one or two prefixes *)

Definition Hacl_Impl_SHA512_Ed25519_2_hash_block_and_rest (out block msg : list Z) (len1 : Z) : list Z :=
  let nblocks := (len1 >> 7)%u32 in
  let rest := (len1 & 127)%u32 in
  let st := replicate 169 0 in
  let st := Hacl_Impl_SHA2_512_init st in
  let st := Hacl_Impl_SHA2_512_update st block in
  let st := Hacl_Impl_SHA2_512_update_multi st msg (Z.to_nat nblocks) in
  let st := Hacl_Impl_SHA2_512_update_last (T := T) st (drop (Z.to_nat (128 * nblocks)%u32) msg) rest in
  Hacl_Impl_SHA2_512_finish st out.

Definition Hacl_Impl_SHA512_Ed25519_1_copy_bytes (output input : list Z) (len1 : Z) : list Z :=
  blit output 0 (take (Z.to_nat len1) input).

Definition Hacl_Impl_SHA512_Ed25519_1_concat_2 (out pre msg : list Z) (len1 : Z) : list Z :=
  let out := Hacl_Impl_SHA512_Ed25519_1_copy_bytes out pre 32 in
  at_off out 32 (fun out => Hacl_Impl_SHA512_Ed25519_1_copy_bytes out msg len1).

Definition Hacl_Impl_SHA512_Ed25519_1_concat_3 (out pre pre2 msg : list Z) (len1 : Z) : list Z :=
  let out := Hacl_Impl_SHA512_Ed25519_1_copy_bytes out pre 32 in
  let out := at_off out 32 (fun out => Hacl_Impl_SHA512_Ed25519_1_copy_bytes out pre2 32) in
  at_off out 64 (fun out => Hacl_Impl_SHA512_Ed25519_1_copy_bytes out msg len1).

Definition Hacl_Impl_SHA512_Ed25519_1_sha512_pre_msg_1 (h prefix input : list Z) (len1 : Z) : list Z :=
  let block := replicate 128 0 in
  let block := Hacl_Impl_SHA512_Ed25519_1_concat_2 block prefix input len1 in
  Hacl_Impl_SHA2_512_hash (T := T) h block (len1 + 32)%u32.

Definition Hacl_Impl_SHA512_Ed25519_1_sha512_pre_pre2_msg_1 (h prefix prefix2 input : list Z) (len1 : Z) : list Z :=
  let block := replicate 128 0 in
  let block := Hacl_Impl_SHA512_Ed25519_1_concat_3 block prefix prefix2 input len1 in
  Hacl_Impl_SHA2_512_hash (T := T) h block (len1 + 64)%u32.

Definition Hacl_Impl_SHA512_Ed25519_3_sha512_pre_msg_2 (h prefix input : list Z) (len1 : Z) : list Z :=
  let input11 := input in
  let input21 := drop 96 input in
  let block := replicate 128 0 in
  let block := Hacl_Impl_SHA512_Ed25519_1_concat_2 block prefix input11 96 in
  Hacl_Impl_SHA512_Ed25519_2_hash_block_and_rest h block input21 (len1 - 96)%u32.

Definition Hacl_Impl_SHA512_Ed25519_3_sha512_pre_msg (h prefix input : list Z) (len1 : Z) : list Z :=
  if len1 <=? 96 then Hacl_Impl_SHA512_Ed25519_1_sha512_pre_msg_1 h prefix input len1
  else Hacl_Impl_SHA512_Ed25519_3_sha512_pre_msg_2 h prefix input len1.

Definition Hacl_Impl_SHA512_Ed25519_3_sha512_pre_pre2_msg_2 (h prefix prefix2 input : list Z) (len1 : Z) : list Z :=
  let input11 := input in
  let input21 := drop 64 input in
  let block := replicate 128 0 in
  let block := Hacl_Impl_SHA512_Ed25519_1_concat_3 block prefix prefix2 input11 64 in
  Hacl_Impl_SHA512_Ed25519_2_hash_block_and_rest h block input21 (len1 - 64)%u32.

Definition Hacl_Impl_SHA512_Ed25519_3_sha512_pre_pre2_msg (h prefix prefix2 input : list Z) (len1 : Z) : list Z :=
  if len1 <=? 64 then Hacl_Impl_SHA512_Ed25519_1_sha512_pre_pre2_msg_1 h prefix prefix2 input len1
  else Hacl_Impl_SHA512_Ed25519_3_sha512_pre_pre2_msg_2 h prefix prefix2 input len1.

Definition Hacl_Impl_SHA512_Ed25519_sha512_pre_msg (h prefix input : list Z) (len1 : Z) : list Z :=
  Hacl_Impl_SHA512_Ed25519_3_sha512_pre_msg h prefix input len1.

Definition Hacl_Impl_SHA512_Ed25519_sha512_pre_pre2_msg (h prefix prefix2 input : list Z) (len1 : Z) : list Z :=
  Hacl_Impl_SHA512_Ed25519_3_sha512_pre_pre2_msg h prefix prefix2 input len1.

Definition Hacl_Impl_Sha512_sha512_pre_msg (h prefix input : list Z) (len1 : Z) : list Z :=
  Hacl_Impl_SHA512_Ed25519_sha512_pre_msg h prefix input len1.

Definition Hacl_Impl_Sha512_sha512_pre_pre2_msg (h prefix prefix2 input : list Z) (len1 : Z) : list Z :=
  Hacl_Impl_SHA512_Ed25519_sha512_pre_pre2_msg h prefix prefix2 input len1.

Definition Hacl_Impl_SHA512_ModQ_sha512_modq_pre_ (out prefix input : list Z) (len1 : Z) (tmp : list Z) : list Z :=
  let hash1 := replicate 64 0 in
  let hash1 := Hacl_Impl_Sha512_sha512_pre_msg hash1 prefix input len1 in
  let tmp := Hacl_Impl_Load56_load_64_bytes tmp hash1 in
  Hacl_Impl_BignumQ_Mul_barrett_reduction (T := T) out tmp.

Definition Hacl_Impl_SHA512_ModQ_sha512_modq_pre (out prefix input : list Z) (len1 : Z) : list Z :=
  let tmp := replicate 10 0 in
  Hacl_Impl_SHA512_ModQ_sha512_modq_pre_ out prefix input len1 tmp.

Definition Hacl_Impl_SHA512_ModQ_sha512_modq_pre_pre2_
    (out prefix prefix2 input : list Z) (len1 : Z) (tmp : list Z) : list Z :=
  let hash1 := replicate 64 0 in
  let hash1 := Hacl_Impl_Sha512_sha512_pre_pre2_msg hash1 prefix prefix2 input len1 in
  let tmp := Hacl_Impl_Load56_load_64_bytes tmp hash1 in
  Hacl_Impl_BignumQ_Mul_barrett_reduction (T := T) out tmp.

Definition Hacl_Impl_SHA512_ModQ_sha512_modq_pre_pre2 (out prefix prefix2 input : list Z) (len1 : Z) : list Z :=
  let tmp := replicate 10 0 in
  Hacl_Impl_SHA512_ModQ_sha512_modq_pre_pre2_ out prefix prefix2 input len1 tmp.

(** ** Verification *)

Definition Hacl_Impl_Ed25519_Verify_Steps_verify_step_1 (r_ signature : list Z) : list Z * bool :=
  let rs := signature in
  Hacl_Impl_Ed25519_PointDecompress_point_decompress r_ rs.

Definition Hacl_Impl_Ed25519_Verify_Steps_verify_step_2 (r msg : list Z) (len1 : Z) (rs public : list Z) : list Z :=
  let r_ := replicate 5 0 in
  let r_ := Hacl_Impl_SHA512_ModQ_sha512_modq_pre_pre2 r_ rs public msg len1 in
  Hacl_Impl_Store56_store_56 r r_.

Definition Hacl_Impl_Ed25519_Verify_Steps_point_mul_g (result scalar : list Z) : list Z :=
  let g1 := replicate 20 0 in
  let g1 := Hacl_Impl_Ed25519_G_make_g g1 in
  Hacl_Impl_Ed25519_Ladder_point_mul result scalar g1.

Definition Hacl_Impl_Ed25519_Verify_Steps_verify_step_4 (s h_ a_ r_ : list Z) : bool :=
  let tmp := replicate 60 0 in
  let hA := slice tmp 0 20 in
  let rhA := slice tmp 20 20 in
  let sB := slice tmp 40 20 in
  let sB := Hacl_Impl_Ed25519_Verify_Steps_point_mul_g sB s in
  let hA := Hacl_Impl_Ed25519_Ladder_point_mul hA h_ a_ in
  let rhA := Hacl_Impl_Ed25519_PointAdd_point_add rhA r_ hA in
  Hacl_Impl_Ed25519_PointEqual_point_equal sB rhA.

Definition Hacl_Impl_Ed25519_Verify_verify__ (public msg : list Z) (len1 : Z) (signature tmp tmp_ : list Z) : bool :=
  let a_ := slice tmp 0 20 in
  let r_ := slice tmp 20 20 in
  let s := slice tmp 40 5 in
  let h_ := tmp_ in
  let '(a_, b) := Hacl_Impl_Ed25519_PointDecompress_point_decompress a_ public in
  if b then
    let rs := signature in
    let '(r_, b_) := Hacl_Impl_Ed25519_Verify_Steps_verify_step_1 r_ signature in
    if b_ then
      let s := Hacl_Impl_Load56_load_32_bytes s (drop 32 signature) in
      let b__ := Hacl_Impl_Ed25519_PointEqual_gte_q s in
      if b__ then false
      else
        let h_ := Hacl_Impl_Ed25519_Verify_Steps_verify_step_2 h_ msg len1 rs public in
        Hacl_Impl_Ed25519_Verify_Steps_verify_step_4 (drop 32 signature) h_ a_ r_
    else false
  else false.

Definition Hacl_Impl_Ed25519_Verify_verify_ (public msg : list Z) (len1 : Z) (signature : list Z) : bool :=
  let tmp := replicate 45 0 in
  let tmp_ := replicate 32 0 in
  Hacl_Impl_Ed25519_Verify_verify__ public msg len1 signature tmp tmp_.

Definition Hacl_Impl_Ed25519_Verify_verify (public msg : list Z) (len1 : Z) (signature : list Z) : bool :=
  Hacl_Impl_Ed25519_Verify_verify_ public msg len1 signature.

(** ** Signing *)

Definition Hacl_Impl_Ed25519_Sign_Steps_point_mul_g (result scalar : list Z) : list Z :=
  let g1 := replicate 20 0 in
  let g1 := Hacl_Impl_Ed25519_G_make_g g1 in
  Hacl_Impl_Ed25519_Ladder_point_mul result scalar g1.

Definition Hacl_Impl_Ed25519_Sign_Steps_point_mul_g_compress (out s : list Z) : list Z :=
  let tmp := replicate 20 0 in
  let tmp := Hacl_Impl_Ed25519_Sign_Steps_point_mul_g tmp s in
  Hacl_Impl_Ed25519_PointCompress_point_compress out tmp.

Definition Hacl_Impl_Ed25519_Sign_Steps_copy_bytes (output input : list Z) (len1 : Z) : list Z :=
  blit output 0 (take (Z.to_nat len1) input).

(** The scratch arrays of the signature: [tmp_bytes] holds the public key at
    96, the two halves of the signature at 160 and 192, the expanded secret at
    224; [tmp_ints] holds [r] at 20, the secret scalar at 45, its product at
    50, [s] at 55 and [h] at 60. *)
Definition Hacl_Impl_Ed25519_Sign_Steps_sign_step_1 (secret tmp_bytes : list Z) : list Z :=
  let a__ := slice tmp_bytes 96 32 in
  let apre := slice tmp_bytes 224 64 in
  let apre := Hacl_Impl_Ed25519_SecretExpand_secret_expand apre secret in
  let tmp_bytes := blit tmp_bytes 224 apre in
  let a := apre in
  let a__ := Hacl_Impl_Ed25519_Sign_Steps_point_mul_g_compress a__ a in
  blit tmp_bytes 96 a__.

Definition Hacl_Impl_Ed25519_Sign_Steps_sign_step_2 (msg : list Z) (len1 : Z) (tmp_bytes tmp_ints : list Z) : list Z :=
  let r := slice tmp_ints 20 5 in
  let apre := drop 224 tmp_bytes in
  let prefix := drop 32 apre in
  let r := Hacl_Impl_SHA512_ModQ_sha512_modq_pre r prefix msg len1 in
  blit tmp_ints 20 r.

Definition Hacl_Impl_Ed25519_Sign_Steps_sign_step_4 (msg : list Z) (len1 : Z) (tmp_bytes tmp_ints : list Z) : list Z :=
  let h := slice tmp_ints 60 5 in
  let a__ := drop 96 tmp_bytes in
  let rs_ := drop 160 tmp_bytes in
  let h := Hacl_Impl_SHA512_ModQ_sha512_modq_pre_pre2 h rs_ a__ msg len1 in
  blit tmp_ints 60 h.

Definition Hacl_Impl_Ed25519_Sign_Steps_sign_step_5 (tmp_bytes tmp_ints : list Z) : list Z * list Z :=
  let r := slice tmp_ints 20 5 in
  let aq := slice tmp_ints 45 5 in
  let ha := slice tmp_ints 50 5 in
  let s := slice tmp_ints 55 5 in
  let h := slice tmp_ints 60 5 in
  let s_ := slice tmp_bytes 192 32 in
  let a := drop 224 tmp_bytes in
  let aq := Hacl_Impl_Load56_load_32_bytes aq a in
  let ha := Hacl_Impl_BignumQ_Mul_mul_modq (T := T) ha h aq in
  let s := Hacl_Impl_BignumQ_Mul_add_modq s r ha in
  let s_ := Hacl_Impl_Store56_store_56 s_ s in
  (blit tmp_bytes 192 s_, blit tmp_ints 45 (aq ++ ha ++ s)).

Definition Hacl_Impl_Ed25519_Sign_append_to_sig (signature a b : list Z) : list Z :=
  let signature := Hacl_Impl_Ed25519_Sign_Steps_copy_bytes signature a 32 in
  at_off signature 32 (fun signature => Hacl_Impl_Ed25519_Sign_Steps_copy_bytes signature b 32).

Definition Hacl_Impl_Ed25519_Sign_sign_ (signature secret msg : list Z) (len1 : Z) : list Z :=
  let tmp_bytes := replicate 352 0 in
  let tmp_ints := replicate 65 0 in
  let tmp_bytes := Hacl_Impl_Ed25519_Sign_Steps_sign_step_1 secret tmp_bytes in
  let tmp_ints := Hacl_Impl_Ed25519_Sign_Steps_sign_step_2 msg len1 tmp_bytes tmp_ints in
  let rb := replicate 32 0 in
  let r := slice tmp_ints 20 5 in
  let rb := Hacl_Impl_Store56_store_56 rb r in
  let rs_0 := slice tmp_bytes 160 32 in
  let rs_0 := Hacl_Impl_Ed25519_Sign_Steps_point_mul_g_compress rs_0 rb in
  let tmp_bytes := blit tmp_bytes 160 rs_0 in
  let tmp_ints := Hacl_Impl_Ed25519_Sign_Steps_sign_step_4 msg len1 tmp_bytes tmp_ints in
  let '(tmp_bytes, tmp_ints) := Hacl_Impl_Ed25519_Sign_Steps_sign_step_5 tmp_bytes tmp_ints in
  let rs_ := drop 160 tmp_bytes in
  let s_ := drop 192 tmp_bytes in
  Hacl_Impl_Ed25519_Sign_append_to_sig signature rs_ s_.

Definition Hacl_Impl_Ed25519_Sign_sign (signature secret msg : list Z) (len1 : Z) : list Z :=
  Hacl_Impl_Ed25519_Sign_sign_ signature secret msg len1.

(** ** The exported interface *)

Definition Hacl_Ed25519_sign (signature secret msg : list Z) (len1 : Z) : list Z :=
  Hacl_Impl_Ed25519_Sign_sign signature secret msg len1.

Definition Hacl_Ed25519_verify (public msg : list Z) (len1 : Z) (signature : list Z) : bool :=
  Hacl_Impl_Ed25519_Verify_verify public msg len1 signature.

Definition Hacl_Ed25519_secret_to_public (out secret : list Z) : list Z :=
  Hacl_Impl_Ed25519_SecretToPublic_secret_to_public out secret.

End Code.
End Ed25519.
