(* ===== verification/Ed25519Proofs.v ===== *)
(** * Ed25519Proofs: the points of Hacl_Ed25519.c

    [Ed25519_Spec] states Ed25519 over the integers modulo 2^255 - 19 the way
    RFC 8032 does: extended coordinates (section 5.1.4), encoding and decoding
    (5.1.2, 5.1.3), keys, signing and verification (5.1.5 to 5.1.7).  This file
    shows that the limb routines of [Ed25519] compute it: field elements, points,
    the ladder, compression and decompression.  [Ed25519Sign] adds the hashes
    and the entry points. *)

From stdpp Require Import base list numbers.
From Stdlib Require Import ZArith Lia Setoid Morphisms Zpow_facts.
From S2P Require Import Prelude Machine UInt128 Curve25519 FieldProofs LadderProofs SHA2 BignumQ Ed25519.

Local Open Scope Z_scope.
Local Open Scope buf_scope.

Module Ed25519_Spec.
Import Curve25519_Spec.

Definition d : Z := 37095705934669439343138083508754565189542113879843219016388785533085940283555.
Definition sqrt_m1 : Z := 19681161376707505956807079304988542015446066515923890162744021073123829784752.

(** A point (X : Y : Z : T), with x = X / Z, y = Y / Z and x y = T / Z. *)
Definition ext_point : Type := Z * Z * Z * Z.

Definition neutral : ext_point := (0, 1, 1, 0).

Definition base_x : Z := 15112221349535400772501151409588531511454012693041857206046113283949847762202.
Definition base_y : Z := 46316835694926478169428394003475163141307993866256225615783033603165251855960.
Definition base : ext_point := (base_x, base_y, 1, fmul base_x base_y).

Definition point_add (P Q : ext_point) : ext_point :=
  let '(X1, Y1, Z1, T1) := P in
  let '(X2, Y2, Z2, T2) := Q in
  let A := fmul (fsub Y1 X1) (fsub Y2 X2) in
  let B := fmul (fadd Y1 X1) (fadd Y2 X2) in
  let C := fmul (fmul (fmul 2 T1) T2) d in
  let D := fmul (fmul 2 Z1) Z2 in
  let E := fsub B A in
  let F := fsub D C in
  let G := fadd D C in
  let H := fadd B A in
  (fmul E F, fmul G H, fmul F G, fmul E H).

Definition point_double (P : ext_point) : ext_point :=
  let '(X1, Y1, Z1, T1) := P in
  let A := fmul X1 X1 in
  let B := fmul Y1 Y1 in
  let C := fmul 2 (fmul Z1 Z1) in
  let H := fadd A B in
  let E := fsub H (fmul (fadd X1 Y1) (fadd X1 Y1)) in
  let G := fsub A B in
  let F := fadd C G in
  (fmul E F, fmul G H, fmul F G, fmul E H).

(** Multiplication by the bits of [k], the most significant first, keeping the
    pair (n P, (n + 1) P). *)
Definition mul_step (pq : ext_point * ext_point) (b : bool) : ext_point * ext_point :=
  let '(P, Q) := cswap b pq in
  cswap b (point_double P, point_add P Q).

Definition point_mul (k : Z) (P : ext_point) : ext_point :=
  fst (fold_left mul_step (scalar_bits 256 k) (neutral, P)).

Definition point_equal (P Q : ext_point) : bool :=
  let '(X1, Y1, Z1, T1) := P in
  let '(X2, Y2, Z2, T2) := Q in
  (fmul X1 Z2 =? fmul X2 Z1) && (fmul Y1 Z2 =? fmul Y2 Z1).

(** The 255 bits of y, and the parity of x above them. *)
Definition point_compress (P : ext_point) : list Z :=
  let '(X, Y, Z, T) := P in
  let zinv := finv Z in
  let x := fmul X zinv in
  let y := fmul Y zinv in
  le_split 32 (y + 2 ^ 255 * (x mod 2)).

(** A square root of (y^2 - 1) / (d y^2 + 1) of the given parity. *)
Definition recover_x (y sign : Z) : option Z :=
  if prime <=? y then None
  else
    let x2 := fmul (fsub (fmul y y) 1) (finv (fadd (fmul d (fmul y y)) 1)) in
    if x2 =? 0 then if sign =? 0 then Some 0 else None
    else
      let x := Zpow_mod x2 ((prime + 3) / 8) prime in
      let x := if fmul x x =? x2 then x else fmul x sqrt_m1 in
      if negb (fmul x x =? x2) then None
      else Some (if x mod 2 =? sign then x else prime - x).

Definition point_decompress (s : list Z) : option ext_point :=
  let y := le_combine s mod 2 ^ 255 in
  let sign := le_combine s / 2 ^ 255 in
  match recover_x y sign with
  | None => None
  | Some x => Some (x, y, 1, fmul x y)
  end.

End Ed25519_Spec.

Section Points.
Context {T : Type} {U128Ops : UInt128Ops T} {U128 : UInt128 T}.
Import Curve25519 BignumQ Ed25519.

(** ** Field elements *)

(** [canon x l]: the limbs of the canonical representative of [x]. *)
Definition canon (x : Z) (l : list Z) : Prop := limbs5 (2 ^ 51) l /\ fval5 l = x mod prime.

Lemma canon_fe x l : canon x l -> fe RED x l.
Proof. intros [Hl E%eq_eqp]. apply limbs51_fe; [done|]. now rewrite E, eqp_mod. Qed.

Lemma reduce_spec x l : fe RED x l -> canon x (Hacl_Bignum25519_reduce l).
Proof. apply contract_spec. Qed.

Lemma reduce_513_spec x l : fe DIF x l -> fe RED x (Hacl_Bignum25519_reduce_513 l).
Proof.
  intros [(a0 & a1 & a2 & a3 & a4 & -> & A0 & A1 & A2 & A3 & A4) <-]. unfold DIF in *.
  unfold Hacl_Bignum25519_reduce_513. buf_simpl. rewrite make_5 by done. rewrite !mask51, !wshr_div by lia.
  assert (0 <= a0 / 2 ^ 51 < 2 ^ 4) by (Z.div_mod_to_equations; lia).
  rewrite (wadd_small 64 a1) by lia. set (c1 := a1 + _).
  assert (0 <= c1 / 2 ^ 51 < 2 ^ 4) by (Z.div_mod_to_equations; lia).
  rewrite (wadd_small 64 a2) by lia. set (c2 := a2 + _).
  assert (0 <= c2 / 2 ^ 51 < 2 ^ 4) by (clearbody c1; Z.div_mod_to_equations; lia).
  rewrite (wadd_small 64 a3) by lia. set (c3 := a3 + _).
  assert (0 <= c3 / 2 ^ 51 < 2 ^ 4) by (clearbody c2; Z.div_mod_to_equations; lia).
  rewrite (wadd_small 64 a4) by lia. set (c4 := a4 + _).
  assert (0 <= c4 / 2 ^ 51 < 2 ^ 4) by (clearbody c3; Z.div_mod_to_equations; lia).
  rewrite carry_top5_spec by (clearbody c1 c2 c3; Z.div_mod_to_equations; lia). buf_simpl.
  rewrite ?mask51, ?wshr_div by lia. set (r0 := _ + 19 * _).
  assert (0 <= r0 / 2 ^ 51 <= 1) by (clearbody c4; Z.div_mod_to_equations; lia).
  rewrite wadd_small by (Z.div_mod_to_equations; lia). unfold RED. split.
  - apply limbs5_intro; try (split; [now apply Z.mod_pos_bound|]);
      try (eapply Z.lt_trans; [now apply Z.mod_pos_bound|lia]); pose proof (Z.mod_pos_bound c1 (2 ^ 51) eq_refl); lia.
  - apply (eqp_multiple (- (c4 / 2 ^ 51))). unfold fval5, prime. subst r0 c4 c3 c2 c1. clear.
    Z.div_mod_to_equations. lia.
Qed.

Lemma fdifference_reduced_spec a b x y : fe RED x a -> fe RED y b ->
  fe RED (y - x) (Hacl_Bignum25519_fdifference_reduced a b).
Proof. intros. apply reduce_513_spec. now apply fdifference_spec. Qed.

Lemma times_2_spec out a x : length out = 5%nat -> fe RED x a -> fe DIF (2 * x) (Hacl_Bignum25519_times_2 out a).
Proof.
  intros Ho [(a0 & a1 & a2 & a3 & a4 & -> & A0 & A1 & A2 & A3 & A4) <-]. unfold RED in *.
  unfold Hacl_Bignum25519_times_2. buf_simpl. rewrite make_5 by done. wnorm.
  split; [apply limbs5_intro; unfold DIF; lia|]. apply (eqp_multiple 0). unfold fval5. ring.
Qed.

Lemma times_d_spec out a x : length out = 5%nat -> fe RED x a ->
  fe RED (Ed25519_Spec.d * x) (Hacl_Bignum25519_times_d (T := T) out a).
Proof.
  intros Ho Ha. apply fmul5_spec; [done| |now apply (fe_weaken RED)].
  split; [apply limbs5_intro; done|now exists 0].
Qed.

Lemma times_2d_spec out a x : length out = 5%nat -> fe RED x a ->
  fe RED (x * (2 * Ed25519_Spec.d)) (Hacl_Bignum25519_times_2d (T := T) out a).
Proof.
  intros Ho Ha. apply fmul5_spec; [done|now apply (fe_weaken RED)|].
  split; [apply limbs5_intro; done|now exists (-1)].
Qed.

Lemma fsquare_spec out a x : length out = 5%nat -> fe DIF x a ->
  fe RED (x * x) (Hacl_Bignum25519_fsquare (T := T) out a).
Proof.
  intros Ho Ha. unfold Hacl_Bignum25519_fsquare. cbv zeta. pose proof (fe_length _ _ _ Ha) as L.
  rewrite take_ge, blit_0_exact by lia. now apply fsquare5_spec.
Qed.

Lemma inverse_spec out z x : length out = 5%nat -> fe RED x z ->
  fe RED (Curve25519_Spec.finv x) (Hacl_Bignum25519_inverse (T := T) out z).
Proof. intros. rewrite finv_eqp. now apply crecip_spec. Qed.

Lemma pow2_252m2_spec out z x : length out = 5%nat -> fe RED x z ->
  fe RED (x ^ (2 ^ 252 - 2)) (Hacl_Impl_Ed25519_Pow2_252m2_pow2_252m2 (T := T) out z).
Proof.
  intros Ho Hz. assert (Hz1 : fpow x 1 z) by (unfold fpow; now rewrite Z.pow_1_r).
  change (fpow x (2 ^ 252 - 2) (Hacl_Bignum_Crecip_crecip_ (T := T) out z)).
  cbv beta delta [Hacl_Bignum_Crecip_crecip_]. do 5 subst_let.
  chain x 2. chain x 8. chain x 9. chain x 11. chain x 22. chain x 31.
  chain x (2 ^ 10 - 2 ^ 5). chain x (2 ^ 10 - 1). chain x (2 ^ 20 - 2 ^ 10). chain x (2 ^ 20 - 1).
  chain x (2 ^ 40 - 2 ^ 20). chain x (2 ^ 40 - 1). chain x (2 ^ 50 - 2 ^ 10). chain x (2 ^ 50 - 1).
  chain x (2 ^ 100 - 2 ^ 50). chain x 2. chain x (2 ^ 100 - 1). chain x (2 ^ 200 - 2 ^ 100).
  chain x (2 ^ 200 - 1). chain x (2 ^ 250 - 2 ^ 50). chain x (2 ^ 250 - 1). chain x (2 ^ 252 - 4).
  chain_val.
Qed.

(** ** Points *)

(** [ext P l]: the twenty limbs [l] represent [P], each coordinate reduced. *)
Definition ext (P : Ed25519_Spec.ext_point) (l : list Z) : Prop :=
  let '(X, Y, Zc, Tc) := P in
  exists lx ly lz lt, l = lx ++ ly ++ lz ++ lt /\ fe RED X lx /\ fe RED Y ly /\ fe RED Zc lz /\ fe RED Tc lt.

Lemma get_app (lx ly lz lt : list Z) :
  length lx = 5%nat -> length ly = 5%nat -> length lz = 5%nat -> length lt = 5%nat ->
  slice (lx ++ ly ++ lz ++ lt) 0 5 = lx /\ slice (lx ++ ly ++ lz ++ lt) 5 5 = ly /\
  slice (lx ++ ly ++ lz ++ lt) 10 5 = lz /\ slice (lx ++ ly ++ lz ++ lt) 15 5 = lt.
Proof. intros. destruct_list lx. destruct_list ly. destruct_list lz. destruct_list lt. done. Qed.

Lemma ext_get X Y Zc Tc l : ext (X, Y, Zc, Tc) l ->
  fe RED X (Hacl_Impl_Ed25519_ExtPoint_getx l) /\ fe RED Y (Hacl_Impl_Ed25519_ExtPoint_gety l) /\
  fe RED Zc (Hacl_Impl_Ed25519_ExtPoint_getz l) /\ fe RED Tc (Hacl_Impl_Ed25519_ExtPoint_gett l).
Proof.
  intros (lx & ly & lz & lt & -> & Hx & Hy & Hz & Ht).
  unfold Hacl_Impl_Ed25519_ExtPoint_getx, Hacl_Impl_Ed25519_ExtPoint_gety, Hacl_Impl_Ed25519_ExtPoint_getz,
    Hacl_Impl_Ed25519_ExtPoint_gett.
  destruct (get_app lx ly lz lt) as (-> & -> & -> & ->); eauto using fe_length.
Qed.

Lemma ext_length P l : ext P l -> length l = 20%nat.
Proof.
  destruct P as [[[X Y] Z] T']. intros (lx & ly & lz & lt & -> & Hx & Hy & Hz & Ht).
  rewrite !length_app. now rewrite (fe_length _ _ _ Hx), (fe_length _ _ _ Hy), (fe_length _ _ _ Hz), (fe_length _ _ _ Ht).
Qed.

Lemma ext_app X Y Zc Tc lx ly lz lt : fe RED X lx -> fe RED Y ly -> fe RED Zc lz -> fe RED Tc lt ->
  ext (X, Y, Zc, Tc) (lx ++ ly ++ lz ++ lt).
Proof. intros. now exists lx, ly, lz, lt. Qed.

Definition eqpt (P Q : Ed25519_Spec.ext_point) : Prop :=
  let '(X1, Y1, Z1, T1) := P in let '(X2, Y2, Z2, T2) := Q in
  X1 ≡p X2 /\ Y1 ≡p Y2 /\ Z1 ≡p Z2 /\ T1 ≡p T2.

Lemma ext_eqpt P Q l : eqpt P Q -> ext P l -> ext Q l.
Proof.
  destruct P as [[[X1 Y1] Z1] T1], Q as [[[X2 Y2] Z2] T2]. intros (E1 & E2 & E3 & E4) (lx & ly & lz & lt & -> & H).
  exists lx, ly, lz, lt. now rewrite <- E1, <- E2, <- E3, <- E4.
Qed.

End Points.

(** Walking over the bindings of a routine on field elements. *)
Ltac fe_solve :=
  first [assumption | reflexivity | eapply fe_length; eassumption | apply length_slice; (lia || (cbn; lia))
        | eapply fe_weaken; [|eassumption]; vm_compute; discriminate].
Ltac step_sum e := step_let (fe DIF e); [eapply (fe_weaken (RED + RED)); [done|apply fsum_spec; [done|fe_solve..]]|].
Ltac step_dif e := step_let (fe DIF e); [apply fdifference_spec; fe_solve|].
Ltac step_difr e := step_let (fe RED e); [apply fdifference_reduced_spec; fe_solve|].
Ltac step_red e := step_let (fe RED e); [apply reduce_513_spec; fe_solve|].
Ltac step_mul e := step_let (fe RED e); [apply fmul5_spec; fe_solve|].
Ltac step_sqr x := step_let (fe RED (x * x)); [apply fsquare_spec; fe_solve|].
Ltac step_copy e := step_let (fe RED e); [apply blit_5; fe_solve|].
Ltac step_twice x := step_let (fe DIF (2 * x)); [apply times_2_spec; fe_solve|].
Ltac step_len n := step_let (fun l : list Z => length l = n); [first [done | apply length_slice; lia]|].
Ltac step_is B e := step_let (fe B e); [assumption|].

Section Addition.
Context {T : Type} {U128Ops : UInt128Ops T} {U128 : UInt128 T}.
Import Curve25519 BignumQ Ed25519.

Lemma point_add_values out p q X1 Y1 Z1 T1 X2 Y2 Z2 T2 :
  length out = 20%nat -> ext (X1, Y1, Z1, T1) p -> ext (X2, Y2, Z2, T2) q ->
  let A := (Y1 - X1) * (Y2 - X2) in
  let B := (Y1 + X1) * (Y2 + X2) in
  let C := T1 * (2 * Ed25519_Spec.d) * T2 in
  let D := 2 * Z1 * Z2 in
  ext ((B - A) * (D - C), (D + C) * (B + A), (D + C) * (D - C), (B - A) * (B + A))
    (Hacl_Impl_Ed25519_PointAdd_point_add (T := T) out p q).
Proof.
  intros Ho (X1l & Y1l & Z1l & T1l)%ext_get (X2l & Y2l & Z2l & T2l)%ext_get A B C D.
  cbv beta delta [Hacl_Impl_Ed25519_PointAdd_point_add]. subst_let.
  do 6 (step_len 5%nat). step_is RED X1. step_is RED Y1. step_is RED X2. step_is RED Y2.
  step_copy X1. step_copy X2. step_difr (Y1 - X1). step_dif (Y2 - X2). step_mul A.
  step_copy Y1. step_copy Y2. step_sum (Y1 + X1). step_sum (Y2 + X2). step_mul B.
  step_is RED Z1. step_is RED T1. step_is RED Z2. step_is RED T2.
  step_let (fe RED (T1 * (2 * Ed25519_Spec.d))); [apply times_2d_spec; fe_solve|]. step_mul C.
  step_twice Z1. step_mul D. step_copy A. step_copy C. step_difr (B - A). step_dif (D - C).
  step_sum (D + C). step_sum (B + A). do 4 (step_len 5%nat).
  step_mul ((B - A) * (D - C)). step_mul ((D + C) * (B + A)). step_mul ((B - A) * (B + A)).
  step_mul ((D + C) * (D - C)). now apply ext_app.
Qed.

Ltac eqpt_ring :=
  repeat split; rewrite ?fmul_eqp, ?fsub_eqp, ?fadd_eqp, ?fmul_eqp, ?fsub_eqp, ?fadd_eqp; apply (eqp_multiple 0); ring.

Lemma point_add_spec out p q P Q : length out = 20%nat -> ext P p -> ext Q q ->
  ext (Ed25519_Spec.point_add P Q) (Hacl_Impl_Ed25519_PointAdd_point_add (T := T) out p q).
Proof.
  destruct P as [[[X1 Y1] Z1] T1], Q as [[[X2 Y2] Z2] T2]. intros Ho Hp Hq.
  pose proof (point_add_values out p q X1 Y1 Z1 T1 X2 Y2 Z2 T2 Ho Hp Hq) as H. cbv zeta in H.
  eapply ext_eqpt; [|exact H]. unfold Ed25519_Spec.point_add. eqpt_ring.
Qed.

Definition double_1_post (X Y Zc : Z) (r : list Z * list Z * list Z * list Z) : Prop :=
  let '(tmp1, tmp2, tmp3, tmp4) := r in
  fe RED (X * X) tmp1 /\ fe RED (Y * Y) tmp2 /\ fe RED (X * X + Y * Y) tmp3 /\ fe DIF (2 * (Zc * Zc)) tmp4.

Lemma double_step_1_spec p tmp1 tmp2 tmp3 tmp4 X Y Zc Tc : ext (X, Y, Zc, Tc) p ->
  length tmp1 = 5%nat -> length tmp2 = 5%nat -> length tmp3 = 5%nat -> length tmp4 = 5%nat ->
  double_1_post X Y Zc (Hacl_Impl_Ed25519_PointDouble_point_double_step_1 (T := T) p tmp1 tmp2 tmp3 tmp4).
Proof.
  intros (Xl & Yl & Zl & _)%ext_get H1 H2 H3 H4. cbv beta delta [Hacl_Impl_Ed25519_PointDouble_point_double_step_1].
  step_is RED X. step_is RED Y. step_is RED Zc. step_sqr X. step_sqr Y. step_sqr Zc. step_twice (Zc * Zc).
  step_copy (X * X). step_sum (X * X + Y * Y). step_red (X * X + Y * Y). now split_and!.
Qed.

Definition double_2_post (X Y Zc : Z) (r : list Z * list Z * list Z * list Z) : Prop :=
  let '(tmp2, tmp4, tmp5, tmp6) := r in
  fe RED (X * X - Y * Y) tmp2 /\ fe DIF (2 * (Zc * Zc) + (X * X - Y * Y)) tmp4 /\
  fe DIF (X * X + Y * Y - (X + Y) * (X + Y)) tmp6.

Lemma double_step_2_spec p tmp1 tmp2 tmp3 tmp4 tmp5 tmp6 X Y Zc Tc : ext (X, Y, Zc, Tc) p ->
  double_1_post X Y Zc (tmp1, tmp2, tmp3, tmp4) -> length tmp5 = 5%nat -> length tmp6 = 5%nat ->
  double_2_post X Y Zc (Hacl_Impl_Ed25519_PointDouble_point_double_step_2 (T := T) p tmp1 tmp2 tmp3 tmp4 tmp5 tmp6).
Proof.
  intros (Xl & Yl & _ & _)%ext_get (H1 & H2 & H3 & H4) H5 H6.
  cbv beta delta [Hacl_Impl_Ed25519_PointDouble_point_double_step_2].
  step_is RED X. step_is RED Y. step_copy X. step_sum (X + Y). step_sqr (X + Y). step_copy (X * X + Y * Y).
  step_dif (X * X + Y * Y - (X + Y) * (X + Y)). step_difr (X * X - Y * Y). step_red (2 * (Zc * Zc)).
  step_sum (2 * (Zc * Zc) + (X * X - Y * Y)). now split_and!.
Qed.

Lemma point_double_spec out p P : length out = 20%nat -> ext P p ->
  ext (Ed25519_Spec.point_double P) (Hacl_Impl_Ed25519_PointDouble_point_double (T := T) out p).
Proof.
  destruct P as [[[X Y] Zc] Tc]. intros Ho Hp.
  cbv beta delta [Hacl_Impl_Ed25519_PointDouble_point_double Hacl_Impl_Ed25519_PointDouble_point_double_].
  subst_let. do 6 (step_len 5%nat). do 4 (step_len 5%nat).
  pose proof (double_step_1_spec p a a0 a1 a2 X Y Zc Tc Hp H H0 H1 H2) as D1.
  destruct (Hacl_Impl_Ed25519_PointDouble_point_double_step_1 p a a0 a1 a2) as [[[tmp1 tmp2] tmp3] tmp4].
  pose proof (double_step_2_spec p tmp1 tmp2 tmp3 tmp4 a3 a4 X Y Zc Tc Hp D1 H3 H4) as D2.
  destruct D1 as (D11 & D12 & D13 & D14).
  destruct (Hacl_Impl_Ed25519_PointDouble_point_double_step_2 p tmp1 tmp2 tmp3 tmp4 a3 a4) as [[[tmp2' tmp4'] tmp5'] tmp6'].
  destruct D2 as (D22 & D24 & D26).
  step_mul ((2 * (Zc * Zc) + (X * X - Y * Y)) * (X * X + Y * Y - (X + Y) * (X + Y))).
  step_mul ((X * X - Y * Y) * (X * X + Y * Y)).
  step_mul ((X * X + Y * Y) * (X * X + Y * Y - (X + Y) * (X + Y))).
  step_mul ((2 * (Zc * Zc) + (X * X - Y * Y)) * (X * X - Y * Y)).
  eapply ext_eqpt; [|apply ext_app; eassumption]. unfold Ed25519_Spec.point_double. eqpt_ring.
Qed.

End Addition.

(** ** The ladder *)

Section Ladder.
Context {T : Type} {U128Ops : UInt128Ops T} {U128 : UInt128 T}.
Import Curve25519 BignumQ Ed25519.

Lemma swap_conditional_step_spec a_ b_ a b x y swap : length a_ = 5%nat -> length b_ = 5%nat ->
  fe RED x a -> fe RED y b ->
  Hacl_Impl_Ed25519_SwapConditional_swap_conditional_step a_ b_ a b (mask 64 swap) =
  Curve25519_Spec.cswap swap (a, b).
Proof.
  intros La Lb [(a0 & a1 & a2 & a3 & a4 & -> & A) _] [(c0 & c1 & c2 & c3 & c4 & -> & C) _]. unfold RED in *.
  destruct (cswap_word swap a0 c0) as [E0 F0], (cswap_word swap a1 c1) as [E1 F1], (cswap_word swap a2 c2) as [E2 F2],
    (cswap_word swap a3 c3) as [E3 F3], (cswap_word swap a4 c4) as [E4 F4]; [unfold word; lia..|].
  unfold Hacl_Impl_Ed25519_SwapConditional_swap_conditional_step. rewrite !make_5 by done. buf_simpl.
  rewrite E0, E1, E2, E3, E4, F0, F1, F2, F3, F4. now destruct swap.
Qed.

Lemma swap_coords (l m : list Z) swap : length l = 20%nat -> length m = 20%nat ->
  let '(ax, bx) := Curve25519_Spec.cswap swap (slice l 0 5, slice m 0 5) in
  let '(ay, by_) := Curve25519_Spec.cswap swap (slice l 5 5, slice m 5 5) in
  let '(az, bz) := Curve25519_Spec.cswap swap (slice l 10 5, slice m 10 5) in
  let '(at_, bt) := Curve25519_Spec.cswap swap (slice l 15 5, slice m 15 5) in
  (ax ++ ay ++ az ++ at_, bx ++ by_ ++ bz ++ bt) = Curve25519_Spec.cswap swap (l, m).
Proof. intros Hl Hm. destruct_list l. destruct_list m. now destruct swap. Qed.

Lemma ed_swap_conditional_spec a_ b_ l m P Q swap : length a_ = 20%nat -> length b_ = 20%nat ->
  ext P l -> ext Q m ->
  Hacl_Impl_Ed25519_Ladder_Step_swap_cond a_ b_ l m (Z.b2z swap) = Curve25519_Spec.cswap swap (l, m).
Proof.
  intros La Lb Hl Hm. pose proof (swap_coords l m swap (ext_length _ _ Hl) (ext_length _ _ Hm)) as E.
  destruct P as [[[X1 Y1] Z1] T1], Q as [[[X2 Y2] Z2] T2].
  apply ext_get in Hl as (Xl & Yl & Zl & Tl). apply ext_get in Hm as (Xm & Ym & Zm & Tm).
  unfold Hacl_Impl_Ed25519_Ladder_Step_swap_cond, Hacl_Impl_Ed25519_SwapConditional_swap_conditional. rewrite swap_mask.
  rewrite (swap_conditional_step_spec _ _ _ _ _ _ swap) with (3 := Xl) (4 := Xm) by (apply length_slice; lia).
  rewrite (swap_conditional_step_spec _ _ _ _ _ _ swap) with (3 := Yl) (4 := Ym) by (apply length_slice; lia).
  rewrite (swap_conditional_step_spec _ _ _ _ _ _ swap) with (3 := Zl) (4 := Zm) by (apply length_slice; lia).
  rewrite (swap_conditional_step_spec _ _ _ _ _ _ swap) with (3 := Tl) (4 := Tm) by (apply length_slice; lia).
  now destruct swap.
Qed.

Lemma ed_swap_inplace_spec l m P Q swap : ext P l -> ext Q m ->
  Hacl_Impl_Ed25519_Ladder_Step_swap_cond_inplace l m (Z.b2z swap) = Curve25519_Spec.cswap swap (l, m).
Proof. intros Hl Hm. apply (ed_swap_conditional_spec l m l m P Q); eauto using ext_length. Qed.

Lemma ith_bit_spec k i : bytes k -> (32 <= length k)%nat -> 0 <= i < 256 ->
  Hacl_Impl_Ed25519_Ladder_Step_ith_bit k i = Z.b2z (Z.testbit (le_combine (take 32 k)) i).
Proof.
  intros Hk Hl Hi. unfold Hacl_Impl_Ed25519_Ladder_Step_ith_bit. cbv zeta.
  change (Z.land i 7) with (Z.land i (Z.ones 3)). rewrite Z.land_ones, (wshr_div i 3) by lia. change (2 ^ 3) with 8.
  rewrite le_combine_testbit by ((apply Forall_take; done) || (rewrite length_take; lia)).
  assert (H : 0 <= i / 8 < 32) by (Z.div_mod_to_equations; lia).
  rewrite lookup_total_take, decide_True by lia. rewrite Z.testbit_spec' by (apply Z.mod_pos_bound; lia).
  rewrite wshr_div by (pose proof (Z.mod_pos_bound i 8 eq_refl); lia).
  now apply (Z_land_ones_lit _ 1 1).
Qed.

(** The state of the ladder: two points, and forty limbs of scratch. *)
Definition ed_ladder_inv (pq : Ed25519_Spec.ext_point * Ed25519_Spec.ext_point) (b : list Z) : Prop :=
  exists l m r, b = l ++ m ++ r /\ ext (fst pq) l /\ ext (snd pq) m /\ length r = 40%nat.

Lemma slice_parts (l m r : list Z) n : length l = 20%nat -> length m = 20%nat -> length r = n ->
  slice (l ++ m ++ r) 0 20 = l /\ slice (l ++ m ++ r) 20 20 = m /\ drop 40 (l ++ m ++ r) = r /\
  slice (l ++ m ++ r) 40 20 = slice r 0 20 /\ slice (l ++ m ++ r) 60 20 = slice r 20 20.
Proof. intros Hl Hm Hr. destruct_list l. destruct_list m. now split_and!. Qed.

Lemma loop_step_spec b k ctr pq : ed_ladder_inv pq b -> bytes k -> (32 <= length k)%nat -> 0 <= ctr < 256 ->
  ed_ladder_inv (Ed25519_Spec.mul_step pq (Z.testbit (le_combine (take 32 k)) ctr))
    (Hacl_Impl_Ed25519_Ladder_Step_loop_step (T := T) b k ctr).
Proof.
  intros (l & m & r & -> & Hl & Hm & Hr) Hk Lk Hc. unfold Hacl_Impl_Ed25519_Ladder_Step_loop_step.
  rewrite ith_bit_spec by done. set (bit := Z.testbit _ ctr). cbv zeta.
  pose proof (ext_length _ _ Hl) as Ll. pose proof (ext_length _ _ Hm) as Lm.
  unfold Hacl_Impl_Ed25519_Ladder_Step_loop_step_1. destruct (slice_parts l m r _ Ll Lm Hr) as (-> & -> & -> & _).
  rewrite (ed_swap_inplace_spec l m _ _ bit Hl Hm). destruct pq as [P Q]. cbn [fst snd] in *.
  assert (Hs : exists l' m' P' Q', Curve25519_Spec.cswap bit (l, m) = (l', m') /\
    Curve25519_Spec.cswap bit (P, Q) = (P', Q') /\ ext P' l' /\ ext Q' m') by (destruct bit; now repeat eexists).
  destruct Hs as (l' & m' & P' & Q' & -> & EP & Hl' & Hm').
  pose proof (ext_length _ _ Hl') as Ll'. pose proof (ext_length _ _ Hm') as Lm'.
  unfold Hacl_Impl_Ed25519_Ladder_Step_loop_step_2. destruct (slice_parts l' m' r _ Ll' Lm' Hr) as (-> & -> & _ & -> & ->).
  pose proof (point_double_spec (slice r 0 20) l' P' ltac:(apply length_slice; lia) Hl') as HD.
  pose proof (point_add_spec (slice r 20 20) l' m' P' Q' ltac:(apply length_slice; lia) Hl' Hm') as HA.
  set (nq2 := Hacl_Impl_Ed25519_PointDouble_point_double _ _) in *. set (nqpq2 := Hacl_Impl_Ed25519_PointAdd_point_add _ _ _) in *.
  pose proof (ext_length _ _ HD) as LD. pose proof (ext_length _ _ HA) as LA. clearbody nq2 nqpq2.
  unfold Hacl_Impl_Ed25519_Ladder_Step_loop_step_3.
  destruct (slice_parts l' m' (nq2 ++ nqpq2) _ Ll' Lm' eq_refl) as (-> & -> & _ & -> & ->).
  replace (slice (nq2 ++ nqpq2) 0 20) with nq2 by (destruct_list nq2; done).
  replace (slice (nq2 ++ nqpq2) 20 20) with nqpq2 by (destruct_list nq2; destruct_list nqpq2; done).
  rewrite (ed_swap_conditional_spec l' m' nq2 nqpq2 _ _ bit Ll' Lm' HD HA).
  unfold Ed25519_Spec.mul_step. rewrite EP.
  destruct bit; cbn [Curve25519_Spec.cswap fst snd]; eexists _, _, _; (split; [reflexivity|]); rewrite length_app; split_and!; (done || lia).
Qed.

Lemma bits_down n k : Curve25519_Spec.scalar_bits n k = (fun i => Z.testbit k (Z.of_nat n - Z.of_nat i - 1)) <$> seq 0 n.
Proof.
  unfold Curve25519_Spec.scalar_bits. induction n as [|n IH]; [done|].
  rewrite seq_S at 1. change (seq 0 (S n)) with (0%nat :: seq 1 n). rewrite reverse_snoc, !fmap_cons, IH.
  f_equal; [f_equal; lia|]. rewrite <- fmap_S_seq, <- list_fmap_compose.
  apply list_fmap_ext. intros i j _. unfold compose. f_equal. lia.
Qed.

Lemma point_mul__spec b k pq : ed_ladder_inv pq b -> bytes k -> (32 <= length k)%nat ->
  ed_ladder_inv (fold_left Ed25519_Spec.mul_step (Curve25519_Spec.scalar_bits 256 (le_combine (take 32 k))) pq)
    (Hacl_Impl_Ed25519_Ladder_point_mul_ (T := T) b k).
Proof.
  intros Hb Hk Lk. rewrite bits_down. set (f := fun i : nat => Z.testbit _ _).
  refine (for_ind (fun i s => ed_ladder_inv (fold_left Ed25519_Spec.mul_step (f <$> seq 0 i) pq) s) 0 256 _ b _ _ _);
    [lia|exact Hb|]. intros i s Hi IH.
  rewrite seq_S, fmap_app, fold_left_app, (wsub_small 32 256), wsub_small by lia. subst f. cbn [fmap list_fmap fold_left].
  replace (Z.of_nat 256 - Z.of_nat (0 + i) - 1) with (256 - Z.of_nat i - 1) by lia.
  apply loop_step_spec; [exact IH|done|done|lia].
Qed.

Lemma fe_literal x l : limbs5 RED l -> fval5 l = x -> fe RED x l.
Proof. intros Hl <-. now split. Qed.

Lemma copy_spec (output input : list Z) : length output = 20%nat -> (20 <= length input)%nat ->
  Hacl_Impl_Ed25519_SwapConditional_copy output input = take 20 input.
Proof. intros Ho Hi. apply blit_0_exact. rewrite length_take. lia. Qed.

Lemma ed_point_mul_spec result k q Q : length result = 20%nat -> bytes k -> (32 <= length k)%nat -> ext Q q ->
  ext (Ed25519_Spec.point_mul (le_combine (take 32 k)) Q) (Hacl_Impl_Ed25519_Ladder_point_mul (T := T) result k q).
Proof.
  intros Hr Hk Lk Hq. unfold Hacl_Impl_Ed25519_Ladder_point_mul. pose proof (ext_length _ _ Hq) as Lq.
  set (b := Hacl_Impl_Ed25519_Ladder_make_point_inf _).
  change b with ([0; 0; 0; 0; 0; 1; 0; 0; 0; 0; 1; 0; 0; 0; 0; 0; 0; 0; 0; 0] ++ replicate 20 0 ++ replicate 40 0). clear b.
  set (l := [0; 0; 0; 0; 0; 1; 0; 0; 0; 0; 1; 0; 0; 0; 0; 0; 0; 0; 0; 0]). unfold at_off.
  change (take 20 (l ++ replicate 20 0 ++ replicate 40 0)) with l.
  change (drop 20 (l ++ replicate 20 0 ++ replicate 40 0)) with (replicate 20 0 ++ replicate 40 0).
  replace (Hacl_Impl_Ed25519_SwapConditional_copy (replicate 20 0 ++ replicate 40 0) q) with (q ++ replicate 40 0)
    by (destruct_list q; reflexivity).
  assert (Hi : ed_ladder_inv (Ed25519_Spec.neutral, Q) (l ++ q ++ replicate 40 0)).
  { exists l, q, (replicate 40 0). split_and!; [done| |done|done].
    exists [0; 0; 0; 0; 0], [1; 0; 0; 0; 0], [1; 0; 0; 0; 0], [0; 0; 0; 0; 0].
    split; [done|]. split_and!; (apply fe_literal; [apply limbs5_intro; done|done]). }
  destruct (point_mul__spec _ k _ Hi Hk Lk) as (l1 & m1 & r1 & E & H1 & _). cbv zeta. rewrite E.
  pose proof (ext_length _ _ H1) as L1. rewrite copy_spec by (rewrite ?length_app; lia).
  rewrite take_app_length' by lia. exact H1.
Qed.

Lemma make_g_spec g : length g = 20%nat -> ext Ed25519_Spec.base (Hacl_Impl_Ed25519_G_make_g g).
Proof.
  intros Hg. unfold Hacl_Impl_Ed25519_G_make_g. rewrite !make_5 by (apply length_slice; lia).
  apply ext_app; (apply fe_literal; [apply limbs5_intro; done|vm_compute; reflexivity]).
Qed.

Lemma point_mul_g_spec result k : length result = 20%nat -> bytes k -> (32 <= length k)%nat ->
  ext (Ed25519_Spec.point_mul (le_combine (take 32 k)) Ed25519_Spec.base)
    (Hacl_Impl_Ed25519_SecretToPublic_point_mul_g (T := T) result k).
Proof. intros. apply ed_point_mul_spec; [done..|]. now apply make_g_spec. Qed.

End Ladder.

(** ** Encoding, comparison and decoding *)

Section Encoding.
Context {T : Type} {U128Ops : UInt128Ops T} {U128 : UInt128 T}.
Import Curve25519 BignumQ Ed25519.

Lemma store_51_is_contract output input :
  Hacl_Impl_Store51_store_51_ output input = Hacl_EC_Format_fcontract_store output input.
Proof. reflexivity. Qed.

Lemma store_51_spec output l x : length output = 32%nat -> canon x l ->
  Hacl_Impl_Store51_store_51_ output l = le_split 32 (x mod prime).
Proof.
  intros Ho [(a0 & a1 & a2 & a3 & a4 & -> & A0 & A1 & A2 & A3 & A4) <-].
  rewrite store_51_is_contract. now apply store_spec.
Qed.

Lemma canon_parity x l : canon x l -> Z.land l.[0] 1 = (x mod prime) mod 2.
Proof.
  intros [(a0 & a1 & a2 & a3 & a4 & -> & A0 & A1 & A2 & A3 & A4) <-]. buf_simpl.
  rewrite (Z_land_ones_lit a0 1 1) by done. change (2 ^ 1) with 2. unfold fval5. Z.div_mod_to_equations. lia.
Qed.

(** Adding the parity to the top byte. *)
Lemma top_bit_store y b : 0 <= y < 2 ^ 255 -> 0 <= b < 2 ->
  let z := le_split 32 y in
  z.[31 <- (z.[31] + (b << 7))%u8] = le_split 32 (y + 2 ^ 255 * b).
Proof.
  intros Hy Hb. change 32%nat with (31 + 1)%nat. rewrite !le_split_add. cbv zeta.
  assert (L : forall z, length (le_split 31 z) = 31%nat) by (intros; apply length_le_split).
  rewrite lookup_total_app_r, insert_app_r_alt, !L by (rewrite L; lia). change (31 - 31)%nat with 0%nat.
  change (256 ^ Z.of_nat 31) with (2 ^ 248). buf_simpl.
  apply (f_equal2 app).
  - rewrite <- (le_split_mod 31 (y + _)). rewrite <- (le_split_mod 31 y). f_equal.
    change (256 ^ Z.of_nat 31) with (2 ^ 248). replace (y + 2 ^ 255 * b) with (y + 2 ^ 7 * b * 2 ^ 248) by lia.
    now rewrite Z.mod_add.
  - cbn [le_split]. buf_simpl. f_equal. rewrite wshl_small, wadd_small by (Z.div_mod_to_equations; lia). Z.div_mod_to_equations. lia.
Qed.

Lemma point_compress_spec z p P : length z = 32%nat -> ext P p ->
  Hacl_Impl_Ed25519_PointCompress_point_compress (T := T) z p = Ed25519_Spec.point_compress P.
Proof.
  destruct P as [[[X Y] Zc] Tc]. intros Hz (Xl & Yl & Zl & _)%ext_get.
  unfold Hacl_Impl_Ed25519_PointCompress_point_compress. cbv zeta.
  set (zi := Hacl_Bignum25519_inverse _ _).
  assert (Hi : fe RED (Curve25519_Spec.finv Zc) zi) by now apply inverse_spec. clearbody zi.
  set (x := Hacl_Bignum25519_reduce (Hacl_Bignum25519_fmul _ (Hacl_Impl_Ed25519_ExtPoint_getx p) zi)).
  assert (Hx : canon (X * Curve25519_Spec.finv Zc) x) by (apply reduce_spec, fmul5_spec; fe_solve).
  set (y := Hacl_Bignum25519_reduce _).
  assert (Hy : canon (Y * Curve25519_Spec.finv Zc) y) by (apply reduce_spec, fmul5_spec; fe_solve). clearbody x y.
  rewrite (store_51_spec z y _ Hz Hy). unfold Hacl_Impl_Ed25519_PointCompress_x_mod_2. cbv zeta.
  rewrite (canon_parity _ _ Hx). unfold Ed25519_Spec.point_compress, Curve25519_Spec.fmul.
  rewrite wrap_small by (unfold word; pose proof (Z.mod_pos_bound ((X * Curve25519_Spec.finv Zc) mod prime) 2 eq_refl); lia).
  apply top_bit_store; [|now apply Z.mod_pos_bound].
  pose proof (Z.mod_pos_bound (Y * Curve25519_Spec.finv Zc) prime eq_refl). unfold prime in *. lia.
Qed.

Lemma fval5_inj k l : limbs5 (2 ^ 51) k -> limbs5 (2 ^ 51) l -> fval5 k = fval5 l -> k = l.
Proof.
  intros (a0 & a1 & a2 & a3 & a4 & -> & A0 & A1 & A2 & A3 & A4) (b0 & b1 & b2 & b3 & b4 & -> & B0 & B1 & B2 & B3 & B4).
  unfold fval5. intros E.
  assert (a0 = b0) as -> by lia. assert (a1 = b1) as -> by lia. assert (a2 = b2) as -> by lia.
  assert (a3 = b3) as -> by lia. assert (a4 = b4) as -> by lia. done.
Qed.

Lemma eq_spec k l x y : canon x k -> canon y l ->
  Hacl_Impl_Ed25519_PointEqual_eq k l = (x mod prime =? y mod prime).
Proof.
  intros [Hk Ek] [Hl El]. rewrite <- Ek, <- El. pose proof (fval5_inj k l Hk Hl) as I.
  destruct Hk as (a0 & a1 & a2 & a3 & a4 & -> & _), Hl as (b0 & b1 & b2 & b3 & b4 & -> & _).
  unfold Hacl_Impl_Ed25519_PointEqual_eq. buf_simpl. clear Ek El.
  destruct (Z.eqb_spec (fval5 [a0; a1; a2; a3; a4]) (fval5 [b0; b1; b2; b3; b4])) as [E|N].
  - specialize (I E). injection I as -> -> -> -> ->. now rewrite !Z.eqb_refl.
  - destruct (Z.eqb_spec a0 b0) as [->|]; [|done]. destruct (Z.eqb_spec a1 b1) as [->|]; [|done].
    destruct (Z.eqb_spec a2 b2) as [->|]; [|done]. destruct (Z.eqb_spec a3 b3) as [->|]; [|done].
    destruct (Z.eqb_spec a4 b4) as [->|]; done.
Qed.

Lemma is_0_spec l x : canon x l -> Hacl_Impl_Ed25519_RecoverX_is_0 l = (x mod prime =? 0).
Proof.
  intros Hl. change (x mod prime =? 0) with (x mod prime =? 0 mod prime).
  rewrite <- (eq_spec l [0; 0; 0; 0; 0] x 0 Hl); [reflexivity|].
  split; [apply limbs5_intro; done|done].
Qed.

Lemma point_equal_spec p q P Q : ext P p -> ext Q q ->
  Hacl_Impl_Ed25519_PointEqual_point_equal (T := T) p q = Ed25519_Spec.point_equal P Q.
Proof.
  destruct P as [[[X1 Y1] Z1] T1], Q as [[[X2 Y2] Z2] T2]. intros (X1l & Y1l & Z1l & _)%ext_get (X2l & Y2l & Z2l & _)%ext_get.
  unfold Hacl_Impl_Ed25519_PointEqual_point_equal, Hacl_Impl_Ed25519_PointEqual_point_equal_,
    Hacl_Impl_Ed25519_PointEqual_point_equal_1, Hacl_Impl_Ed25519_PointEqual_point_equal_2. cbv zeta.
  rewrite (eq_spec _ _ (X1 * Z2) (X2 * Z1)) by (apply reduce_spec, fmul5_spec; fe_solve).
  rewrite (eq_spec _ _ (Y1 * Z2) (Y2 * Z1)) by (apply reduce_spec, fmul5_spec; fe_solve).
  reflexivity.
Qed.

(** ** Square roots *)

Lemma mod_sub_eqb a b : ((a - b) mod prime =? 0) = (a mod prime =? b mod prime).
Proof.
  apply eq_true_iff_eq. rewrite !Z.eqb_eq, <- eqp_iff. change 0 with (0 mod prime) at 1. rewrite <- eqp_iff.
  split; intros [k Hk]; exists k; lia.
Qed.

Lemma root_diff t0 t1 x3 l2 x x2 : length t0 = 5%nat -> length t1 = 5%nat -> fe RED x x3 -> canon x2 l2 ->
  canon (x * x - x2) (Hacl_Bignum25519_reduce (Hacl_Bignum25519_reduce_513
    (Hacl_Bignum25519_fdifference (blit t1 0 l2) (Hacl_Bignum25519_fsquare (T := T) t0 x3)))).
Proof.
  intros H0 H1 Hx H2. apply reduce_spec, reduce_513_spec, fdifference_spec; [apply blit_5; [done|now apply canon_fe]|].
  apply fsquare_spec; fe_solve.
Qed.

Lemma root_check t0 t1 x3 l2 x x2 : length t0 = 5%nat -> length t1 = 5%nat -> fe RED x x3 -> canon x2 l2 ->
  Hacl_Impl_Ed25519_RecoverX_is_0 (Hacl_Bignum25519_reduce (Hacl_Bignum25519_reduce_513
    (Hacl_Bignum25519_fdifference (blit t1 0 l2) (Hacl_Bignum25519_fsquare (T := T) t0 x3)))) =
  (Curve25519_Spec.fmul x x =? x2 mod prime).
Proof.
  intros H0 H1 Hx H2. rewrite (is_0_spec _ (x * x - x2)); [apply mod_sub_eqb|]. now apply root_diff.
Qed.

Lemma recover_x_step_5_spec x sign x3 t0 v : length x = 5%nat -> length t0 = 5%nat -> canon v x3 ->
  canon (if v mod prime mod 2 =? sign then v else prime - v) (Hacl_Impl_Ed25519_RecoverX_recover_x_step_5 x sign x3 t0).
Proof.
  intros Lx Lt Hv. unfold Hacl_Impl_Ed25519_RecoverX_recover_x_step_5. cbv zeta. rewrite (canon_parity _ _ Hv).
  assert (E : forall w l, canon w l -> canon w (blit x 0 (take 5 l))).
  { intros w l Hw. pose proof (fe_length _ _ _ (canon_fe _ _ Hw)). now rewrite take_ge, blit_0_exact by lia. }
  destruct (_ =? sign); cbn [negb]; apply E; [done|]. rewrite make_5 by done.
  assert (H : fe DIF (0 - v) (Hacl_Bignum25519_fdifference x3 [0; 0; 0; 0; 0])).
  { apply fdifference_spec; [now apply canon_fe|]. apply fe_literal; [apply limbs5_intro; done|done]. }
  apply reduce_513_spec, reduce_spec in H. destruct H as [H1 H2]. split; [done|]. rewrite H2.
  apply eqp_iff. exists (-1). ring.
Qed.

Definition root_post (r : option Z) (res : list Z * bool) : Prop :=
  match r with
  | None => snd res = false
  | Some v => snd res = true /\ canon v (fst res)
  end.

Definition spec_root (x2 sign : Z) : option Z :=
  let x := Zpow_mod x2 ((prime + 3) / 8) prime in
  let x := if Curve25519_Spec.fmul x x =? x2 then x else Curve25519_Spec.fmul x Ed25519_Spec.sqrt_m1 in
  if negb (Curve25519_Spec.fmul x x =? x2) then None
  else Some (if x mod 2 =? sign then x else prime - x).

Lemma sqrt_m1_fe : fe RED Ed25519_Spec.sqrt_m1
  [0x00061b274a0ea0b0; 0x0000d5a5fc8f189d; 0x0007ef5e9cbd0c60; 0x00078595a6804c9e; 0x0002b8324804fc1d].
Proof. apply fe_literal; [apply limbs5_intro; done|reflexivity]. Qed.

Lemma recover_x_root_spec x sign l2 x3 t0 t1 x2 : length x = 5%nat -> length x3 = 5%nat -> length t0 = 5%nat ->
  length t1 = 5%nat -> canon x2 l2 -> 0 <= x2 < prime ->
  root_post (spec_root x2 sign) (recover_x_root (T := T) x sign l2 x3 t0 t1).
Proof.
  intros Lx L3 L0 L1 H2 B2. cbv beta delta [recover_x_root spec_root].
  set (v := Zpow_mod x2 _ _). assert (Hv : 0 <= v < prime).
  { unfold v. rewrite Zpow_mod_correct by done. now apply Z.mod_pos_bound. }
  step_let (fe RED v).
  { unfold v. rewrite Zpow_mod_correct by done. rewrite eqp_mod. apply pow2_252m2_spec; [done|now apply canon_fe]. }
  rename a into x3'. cbv zeta.
  rewrite (root_check t0 t1 x3' l2 v x2 L0 L1 H H2), (Z.mod_small x2) by done.
  set (w := if _ =? x2 then v else _).
  set (x3'' := Hacl_Bignum25519_reduce (if negb _ then _ else _)).
  assert (Hw : canon w x3'').
  { unfold w, x3''. destruct (_ =? x2); cbn [negb]; apply reduce_spec; [done|]. rewrite fmul_eqp.
    rewrite make_5 by done. apply fmul5_spec; [fe_solve|fe_solve|eapply fe_weaken; [|apply sqrt_m1_fe]; done]. }
  assert (Bw : 0 <= w < prime) by (unfold w; destruct (_ =? x2); [done|now apply Z.mod_pos_bound]).
  clearbody w x3''.
  assert (L0' : length (Hacl_Bignum25519_fsquare (T := T) t0 x3') = 5%nat).
  { eapply fe_length, fsquare_spec; fe_solve. }
  pose proof (fe_length _ _ _ (canon_fe _ _ (root_diff t0 t1 x3' l2 v x2 L0 L1 H H2))) as L1'.
  rewrite (root_check _ _ x3'' l2 w x2 L0' L1' (canon_fe _ _ Hw) H2), (Z.mod_small x2) by done.
  destruct (Curve25519_Spec.fmul w w =? x2); cbn [negb]; [|done]. split; [done|]. cbn [fst].
  rewrite <- (Z.mod_small w prime Bw) at 1.
  apply recover_x_step_5_spec; [exact Lx| |exact Hw].
  apply canon_fe in Hw. eapply fe_length, fsquare_spec; fe_solve.
Qed.

(** The comparison of the limbs of y with those of the prime. *)
Lemma ge_prime_spec l : limbs5 (2 ^ 51) l ->
  (0x7ffffffffffed <=? l.[0]) && (l.[1] =? 0x7ffffffffffff) && (l.[2] =? 0x7ffffffffffff) &&
    (l.[3] =? 0x7ffffffffffff) && (l.[4] =? 0x7ffffffffffff) = (prime <=? fval5 l).
Proof.
  intros (a0 & a1 & a2 & a3 & a4 & -> & B0 & B1 & B2 & B3 & B4). buf_simpl.
  apply eq_true_iff_eq. rewrite !andb_true_iff, !Z.eqb_eq, !Z.leb_le. unfold fval5, prime. lia.
Qed.

Definition spec_x2 (y : Z) : Z :=
  Curve25519_Spec.fmul (Curve25519_Spec.fsub (Curve25519_Spec.fmul y y) 1)
    (Curve25519_Spec.finv (Curve25519_Spec.fadd (Curve25519_Spec.fmul Ed25519_Spec.d (Curve25519_Spec.fmul y y)) 1)).

Lemma recover_x_cases y sign : Ed25519_Spec.recover_x y sign =
  if prime <=? y then None
  else if spec_x2 y =? 0 then if sign =? 0 then Some 0 else None
  else spec_root (spec_x2 y) sign.
Proof. cbv beta zeta delta [Ed25519_Spec.recover_x spec_root spec_x2]. reflexivity. Qed.

Lemma recover_x_spec x ly y sign : length x = 5%nat -> limbs5 (2 ^ 51) ly -> fval5 ly = y ->
  root_post (Ed25519_Spec.recover_x y sign) (Hacl_Impl_Ed25519_RecoverX_recover_x (T := T) x ly sign).
Proof.
  intros Lx Hl Ey. assert (Hy : fe RED y ly) by (apply limbs51_fe; [done|now apply eq_eqp]).
  cbv beta delta [Hacl_Impl_Ed25519_RecoverX_recover_x Hacl_Impl_Ed25519_RecoverX_recover_x_].
  subst_let. do 4 (step_len 5%nat). rename a into x20, a0 into x30, a1 into t00, a2 into t10.
  do 6 subst_let. rewrite (ge_prime_spec ly Hl), Ey, recover_x_cases.
  destruct (prime <=? y); [done|]. cbv iota.
  subst_let. do 4 (step_len 5%nat).
  step_let (fe RED 1); [rewrite make_5 by done; apply fe_literal; [apply limbs5_intro; done|done]|].
  step_sqr y. step_let (fe RED (Ed25519_Spec.d * (y * y))); [apply times_d_spec; fe_solve|].
  step_sum (Ed25519_Spec.d * (y * y) + 1). step_red (Ed25519_Spec.d * (y * y) + 1).
  step_let (fe RED (Curve25519_Spec.finv (Ed25519_Spec.d * (y * y) + 1))); [apply inverse_spec; fe_solve|].
  step_dif (y * y - 1). step_mul (Curve25519_Spec.finv (Ed25519_Spec.d * (y * y) + 1) * (y * y - 1)).
  step_let (canon (spec_x2 y)).
  { apply reduce_spec. unfold spec_x2. rewrite fmul_eqp, fsub_eqp, finv_eqp, fadd_eqp, !fmul_eqp, Z.mul_comm.
    lazymatch goal with H : fe RED (Curve25519_Spec.finv _ * _) _ |- _ => rewrite finv_eqp in H; exact H end. }
  assert (Bx : 0 <= spec_x2 y < prime) by now apply Z.mod_pos_bound.
  lazymatch goal with H : canon (spec_x2 y) _ |- _ => revert Bx H end. generalize (spec_x2 y). intros x2 Bx Hx2.
  subst_let. erewrite is_0_spec by eassumption. rewrite Z.mod_small by done.
  destruct (x2 =? 0); [|cbn [Z.eqb]; now apply recover_x_root_spec].
  destruct (sign =? 0); [|done]. rewrite make_5 by done. split; [done|].
  split; [apply limbs5_intro; done|done].
Qed.

Lemma load_51_take output s : Hacl_Impl_Load51_load_51 output s = Hacl_Impl_Load51_load_51 output (take 32 s).
Proof.
  unfold Hacl_Impl_Load51_load_51, Hacl_EC_Format_fexpand, load64_le. now rewrite !(slice_take s 32) by lia.
Qed.

(** The sign is the top bit of the last byte. *)
Lemma sign_bit s : bytes s -> length s = 32%nat -> wshr s.[31] 7 = le_combine s / 2 ^ 255.
Proof.
  intros Hs Ls. rewrite wshr_div by lia. replace (2 ^ 255) with (256 ^ Z.of_nat 31 * 2 ^ 7) by done.
  rewrite <- Z.div_div, <- le_combine_drop by (done || lia). f_equal.
  destruct (drop 31 s) as [|x [|]] eqn:E; apply (f_equal length) in E as L; rewrite length_drop, Ls in L; try discriminate.
  cbn [le_combine]. rewrite <- (take_drop 31 s), lookup_total_app_r, length_take, E, Ls by (rewrite length_take; lia).
  change (31 - Nat.min 31 32)%nat with 0%nat. cbn [lookup_total list_lookup_total]. lia.
Qed.

Definition decompress_post (out : list Z) (r : option Ed25519_Spec.ext_point) (res : list Z * bool) : Prop :=
  match r with
  | None => res = (out, false)
  | Some P => snd res = true /\ ext P (fst res)
  end.

Lemma point_decompress_spec out s : length out = 20%nat -> bytes s -> (32 <= length s)%nat ->
  decompress_post out (Ed25519_Spec.point_decompress (take 32 s))
    (Hacl_Impl_Ed25519_PointDecompress_point_decompress (T := T) out s).
Proof.
  intros Lo Hs Ls. unfold Hacl_Impl_Ed25519_PointDecompress_point_decompress.
  replace (s.[31]) with ((take 32 s).[31]) by (rewrite lookup_total_take, decide_True; [done|lia]).
  rewrite load_51_take. assert (Hs' : bytes (take 32 s)) by now apply bytes_take.
  assert (Ls' : length (take 32 s) = 32%nat) by (rewrite length_take; lia).
  revert Hs' Ls'. generalize (take 32 s). clear s Hs Ls. intros s Hs Ls. cbv zeta. rewrite sign_bit by done.
  destruct (fexpand_exact (slice (replicate 10 0) 0 5) s eq_refl Hs Ls) as [Hl Ey].
  unfold Ed25519_Spec.point_decompress. set (y := le_combine s mod 2 ^ 255) in *. set (sign := _ / _).
  unfold Hacl_Impl_Load51_load_51. set (ly := Hacl_EC_Format_fexpand _ s) in *.
  pose proof (recover_x_spec (slice (replicate 10 0) 5 5) ly y sign eq_refl Hl Ey) as H.
  assert (Hy : fe RED y ly) by (apply limbs51_fe; [done|now apply eq_eqp]).
  clearbody ly. cbv zeta. destruct (Hacl_Impl_Ed25519_RecoverX_recover_x _ ly sign) as [x z].
  destruct (Ed25519_Spec.recover_x y sign) as [v|]; cbn [root_post fst snd] in H; [|now subst z].
  destruct H as [-> Hx%canon_fe]. cbn [negb]. split; [done|]. cbn [fst]. rewrite make_5 by (apply length_slice; lia).
  apply ext_app; [apply blit_5; [apply length_slice; lia|done]..| |].
  - apply fe_literal; [apply limbs5_intro; done|done].
  - rewrite fmul_eqp. apply fmul5_spec; fe_solve.
Qed.

End Encoding.
