(* ===== verification/Ed25519Sign.v ===== *)
(** * Ed25519Sign: keys, signing and verification of Hacl_Ed25519.c

    [EdDSA_Spec] states key generation, signing and verification of RFC 8032
    over the points of [Ed25519_Spec] and the SHA-512 of [SHA2_Spec].  The
    refinement theorems show that the three exported functions compute it, on
    every branch and for messages of any length below 4 GiB. *)

From stdpp Require Import base list numbers.
From Stdlib Require Import ZArith Lia.
From S2P Require Import Prelude Machine UInt128 Curve25519 FieldProofs LadderProofs SHA2 SHA2Proofs BignumQ Ed25519 Ed25519Proofs.

Local Open Scope Z_scope.
Local Open Scope buf_scope.

Module EdDSA_Spec.
Import Ed25519_Spec.

Definition sha512 : list Z -> list Z := SHA2_Spec.hash SHA2_Spec.sha512.

(** The clamped scalar and the prefix of a secret key. *)
Definition secret_expand (secret : list Z) : Z * list Z :=
  let h := sha512 secret in (Curve25519_Spec.clamp (le_combine (take 32 h)), drop 32 h).

Definition secret_to_public (secret : list Z) : list Z :=
  let '(a, _) := secret_expand secret in point_compress (point_mul a base).

Definition sign (secret msg : list Z) : list Z :=
  let '(a, prefix) := secret_expand secret in
  let A := point_compress (point_mul a base) in
  let r := le_combine (sha512 (prefix ++ msg)) mod order in
  let Rs := point_compress (point_mul r base) in
  let h := le_combine (sha512 (Rs ++ A ++ msg)) mod order in
  Rs ++ le_split 32 ((r + h * a) mod order).

Definition verify (public msg signature : list Z) : bool :=
  match point_decompress public with
  | None => false
  | Some A =>
      let Rs := take 32 signature in
      match point_decompress Rs with
      | None => false
      | Some R =>
          let s := le_combine (drop 32 signature) in
          if order <=? s then false
          else
            let h := le_combine (sha512 (Rs ++ public ++ msg)) mod order in
            point_equal (point_mul s base) (point_add R (point_mul h A))
      end
  end.

End EdDSA_Spec.

(** ** Hashes *)

Section Hashes.
Context {T : Type} {U128Ops : UInt128Ops T} {U128 : UInt128 T}.
Import SHA2_512 Ed25519 EdDSA_Spec.

Lemma length_sha512 m : length (sha512 m) = 64%nat.
Proof.
  unfold sha512, SHA2_Spec.hash. rewrite length_be_concat, length_take.
  rewrite (length_absorb SHA2_Spec.sha512 eq_refl eq_refl (ok512_R _ _) (ok512_wb _ _) (ok512_w _ _)); done.
Qed.

Lemma bytes_sha512 m : bytes (sha512 m).
Proof.
  unfold sha512, SHA2_Spec.hash. generalize (take (SHA2_Spec.hwords SHA2_Spec.sha512)
    (SHA2_Spec.absorb SHA2_Spec.sha512 (SHA2_Spec.H0 SHA2_Spec.sha512) (m ++ SHA2_Spec.padding SHA2_Spec.sha512 (length m)))).
  intros l. induction l as [|w l IH]; [constructor|]. cbn [fmap list_fmap concat]. apply bytes_app. split; [|exact IH].
  apply Forall_rev, bytes_le_split.
Qed.

(** Only the first [len] bytes of the last piece are read. *)
Lemma update_last512_take st data n : (n < 128)%nat ->
  Hacl_Impl_SHA2_512_update_last (T := T) st data (Z.of_nat n) =
  Hacl_Impl_SHA2_512_update_last (T := T) st (take n data) (Z.of_nat n).
Proof.
  intros Hn. unfold Hacl_Impl_SHA2_512_update_last.
  rewrite (wrap_small 32 (Z.of_nat n)), Nat2Z.id, take_take, Nat.min_id by (unfold word; lia). reflexivity.
Qed.

Lemma digest512_rest p st data n out : absorbed512 p st -> (n < 128)%nat -> (n <= length data)%nat ->
  Z.of_nat (length p) < 128 * 2 ^ 64 -> (64 <= length out)%nat ->
  Hacl_Impl_SHA2_512_finish (Hacl_Impl_SHA2_512_update_last (T := T) st data (Z.of_nat n)) out =
  blit out 0 (sha512 (p ++ take n data)).
Proof.
  intros Hst Hn Hd Hp Ho. rewrite update_last512_take by done.
  assert (L : length (take n data) = n) by (rewrite length_take; lia). rewrite <- L at 2.
  apply digest512_spec; [done|lia|done|done].
Qed.

Lemma hash512_prefix input n out : (n <= length input)%nat -> Z.of_nat n < 2 ^ 32 -> (64 <= length out)%nat ->
  Hacl_Impl_SHA2_512_hash (T := T) out input (Z.of_nat n) = blit out 0 (sha512 (take n input)).
Proof.
  intros Hn Hl Ho. unfold Hacl_Impl_SHA2_512_hash. cbv zeta.
  destruct (split_length 128 128 (take n input) eq_refl ltac:(lia)) as (k & r & E1 & E2 & Hnr & Hr).
  rewrite length_take, Nat.min_l in E1, E2, Hnr by lia. rewrite E1, E2, Nat2Z.id, wmul_small by lia.
  replace (Z.to_nat (Z.of_nat k * 128)) with (128 * k)%nat by lia.
  pose proof (update_multi512_absorbed [] _ input k (init512_absorbed (replicate 169 0) eq_refl) ltac:(lia)) as Hst.
  cbn [app] in Hst. rewrite (digest512_rest _ _ _ _ _ Hst); [|rewrite ?length_drop, ?length_take; lia..].
  do 2 f_equal. rewrite Hnr, take_take_drop. done.
Qed.

(** A block, then the message in one call. *)
Lemma hash_block_and_rest_spec out block msg : (128 <= length block)%nat -> Z.of_nat (length msg) < 2 ^ 32 ->
  (64 <= length out)%nat ->
  Hacl_Impl_SHA512_Ed25519_2_hash_block_and_rest (T := T) out block msg (Z.of_nat (length msg)) =
  blit out 0 (sha512 (take 128 block ++ msg)).
Proof.
  intros Hb Hm Ho. unfold Hacl_Impl_SHA512_Ed25519_2_hash_block_and_rest. cbv zeta.
  rewrite (Z_land_ones_lit _ 127 7), wshr_div by (done || lia). change (2 ^ 7) with 128.
  destruct (split_length 128 128 msg eq_refl ltac:(lia)) as (k & r & E1 & E2 & Hkr & Hr).
  rewrite E1, E2, Nat2Z.id, wmul_small by lia. replace (Z.to_nat (128 * Z.of_nat k)) with (128 * k)%nat by lia.
  pose proof (update512_absorbed [] _ block (init512_absorbed (replicate 169 0) eq_refl) Hb) as H1. cbn [app] in H1.
  pose proof (update_multi512_absorbed _ _ msg k H1 ltac:(lia)) as H2.
  rewrite (digest512_rest _ _ _ _ _ H2); [|rewrite ?length_app, ?length_drop, ?length_take; lia..].
  rewrite <- app_assoc, take_take_drop, (take_ge msg) by lia. done.
Qed.

(** The copies that build the first block. *)
Lemma copy_bytes_spec out input n : (n <= length input)%nat ->
  Hacl_Impl_SHA512_Ed25519_1_copy_bytes out input (Z.of_nat n) = take n input ++ drop n out.
Proof.
  intros Hn. unfold Hacl_Impl_SHA512_Ed25519_1_copy_bytes. rewrite Nat2Z.id, blit_0, length_take, Nat.min_l by lia. done.
Qed.

Lemma at_off_app {A} (l r : list A) n f : length l = n -> at_off (l ++ r) n f = l ++ f r.
Proof. intros <-. unfold at_off. now rewrite take_app_length, drop_app_length. Qed.

Lemma concat_2_spec out pre msg n : (32 <= length pre)%nat -> (n <= length msg)%nat ->
  Hacl_Impl_SHA512_Ed25519_1_concat_2 out pre msg (Z.of_nat n) = take 32 pre ++ take n msg ++ drop (32 + n) out.
Proof.
  intros Hp Hn. unfold Hacl_Impl_SHA512_Ed25519_1_concat_2. change 32 with (Z.of_nat 32).
  rewrite copy_bytes_spec by lia. rewrite at_off_app by (rewrite length_take; lia).
  now rewrite copy_bytes_spec, drop_drop.
Qed.

Lemma concat_3_spec out pre pre2 msg n : (32 <= length pre)%nat -> (32 <= length pre2)%nat -> (n <= length msg)%nat ->
  Hacl_Impl_SHA512_Ed25519_1_concat_3 out pre pre2 msg (Z.of_nat n) =
  take 32 pre ++ take 32 pre2 ++ take n msg ++ drop (64 + n) out.
Proof.
  intros Hp Hp2 Hn. unfold Hacl_Impl_SHA512_Ed25519_1_concat_3. change 32 with (Z.of_nat 32).
  rewrite copy_bytes_spec by lia. rewrite at_off_app by (rewrite length_take; lia).
  rewrite copy_bytes_spec by lia. rewrite drop_drop, app_assoc, at_off_app by (rewrite length_app, !length_take; lia).
  now rewrite copy_bytes_spec, drop_drop, <- app_assoc.
Qed.

(** The prefixed hash, for messages that fit the first block and for others. *)
Lemma sha512_pre_msg_spec h prefix msg : (64 <= length h)%nat -> (32 <= length prefix)%nat ->
  Z.of_nat (length msg) < 2 ^ 32 ->
  Hacl_Impl_Sha512_sha512_pre_msg (T := T) h prefix msg (Z.of_nat (length msg)) =
  blit h 0 (sha512 (take 32 prefix ++ msg)).
Proof.
  intros Hh Hp Hm. change (Hacl_Impl_Sha512_sha512_pre_msg (T := T) h prefix msg (Z.of_nat (length msg))) with
    (Hacl_Impl_SHA512_Ed25519_3_sha512_pre_msg (T := T) h prefix msg (Z.of_nat (length msg))).
  unfold Hacl_Impl_SHA512_Ed25519_3_sha512_pre_msg. destruct (Z.leb_spec (Z.of_nat (length msg)) 96) as [Hle|Hgt].
  - unfold Hacl_Impl_SHA512_Ed25519_1_sha512_pre_msg_1. rewrite concat_2_spec, (take_ge msg) by lia. rewrite wadd_small by lia.
    replace (Z.of_nat (length msg) + 32) with (Z.of_nat (32 + length msg)) by lia.
    rewrite hash512_prefix by (rewrite ?length_app, ?length_take, ?length_drop, ?length_replicate; lia).
    rewrite app_assoc, take_app_length' by (rewrite length_app, length_take; lia). done.
  - unfold Hacl_Impl_SHA512_Ed25519_3_sha512_pre_msg_2. change 96 with (Z.of_nat 96).
    rewrite concat_2_spec, wsub_small by lia.
    replace (Z.of_nat (length msg) - Z.of_nat 96) with (Z.of_nat (length (drop 96 msg))) by (rewrite length_drop; lia).
    rewrite hash_block_and_rest_spec by (rewrite ?length_app, ?length_take, ?length_drop, ?length_replicate; lia).
    change (drop (32 + 96) (replicate 128 0)) with (@nil Z). rewrite app_nil_r.
    rewrite (take_ge (_ ++ _)) by (rewrite length_app, !length_take; lia). now rewrite <- app_assoc, take_drop.
Qed.

Lemma sha512_pre_pre2_msg_spec h prefix prefix2 msg : (64 <= length h)%nat -> (32 <= length prefix)%nat ->
  (32 <= length prefix2)%nat -> Z.of_nat (length msg) < 2 ^ 32 ->
  Hacl_Impl_Sha512_sha512_pre_pre2_msg (T := T) h prefix prefix2 msg (Z.of_nat (length msg)) =
  blit h 0 (sha512 (take 32 prefix ++ take 32 prefix2 ++ msg)).
Proof.
  intros Hh Hp Hp2 Hm. change (Hacl_Impl_Sha512_sha512_pre_pre2_msg (T := T) h prefix prefix2 msg (Z.of_nat (length msg))) with
    (Hacl_Impl_SHA512_Ed25519_3_sha512_pre_pre2_msg (T := T) h prefix prefix2 msg (Z.of_nat (length msg))).
  unfold Hacl_Impl_SHA512_Ed25519_3_sha512_pre_pre2_msg. destruct (Z.leb_spec (Z.of_nat (length msg)) 64) as [Hle|Hgt].
  - unfold Hacl_Impl_SHA512_Ed25519_1_sha512_pre_pre2_msg_1. rewrite concat_3_spec, (take_ge msg) by lia. rewrite wadd_small by lia.
    replace (Z.of_nat (length msg) + 64) with (Z.of_nat (64 + length msg)) by lia.
    rewrite hash512_prefix by (rewrite ?length_app, ?length_take, ?length_drop, ?length_replicate; lia).
    rewrite !app_assoc, take_app_length' by (rewrite !length_app, !length_take; lia). done.
  - unfold Hacl_Impl_SHA512_Ed25519_3_sha512_pre_pre2_msg_2. change 64 with (Z.of_nat 64).
    rewrite concat_3_spec, wsub_small by lia.
    replace (Z.of_nat (length msg) - Z.of_nat 64) with (Z.of_nat (length (drop 64 msg))) by (rewrite length_drop; lia).
    rewrite hash_block_and_rest_spec by (rewrite ?length_app, ?length_take, ?length_drop, ?length_replicate; lia).
    change (drop (64 + 64) (replicate 128 0)) with (@nil Z). rewrite app_nil_r.
    rewrite (take_ge (_ ++ _)) by (rewrite !length_app, !length_take; lia). now rewrite <- !app_assoc, take_drop.
Qed.

Lemma sha512_modq_pre_spec out prefix msg : length out = 5%nat -> (32 <= length prefix)%nat ->
  Z.of_nat (length msg) < 2 ^ 32 ->
  scal (le_combine (sha512 (take 32 prefix ++ msg)) mod order)
    (Hacl_Impl_SHA512_ModQ_sha512_modq_pre (T := T) out prefix msg (Z.of_nat (length msg))).
Proof.
  intros Ho Hp Hm. unfold Hacl_Impl_SHA512_ModQ_sha512_modq_pre, Hacl_Impl_SHA512_ModQ_sha512_modq_pre_. cbv zeta.
  rewrite sha512_pre_msg_spec, blit_0_exact by (done || now rewrite length_sha512).
  apply scalar_reduce; [done|done|apply bytes_sha512|apply length_sha512].
Qed.

Lemma sha512_modq_pre_pre2_spec out prefix prefix2 msg : length out = 5%nat -> (32 <= length prefix)%nat ->
  (32 <= length prefix2)%nat -> Z.of_nat (length msg) < 2 ^ 32 ->
  scal (le_combine (sha512 (take 32 prefix ++ take 32 prefix2 ++ msg)) mod order)
    (Hacl_Impl_SHA512_ModQ_sha512_modq_pre_pre2 (T := T) out prefix prefix2 msg (Z.of_nat (length msg))).
Proof.
  intros Ho Hp Hp2 Hm. unfold Hacl_Impl_SHA512_ModQ_sha512_modq_pre_pre2, Hacl_Impl_SHA512_ModQ_sha512_modq_pre_pre2_. cbv zeta.
  rewrite sha512_pre_pre2_msg_spec, blit_0_exact by (done || now rewrite length_sha512).
  apply scalar_reduce; [done|done|apply bytes_sha512|apply length_sha512].
Qed.

End Hashes.

(** ** Keys *)

Section Keys.
Context {T : Type} {U128Ops : UInt128Ops T} {U128 : UInt128 T}.
Import SHA2_512 BignumQ Ed25519 EdDSA_Spec.

Lemma length_point_compress P : length (Ed25519_Spec.point_compress P) = 32%nat.
Proof. destruct P as [[[X Y] Zc] Tc]. apply length_le_split. Qed.

Lemma bytes_point_compress P : bytes (Ed25519_Spec.point_compress P).
Proof. destruct P as [[[X Y] Zc] Tc]. apply bytes_le_split. Qed.

(** [expanded a prefix e]: the 64 bytes of an expanded secret. *)
Definition expanded (a : Z) (prefix e : list Z) : Prop :=
  bytes e /\ length e = 64%nat /\ le_combine (take 32 e) = a /\ drop 32 e = prefix.

Lemma secret_expand_spec out secret : length out = 64%nat -> length secret = 32%nat ->
  expanded (fst (secret_expand secret)) (snd (secret_expand secret))
    (Hacl_Impl_Ed25519_SecretExpand_secret_expand (T := T) out secret).
Proof.
  intros Ho Hs. unfold Hacl_Impl_Ed25519_SecretExpand_secret_expand. change 32 with (Z.of_nat 32).
  change (Hacl_SHA2_512_hash (T := T)) with (Hacl_Impl_SHA2_512_hash (T := T)).
  rewrite hash512_prefix, take_ge, blit_0_exact by (rewrite ?length_sha512; lia). cbv zeta.
  unfold secret_expand. cbn [fst snd]. pose proof (bytes_sha512 secret) as Hb. pose proof (length_sha512 secret) as Lh.
  set (h := sha512 secret) in *. clearbody h.
  assert (E : forall i, (i < 32)%nat -> h.[i] = (take 32 h).[i]) by (intros; rewrite lookup_total_take, decide_True; done).
  rewrite !E by lia. destruct (clamp_spec (take 32 h)) as [B C]; [now apply bytes_take|rewrite length_take; lia|].
  cbv zeta in B, C. set (v0 := Z.land (take 32 h).[0] 248) in *. set (v31 := Z.lor (Z.land (take 32 h).[31] 127) 64) in *.
  assert (Et : take 32 (h.[0 <- v0].[31 <- v31]) = (take 32 h).[0 <- v0].[31 <- v31])
    by (rewrite !take_insert_lt by lia; done).
  assert (Ed : drop 32 (h.[0 <- v0].[31 <- v31]) = drop 32 h) by (rewrite !drop_insert_lt by lia; done).
  split_and!.
  - rewrite <- (take_drop 32 (h.[0 <- v0].[31 <- v31])), Et, Ed. apply bytes_app. split; [exact B|now apply bytes_drop].
  - now rewrite !length_insert.
  - now rewrite Et.
  - exact Ed.
Qed.

Lemma mul_g_compress_spec out k : length out = 32%nat -> bytes k -> (32 <= length k)%nat ->
  Hacl_Impl_Ed25519_Sign_Steps_point_mul_g_compress (T := T) out k =
  Ed25519_Spec.point_compress (Ed25519_Spec.point_mul (le_combine (take 32 k)) Ed25519_Spec.base).
Proof.
  intros Ho Hk Lk. unfold Hacl_Impl_Ed25519_Sign_Steps_point_mul_g_compress, Hacl_Impl_Ed25519_Sign_Steps_point_mul_g.
  cbv zeta. apply point_compress_spec; [done|]. apply ed_point_mul_spec; [done..|]. now apply make_g_spec.
Qed.

Lemma secret_to_public_spec out secret : length out = 32%nat -> length secret = 32%nat ->
  Hacl_Ed25519_secret_to_public (T := T) out secret = secret_to_public secret.
Proof.
  intros Ho Hs. unfold Hacl_Ed25519_secret_to_public, Hacl_Impl_Ed25519_SecretToPublic_secret_to_public. cbv zeta.
  destruct (secret_expand_spec (replicate 64 0) secret eq_refl Hs) as (B & L & E & _).
  set (e := Hacl_Impl_Ed25519_SecretExpand_secret_expand _ _) in *. clearbody e.
  unfold Hacl_Impl_Ed25519_SecretToPublic_secret_to_public_. cbv zeta.
  rewrite (point_compress_spec out _ _ Ho (point_mul_g_spec (replicate 20 0) e eq_refl B ltac:(lia))), E. unfold secret_to_public. now destruct (secret_expand secret).
Qed.

End Keys.

(** ** Signing *)

Section Signing.
Context {T : Type} {U128Ops : UInt128Ops T} {U128 : UInt128 T}.
Import BignumQ Ed25519 EdDSA_Spec.

(** The scratch arrays: public key [A], the halves [Rs] and [S] of the
    signature and the expanded secret [e]; the scalars [r] and [h]. *)
Definition sig_bytes (A Rs S e : list Z) : list Z :=
  replicate 96 0 ++ A ++ replicate 32 0 ++ Rs ++ S ++ e ++ replicate 64 0.
Definition sig_ints (r h : list Z) : list Z := replicate 20 0 ++ r ++ replicate 35 0 ++ h.

Ltac parts := rewrite ?length_app, ?length_replicate; lia.

Lemma sig_bytes_get A Rs S e : length A = 32%nat -> length Rs = 32%nat -> length S = 32%nat -> length e = 64%nat ->
  take 32 (drop 96 (sig_bytes A Rs S e)) = A /\ take 32 (drop 160 (sig_bytes A Rs S e)) = Rs /\
  take 32 (drop 192 (sig_bytes A Rs S e)) = S /\ drop 224 (sig_bytes A Rs S e) = e ++ replicate 64 0.
Proof.
  intros LA LR LS Le. unfold sig_bytes. split_and!.
  - rewrite drop_app_length', take_app_length' by parts. done.
  - rewrite app_assoc, (app_assoc (_ ++ A)), drop_app_length', take_app_length' by parts. done.
  - rewrite app_assoc, (app_assoc (_ ++ A)), (app_assoc (_ ++ replicate 32 0)), drop_app_length', take_app_length' by parts.
    done.
  - rewrite app_assoc, (app_assoc (_ ++ A)), (app_assoc (_ ++ replicate 32 0)), (app_assoc (_ ++ Rs)), drop_app_length' by parts.
    done.
Qed.

Lemma sig_bytes_set A A' Rs Rs' S S' e e' : length A = 32%nat -> length A' = 32%nat -> length Rs = 32%nat ->
  length Rs' = 32%nat -> length S = 32%nat -> length S' = 32%nat -> length e = 64%nat -> length e' = 64%nat ->
  blit (sig_bytes A Rs S e) 96 A' = sig_bytes A' Rs S e /\ blit (sig_bytes A Rs S e) 160 Rs' = sig_bytes A Rs' S e /\
  blit (sig_bytes A Rs S e) 192 S' = sig_bytes A Rs S' e /\ blit (sig_bytes A Rs S e) 224 e' = sig_bytes A Rs S e'.
Proof.
  intros. unfold sig_bytes. split_and!.
  - now rewrite blit_mid by parts.
  - rewrite app_assoc, (app_assoc (_ ++ A)), blit_mid by parts. now rewrite <- !app_assoc.
  - rewrite app_assoc, (app_assoc (_ ++ A)), (app_assoc (_ ++ replicate 32 0)), blit_mid by parts. now rewrite <- !app_assoc.
  - rewrite app_assoc, (app_assoc (_ ++ A)), (app_assoc (_ ++ replicate 32 0)), (app_assoc (_ ++ Rs)), blit_mid by parts.
    now rewrite <- !app_assoc.
Qed.

Lemma sig_ints_get r h : length r = 5%nat -> length h = 5%nat ->
  slice (sig_ints r h) 20 5 = r /\ slice (sig_ints r h) 60 5 = h /\
  length (slice (sig_ints r h) 45 5) = 5%nat /\ length (slice (sig_ints r h) 50 5) = 5%nat /\
  length (slice (sig_ints r h) 55 5) = 5%nat.
Proof. intros. destruct_list r. destruct_list h. done. Qed.

Lemma sig_ints_set r r' h h' : length r = 5%nat -> length r' = 5%nat -> length h = 5%nat -> length h' = 5%nat ->
  blit (sig_ints r h) 20 r' = sig_ints r' h /\ blit (sig_ints r h) 60 h' = sig_ints r h'.
Proof. intros. destruct_list r. destruct_list h. destruct_list r'. destruct_list h'. done. Qed.

Lemma sign_step_1_spec secret a prefix : length secret = 32%nat -> secret_expand secret = (a, prefix) ->
  exists e, expanded a prefix e /\
    Hacl_Impl_Ed25519_Sign_Steps_sign_step_1 (T := T) secret (replicate 352 0) =
    sig_bytes (Ed25519_Spec.point_compress (Ed25519_Spec.point_mul a Ed25519_Spec.base)) (replicate 32 0) (replicate 32 0) e.
Proof.
  intros Hs Es. unfold Hacl_Impl_Ed25519_Sign_Steps_sign_step_1. cbv zeta.
  change (replicate 352 0) with (sig_bytes (replicate 32 0) (replicate 32 0) (replicate 32 0) (replicate 64 0)).
  set (o := slice _ 224 64). change o with (replicate 64 0). clear o.
  set (o := slice _ 96 32). change o with (replicate 32 0). clear o.
  pose proof (secret_expand_spec (replicate 64 0) secret eq_refl Hs) as He. rewrite Es in He. cbn [fst snd] in He.
  set (e := Hacl_Impl_Ed25519_SecretExpand_secret_expand _ _) in *. clearbody e. exists e. split; [exact He|].
  destruct He as (B & L & E & _). rewrite mul_g_compress_spec, E by (done || lia).
  edestruct (sig_bytes_set (replicate 32 0) (replicate 32 0) (replicate 32 0) (replicate 32 0) (replicate 32 0) (replicate 32 0)
    (replicate 64 0) e) as (_ & _ & _ & ->); [reflexivity..|exact L|].
  apply (sig_bytes_set (replicate 32 0) _ (replicate 32 0) (replicate 32 0) (replicate 32 0) (replicate 32 0) e e);
    (reflexivity || apply length_point_compress || exact L).
Qed.

Lemma sign_step_2_spec msg A Rs S e a prefix r h : Z.of_nat (length msg) < 2 ^ 32 -> expanded a prefix e ->
  length A = 32%nat -> length Rs = 32%nat -> length S = 32%nat -> length r = 5%nat -> length h = 5%nat ->
  exists r', scal (le_combine (sha512 (prefix ++ msg)) mod order) r' /\
    Hacl_Impl_Ed25519_Sign_Steps_sign_step_2 (T := T) msg (Z.of_nat (length msg)) (sig_bytes A Rs S e) (sig_ints r h) =
    sig_ints r' h.
Proof.
  intros Hm (B & Le & _ & <-) LA LR LS Lr Lh. unfold Hacl_Impl_Ed25519_Sign_Steps_sign_step_2. cbv zeta.
  destruct (sig_bytes_get A Rs S e LA LR LS Le) as (_ & _ & _ & ->).
  destruct (sig_ints_get r h Lr Lh) as (-> & _).
  rewrite drop_app_le by lia. pose proof (sha512_modq_pre_spec r (drop 32 e ++ replicate 64 0) msg Lr) as H.
  rewrite take_app_length' in H by (rewrite length_drop; lia).
  eexists. split; [apply H; [parts|done]|].
  apply (sig_ints_set r _ h h); [done| |done|done]. eapply scal_length, H; [parts|done].
Qed.

Lemma sign_step_4_spec msg A Rs S e r h : Z.of_nat (length msg) < 2 ^ 32 ->
  length A = 32%nat -> length Rs = 32%nat -> length S = 32%nat -> length e = 64%nat -> length r = 5%nat -> length h = 5%nat ->
  exists h', scal (le_combine (sha512 (Rs ++ A ++ msg)) mod order) h' /\
    Hacl_Impl_Ed25519_Sign_Steps_sign_step_4 (T := T) msg (Z.of_nat (length msg)) (sig_bytes A Rs S e) (sig_ints r h) =
    sig_ints r h'.
Proof.
  intros Hm LA LR LS Le Lr Lh. unfold Hacl_Impl_Ed25519_Sign_Steps_sign_step_4. cbv zeta.
  destruct (sig_bytes_get A Rs S e LA LR LS Le) as (EA & ER & _). destruct (sig_ints_get r h Lr Lh) as (_ & -> & _).
  assert (L : length (sig_bytes A Rs S e) = 352%nat) by (unfold sig_bytes; parts).
  pose proof (sha512_modq_pre_pre2_spec h (drop 160 (sig_bytes A Rs S e)) (drop 96 (sig_bytes A Rs S e)) msg Lh
    ltac:(rewrite length_drop; lia) ltac:(rewrite length_drop; lia) Hm) as H. rewrite EA, ER in H.
  eexists. split; [exact H|]. apply (sig_ints_set r r h _); [done|done|done|]. now apply scal_length in H.
Qed.

Lemma sign_step_5_spec A Rs S e a prefix r h R H : expanded a prefix e ->
  length A = 32%nat -> length Rs = 32%nat -> length S = 32%nat -> scal R r -> R < order -> scal H h -> H < order ->
  fst (Hacl_Impl_Ed25519_Sign_Steps_sign_step_5 (T := T) (sig_bytes A Rs S e) (sig_ints r h)) =
  sig_bytes A Rs (le_split 32 ((R + H * a) mod order)) e.
Proof.
  intros (B & Le & <- & _) LA LR LS Hr HR Hh HH. pose proof (scal_length _ _ Hr) as Lr. pose proof (scal_length _ _ Hh) as Lh.
  unfold Hacl_Impl_Ed25519_Sign_Steps_sign_step_5. cbv zeta. cbn [fst].
  destruct (sig_ints_get r h Lr Lh) as (-> & -> & L45 & L50 & L55).
  destruct (sig_bytes_get A Rs S e LA LR LS Le) as (_ & _ & ES & ->).
  pose proof (scalar_muladd (T := T) _ _ _ r h (e ++ replicate 64 0) R H L45 L50 L55 Hr HR Hh HH) as M.
  rewrite take_app_le in M by lia.
  rewrite (store_mod _ _ (R + H * le_combine (take 32 e))).
  - apply (sig_bytes_set A A Rs Rs S _ e e); (done || apply length_le_split).
  - unfold slice. now rewrite ES.
  - apply M; [|parts]. apply bytes_app. split; [done|now apply bytes_replicate].
Qed.

Lemma append_to_sig_spec signature a b : length signature = 64%nat -> (32 <= length a)%nat -> (32 <= length b)%nat ->
  Hacl_Impl_Ed25519_Sign_append_to_sig signature a b = take 32 a ++ take 32 b.
Proof.
  intros Hs Ha Hb. unfold Hacl_Impl_Ed25519_Sign_append_to_sig, Hacl_Impl_Ed25519_Sign_Steps_copy_bytes.
  change (Z.to_nat 32) with 32%nat. rewrite blit_0, length_take, Nat.min_l by lia.
  rewrite at_off_app by (rewrite length_take; lia). rewrite blit_0_exact; [done|]. rewrite length_take, length_drop. lia.
Qed.

Lemma sign_spec signature secret msg : length signature = 64%nat -> length secret = 32%nat ->
  Z.of_nat (length msg) < 2 ^ 32 ->
  Hacl_Ed25519_sign (T := T) signature secret msg (Z.of_nat (length msg)) = sign secret msg.
Proof.
  intros Hsig Hs Hm. unfold Hacl_Ed25519_sign, Hacl_Impl_Ed25519_Sign_sign, Hacl_Impl_Ed25519_Sign_sign_, sign. cbv zeta.
  destruct (secret_expand secret) as [a prefix] eqn:Es.
  destruct (sign_step_1_spec secret a prefix Hs Es) as (e & He & ->).
  set (A := Ed25519_Spec.point_compress (Ed25519_Spec.point_mul a _)). assert (LA : length A = 32%nat) by apply length_point_compress.
  change (replicate 65 0) with (sig_ints (replicate 5 0) (replicate 5 0)).
  destruct (sign_step_2_spec msg A (replicate 32 0) (replicate 32 0) e a prefix (replicate 5 0) (replicate 5 0) Hm He LA
    eq_refl eq_refl eq_refl eq_refl) as (r & Hr & ->).
  set (R := le_combine (sha512 (prefix ++ msg)) mod order) in *.
  assert (BR : 0 <= R < order) by apply order_mod. pose proof (scal_length _ _ Hr) as Lr.
  destruct (sig_ints_get r (replicate 5 0) Lr eq_refl) as (-> & _).
  rewrite (store_mod (replicate 32 0) r _ eq_refl Hr). fold R.
  assert (Es' : slice (sig_bytes A (replicate 32 0) (replicate 32 0) e) 160 32 = replicate 32 0).
  { apply (sig_bytes_get A (replicate 32 0) (replicate 32 0) e LA eq_refl eq_refl). apply He. }
  rewrite Es', mul_g_compress_spec; [|done|apply bytes_le_split|now rewrite length_le_split].
  rewrite take_ge, le_combine_split, Z.mod_small by (rewrite ?length_le_split; unfold order in BR; lia).
  set (Rs := Ed25519_Spec.point_compress (Ed25519_Spec.point_mul R _)). assert (LR : length Rs = 32%nat) by apply length_point_compress.
  assert (Le : length e = 64%nat) by apply He.
  destruct (sig_bytes_set A A (replicate 32 0) Rs (replicate 32 0) (replicate 32 0) e e) as (_ & -> & _); [done..|].
  destruct (sign_step_4_spec msg A Rs (replicate 32 0) e r (replicate 5 0) Hm LA LR eq_refl Le Lr eq_refl) as (h & Hh & ->).
  set (h' := le_combine (sha512 (Rs ++ A ++ msg)) mod order) in *.
  pose proof (sign_step_5_spec A Rs (replicate 32 0) e a prefix r h R h' He LA LR eq_refl Hr (proj2 BR) Hh (proj2 (order_mod _))) as E5.
  destruct (Hacl_Impl_Ed25519_Sign_Steps_sign_step_5 _ _) as [tb ti]. cbn [fst] in E5. subst tb.
  set (S := le_split 32 _) in *. assert (LS : length S = 32%nat) by apply length_le_split.
  destruct (sig_bytes_get A Rs S e LA LR LS Le) as (_ & E1 & E2 & _).
  assert (L : length (sig_bytes A Rs S e) = 352%nat) by (unfold sig_bytes; parts).
  rewrite append_to_sig_spec, E1, E2 by (rewrite ?length_drop; lia). done.
Qed.

End Signing.

(** ** Verification *)

Section Verification.
Context {T : Type} {U128Ops : UInt128Ops T} {U128 : UInt128 T}.
Import BignumQ Ed25519 EdDSA_Spec.

Lemma verify_step_2_spec r msg rs public : length r = 32%nat -> (32 <= length rs)%nat -> length public = 32%nat ->
  Z.of_nat (length msg) < 2 ^ 32 ->
  Hacl_Impl_Ed25519_Verify_Steps_verify_step_2 (T := T) r msg (Z.of_nat (length msg)) rs public =
  le_split 32 (le_combine (sha512 (take 32 rs ++ public ++ msg)) mod order).
Proof.
  intros Hr Hrs Hp Hm. unfold Hacl_Impl_Ed25519_Verify_Steps_verify_step_2. cbv zeta. apply store_mod; [done|].
  rewrite <- (take_ge public 32) at 1 by lia. apply sha512_modq_pre_pre2_spec; (done || lia).
Qed.

Lemma verify_step_4_spec s h a r H A R : bytes s -> length s = 32%nat -> h = le_split 32 H -> 0 <= H < order ->
  ext A a -> ext R r ->
  Hacl_Impl_Ed25519_Verify_Steps_verify_step_4 (T := T) s h a r =
  Ed25519_Spec.point_equal (Ed25519_Spec.point_mul (le_combine s) Ed25519_Spec.base)
    (Ed25519_Spec.point_add R (Ed25519_Spec.point_mul H A)).
Proof.
  intros Hs Ls -> BH HA HR. unfold Hacl_Impl_Ed25519_Verify_Steps_verify_step_4,
    Hacl_Impl_Ed25519_Verify_Steps_point_mul_g. cbv zeta.
  apply point_equal_spec.
  - rewrite <- (take_ge s 32) at 1 by lia. apply ed_point_mul_spec; [done|done|lia|]. now apply make_g_spec.
  - apply point_add_spec; [done|done|].
    assert (E : H = le_combine (take 32 (le_split 32 H))).
    { rewrite take_ge, le_combine_split by (now rewrite length_le_split). symmetry. apply Z.mod_small. unfold order in BH. lia. }
    rewrite E at 1. apply ed_point_mul_spec; [done|apply bytes_le_split|now rewrite length_le_split|done].
Qed.

Lemma verify_spec public msg signature : bytes public -> length public = 32%nat -> bytes signature ->
  length signature = 64%nat -> Z.of_nat (length msg) < 2 ^ 32 ->
  Hacl_Ed25519_verify (T := T) public msg (Z.of_nat (length msg)) signature = verify public msg signature.
Proof.
  intros Hp Lp Hs Ls Hm. unfold Hacl_Ed25519_verify, Hacl_Impl_Ed25519_Verify_verify, Hacl_Impl_Ed25519_Verify_verify_,
    Hacl_Impl_Ed25519_Verify_verify__, verify. cbv zeta.
  pose proof (point_decompress_spec (slice (replicate 45 0) 0 20) public eq_refl Hp ltac:(lia)) as DA.
  rewrite take_ge in DA by lia.
  destruct (Ed25519_Spec.point_decompress public) as [A|]; cbn [decompress_post] in DA; [|now rewrite DA].
  destruct (Hacl_Impl_Ed25519_PointDecompress_point_decompress _ public) as [a b]. cbn [fst snd] in DA. destruct DA as [-> HA].
  pose proof (point_decompress_spec (slice (replicate 45 0) 20 20) signature eq_refl Hs ltac:(lia)) as DR.
  unfold Hacl_Impl_Ed25519_Verify_Steps_verify_step_1.
  destruct (Ed25519_Spec.point_decompress (take 32 signature)) as [R|]; cbn [decompress_post] in DR; [|now rewrite DR].
  destruct (Hacl_Impl_Ed25519_PointDecompress_point_decompress _ signature) as [r b]. cbn [fst snd] in DR. destruct DR as [-> HR].
  assert (Hd : bytes (drop 32 signature)) by now apply bytes_drop.
  assert (Ld : length (drop 32 signature) = 32%nat) by (rewrite length_drop; lia).
  pose proof (load_32_bytes_spec (slice (replicate 45 0) 40 5) (drop 32 signature) eq_refl Hd ltac:(lia)) as HS.
  rewrite (take_ge (drop 32 signature)) in HS by lia. rewrite (gte_q_spec _ _ HS).
  destruct (order <=? le_combine (drop 32 signature)); [done|].
  rewrite verify_step_2_spec by (done || lia). apply verify_step_4_spec; [done|done|reflexivity|apply order_mod|done|done].
Qed.

End Verification.

(** ** Main results *)

Section Results.
Context {T : Type} {U128Ops : UInt128Ops T} {U128 : UInt128 T}.

(** C9: [Hacl_Ed25519_secret_to_public] writes the compressed multiple of the
    base point by the clamped scalar of the secret, and [Hacl_Ed25519_sign] the
    signature of RFC 8032: the secret expanded and clamped, the nonce from the
    prefix and the message, the compressed point R, and S = (r + h a) mod q, for
    every message below 4 GiB and whatever the output buffers held. *)
Theorem ed25519_sign_refines out signature secret msg :
  length out = 32%nat -> length signature = 64%nat -> length secret = 32%nat -> Z.of_nat (length msg) < 2 ^ 32 ->
  Ed25519.Hacl_Ed25519_secret_to_public (T := T) out secret = EdDSA_Spec.secret_to_public secret /\
  Ed25519.Hacl_Ed25519_sign (T := T) signature secret msg (Z.of_nat (length msg)) = EdDSA_Spec.sign secret msg.
Proof. intros. split; [now apply secret_to_public_spec|now apply sign_spec]. Qed.

(** C10: [Hacl_Ed25519_verify] decides exactly what RFC 8032 says: it refuses a
    public key or an R that does not decode (y not below p, no square root, or x = 0
    with the sign set), an S that is not below q, and otherwise compares S B with
    R + h A. *)
Theorem ed25519_verify_refines public msg signature :
  bytes public -> length public = 32%nat -> bytes signature -> length signature = 64%nat ->
  Z.of_nat (length msg) < 2 ^ 32 ->
  Ed25519.Hacl_Ed25519_verify (T := T) public msg (Z.of_nat (length msg)) signature =
  EdDSA_Spec.verify public msg signature.
Proof. apply verify_spec. Qed.

End Results.

Lemma ed25519_sign_refines_witness :
  Ed25519.Hacl_Ed25519_secret_to_public (T := Z) (replicate 32 0) (replicate 32 1) =
  EdDSA_Spec.secret_to_public (replicate 32 1) /\
  Ed25519.Hacl_Ed25519_sign (T := Z) (replicate 64 0) (replicate 32 1) [114] 1 = EdDSA_Spec.sign (replicate 32 1) [114].
Proof.
  apply (ed25519_sign_refines (T := Z) (replicate 32 0) (replicate 64 0) (replicate 32 1) [114]); [reflexivity..|].
  now cbn.
Defined.

Lemma ed25519_verify_refines_witness :
  Ed25519.Hacl_Ed25519_verify (T := Z) (1 :: replicate 31 0) [] 0 (replicate 64 255) =
  EdDSA_Spec.verify (1 :: replicate 31 0) [] (replicate 64 255).
Proof.
  apply (ed25519_verify_refines (T := Z) (1 :: replicate 31 0) [] (replicate 64 255));
    [constructor; [lia|now apply bytes_replicate]|reflexivity|now apply bytes_replicate|reflexivity|now cbn].
Defined.
