(* ===== verification/Prime25519.v ===== *)
(** * Prime25519: 2^255 - 19 is prime

    The field of Curve25519 and Ed25519 is a field because its modulus is
    prime.  The proof is Pocklington's: a chain of primes, each with a prime (or
    the product of two) that divides its predecessor and exceeds its square
    root, down to numbers small enough for trial division. *)

From Stdlib Require Import ZArith Lia Znumtheory Zdivisibility Zpow_facts ZmodInv.

Local Open Scope Z_scope.

(** ** Divisors *)

Lemma prime_or_divisor n : 1 < n -> Z.prime n \/ exists k, 1 < k < n /\ (k | n).
Proof.
  intros Hn. destruct (prime_dec n) as [H|H]; [left; now apply prime_alt|right]. now apply not_prime_divide.
Qed.

Lemma prime_divisor n : 1 < n -> exists r, Z.prime r /\ (r | n).
Proof.
  intros Hn. assert (H : 0 <= n) by lia. revert Hn. pattern n. apply Zlt_0_ind; [clear n H|exact H].
  intros n IH _ Hn. destruct (prime_or_divisor n Hn) as [Hp|(k & Hk & Hd)]; [exists n; split; [exact Hp|apply Z.divide_refl]|].
  destruct (IH k ltac:(lia) ltac:(lia)) as (r & Hr & Hrk). exists r. split; [exact Hr|now apply Z.divide_trans with k].
Qed.

(** A number is prime when it has no prime divisor up to its square root. *)
Lemma prime_by_roots n : 1 < n -> (forall r, Z.prime r -> (r | n) -> n < r * r) -> Z.prime n.
Proof.
  intros Hn H. destruct (prime_or_divisor n Hn) as [Hp|(k & Hk & j & E)]; [exact Hp|exfalso].
  assert (Hj : 1 < j < n) by nia.
  destruct (Z.le_ge_cases j k) as [Hle|Hge].
  - destruct (prime_divisor j ltac:(lia)) as (r & Hr & Hd). apply Z.divide_pos_le in Hd as Hl; [|lia].
    assert (n < r * r) by (apply H; [exact Hr|apply Z.divide_trans with j; [exact Hd|exists k; lia]]).
    pose proof (Z.prime_ge_2 r Hr). nia.
  - destruct (prime_divisor k ltac:(lia)) as (r & Hr & Hd). apply Z.divide_pos_le in Hd as Hl; [|lia].
    assert (n < r * r) by (apply H; [exact Hr|apply Z.divide_trans with k; [exact Hd|exists j; lia]]).
    pose proof (Z.prime_ge_2 r Hr). nia.
Qed.

(** ** Trial division *)

Fixpoint no_divisor (fuel : nat) (k n : Z) : bool :=
  match fuel with
  | O => false
  | S f => if n <? k * k then true else if n mod k =? 0 then false else no_divisor f (k + 1) n
  end.

Lemma no_divisor_sound fuel : forall k n, 0 < k -> no_divisor fuel k n = true ->
  forall r, k <= r -> (r | n) -> n < r * r.
Proof.
  induction fuel as [|f IH]; intros k n Hk H r Hr Hd; [discriminate|]. cbn [no_divisor] in H.
  destruct (Z.ltb_spec n (k * k)); [nia|]. destruct (Z.eqb_spec (n mod k) 0) as [E|E]; [discriminate|].
  destruct (Z.eq_dec r k) as [->|]; [|apply (IH (k + 1)); [lia|exact H|lia|exact Hd]].
  exfalso. apply E. now apply Z.mod0_divide.
Qed.

Lemma trial_prime fuel n : 1 < n -> no_divisor fuel 2 n = true -> Z.prime n.
Proof.
  intros Hn H. apply prime_by_roots; [exact Hn|]. intros r Hr Hd.
  apply (no_divisor_sound fuel 2 n); [lia|exact H|now apply Z.prime_ge_2|exact Hd].
Qed.

(** ** Pocklington's criterion *)

Lemma mod_1_divide r x : 1 < r -> x mod r = 1 <-> (r | x - 1).
Proof.
  intros Hr. split.
  - intros E. exists (x / r). pose proof (Z.div_mod x r ltac:(lia)). lia.
  - intros [k E]. replace x with (1 + k * r) by lia. rewrite Z.mod_add, Z.mod_small; lia.
Qed.

Lemma pow_mod_1 r x n : 1 < r -> 0 <= n -> x mod r = 1 -> (x ^ n) mod r = 1.
Proof.
  intros Hr Hn E. rewrite Zpower_mod, E, Z.pow_1_l, Z.mod_small by lia. reflexivity.
Qed.

(** An exponent coprime to r - 1 can be cancelled. *)
Lemma root_of_unity r a q m : Z.prime r -> 0 < q -> 0 <= m -> Z.coprime q (r - 1) ->
  (a ^ (q * m)) mod r = 1 -> (a ^ (r - 1)) mod r = 1 -> (a ^ m) mod r = 1.
Proof.
  intros Hr Hq Hm Hc E1 E2. pose proof (Z.prime_ge_2 r Hr).
  destruct (Z.Bezout_coprime_iff q (r - 1)) as [B _]. destruct (B Hc) as (u & v & E).
  set (u' := u mod (r - 1) + (r - 1)). assert (Hu : 0 < u') by (pose proof (Z.mod_pos_bound u (r - 1)); lia).
  set (w := q * (1 - u / (r - 1)) - v). assert (Ew : u' * q = 1 + w * (r - 1)).
  { unfold w, u'. pose proof (Z.div_mod u (r - 1) ltac:(lia)). nia. }
  assert (Hw : 0 <= w) by nia.
  assert (E3 : (a ^ (u' * (q * m))) mod r = 1).
  { replace (u' * (q * m)) with ((q * m) * u') by ring. rewrite Z.pow_mul_r by nia. apply pow_mod_1; (lia || exact E1). }
  replace (u' * (q * m)) with (m + (r - 1) * (w * m)) in E3
    by (replace (u' * (q * m)) with (u' * q * m) by ring; rewrite Ew; ring).
  rewrite Z.pow_add_r, Z.mul_mod, Z.pow_mul_r in E3 by nia.
  rewrite (pow_mod_1 r (a ^ (r - 1)) (w * m)), Z.mul_1_r, Z.mod_mod in E3 by (lia || nia || exact E2). exact E3.
Qed.

Lemma pocklington_divisor n a q m r : 1 < n -> Z.prime q -> n - 1 = q * m -> (a ^ (n - 1)) mod n = 1 ->
  Z.coprime (a ^ m - 1) n -> Z.prime r -> (r | n) -> (q | r - 1).
Proof.
  intros Hn Hq Em E Hc Hr Hd. pose proof (Z.prime_ge_2 r Hr). pose proof (Z.prime_ge_2 q Hq).
  assert (Hm : 0 < m) by nia.
  assert (Er : (a ^ (n - 1)) mod r = 1).
  { apply mod_1_divide; [lia|]. apply Z.divide_trans with n; [exact Hd|]. now apply mod_1_divide. }
  destruct (Z.BoolSpec_divide_nz q (r - 1) ltac:(lia)) as [H'|H']; [exact H'|exfalso].
  assert (Ha : a mod r <> 0).
  { intros Z0. rewrite Zpower_mod, Z0, Z.pow_0_l, Z.mod_0_l in Er by lia. lia. }
  pose proof (Z.fermat_nz r a Hr Ha) as F. rewrite Em in Er.
  pose proof (root_of_unity r a q m Hr ltac:(lia) ltac:(lia) (Z.coprime_prime_l q (r - 1) Hq H') Er F) as R.
  apply mod_1_divide in R; [|lia].
  assert (D : (r | Z.gcd (a ^ m - 1) n)) by now apply Z.gcd_greatest. rewrite Hc in D.
  apply Z.divide_1_r_nonneg in D; lia.
Qed.

(** The tests as they are computed: modular powers, with base 2. *)
Definition fermat_check (n : Z) : bool := Zpow_mod 2 (n - 1) n =? 1.
Definition pock_check (n q : Z) : bool :=
  ((n - 1) mod q =? 0) && (Z.gcd (Zpow_mod 2 ((n - 1) / q) n - 1) n =? 1).

Lemma pock_check_divisor n q r : 1 < n -> fermat_check n = true -> Z.prime q -> pock_check n q = true ->
  Z.prime r -> (r | n) -> (q | r - 1).
Proof.
  intros Hn H2 Hq H Hr Hd. unfold pock_check in H. rewrite !Bool.andb_true_iff, !Z.eqb_eq in H. destruct H as [H1 H3].
  apply Z.eqb_eq in H2. pose proof (Z.prime_ge_2 q Hq). rewrite Zpow_mod_correct in H2, H3 by lia.
  apply (pocklington_divisor n 2 q ((n - 1) / q) r); try assumption.
  - pose proof (Z.div_mod (n - 1) q ltac:(lia)). lia.
  - unfold Z.coprime. rewrite Z.gcd_comm. rewrite Z.gcd_comm in H3.
    rewrite <- Z.gcd_mod, Z.gcd_comm in H3 by lia. rewrite <- Z.gcd_mod, Z.gcd_comm by lia.
    rewrite <- (Zminus_mod_idemp_l (2 ^ _)). exact H3.
Qed.

Lemma pock_prime n q : 1 < n -> fermat_check n = true -> Z.prime q -> pock_check n q = true -> n < q * q -> Z.prime n.
Proof.
  intros Hn Hf Hq H Hb. apply prime_by_roots; [exact Hn|]. intros r Hr Hd.
  pose proof (Z.prime_ge_2 r Hr). pose proof (Z.prime_ge_2 q Hq).
  apply (pock_check_divisor n q r Hn Hf Hq H Hr) in Hd. apply Z.divide_pos_le in Hd; [nia|lia].
Qed.

Lemma pock_prime2 n q q' : 1 < n -> fermat_check n = true -> Z.prime q -> Z.prime q' -> q <> q' ->
  pock_check n q = true -> pock_check n q' = true -> n < (q * q') * (q * q') -> Z.prime n.
Proof.
  intros Hn Hf Hq Hq' Hne H H' Hb. apply prime_by_roots; [exact Hn|]. intros r Hr Hd.
  pose proof (Z.prime_ge_2 r Hr). pose proof (Z.prime_ge_2 q Hq). pose proof (Z.prime_ge_2 q' Hq').
  apply (pock_check_divisor n q r Hn Hf Hq H Hr) in Hd as D. apply (pock_check_divisor n q' r Hn Hf Hq' H' Hr) in Hd as D'.
  assert (D2 : (q * q' | r - 1)).
  { destruct D as [k Ek]. rewrite Ek, Z.mul_comm. apply Z.mul_divide_mono_r.
    apply Z.gauss with q; [now rewrite Z.mul_comm, <- Ek|].
    apply Z.coprime_prime_l; [exact Hq'|]. intros D. apply Z.divide_prime_prime in D; congruence. }
  apply Z.divide_pos_le in D2; [nia|lia].
Qed.

(** ** The chain *)

Ltac by_compute := vm_compute; reflexivity.
Ltac by_trial := apply (trial_prime 3000); by_compute.

Lemma prime_31757755568855353 : Z.prime 31757755568855353.
Proof. apply (pock_prime2 _ 430751 4153); [by_compute|by_compute|by_trial|by_trial|discriminate|by_compute..]. Qed.

Lemma prime_1919519569386763 : Z.prime 1919519569386763.
Proof. apply (pock_prime2 _ 8574133 127); [by_compute|by_compute|by_trial|by_trial|discriminate|by_compute..]. Qed.

Lemma prime_2773320623 : Z.prime 2773320623.
Proof. apply (pock_prime _ 569003); [by_compute|by_compute|by_trial|by_compute..]. Qed.

Lemma prime_72106336199 : Z.prime 72106336199.
Proof. apply (pock_prime _ 2773320623); [by_compute|by_compute|exact prime_2773320623|by_compute..]. Qed.

Lemma prime_75445702479781427272750846543864801 : Z.prime 75445702479781427272750846543864801.
Proof.
  apply (pock_prime2 _ 1919519569386763 72106336199);
    [by_compute|by_compute|exact prime_1919519569386763|exact prime_72106336199|discriminate|by_compute..].
Qed.

Lemma prime_cofactor : Z.prime 74058212732561358302231226437062788676166966415465897661863160754340907.
Proof.
  apply (pock_prime2 _ 75445702479781427272750846543864801 31757755568855353);
    [by_compute|by_compute|exact prime_75445702479781427272750846543864801|exact prime_31757755568855353|discriminate|by_compute..].
Qed.

Lemma prime_25519 : Z.prime (2 ^ 255 - 19).
Proof.
  apply (pock_prime _ 74058212732561358302231226437062788676166966415465897661863160754340907);
    [by_compute|by_compute|exact prime_cofactor|by_compute..].
Qed.
