(* ===== verification/Edwards.v ===== *)
(** * Edwards: the group of a twisted Edwards curve

    The curve y^2 - x^2 = 1 + d x^2 y^2 over the integers modulo a prime, where
    -1 is a square and d is not.  The addition law has no exceptions
    ([denominators]), stays on the curve, is commutative and associative, and so
    gives the multiples [smul k P] their laws.  [Ed25519Group] maps the extended
    coordinates of the code to this group. *)

From Stdlib Require Import ZArith Lia Zmod ZmodInv Field Zdivisibility.

Declare Scope fld_scope.
Delimit Scope fld_scope with fld.

Section Edwards.
Context {m : Z} (Hm : Z.prime m).
Local Open Scope fld_scope.
Local Notation F := (Zmod m).
Local Notation "0" := (@Zmod.zero m) : fld_scope.
Local Notation "1" := (@Zmod.one m) : fld_scope.
Local Infix "+" := (@Zmod.add m) : fld_scope.
Local Infix "*" := (@Zmod.mul m) : fld_scope.
Local Infix "-" := (@Zmod.sub m) : fld_scope.
Local Infix "/" := (@Zmod.mdiv m) : fld_scope.
Local Notation "- x" := (@Zmod.opp m x) : fld_scope.
Local Notation "x ²" := (x * x) (at level 30) : fld_scope.

Add Field fld : (Zmod.field_theory m Hm).

Lemma fld_integral (a b : F) : a * b = 0 -> a = 0 \/ b = 0.
Proof. intros H. now apply (Zmod.mul_0_iff_prime Hm). Qed.

Lemma fld_neq_mul (a b : F) : a <> 0 -> b <> 0 -> a * b <> 0.
Proof. intros Ha Hb H. destruct (fld_integral a b H); auto. Qed.

Lemma fld_div_eq (a b c e : F) : b <> 0 -> e <> 0 -> a * e = c * b -> a / b = c / e.
Proof. intros Hb He H. replace (a / b) with (a * e / (b * e)) by (field; auto). rewrite H. field. auto. Qed.

Lemma fld_div_1 (a b : F) : b <> 0 -> a = b -> a / b = 1.
Proof. intros Hb ->. field. exact Hb. Qed.

Lemma fld_eq_dec (a b : F) : {a = b} + {a <> b}.
Proof. destruct (Zmod.eqb a b) eqn:E; [left|right]; destruct (Zmod.eqb_spec a b); congruence. Qed.

(** ** The curve and its addition *)

Variables d i : F.
Hypothesis i_square : i * i = 0 - 1.
Hypothesis d_nonsquare : forall x, x * x <> d.
Hypothesis two_nonzero : 1 + 1 <> 0.

Definition ed_point : Type := F * F.

Definition on_curve (P : ed_point) : Prop :=
  let '(x, y) := P in y² - x² = 1 + d * x² * y².

Definition ed_zero : ed_point := (0, 1).

Definition ed_opp (P : ed_point) : ed_point := let '(x, y) := P in (- x, y).

Definition ed_add (P Q : ed_point) : ed_point :=
  let '(x1, y1) := P in
  let '(x2, y2) := Q in
  ((x1 * y2 + y1 * x2) / (1 + d * x1 * x2 * y1 * y2), (y1 * y2 + x1 * x2) / (1 - d * x1 * x2 * y1 * y2)).

(** The equation as a rewrite rule for monomials. *)
Lemma curve_monomial x y : on_curve (x, y) -> d * x² * y² = y² - x² - 1.
Proof. intros H. cbn in H. rewrite H. ring. Qed.

Lemma d_nonzero : d <> 0.
Proof. intros H. apply (d_nonsquare 0). rewrite H. ring. Qed.

(** If d x1 x2 y1 y2 were ±1, d would be the square of a quotient. *)
Lemma square_quotient (f g : F) : g <> 0 -> f² = d * g² -> False.
Proof.
  intros Hg H. apply (d_nonsquare (f / g)). replace (f / g * (f / g)) with (f² / g²) by (field; exact Hg).
  rewrite H. field. exact Hg.
Qed.

Lemma opposite_zero (a b : F) : a + b = 0 -> a - b = 0 -> b = 0.
Proof.
  intros H1 H2. destruct (fld_integral (1 + 1) b) as [H|H]; [|contradiction|exact H].
  replace ((1 + 1) * b) with ((a + b) - (a - b)) by ring. rewrite H1, H2. ring.
Qed.

Lemma denominators_square x1 y1 x2 y2 : on_curve (x1, y1) -> on_curve (x2, y2) ->
  (d * x1 * x2 * y1 * y2)² <> 1.
Proof.
  intros C1%curve_monomial C2%curve_monomial Hs. set (s := d * x1 * x2 * y1 * y2) in *.
  assert (Hone : 1 <> 0) by (intros E; apply two_nonzero; rewrite E; ring).
  assert (Hxy : x1 * y1 <> 0).
  { intros E. apply Hone. rewrite <- Hs. unfold s.
    replace (d * x1 * x2 * y1 * y2) with (x1 * y1 * (d * x2 * y2)) by ring. rewrite E. ring. }
  assert (Ki : forall z, (i * x1 + z * y1)² = z² * y1² - x1² + (1 + 1) * i * z * x1 * y1).
  { intros z. replace ((i * x1 + z * y1)²) with (i * i * x1² + z² * y1² + (1 + 1) * i * z * x1 * y1) by ring.
    rewrite i_square. ring. }
  assert (Kj : forall z, z² = 1 -> (i * x2 + z * y2)² = y2² - x2² + (1 + 1) * i * z * x2 * y2).
  { intros z Hz. replace ((i * x2 + z * y2)²) with (i * i * x2² + z² * y2² + (1 + 1) * i * z * x2 * y2) by ring.
    rewrite i_square, Hz. ring. }
  assert (Q : forall z, z² = 1 -> i * x2 + z * y2 <> 0 -> False).
  { intros z Hz Hne. apply (square_quotient (i * x1 + z * s * y1) (x1 * y1 * (i * x2 + z * y2))).
    - now apply fld_neq_mul.
    - rewrite (Ki (z * s)). replace ((x1 * y1 * (i * x2 + z * y2))²) with (x1² * y1² * (i * x2 + z * y2)²) by ring.
      rewrite Kj by exact Hz. replace ((z * s)²) with (z² * s²) by ring. rewrite Hz, Hs.
      replace (d * (x1² * y1² * (y2² - x2² + (1 + 1) * i * z * x2 * y2)))
        with (d * x1² * y1² * (y2² - x2²) + (1 + 1) * i * z * x1 * y1 * s) by (unfold s; ring).
      replace (y2² - x2²) with (1 + d * x2² * y2²) by (rewrite C2; ring).
      replace (d * x1² * y1² * (1 + d * x2² * y2²)) with (d * x1² * y1² + s²) by (unfold s; ring).
      rewrite Hs, C1. ring. }
  destruct (fld_eq_dec (i * x2 + 1 * y2) 0) as [E1|N1]; [|exact (Q 1 ltac:(ring) N1)].
  destruct (fld_eq_dec (i * x2 + (0 - 1) * y2) 0) as [E2|N2]; [|exact (Q (0 - 1) ltac:(ring) N2)].
  assert (Hy : y2 = 0) by (apply (opposite_zero (i * x2) y2); [rewrite <- E1; ring|rewrite <- E2; ring]).
  apply Hone. rewrite <- Hs. unfold s. rewrite Hy. ring.
Qed.

(** The addition law is complete. *)
Lemma denominators x1 y1 x2 y2 : on_curve (x1, y1) -> on_curve (x2, y2) ->
  1 + d * x1 * x2 * y1 * y2 <> 0 /\ 1 - d * x1 * x2 * y1 * y2 <> 0.
Proof.
  intros C1 C2. pose proof (denominators_square x1 y1 x2 y2 C1 C2) as H. set (s := d * x1 * x2 * y1 * y2) in *.
  split; intros E; apply H.
  - replace (s²) with ((1 + s) * (s - 1) + 1) by ring. rewrite E. ring.
  - replace (s²) with (1 - (1 - s) * (1 + s)) by ring. rewrite E. ring.
Qed.

Lemma on_curve_zero : on_curve ed_zero.
Proof. cbn. ring. Qed.

Lemma on_curve_opp P : on_curve P -> on_curve (ed_opp P).
Proof. destruct P as [x y]. cbn. intros H. replace ((- x)²) with (x²) by ring. exact H. Qed.

Lemma on_curve_add P Q : on_curve P -> on_curve Q -> on_curve (ed_add P Q).
Proof.
  destruct P as [x1 y1], Q as [x2 y2]. intros C1 C2. destruct (denominators x1 y1 x2 y2 C1 C2) as [D1 D2].
  apply curve_monomial in C1, C2. cbn. set (s := d * x1 * x2 * y1 * y2) in *.
  set (a := x1 * y2 + y1 * x2). set (b := y1 * y2 + x1 * x2).
  replace ((b / (1 - s))² - (a / (1 + s))²) with ((b² * (1 + s)² - a² * (1 - s)²) / ((1 + s)² * (1 - s)²)) by (field; auto).
  replace (1 + d * (a / (1 + s))² * (b / (1 - s))²) with (((1 + s)² * (1 - s)² + d * a² * b²) / ((1 + s)² * (1 - s)²))
    by (field; auto).
  f_equal. unfold a, b, s. ring [C1 C2].
Qed.

(** ** The group laws *)

Lemma ed_add_comm P Q : ed_add P Q = ed_add Q P.
Proof.
  destruct P as [x1 y1], Q as [x2 y2]. cbn.
  replace (d * x2 * x1 * y2 * y1) with (d * x1 * x2 * y1 * y2) by ring. f_equal; f_equal; ring.
Qed.

Lemma ed_add_0_l P : ed_add ed_zero P = P.
Proof.
  destruct P as [x y]. cbn. assert (Hone : 1 <> 0) by (intros E; apply two_nonzero; rewrite E; ring).
  replace (1 + d * 0 * x * 1 * y) with 1 by ring. replace (1 - d * 0 * x * 1 * y) with 1 by ring.
  f_equal; field; exact Hone.
Qed.

Lemma ed_add_opp P : on_curve P -> ed_add P (ed_opp P) = ed_zero.
Proof.
  destruct P as [x y]. intros C. pose proof (denominators x y (- x) y C (on_curve_opp (x, y) C)) as [D1 D2].
  cbn. unfold ed_zero. f_equal.
  - replace (x * y + y * - x) with 0 by ring. field. exact D1.
  - apply fld_div_1; [exact D2|]. apply curve_monomial in C. ring [C].
Qed.

(** The numerator and denominator of a sum of three points. *)
Lemma ed_add3 x1 y1 x2 y2 x3 y3 : on_curve (x1, y1) -> on_curve (x2, y2) -> on_curve (x3, y3) ->
  let a := x1 * y2 + y1 * x2 in
  let b := y1 * y2 + x1 * x2 in
  let s := d * x1 * x2 * y1 * y2 in
  ((1 - s²) + d * a * b * x3 * y3 <> 0 /\ (1 - s²) - d * a * b * x3 * y3 <> 0) /\
  ed_add (ed_add (x1, y1) (x2, y2)) (x3, y3) =
  ((a * (1 - s) * y3 + b * (1 + s) * x3) / ((1 - s²) + d * a * b * x3 * y3),
   (b * (1 + s) * y3 + a * (1 - s) * x3) / ((1 - s²) - d * a * b * x3 * y3)).
Proof.
  intros C1 C2 C3 a b s. pose proof (on_curve_add _ _ C1 C2) as C12. destruct (denominators x1 y1 x2 y2 C1 C2) as [D1 D2].
  fold s in D1, D2. cbn [ed_add] in *. fold a b s in C12 |- *.
  destruct (denominators _ _ _ _ C12 C3) as [D3 D4].
  assert (E3 : 1 + d * (a / (1 + s)) * x3 * (b / (1 - s)) * y3 = ((1 - s²) + d * a * b * x3 * y3) / ((1 + s) * (1 - s)))
    by (field; auto).
  assert (E4 : 1 - d * (a / (1 + s)) * x3 * (b / (1 - s)) * y3 = ((1 - s²) - d * a * b * x3 * y3) / ((1 + s) * (1 - s)))
    by (field; auto).
  rewrite E3 in D3 |- *. rewrite E4 in D4 |- *.
  assert (N : forall u v : F, v <> 0 -> u / v <> 0 -> u <> 0) by (intros u v Hv H ->; apply H; field; exact Hv).
  assert (Hss : (1 + s) * (1 - s) <> 0) by now apply fld_neq_mul.
  apply N in D3; [|exact Hss]. apply N in D4; [|exact Hss].
  split; [split; assumption|]. f_equal; field; auto.
Qed.

Lemma ed_add_assoc P Q R : on_curve P -> on_curve Q -> on_curve R ->
  ed_add (ed_add P Q) R = ed_add P (ed_add Q R).
Proof.
  destruct P as [x1 y1], Q as [x2 y2], R as [x3 y3]. intros C1 C2 C3.
  destruct (ed_add3 x1 y1 x2 y2 x3 y3 C1 C2 C3) as [[N1 N2] ->].
  rewrite (ed_add_comm (x1, y1) (ed_add _ _)). destruct (ed_add3 x2 y2 x3 y3 x1 y1 C2 C3 C1) as [[N3 N4] ->].
  apply curve_monomial in C1, C2, C3. f_equal; (apply fld_div_eq; [assumption|assumption|ring [C1 C2 C3]]).
Qed.

(** ** Multiples *)

Definition smul (k : Z) (P : ed_point) : ed_point := N.iter (Z.to_N k) (ed_add P) ed_zero.

Lemma smul_0 P : smul 0 P = ed_zero.
Proof. reflexivity. Qed.

Lemma smul_succ k P : (0 <= k)%Z -> smul (Z.succ k) P = ed_add P (smul k P).
Proof. intros Hk. unfold smul. rewrite Z2N.inj_succ by exact Hk. apply N.iter_succ. Qed.

Lemma smul_1 P : smul 1 P = P.
Proof. change 1%Z with (Z.succ 0). rewrite smul_succ by lia. rewrite smul_0, ed_add_comm. apply ed_add_0_l. Qed.

Lemma on_curve_smul k P : (0 <= k)%Z -> on_curve P -> on_curve (smul k P).
Proof.
  intros Hk HP. pattern k. apply natlike_ind; [exact on_curve_zero| |exact Hk].
  intros j Hj IH. rewrite smul_succ by exact Hj. now apply on_curve_add.
Qed.

Lemma smul_add j k P : (0 <= j)%Z -> (0 <= k)%Z -> on_curve P -> smul (j + k) P = ed_add (smul j P) (smul k P).
Proof.
  intros Hj Hk HP. pattern j. apply natlike_ind; [now rewrite smul_0, ed_add_0_l| |exact Hj].
  intros l Hl IH. rewrite Z.add_succ_l, !smul_succ, IH by lia.
  symmetry. apply ed_add_assoc; auto using on_curve_smul.
Qed.

Lemma smul_zero k : (0 <= k)%Z -> smul k ed_zero = ed_zero.
Proof.
  intros Hk. pattern k. apply natlike_ind; [reflexivity| |exact Hk].
  intros j Hj IH. rewrite smul_succ, IH by exact Hj. apply ed_add_0_l.
Qed.

Lemma smul_mul j k P : (0 <= j)%Z -> (0 <= k)%Z -> on_curve P -> smul (j * k) P = smul j (smul k P).
Proof.
  intros Hj Hk HP. pattern j. apply natlike_ind; [reflexivity| |exact Hj].
  intros l Hl IH. rewrite Z.mul_succ_l, Z.add_comm, smul_add, IH, smul_succ by (lia || assumption || nia). reflexivity.
Qed.

(** Multiples depend on the factor only modulo an order of the point. *)
Lemma smul_mod n k P : (0 < n)%Z -> (0 <= k)%Z -> on_curve P -> smul n P = ed_zero -> smul (k mod n) P = smul k P.
Proof.
  intros Hn Hk HP E. rewrite (Z.div_mod k n) at 2 by lia.
  pose proof (Z.div_pos k n Hk Hn). pose proof (Z.mod_pos_bound k n Hn).
  rewrite Z.mul_comm, smul_add, smul_mul, E, smul_zero, ed_add_0_l by (lia || assumption || nia). reflexivity.
Qed.

(** ** Extended coordinates *)

Definition x_point : Type := F * F * F * F.

Definition to_affine (P : x_point) : ed_point := let '(X, Y, Z, T) := P in (X / Z, Y / Z).

Definition x_valid (P : x_point) : Prop :=
  let '(X, Y, Z, T) := P in Z <> 0 /\ X * Y = Z * T /\ on_curve (to_affine P).

Definition x_zero : x_point := (0, 1, 1, 0).

Definition x_add (P Q : x_point) : x_point :=
  let '(X1, Y1, Z1, T1) := P in
  let '(X2, Y2, Z2, T2) := Q in
  let A := (Y1 - X1) * (Y2 - X2) in
  let B := (Y1 + X1) * (Y2 + X2) in
  let C := (1 + 1) * T1 * T2 * d in
  let D := (1 + 1) * Z1 * Z2 in
  ((B - A) * (D - C), (D + C) * (B + A), (D - C) * (D + C), (B - A) * (B + A)).

Definition x_double (P : x_point) : x_point :=
  let '(X1, Y1, Z1, T1) := P in
  let H := X1² + Y1² in
  let E := H - (X1 + Y1)² in
  let G := X1² - Y1² in
  let F := (1 + 1) * Z1² + G in
  (E * F, G * H, F * G, E * H).

Lemma x_valid_coords X Y Z T : x_valid (X, Y, Z, T) -> exists x y,
  to_affine (X, Y, Z, T) = (x, y) /\ on_curve (x, y) /\ Z <> 0 /\ X = x * Z /\ Y = y * Z /\ T = x * y * Z.
Proof.
  intros (HZ & HT & HC). exists (X / Z), (Y / Z). split; [reflexivity|]. split; [exact HC|]. split; [exact HZ|].
  split; [field; exact HZ|]. split; [field; exact HZ|].
  replace (X / Z * (Y / Z) * Z) with (X * Y / Z) by (field; exact HZ). rewrite HT. field. exact HZ.
Qed.

Lemma fld_div_cancel (k a b : F) : k <> 0 -> b <> 0 -> (k * a) / (k * b) = a / b.
Proof. intros Hk Hb. field. auto. Qed.

Lemma x_valid_intro X Y Z T x y : Z <> 0 -> X * Y = Z * T -> X / Z = x -> Y / Z = y -> on_curve (x, y) ->
  x_valid (X, Y, Z, T) /\ to_affine (X, Y, Z, T) = (x, y).
Proof. intros HZ HT <- <- HC. split; [split; [exact HZ|split; [exact HT|exact HC]]|reflexivity]. Qed.

(** The formulas of the code add affine points. *)
Lemma x_add_correct P Q : x_valid P -> x_valid Q ->
  x_valid (x_add P Q) /\ to_affine (x_add P Q) = ed_add (to_affine P) (to_affine Q).
Proof.
  destruct P as [[[X1 Y1] Z1] T1], Q as [[[X2 Y2] Z2] T2]. intros HP HQ.
  destruct (x_valid_coords _ _ _ _ HP) as (x1 & y1 & -> & C1 & N1 & -> & -> & ->).
  destruct (x_valid_coords _ _ _ _ HQ) as (x2 & y2 & -> & C2 & N2 & -> & -> & ->).
  destruct (denominators x1 y1 x2 y2 C1 C2) as [D1 D2]. pose proof (on_curve_add _ _ C1 C2) as C3.
  set (k := (1 + 1) * Z1 * Z2). assert (Hk : k <> 0) by (repeat apply fld_neq_mul; assumption).
  set (s := d * x1 * x2 * y1 * y2) in *. cbn [ed_add] in *. fold s in C3 |- *. unfold x_add.
  set (a := x1 * y2 + y1 * x2) in *. set (b := y1 * y2 + x1 * x2) in *.
  replace ((y1 * Z1 + x1 * Z1) * (y2 * Z2 + x2 * Z2) - (y1 * Z1 - x1 * Z1) * (y2 * Z2 - x2 * Z2)) with (k * a) by (unfold k, a; ring).
  replace ((y1 * Z1 + x1 * Z1) * (y2 * Z2 + x2 * Z2) + (y1 * Z1 - x1 * Z1) * (y2 * Z2 - x2 * Z2)) with (k * b) by (unfold k, b; ring).
  replace ((1 + 1) * Z1 * Z2 - (1 + 1) * (x1 * y1 * Z1) * (x2 * y2 * Z2) * d) with (k * (1 - s)) by (unfold k, s; ring).
  replace ((1 + 1) * Z1 * Z2 + (1 + 1) * (x1 * y1 * Z1) * (x2 * y2 * Z2) * d) with (k * (1 + s)) by (unfold k, s; ring).
  clearbody a b s k. apply x_valid_intro; [repeat apply fld_neq_mul; assumption|ring|field; auto|field; auto|exact C3].
Qed.

(** Doubling: its denominators are those of the addition, by the equation of
    the curve. *)
Lemma x_double_correct P : x_valid P ->
  x_valid (x_double P) /\ to_affine (x_double P) = ed_add (to_affine P) (to_affine P).
Proof.
  destruct P as [[[X Y] Z] T]. intros HP.
  destruct (x_valid_coords _ _ _ _ HP) as (x & y & -> & C & N & -> & -> & ->).
  destruct (denominators x y x y C C) as [D1 D2]. pose proof (on_curve_add _ _ C C) as C3.
  apply curve_monomial in C. cbn [ed_add] in *.
  replace (d * x * x * y * y) with (y² - x² - 1) in * by (rewrite <- C; ring). unfold x_double.
  set (k := Z²). assert (Hk : k <> 0) by now apply fld_neq_mul.
  replace ((x * Z)² + (y * Z)² - (x * Z + y * Z)²) with (k * (0 - (x * y + y * x))) by (unfold k; ring).
  replace ((x * Z)² + (y * Z)²) with (k * (y * y + x * x)) by (unfold k; ring).
  replace ((x * Z)² - (y * Z)²) with (k * (0 - (1 + (y² - x² - 1)))) by (unfold k; ring).
  replace ((1 + 1) * k + k * (0 - (1 + (y² - x² - 1)))) with (k * (1 - (y² - x² - 1))) by ring.
  set (u := 1 + (y² - x² - 1)) in *. set (v := 1 - (y² - x² - 1)) in *. clearbody u v k.
  assert (Hu : 0 - u <> 0) by (intros E; apply D1; replace u with (0 - (0 - u)) by ring; rewrite E; ring).
  apply x_valid_intro; [repeat apply fld_neq_mul; assumption|ring| | |exact C3].
  - apply fld_div_eq; [repeat apply fld_neq_mul; assumption|exact D1|ring].
  - apply fld_div_eq; [repeat apply fld_neq_mul; assumption|exact D2|ring].
Qed.

Lemma x_zero_valid : x_valid x_zero /\ to_affine x_zero = ed_zero.
Proof.
  assert (Hone : 1 <> 0) by (intros E; apply two_nonzero; rewrite E; ring).
  apply x_valid_intro; [exact Hone|ring|field; exact Hone|field; exact Hone|exact on_curve_zero].
Qed.

(** Equality of points by cross multiplication. *)
Lemma to_affine_eq P Q : x_valid P -> x_valid Q ->
  let '(X1, Y1, Z1, _) := P in let '(X2, Y2, Z2, _) := Q in
  X1 * Z2 = X2 * Z1 /\ Y1 * Z2 = Y2 * Z1 <-> to_affine P = to_affine Q.
Proof.
  destruct P as [[[X1 Y1] Z1] T1], Q as [[[X2 Y2] Z2] T2]. intros (N1 & _) (N2 & _). cbn [to_affine]. split.
  - intros [E1 E2]. f_equal; now apply fld_div_eq.
  - intros [E1 E2]%pair_equal_spec. split.
    + replace X1 with (X1 / Z1 * Z1) by (field; exact N1). rewrite E1. field. exact N2.
    + replace Y1 with (Y1 / Z1 * Z1) by (field; exact N1). rewrite E2. field. exact N2.
Qed.

(** ** Recovering x from y *)

Lemma curve_factor y : d * y² + 1 <> 0.
Proof.
  intros E. assert (Hone : 1 <> 0) by (intros E'; apply two_nonzero; rewrite E'; ring).
  assert (Hy : y <> 0) by (intros ->; apply Hone; rewrite <- E; ring).
  apply (square_quotient i y Hy). rewrite i_square, <- E. ring.
Qed.

Lemma curve_solve x y : on_curve (x, y) -> (y² - 1) / (d * y² + 1) = x².
Proof.
  intros H. cbn in H. pose proof (curve_factor y) as N.
  replace (y² - 1) with (x² * (d * y² + 1)); [field; exact N|].
  replace (y²) with (y² - x² + x²) at 2 by ring. rewrite H. ring.
Qed.

Lemma square_roots c x : c² = x² -> c = x \/ c = 0 - x.
Proof.
  intros H. destruct (fld_integral (c - x) (c + x)) as [E|E].
  - replace ((c - x) * (c + x)) with (c² - x²) by ring. rewrite H. ring.
  - left. replace c with (c - x + x) by ring. rewrite E. ring.
  - right. replace c with (c + x - x) by ring. rewrite E. ring.
Qed.

Lemma square_times_i w x : w² = 0 - x² -> (w * i)² = x².
Proof. intros H. replace ((w * i)²) with (w² * (i * i)) by ring. rewrite H, i_square. ring. Qed.

End Edwards.
