(* ===== verification/Ed25519Group.v ===== *)
(** * Ed25519Group: signatures verify

    The points of [Ed25519_Spec] with a nonzero Z on the curve stand for points
    of the group of [Edwards]: addition, doubling, the ladder, comparison,
    compression and decompression are those of the group.  With the order of
    the base point this gives the main theorem: what [Hacl_Ed25519_sign] signs,
    [Hacl_Ed25519_verify] accepts under the public key of the secret. *)

From stdpp Require Import base list numbers.
From Stdlib Require Import ZArith Lia Zmod ZmodInv Zdivisibility Zpow_facts Field.
From S2P Require Import Prelude Machine UInt128 FieldProofs LadderProofs BignumQ Ed25519 Ed25519Proofs Ed25519Sign Prime25519 Edwards.

Local Open Scope Z_scope.
Local Open Scope buf_scope.

(** ** The field *)

Lemma prime_p : Z.prime prime.
Proof. exact prime_25519. Qed.

Definition Fp : Type := Zmod prime.
Definition fz (z : Z) : Fp := Zmod.of_Z prime z.

Lemma fz_eq a b : fz a = fz b <-> a mod prime = b mod prime.
Proof. apply Zmod.of_Z_inj. Qed.
Lemma fz_mod a : fz (a mod prime) = fz a.
Proof. apply Zmod.of_Z_mod. Qed.
Lemma fz_fadd a b : fz (Curve25519_Spec.fadd a b) = Zmod.add (fz a) (fz b).
Proof. unfold Curve25519_Spec.fadd. rewrite fz_mod. apply Zmod.of_Z_add. Qed.
Lemma fz_fsub a b : fz (Curve25519_Spec.fsub a b) = Zmod.sub (fz a) (fz b).
Proof. unfold Curve25519_Spec.fsub. rewrite fz_mod. apply Zmod.of_Z_sub. Qed.
Lemma fz_fmul a b : fz (Curve25519_Spec.fmul a b) = Zmod.mul (fz a) (fz b).
Proof. unfold Curve25519_Spec.fmul. rewrite fz_mod. apply Zmod.of_Z_mul. Qed.
Lemma fz_2 : fz 2 = Zmod.add Zmod.one Zmod.one.
Proof. apply (Zmod.of_Z_add 1 1). Qed.
Lemma fz_1 : fz 1 = Zmod.one.
Proof. apply Zmod.of_Z_1. Qed.
Lemma fz_0 : fz 0 = Zmod.zero.
Proof. apply Zmod.of_Z_0. Qed.

Lemma prime_pos : 0 < prime.
Proof. reflexivity. Qed.

Lemma fz_to_Z (x : Fp) : fz (Zmod.to_Z x) = x.
Proof. apply Zmod.of_Z_to_Z. Qed.
Lemma to_Z_fz a : Zmod.to_Z (fz a) = a mod prime.
Proof. apply Zmod.to_Z_of_Z. Qed.
Lemma to_Z_bound (x : Fp) : 0 <= Zmod.to_Z x < prime.
Proof. apply Zmod.to_Z_pos_bound, prime_pos. Qed.
Lemma to_Z_unique (x : Fp) a : 0 <= a < prime -> fz a = x -> a = Zmod.to_Z x.
Proof. intros Ha <-. rewrite to_Z_fz. symmetry. now apply Z.mod_small. Qed.

Lemma fz_finv a : fz a <> Zmod.zero -> fz (Curve25519_Spec.finv a) = Zmod.inv (fz a).
Proof.
  intros Ha. rewrite <- (Zmod.fermat_inv (fz a) Ha prime_p). unfold Curve25519_Spec.finv.
  rewrite Zpow_mod_correct by done. rewrite fz_mod. now apply Zmod.of_Z_pow.
Qed.

Lemma mdiv_inv (a b : Fp) : Zmod.mul a (Zmod.inv b) = Zmod.mdiv a b.
Proof. apply Zmod.mul_inv_r. Qed.

(** ** Computing in the field

    To evaluate facts about constants, products are reduced by folding the bits
    above 2^255, without the division of [Z.modulo]. *)

Definition mask255 : Z := Eval cbv in 2 ^ 255 - 1.
Definition fold255 (x : Z) : Z := Z.land x mask255 + 19 * Z.shiftr x 255.

Lemma fz_fold255 x : fz (fold255 x) = fz x.
Proof.
  apply fz_eq. unfold fold255. rewrite (Z_land_ones_lit x mask255 255), Z.shiftr_div_pow2 by done.
  rewrite (Z.div_mod x (2 ^ 255)) at 3 by done. apply eqp_iff. exists (- (x / 2 ^ 255)). unfold prime. ring.
Qed.

Definition fast_mul (a b : Z) : Z := fold255 (fold255 (a * b)).

Lemma fz_fast_mul a b : fz (fast_mul a b) = Zmod.mul (fz a) (fz b).
Proof. unfold fast_mul. rewrite !fz_fold255. apply Zmod.of_Z_mul. Qed.

Fixpoint fast_pow (a : Z) (n : positive) : Z :=
  match n with
  | xH => a
  | xO m => let h := fast_pow a m in fast_mul h h
  | xI m => let h := fast_pow a m in fast_mul a (fast_mul h h)
  end.

Lemma fz_fast_pow a n : fz (fast_pow a n) = fz (a ^ Zpos n).
Proof.
  induction n as [n IH|n IH|]; cbn [fast_pow].
  - rewrite !fz_fast_mul, IH, Pos2Z.inj_xI, Z.pow_add_r, Z.pow_1_r, Z.pow_twice_r by lia. unfold fz.
    now rewrite <- !Zmod.of_Z_mul, (Z.mul_comm a).
  - rewrite fz_fast_mul, IH, Pos2Z.inj_xO, Z.pow_twice_r by lia. unfold fz. now rewrite <- Zmod.of_Z_mul.
  - now rewrite Z.pow_1_r.
Qed.

(** ** The curve *)

Definition dF : Fp := fz Ed25519_Spec.d.
Definition iF : Fp := fz Ed25519_Spec.sqrt_m1.

Lemma iF_square : Zmod.mul iF iF = Zmod.sub Zmod.zero Zmod.one.
Proof.
  unfold iF, fz. rewrite <- Zmod.of_Z_mul, <- Zmod.of_Z_0, <- Zmod.of_Z_1, <- Zmod.of_Z_sub. apply fz_eq.
  vm_compute. reflexivity.
Qed.

Lemma two_nonzero : Zmod.add Zmod.one Zmod.one <> (Zmod.zero : Fp).
Proof. rewrite <- fz_2, <- fz_0. intros E%fz_eq. vm_compute in E. discriminate. Qed.

(** Euler's criterion for d. *)
Lemma d_power : fz (Ed25519_Spec.d ^ (2 ^ 254 - 10)) <> Zmod.one.
Proof.
  change (2 ^ 254 - 10) with (Zpos (Z.to_pos (2 ^ 254 - 10))). rewrite <- fz_fast_pow, <- fz_1. intros E%fz_eq.
  assert (C : (fast_pow Ed25519_Spec.d (Z.to_pos (2 ^ 254 - 10)) mod prime =? 1 mod prime) = false) by (vm_compute; reflexivity).
  rewrite E, Z.eqb_refl in C. discriminate.
Qed.

Lemma dF_nonsquare (x : Fp) : Zmod.mul x x <> dF.
Proof.
  intros E. rewrite <- (fz_to_Z x) in E. unfold dF, fz in E. rewrite <- Zmod.of_Z_mul in E.
  set (X := Zmod.to_Z x) in *. assert (HX : X mod prime <> 0).
  { intros Z0. apply fz_eq in E. rewrite Z.mul_mod, Z0 in E by done. vm_compute in E. discriminate. }
  apply d_power. pose proof (Z.fermat_nz prime X prime_p HX) as F.
  assert (P : (X * X) ^ (2 ^ 254 - 10) = X ^ (prime - 1)).
  { rewrite <- Z.pow_2_r, <- Z.pow_mul_r by done. f_equal. }
  unfold fz. rewrite Zmod.of_Z_pow by done. rewrite <- E, <- Zmod.of_Z_pow, P by done. rewrite <- Zmod.of_Z_1. apply fz_eq. rewrite F. reflexivity.
Qed.

Notation on_ed := (on_curve (m := prime) dF).
Notation add_ed := (ed_add (m := prime) dF).
Notation mul_ed := (smul (m := prime) dF).

(** [stands P A]: the extended point [P] stands for the affine point [A]. *)
Definition fpt (P : Ed25519_Spec.ext_point) : x_point (m := prime) :=
  let '(X, Y, Z, T) := P in (fz X, fz Y, fz Z, fz T).

Definition stands (P : Ed25519_Spec.ext_point) (A : ed_point (m := prime)) : Prop :=
  x_valid dF (fpt P) /\ to_affine (fpt P) = A.

Lemma stands_on_curve P A : stands P A -> on_ed A.
Proof. destruct P as [[[X Y] Zc] Tc]. intros [(_ & _ & H) <-]. exact H. Qed.

Lemma fpt_add P Q : fpt (Ed25519_Spec.point_add P Q) = x_add dF (fpt P) (fpt Q).
Proof.
  destruct P as [[[X1 Y1] Z1] T1], Q as [[[X2 Y2] Z2] T2]. cbv beta iota zeta delta [fpt Ed25519_Spec.point_add x_add].
  now rewrite !fz_fmul, !fz_fsub, !fz_fadd, !fz_fmul, !fz_fsub, !fz_fadd, fz_2.
Qed.

Lemma fpt_double P : fpt (Ed25519_Spec.point_double P) = x_double (fpt P).
Proof.
  destruct P as [[[X1 Y1] Z1] T1]. cbv beta iota zeta delta [fpt Ed25519_Spec.point_double x_double].
  now rewrite !fz_fmul, !fz_fsub, !fz_fadd, !fz_fmul, !fz_fsub, !fz_fadd, !fz_fmul, fz_2.
Qed.

Lemma stands_add P Q A B : stands P A -> stands Q B -> stands (Ed25519_Spec.point_add P Q) (add_ed A B).
Proof.
  intros [HP <-] [HQ <-]. unfold stands. rewrite fpt_add.
  exact (x_add_correct prime_p dF iF iF_square dF_nonsquare two_nonzero _ _ HP HQ).
Qed.

Lemma stands_double P A : stands P A -> stands (Ed25519_Spec.point_double P) (add_ed A A).
Proof.
  intros [HP <-]. unfold stands. rewrite fpt_double.
  exact (x_double_correct prime_p dF iF iF_square dF_nonsquare two_nonzero _ HP).
Qed.

Lemma stands_neutral : stands Ed25519_Spec.neutral ed_zero.
Proof.
  unfold stands, Ed25519_Spec.neutral, fpt. rewrite fz_0, fz_1.
  exact (x_zero_valid prime_p dF two_nonzero).
Qed.


(** ** The ladder multiplies *)

Lemma mul_ed_double n A : 0 <= n -> on_ed A -> add_ed (mul_ed n A) (mul_ed n A) = mul_ed (2 * n) A.
Proof.
  intros Hn HA. replace (2 * n) with (n + n) by lia.
  now rewrite (smul_add prime_p dF iF iF_square dF_nonsquare two_nonzero) by (lia || done).
Qed.

Lemma mul_ed_odd n A : 0 <= n -> on_ed A -> add_ed (mul_ed n A) (mul_ed (n + 1) A) = mul_ed (2 * n + 1) A.
Proof.
  intros Hn HA. replace (2 * n + 1) with (n + (n + 1)) by lia.
  now rewrite (smul_add prime_p dF iF iF_square dF_nonsquare two_nonzero n (n + 1)) by (lia || done).
Qed.

Definition ladder_at (n : Z) (A : ed_point (m := prime)) (pq : Ed25519_Spec.ext_point * Ed25519_Spec.ext_point) : Prop :=
  stands (fst pq) (mul_ed n A) /\ stands (snd pq) (mul_ed (n + 1) A).

Lemma mul_step_at n A pq b : 0 <= n -> on_ed A -> ladder_at n A pq ->
  ladder_at (2 * n + Z.b2z b) A (Ed25519_Spec.mul_step pq b).
Proof.
  intros Hn HA. destruct pq as [P Q]. intros [HP HQ]. cbn [fst snd] in *. unfold Ed25519_Spec.mul_step.
  destruct b; cbn [Curve25519_Spec.cswap fst snd Z.b2z]; split; cbn [fst snd].
  - rewrite <- mul_ed_odd, (ed_add_comm prime_p dF) by done. now apply stands_add.
  - replace (2 * n + 1 + 1) with (2 * (n + 1)) by lia. rewrite <- mul_ed_double by (done || lia). now apply stands_double.
  - rewrite Z.add_0_r, <- mul_ed_double by done. now apply stands_double.
  - rewrite Z.add_0_r, <- mul_ed_odd by done. now apply stands_add.
Qed.

Definition bits_value (n : Z) (bs : list bool) : Z := fold_left (fun n b => 2 * n + Z.b2z b) bs n.

Lemma bits_value_nonneg bs : forall n, 0 <= n -> 0 <= bits_value n bs.
Proof. induction bs as [|b bs IH]; intros n Hn; cbn; [done|]. apply IH. destruct b; cbn; lia. Qed.

Lemma ladder_fold bs A : on_ed A -> forall n pq, 0 <= n -> ladder_at n A pq ->
  ladder_at (bits_value n bs) A (fold_left Ed25519_Spec.mul_step bs pq).
Proof.
  intros HA. induction bs as [|b bs IH]; intros n pq Hn H; [exact H|]. cbn [fold_left bits_value].
  apply IH; [destruct b; cbn; lia|]. now apply mul_step_at.
Qed.

Lemma scalar_bits_S n k :
  Curve25519_Spec.scalar_bits (S n) k = Z.testbit k (Z.of_nat n) :: Curve25519_Spec.scalar_bits n k.
Proof. unfold Curve25519_Spec.scalar_bits. now rewrite seq_S, reverse_snoc. Qed.

Lemma scalar_bits_value n k : forall z,
  bits_value z (Curve25519_Spec.scalar_bits n k) = z * 2 ^ Z.of_nat n + k mod 2 ^ Z.of_nat n.
Proof.
  induction n as [|n IH]; intros z; [cbn; rewrite Z.mod_1_r; lia|].
  rewrite scalar_bits_S. change (bits_value (2 * z + Z.b2z (Z.testbit k (Z.of_nat n))) (Curve25519_Spec.scalar_bits n k) =
    z * 2 ^ Z.of_nat (S n) + k mod 2 ^ Z.of_nat (S n)). rewrite IH.
  rewrite Nat2Z.inj_succ, Z.pow_succ_r by lia. rewrite Z.testbit_spec' by lia.
  rewrite (Z.mul_comm 2 (2 ^ _)), Z.rem_mul_r by (try apply Z.pow_nonzero; lia). lia.
Qed.

Lemma stands_mul k P A : 0 <= k < 2 ^ 256 -> stands P A -> stands (Ed25519_Spec.point_mul k P) (mul_ed k A).
Proof.
  intros Hk HP. pose proof (stands_on_curve _ _ HP) as HA.
  pose proof (ladder_fold (Curve25519_Spec.scalar_bits 256 k) A HA 0 (Ed25519_Spec.neutral, P) ltac:(lia)) as L.
  rewrite scalar_bits_value in L. change (2 ^ Z.of_nat 256) with (2 ^ 256) in L. rewrite Z.mod_small in L by lia.
  apply L. split; [exact stands_neutral|]. cbn [snd]. rewrite (smul_1 prime_p dF two_nonzero). exact HP.
Qed.

(** ** Comparison *)

Lemma point_equal_correct P Q A B : stands P A -> stands Q B ->
  Ed25519_Spec.point_equal P Q = true <-> A = B.
Proof.
  intros [HP <-] [HQ <-]. pose proof (to_affine_eq prime_p dF _ _ HP HQ) as E.
  destruct P as [[[X1 Y1] Z1] T1], Q as [[[X2 Y2] Z2] T2]. cbv beta iota delta [fpt] in *. rewrite <- E.
  unfold Ed25519_Spec.point_equal.
  rewrite andb_true_iff, !Z.eqb_eq. unfold Curve25519_Spec.fmul. rewrite <- !fz_eq.
  unfold fz. now rewrite !Zmod.of_Z_mul.
Qed.

(** ** The base point *)

Definition base_ed : ed_point (m := prime) := (fz Ed25519_Spec.base_x, fz Ed25519_Spec.base_y).

Lemma div_one (x : Fp) : Zmod.mdiv x Zmod.one = x.
Proof. rewrite <- mdiv_inv, Zmod.inv_1. apply Zmod.mul_1_r. Qed.

(** An affine point given by reduced coordinates. *)
Lemma stands_affine x y : on_ed (fz x, fz y) -> stands (x, y, 1, Curve25519_Spec.fmul x y) (fz x, fz y).
Proof.
  intros H. unfold stands, fpt. rewrite fz_1, fz_fmul. apply x_valid_intro.
  - rewrite <- fz_1, <- fz_0. intros E%fz_eq. vm_compute in E. discriminate.
  - now rewrite Zmod.mul_1_l.
  - apply div_one.
  - apply div_one.
  - exact H.
Qed.

Lemma base_on_curve : on_ed base_ed.
Proof.
  cbv beta iota delta [on_curve base_ed]. unfold dF, fz.
  rewrite <- !Zmod.of_Z_mul, <- Zmod.of_Z_1, <- Zmod.of_Z_add, <- Zmod.of_Z_sub. apply fz_eq. vm_compute. reflexivity.
Qed.

Lemma stands_base : stands Ed25519_Spec.base base_ed.
Proof. apply stands_affine. exact base_on_curve. Qed.

(** The order of the base point, by double-and-add on unreduced coordinates. *)
Definition fast_double (P : Ed25519_Spec.ext_point) : Ed25519_Spec.ext_point :=
  let '(X, Y, Zc, _) := P in
  let A := fast_mul X X in
  let B := fast_mul Y Y in
  let H := A + B in
  let E := H - fast_mul (X + Y) (X + Y) in
  let G := A - B in
  let F := 2 * fast_mul Zc Zc + G in
  (fast_mul E F, fast_mul G H, fast_mul F G, fast_mul E H).

Definition fast_add (P Q : Ed25519_Spec.ext_point) : Ed25519_Spec.ext_point :=
  let '(X1, Y1, Z1, T1) := P in
  let '(X2, Y2, Z2, T2) := Q in
  let A := fast_mul (Y1 - X1) (Y2 - X2) in
  let B := fast_mul (Y1 + X1) (Y2 + X2) in
  let C := fast_mul (fast_mul (2 * T1) T2) Ed25519_Spec.d in
  let D := fast_mul (2 * Z1) Z2 in
  (fast_mul (B - A) (D - C), fast_mul (D + C) (B + A), fast_mul (D - C) (D + C), fast_mul (B - A) (B + A)).

Lemma fz_add a b : fz (a + b) = Zmod.add (fz a) (fz b).
Proof. apply Zmod.of_Z_add. Qed.
Lemma fz_sub a b : fz (a - b) = Zmod.sub (fz a) (fz b).
Proof. apply Zmod.of_Z_sub. Qed.
Lemma fz_mul a b : fz (a * b) = Zmod.mul (fz a) (fz b).
Proof. apply Zmod.of_Z_mul. Qed.

Lemma stands_fast_double P A : stands P A -> stands (fast_double P) (add_ed A A).
Proof.
  intros H. pose proof (stands_double P A H) as [V E]. rewrite fpt_double in V, E. unfold stands.
  replace (fpt (fast_double P)) with (x_double (fpt P)); [now split|].
  destruct P as [[[X Y] Zc] Tc]. cbv beta iota zeta delta [fpt fast_double x_double].
  now repeat rewrite ?fz_fast_mul, ?fz_sub, ?fz_add, ?fz_mul, ?fz_2.
Qed.

Lemma stands_fast_add P Q A B : stands P A -> stands Q B -> stands (fast_add P Q) (add_ed A B).
Proof.
  intros HP HQ. pose proof (stands_add P Q A B HP HQ) as [V E]. rewrite fpt_add in V, E. unfold stands.
  replace (fpt (fast_add P Q)) with (x_add dF (fpt P) (fpt Q)); [now split|].
  destruct P as [[[X1 Y1] Z1] T1], Q as [[[X2 Y2] Z2] T2]. cbv beta iota zeta delta [fpt fast_add x_add].
  now repeat rewrite ?fz_fast_mul, ?fz_sub, ?fz_add, ?fz_mul, ?fz_2.
Qed.

Fixpoint fast_multiple (k : positive) : Ed25519_Spec.ext_point :=
  match k with
  | xH => Ed25519_Spec.base
  | xO j => fast_double (fast_multiple j)
  | xI j => fast_add (fast_double (fast_multiple j)) Ed25519_Spec.base
  end.

Lemma stands_fast_multiple k : stands (fast_multiple k) (mul_ed (Zpos k) base_ed).
Proof.
  pose proof base_on_curve as HB.
  induction k as [k IH|k IH|]; cbn [fast_multiple]; [| |rewrite (smul_1 prime_p dF two_nonzero); exact stands_base].
  - rewrite Pos2Z.inj_xI, Z.add_comm, (smul_add prime_p dF iF iF_square dF_nonsquare two_nonzero 1 (2 * Zpos k)) by (lia || exact HB).
    rewrite (smul_1 prime_p dF two_nonzero), (ed_add_comm prime_p dF), <- mul_ed_double by (lia || exact HB).
    apply stands_fast_add; [now apply stands_fast_double|exact stands_base].
  - rewrite Pos2Z.inj_xO, <- mul_ed_double by (lia || exact HB). now apply stands_fast_double.
Qed.

Lemma base_order : mul_ed order base_ed = ed_zero.
Proof.
  change order with (Zpos (Z.to_pos order)).
  apply (point_equal_correct _ _ _ _ (stands_fast_multiple (Z.to_pos order)) stands_neutral).
  vm_compute. reflexivity.
Qed.

(** ** Encoding *)

Definition encode (A : ed_point (m := prime)) : list Z :=
  let '(x, y) := A in le_split 32 (Zmod.to_Z y + 2 ^ 255 * (Zmod.to_Z x mod 2)).

Lemma fmul_finv_to_Z X Zc : fz Zc <> Zmod.zero ->
  Curve25519_Spec.fmul X (Curve25519_Spec.finv Zc) = Zmod.to_Z (Zmod.mdiv (fz X) (fz Zc)).
Proof.
  intros HZ. apply to_Z_unique; [now apply Z.mod_pos_bound|]. now rewrite fz_fmul, fz_finv, mdiv_inv.
Qed.

Lemma compress_encode P A : stands P A -> Ed25519_Spec.point_compress P = encode A.
Proof.
  destruct P as [[[X Y] Zc] Tc]. intros [(HZ & _) <-]. cbv beta iota delta [fpt] in HZ.
  unfold Ed25519_Spec.point_compress. now rewrite !fmul_finv_to_Z by exact HZ.
Qed.

Lemma spec_x2_square x y : on_ed (x, y) -> spec_x2 (Zmod.to_Z y) = Zmod.to_Z (Zmod.mul x x).
Proof.
  intros H. apply to_Z_unique; [now apply Z.mod_pos_bound|]. unfold spec_x2.
  assert (E : fz (Curve25519_Spec.fadd (Curve25519_Spec.fmul Ed25519_Spec.d (Curve25519_Spec.fmul (Zmod.to_Z y) (Zmod.to_Z y))) 1) =
    Zmod.add (Zmod.mul dF (Zmod.mul y y)) Zmod.one) by now rewrite fz_fadd, !fz_fmul, !fz_to_Z, fz_1.
  rewrite fz_fmul, fz_finv, E, fz_fsub, fz_fmul, !fz_to_Z, fz_1, mdiv_inv.
  - exact (curve_solve prime_p dF iF iF_square dF_nonsquare two_nonzero x y H).
  - rewrite E. apply (curve_factor prime_p dF iF iF_square dF_nonsquare two_nonzero).
Qed.

(** The power (p + 3) / 8 of a square is a root of it or of its opposite. *)
Lemma power_root (x : Fp) : x <> Zmod.zero ->
  let w := fz (Zpow_mod (Zmod.to_Z (Zmod.mul x x)) ((prime + 3) / 8) prime) in
  Zmod.mul w w = Zmod.mul x x \/ Zmod.mul w w = Zmod.sub Zmod.zero (Zmod.mul x x).
Proof.
  intros Hx w. set (X := Zmod.to_Z x). assert (EX : fz X = x) by apply fz_to_Z.
  assert (HX : X mod prime <> 0).
  { rewrite Z.mod_small by apply to_Z_bound. intros E. apply Hx. now rewrite <- EX, E, fz_0. }
  set (e := X ^ (2 ^ 254 - 10)).
  assert (Ee : fz e = Zmod.one \/ fz e = Zmod.sub Zmod.zero Zmod.one).
  { apply (square_roots prime_p). unfold fz at 1 2. rewrite <- Zmod.of_Z_mul. rewrite Zmod.mul_1_l, <- fz_1. apply fz_eq.
    unfold e. rewrite <- Z.pow_add_r by done. change (2 ^ 254 - 10 + (2 ^ 254 - 10)) with (prime - 1).
    rewrite (Z.fermat_nz prime X prime_p HX). reflexivity. }
  assert (Ew : Zmod.mul w w = Zmod.mul (Zmod.mul x x) (fz e)).
  { unfold w. rewrite Zpow_mod_correct by done. rewrite fz_mod. rewrite <- EX. unfold fz. rewrite <- !Zmod.of_Z_mul.
    rewrite to_Z_fz. apply fz_eq. rewrite Z.mul_mod, Zpower_mod, Z.mod_mod, <- Zpower_mod, <- Z.mul_mod by done.
    change ((prime + 3) / 8) with (2 ^ 252 - 2). f_equal. unfold e.
    rewrite <- Z.pow_add_r, <- (Z.pow_2_r X), <- Z.pow_mul_r, <- Z.pow_add_r by done. reflexivity. }
  rewrite Ew. destruct Ee as [-> | ->]; [left; apply Zmod.mul_1_r|right].
  rewrite <- (Zmod.mul_1_r (Zmod.mul x x)) at 2. now rewrite Zmod.mul_sub_r, Zmod.mul_0_r.
Qed.

Lemma opposite_to_Z (x : Fp) : x <> Zmod.zero -> Zmod.to_Z (Zmod.sub Zmod.zero x) = prime - Zmod.to_Z x.
Proof.
  intros Hx. symmetry. pose proof (to_Z_bound x) as B. assert (Zmod.to_Z x <> 0).
  { intros E. apply Hx. now rewrite <- (fz_to_Z x), E, fz_0. }
  apply to_Z_unique; [lia|]. rewrite <- (fz_to_Z x) at 2. rewrite <- fz_0. unfold fz. rewrite <- Zmod.of_Z_sub.
  apply fz_eq. replace (prime - Zmod.to_Z x) with (0 - Zmod.to_Z x + 1 * prime) by lia. now rewrite Z.mod_add.
Qed.

(** Of the two roots, the one with the parity of x is x. *)
Lemma parity_choice (x : Fp) c : x <> Zmod.zero -> 0 <= c < prime -> Zmod.mul (fz c) (fz c) = Zmod.mul x x ->
  (if c mod 2 =? Zmod.to_Z x mod 2 then c else prime - c) = Zmod.to_Z x.
Proof.
  intros Hx Hc [E|E]%(square_roots prime_p).
  - rewrite (to_Z_unique x c Hc E). now rewrite Z.eqb_refl.
  - rewrite (to_Z_unique _ c Hc E), opposite_to_Z by exact Hx.
    destruct (Z.eqb_spec ((prime - Zmod.to_Z x) mod 2) (Zmod.to_Z x mod 2)) as [P|P]; [|lia]. exfalso.
    unfold prime in P. revert P. generalize (Zmod.to_Z x). intros z P. Z.div_mod_to_equations. lia.
Qed.

Lemma spec_root_correct (x : Fp) : x <> Zmod.zero ->
  spec_root (Zmod.to_Z (Zmod.mul x x)) (Zmod.to_Z x mod 2) = Some (Zmod.to_Z x).
Proof.
  intros Hx. pose proof (power_root x Hx) as H. unfold spec_root. cbv zeta in H |- *.
  set (x2 := Zmod.to_Z (Zmod.mul x x)) in *. set (v := Zpow_mod x2 ((prime + 3) / 8) prime) in *.
  assert (Hv : 0 <= v < prime) by (unfold v; rewrite Zpow_mod_correct by done; now apply Z.mod_pos_bound). clearbody v.
  assert (K : forall c, Curve25519_Spec.fmul c c = x2 <-> Zmod.mul (fz c) (fz c) = Zmod.mul x x).
  { intros c. rewrite <- fz_fmul. split; [intros ->; apply fz_to_Z|].
    intros E. apply to_Z_unique; [now apply Z.mod_pos_bound|exact E]. }
  assert (C : exists c, (if Curve25519_Spec.fmul v v =? x2 then v else Curve25519_Spec.fmul v Ed25519_Spec.sqrt_m1) = c /\
    0 <= c < prime /\ Zmod.mul (fz c) (fz c) = Zmod.mul x x).
  { eexists. split; [reflexivity|]. destruct (Z.eqb_spec (Curve25519_Spec.fmul v v) x2) as [E|N]; [split; [exact Hv|now apply K]|].
    split; [now apply Z.mod_pos_bound|]. rewrite fz_fmul. apply (square_times_i prime_p iF iF_square).
    destruct H as [H|H]; [|exact H]. exfalso. now apply N, K. }
  destruct C as (c & -> & Hc & Ec). rewrite (proj2 (K c) Ec), Z.eqb_refl. cbn [negb]. f_equal. now apply parity_choice.
Qed.

Lemma recover_x_correct (x y : Fp) : on_ed (x, y) ->
  Ed25519_Spec.recover_x (Zmod.to_Z y) (Zmod.to_Z x mod 2) = Some (Zmod.to_Z x).
Proof.
  intros H. rewrite recover_x_cases, (spec_x2_square x y H). pose proof (to_Z_bound y) as By.
  destruct (Z.leb_spec prime (Zmod.to_Z y)); [lia|]. destruct (fld_eq_dec x Zmod.zero) as [->|Hx].
  - rewrite Zmod.mul_0_l. change (@Zmod.zero prime) with (fz 0). rewrite to_Z_fz. reflexivity.
  - destruct (Z.eqb_spec (Zmod.to_Z (Zmod.mul x x)) 0) as [E|N]; [|now apply spec_root_correct].
    exfalso. apply (fld_neq_mul prime_p x x Hx Hx). now rewrite <- (fz_to_Z (Zmod.mul x x)), E, fz_0.
Qed.

(** Decoding an encoded point gives the point back. *)
Lemma decompress_encode x y : on_ed (x, y) ->
  exists P, Ed25519_Spec.point_decompress (encode (x, y)) = Some P /\ stands P (x, y).
Proof.
  intros H. pose proof (to_Z_bound y) as By. pose proof (Z.mod_pos_bound (Zmod.to_Z x) 2 eq_refl) as Bs.
  unfold Ed25519_Spec.point_decompress, encode. rewrite le_combine_split.
  assert (Bp : prime <= 2 ^ 255) by (vm_compute; discriminate).
  rewrite (Z.mod_small (_ + _)) by (change (256 ^ Z.of_nat 32) with (2 ^ 255 * 2); lia).
  rewrite Z.mul_comm, Z.div_add, Z.div_small, Z.add_0_l by lia. rewrite Z.mod_add, Z.mod_small by lia.
  rewrite recover_x_correct by exact H. eexists. split; [reflexivity|].
  pose proof (stands_affine (Zmod.to_Z x) (Zmod.to_Z y)) as S. rewrite !fz_to_Z in S. now apply S.
Qed.

Lemma decompress_compress P A : stands P A ->
  exists P', Ed25519_Spec.point_decompress (Ed25519_Spec.point_compress P) = Some P' /\ stands P' A.
Proof.
  intros HP. rewrite (compress_encode P A HP). pose proof (stands_on_curve P A HP). destruct A as [x y]. now apply decompress_encode.
Qed.

(** ** Signatures verify *)

Lemma clamp_bound k : 0 <= k -> 0 <= Curve25519_Spec.clamp k < 2 ^ 256.
Proof.
  intros Hk. unfold Curve25519_Spec.clamp. apply (word_lor 256); [lia| |done].
  rewrite Z.land_comm. now apply (word_land_l 256).
Qed.

Lemma verify_sign secret msg : length secret = 32%nat ->
  EdDSA_Spec.verify (EdDSA_Spec.secret_to_public secret) msg (EdDSA_Spec.sign secret msg) = true.
Proof.
  intros Hs. unfold EdDSA_Spec.secret_to_public, EdDSA_Spec.sign.
  destruct (EdDSA_Spec.secret_expand secret) as [a prefix] eqn:Ex.
  assert (Ba : 0 <= a < 2 ^ 256).
  { injection Ex as <- _. apply clamp_bound. apply le_combine_bound, bytes_take, bytes_sha512. }
  pose proof (stands_mul a _ _ Ba stands_base) as HA. set (A := Ed25519_Spec.point_mul a Ed25519_Spec.base) in *.
  set (r := le_combine (EdDSA_Spec.sha512 (prefix ++ msg)) mod order). assert (Br : 0 <= r < order) by apply order_mod.
  assert (Bo : order < 2 ^ 256) by reflexivity.
  pose proof (stands_mul r _ _ ltac:(lia) stands_base) as HR. set (R := Ed25519_Spec.point_mul r Ed25519_Spec.base) in *.
  destruct (decompress_compress A _ HA) as (A' & EA & HA'). destruct (decompress_compress R _ HR) as (R' & ER & HR').
  set (Rs := Ed25519_Spec.point_compress R) in *. set (Ac := Ed25519_Spec.point_compress A) in *.
  assert (LR : length Rs = 32%nat) by apply length_point_compress.
  unfold EdDSA_Spec.verify. rewrite EA, take_app_length', drop_app_length', ER by (symmetry; exact LR).
  set (h := le_combine (EdDSA_Spec.sha512 (Rs ++ Ac ++ msg)) mod order). assert (Bh : 0 <= h < order) by apply order_mod.
  cbv zeta. fold h. set (s := (r + h * a) mod order). assert (Bs : 0 <= s < order) by apply order_mod.
  rewrite le_combine_split. change (256 ^ Z.of_nat 32) with (2 ^ 256). rewrite Z.mod_small by lia.
  destruct (Z.leb_spec order s) as [Hle|_]; [lia|].
  apply (point_equal_correct _ _ _ _ (stands_mul s _ _ ltac:(lia) stands_base)
    (stands_add _ _ _ _ HR' (stands_mul h _ _ ltac:(lia) HA'))).
  pose proof base_on_curve as HB. unfold s. assert (Ho : 0 < order) by reflexivity.
  assert (Bha : 0 <= h * a) by (apply Z.mul_nonneg_nonneg; lia). assert (Bsum : 0 <= r + h * a) by lia.
  rewrite (smul_mod prime_p dF iF iF_square dF_nonsquare two_nonzero order (r + h * a) base_ed Ho Bsum HB base_order).
  rewrite (smul_add prime_p dF iF iF_square dF_nonsquare two_nonzero r (h * a) base_ed (proj1 Br) Bha HB).
  now rewrite (smul_mul prime_p dF iF iF_square dF_nonsquare two_nonzero h a base_ed (proj1 Bh) (proj1 Ba) HB).
Qed.

Lemma bytes_public secret : bytes (EdDSA_Spec.secret_to_public secret).
Proof. unfold EdDSA_Spec.secret_to_public. destruct (EdDSA_Spec.secret_expand secret). apply bytes_point_compress. Qed.
Lemma length_public secret : length (EdDSA_Spec.secret_to_public secret) = 32%nat.
Proof. unfold EdDSA_Spec.secret_to_public. destruct (EdDSA_Spec.secret_expand secret). apply length_point_compress. Qed.
Lemma bytes_signature secret msg : bytes (EdDSA_Spec.sign secret msg).
Proof.
  unfold EdDSA_Spec.sign. destruct (EdDSA_Spec.secret_expand secret). apply bytes_app.
  split; [apply bytes_point_compress|apply bytes_le_split].
Qed.
Lemma length_signature secret msg : length (EdDSA_Spec.sign secret msg) = 64%nat.
Proof.
  unfold EdDSA_Spec.sign. destruct (EdDSA_Spec.secret_expand secret).
  now rewrite length_app, length_point_compress, length_le_split.
Qed.

(** ** Main results *)

Section Results.
Context {T : Type} {U128Ops : UInt128Ops T} {U128 : UInt128 T}.
Import BignumQ Ed25519.

(** C5: what [Hacl_Ed25519_sign] signs, [Hacl_Ed25519_verify] accepts under
    the public key that [Hacl_Ed25519_secret_to_public] computes from the same
    secret: for every secret key, every message below 4 GiB and whatever the output
    buffers held. *)
Theorem ed25519_signatures_verify out signature secret msg :
  length out = 32%nat -> length signature = 64%nat -> length secret = 32%nat -> Z.of_nat (length msg) < 2 ^ 32 ->
  Hacl_Ed25519_verify (T := T) (Hacl_Ed25519_secret_to_public (T := T) out secret) msg (Z.of_nat (length msg))
    (Hacl_Ed25519_sign (T := T) signature secret msg (Z.of_nat (length msg))) = true.
Proof.
  intros Ho Hg Hs Hm. rewrite secret_to_public_spec, sign_spec by done.
  rewrite verify_spec; [now apply verify_sign|..|exact Hm].
  - apply bytes_public.
  - apply length_public.
  - apply bytes_signature.
  - apply length_signature.
Qed.

(** the ladder of the code multiplies in the group of the curve: if the
    limbs of [q] represent a point A, those of [Hacl_Impl_Ed25519_Ladder_point_mul]
    represent k A, for every scalar k of 32 bytes; the limbs stay reduced. *)
Theorem ed25519_point_mul_group result k q Q A :
  length result = 20%nat -> bytes k -> length k = 32%nat -> ext Q q -> stands Q A ->
  exists R, ext R (Hacl_Impl_Ed25519_Ladder_point_mul (T := T) result k q) /\ stands R (mul_ed (le_combine k) A).
Proof.
  intros Hr Hk Lk Hq HA. exists (Ed25519_Spec.point_mul (le_combine (take 32 k)) Q). split.
  - apply ed_point_mul_spec; (done || lia).
  - rewrite take_ge by lia. apply stands_mul; [|done]. pose proof (le_combine_bound k Hk) as B. now rewrite Lk in B.
Qed.

(** compression is injective and decompression undoes it: the 32 bytes of
    any point of the curve decode, without error, to limbs of the same point. *)
Theorem ed25519_point_roundtrip out z p P A : length out = 20%nat -> length z = 32%nat -> ext P p -> stands P A ->
  let r := Hacl_Impl_Ed25519_PointDecompress_point_decompress (T := T) out
             (Hacl_Impl_Ed25519_PointCompress_point_compress (T := T) z p) in
  snd r = true /\ exists P', ext P' (fst r) /\ stands P' A.
Proof.
  intros Ho Hz Hp HA. cbv zeta. rewrite (point_compress_spec z p P Hz Hp).
  destruct (decompress_compress P A HA) as (P' & E & HP').
  pose proof (point_decompress_spec (T := T) out (Ed25519_Spec.point_compress P) Ho (bytes_point_compress P)) as D.
  rewrite length_point_compress, take_ge, E in D by (now rewrite length_point_compress).
  destruct (D (le_n _)) as [D1 D2]. split; [exact D1|]. now exists P'.
Qed.

End Results.

Lemma ed25519_signatures_verify_witness :
  Ed25519.Hacl_Ed25519_verify (T := Z) (Ed25519.Hacl_Ed25519_secret_to_public (T := Z) (replicate 32 0) (replicate 32 7)) [1; 2; 3] 3
    (Ed25519.Hacl_Ed25519_sign (T := Z) (replicate 64 0) (replicate 32 7) [1; 2; 3] 3) = true.
Proof. apply (ed25519_signatures_verify (T := Z) (replicate 32 0) (replicate 64 0) (replicate 32 7) [1; 2; 3]); reflexivity. Defined.

Lemma ed25519_point_mul_group_witness : exists R,
  ext R (Ed25519.Hacl_Impl_Ed25519_Ladder_point_mul (T := Z) (replicate 20 0) (3 :: replicate 31 0)
           (Ed25519.Hacl_Impl_Ed25519_G_make_g (replicate 20 0))) /\ stands R (mul_ed (le_combine (3 :: replicate 31 0)) base_ed).
Proof.
  apply (ed25519_point_mul_group (T := Z) _ _ _ Ed25519_Spec.base); [reflexivity| |reflexivity|now apply make_g_spec|exact stands_base].
  constructor; [lia|now apply bytes_replicate].
Defined.

Lemma ed25519_point_roundtrip_witness :
  let r := Ed25519.Hacl_Impl_Ed25519_PointDecompress_point_decompress (T := Z) (replicate 20 0)
             (Ed25519.Hacl_Impl_Ed25519_PointCompress_point_compress (T := Z) (replicate 32 0) (Ed25519.Hacl_Impl_Ed25519_G_make_g (replicate 20 0))) in
  snd r = true /\ exists P', ext P' (fst r) /\ stands P' base_ed.
Proof.
  apply (ed25519_point_roundtrip (T := Z) _ _ _ Ed25519_Spec.base); [reflexivity|reflexivity|now apply make_g_spec|exact stands_base].
Defined.
