(* ===== verification/Montgomery.v ===== *)
(** * Montgomery: the ladder step on u-coordinates

    The map u = (1 + y) / (1 - y) sends the curve of [Edwards] to the Montgomery
    curve of X25519.  A pair (X : Z) represents a point by its u-coordinate, up to
    a factor and up to the sign of x ([mrep]).  The doubling and the
    differential addition of the ladder compute the double and the sum, with
    no exception but a difference whose u is 0 or infinite. *)

From Stdlib Require Import ZArith Lia Zmod ZmodInv Field Zdivisibility.
From S2P Require Import Edwards.

Section Montgomery.
Context {m : Z} (Hm : Z.prime m).
Local Open Scope fld_scope.
Local Notation F := (Zmod m).
Local Notation "0" := (@Zmod.zero m) : fld_scope.
Local Notation "1" := (@Zmod.one m) : fld_scope.
Local Infix "+" := (@Zmod.add m) : fld_scope.
Local Infix "*" := (@Zmod.mul m) : fld_scope.
Local Infix "-" := (@Zmod.sub m) : fld_scope.
Local Infix "/" := (@Zmod.mdiv m) : fld_scope.
Local Notation "x ²" := (x * x) (at level 30) : fld_scope.

Add Field mfld : (Zmod.field_theory m Hm).

Variables d i a24 : F.
Hypothesis i_square : i * i = 0 - 1.
Hypothesis d_nonsquare : forall x, x * x <> d.
Hypothesis two_nonzero : 1 + 1 <> 0.
Hypothesis a24_d : d * (a24 + 1) = 0 - a24.

(** ** Coordinates *)

Definition ucoord (A : ed_point (m := m)) : F := let '(_, y) := A in (1 + y) / (1 - y).

Definition mrep (p : F * F) (A : ed_point (m := m)) : Prop :=
  let '(X, Z) := p in let '(_, y) := A in exists t, t <> 0 /\ X = t * (1 + y) /\ Z = t * (1 - y).

Definition mdouble (p : F * F) : F * F :=
  let '(X, Z) := p in
  let AA := (X + Z)² in
  let BB := (X - Z)² in
  let E := AA - BB in
  (AA * BB, E * (AA + a24 * E)).

Definition mdiffadd (u : F) (p q : F * F) : F * F :=
  let '(X2, Z2) := p in let '(X3, Z3) := q in
  let DA := (X3 - Z3) * (X2 + Z2) in
  let CB := (X3 + Z3) * (X2 - Z2) in
  ((DA + CB)², u * (DA - CB)²).

Lemma one_nonzero : 1 <> 0.
Proof. intros E. apply two_nonzero. rewrite E. ring. Qed.

(** Both coordinates zero is excluded, and proportional pairs suffice. *)
Lemma mrep_intro X Z x y : X * (1 - y) = Z * (1 + y) -> (X <> 0 \/ Z <> 0) -> mrep (X, Z) (x, y).
Proof.
  intros E N. assert (E' : X - Z = y * (X + Z)).
  { replace (X - Z) with (X * (1 - y) - Z * (1 + y) + y * (X + Z)) by ring. rewrite E. ring. }
  exists ((X + Z) / (1 + 1)). split; [|split].
  - intros H. assert (S : X + Z = 0) by (replace (X + Z) with ((X + Z) / (1 + 1) * (1 + 1)) by (field; auto); rewrite H; ring).
    rewrite S in E'. assert (D : X - Z = 0) by (rewrite E'; ring). pose proof (opposite_zero Hm two_nonzero X Z S D) as HZ.
    rewrite HZ in S. destruct N as [N|N]; apply N; [|exact HZ]. rewrite <- S. ring.
  - replace ((X + Z) / (1 + 1) * (1 + y)) with ((X + Z + y * (X + Z)) / (1 + 1)) by (field; auto). rewrite <- E'. field. auto.
  - replace ((X + Z) / (1 + 1) * (1 - y)) with ((X + Z - y * (X + Z)) / (1 + 1)) by (field; auto). rewrite <- E'. field. auto.
Qed.

Lemma mrep_ucoord X Z A : mrep (X, Z) A -> X / Z = ucoord A.
Proof.
  destruct A as [x y]. intros (t & Ht & -> & ->). cbn. destruct (fld_eq_dec (1 - y) 0) as [E|N]; [|field; auto].
  rewrite E. replace (t * 0) with 0 by ring. rewrite <- !Zmod.mul_inv_r, Zmod.inv_0, !Zmod.mul_0_r. reflexivity.
Qed.

Lemma mrep_zero : mrep (1, 0) ed_zero.
Proof. apply mrep_intro; [ring|left; exact one_nonzero]. Qed.

(** A point whose u is finite. *)
Lemma mrep_affine x y : 1 - y <> 0 -> mrep (ucoord (x, y), 1) (x, y).
Proof. intros N. apply mrep_intro; [cbn; field; exact N|right; exact one_nonzero]. Qed.

(** ** Doubling *)

Lemma a24_factor : (1 + d) * (a24 + 1) = 1.
Proof. replace ((1 + d) * (a24 + 1)) with (a24 + 1 + d * (a24 + 1)) by ring. rewrite a24_d. ring. Qed.

Lemma mdouble_correct p A : on_curve d A -> mrep p A -> mrep (mdouble p) (ed_add d A A).
Proof.
  destruct A as [x y], p as [X Z]. intros C (t & Ht & -> & ->).
  destruct (denominators Hm d i i_square d_nonsquare two_nonzero x y x y C C) as [_ D].
  apply (curve_monomial Hm) in C. cbn [ed_add].
  replace (d * x * x * y * y) with (y² - x² - 1) in * by (rewrite <- C; ring).
  pose proof (curve_factor Hm d i i_square d_nonsquare two_nonzero y) as Ny.
  assert (Na : a24 + 1 <> 0) by (intros E; apply one_nonzero; rewrite <- a24_factor, E; ring).
  assert (K : 1 + a24 * (1 - y²) = (a24 + 1) * (d * y² + 1)).
  { replace ((a24 + 1) * (d * y² + 1)) with (d * (a24 + 1) * y² + a24 + 1) by ring. rewrite a24_d. ring. }
  assert (L : (1 + x²) * ((a24 + 1) * (d * y² + 1)) = y²).
  { replace ((1 + x²) * ((a24 + 1) * (d * y² + 1))) with ((a24 + 1) * (1 + x² + d * y² + d * x² * y²)) by ring. rewrite C.
    replace ((a24 + 1) * (1 + x² + d * y² + (y² - x² - 1))) with ((1 + d) * (a24 + 1) * y²) by ring. rewrite a24_factor. ring. }
  cbn [mdouble]. set (k := t² * t²). set (f := (a24 + 1) * (d * y² + 1)) in *.
  assert (Hk : k <> 0) by (repeat apply (fld_neq_mul Hm); assumption).
  assert (Hf : f <> 0) by (apply (fld_neq_mul Hm); assumption).
  set (v := 1 - (y² - x² - 1)) in *. set (two := 1 + 1) in *.
  exists (two * two * two * k * f * v). split; [repeat apply (fld_neq_mul Hm); assumption|]. split.
  - replace (1 + (y * y + x * x) / v) with (two * (1 + x²) / v) by (unfold v, two; field; exact D).
    replace (two * two * two * k * f * v * (two * (1 + x²) / v)) with (two² * two² * k * ((1 + x²) * f)) by (field; exact D).
    rewrite L. unfold k, two. ring.
  - replace (1 - (y * y + x * x) / v) with (two * (1 - y²) / v) by (unfold v, two; field; exact D).
    replace (two * two * two * k * f * v * (two * (1 - y²) / v)) with (two² * two² * k * (1 - y²) * f) by (field; exact D).
    rewrite <- K. unfold k, two. ring.
Qed.

(** ** Differential addition *)

Lemma ed_sub_swap P Q : ed_add d P (ed_opp Q) = ed_opp (ed_add d Q (ed_opp P)).
Proof.
  destruct P as [x1 y1], Q as [x2 y2]. cbn. f_equal.
  - replace (d * x1 * Zmod.opp x2 * y1 * y2) with (d * x2 * Zmod.opp x1 * y2 * y1) by ring.
    rewrite <- !Zmod.mul_inv_r. ring.
  - replace (d * x1 * Zmod.opp x2 * y1 * y2) with (d * x2 * Zmod.opp x1 * y2 * y1) by ring. f_equal. ring.
Qed.

(** The product of the u-coordinates of sum and difference. *)
Lemma sum_difference x1 y1 x2 y2 : on_curve d (x1, y1) -> on_curve d (x2, y2) ->
  let yS := snd (ed_add d (x1, y1) (x2, y2)) in
  let yD := snd (ed_add d (x1, y1) (ed_opp (x2, y2))) in
  (1 + yS) * (1 + yD) * (y1 - y2)² = (1 - yS) * (1 - yD) * (y1 + y2)².
Proof.
  intros C1 C2. destruct (denominators Hm d i i_square d_nonsquare two_nonzero x1 y1 x2 y2 C1 C2) as [D1 D2].
  apply (curve_monomial Hm) in C1, C2. cbn [ed_add ed_opp snd]. cbv zeta.
  replace (d * x1 * Zmod.opp x2 * y1 * y2) with (0 - d * x1 * x2 * y1 * y2) by ring.
  set (s := d * x1 * x2 * y1 * y2) in *. assert (D3 : 1 - (0 - s) <> 0) by (replace (1 - (0 - s)) with (1 + s) by ring; exact D1).
  set (b := y1 * y2 + x1 * x2). set (c := y1 * y2 + x1 * Zmod.opp x2).
  replace ((1 + b / (1 - s)) * (1 + c / (1 - (0 - s))) * (y1 - y2)²)
    with ((1 - s + b) * (1 + s + c) * (y1 - y2)² / ((1 - s) * (1 + s))) by (field; auto).
  replace ((1 - b / (1 - s)) * (1 - c / (1 - (0 - s))) * (y1 + y2)²)
    with ((1 - s - b) * (1 + s - c) * (y1 + y2)² / ((1 - s) * (1 + s))) by (field; auto).
  f_equal. unfold b, c, s. ring [C1 C2].
Qed.

Lemma zero_difference x1 x2 : on_curve d (x1, 0) -> on_curve d (x2, 0) ->
  let yD := snd (ed_add d (x1, 0) (ed_opp (x2, 0))) in yD² = 1.
Proof.
  cbn. intros C1 C2. replace (d * x1 * Zmod.opp x2 * 0 * 0) with 0 by ring.
  replace (1 - 0) with 1 by ring. replace ((0 * 0 + x1 * Zmod.opp x2) / 1) with (0 - x1 * x2) by (field; exact one_nonzero).
  replace ((0 - x1 * x2)²) with (x1² * x2²) by ring.
  assert (E : forall x, 0 * 0 - x² = 1 + d * x² * (0 * 0) -> x² = 0 - 1)
    by (intros x H; replace (x²) with (0 - (0 * 0 - x²)) by ring; rewrite H; ring).
  rewrite (E x1 C1), (E x2 C2). ring.
Qed.

Lemma mdiffadd_correct u p q P Q : on_curve d P -> on_curve d Q -> mrep p P -> mrep q Q -> u <> 0 ->
  (let yD := snd (ed_add d P (ed_opp Q)) in u * (1 - yD) = 1 + yD) ->
  mrep (mdiffadd u p q) (ed_add d P Q).
Proof.
  destruct P as [x1 y1], Q as [x2 y2], p as [X2 Z2], q as [X3 Z3].
  intros C1 C2 (t1 & N1 & -> & ->) (t2 & N2 & -> & ->) Hu HD. cbv zeta in HD. cbn [mdiffadd].
  pose proof (sum_difference x1 y1 x2 y2 C1 C2) as K. cbv zeta in K.
  set (yD := snd (ed_add d (x1, y1) (ed_opp (x2, y2)))) in *.
  set (S := ed_add d (x1, y1) (x2, y2)) in *. rewrite (surjective_pairing S). set (yS := snd S) in *.
  set (k := (1 + 1)² * (t1 * t2)). assert (Hk : k <> 0) by (repeat apply (fld_neq_mul Hm); assumption).
  replace ((t2 * (1 + y2) - t2 * (1 - y2)) * (t1 * (1 + y1) + t1 * (1 - y1))) with (k * y2) by (unfold k; ring).
  replace ((t2 * (1 + y2) + t2 * (1 - y2)) * (t1 * (1 + y1) - t1 * (1 - y1))) with (k * y1) by (unfold k; ring).
  assert (ND : 1 - yD <> 0).
  { intros E. rewrite E in HD. apply two_nonzero. replace (1 + 1) with (1 + yD + (1 - yD)) by ring. rewrite <- HD, E. ring. }
  apply mrep_intro.
  - assert (Z : forall a b : F, (1 - yD) * a = (1 - yD) * b -> a = b).
    { intros a b H. replace a with ((1 - yD) * a / (1 - yD)) by (field; exact ND). rewrite H. field. exact ND. }
    apply Z. replace ((1 - yD) * ((k * y2 + k * y1)² * (1 - yS))) with (k² * ((1 - yS) * (1 - yD) * (y1 + y2)²)) by ring.
    rewrite <- K, <- HD. ring.
  - destruct (fld_eq_dec (y1 + y2) 0) as [E1|N]; [destruct (fld_eq_dec (y1 - y2) 0) as [E2|N]|].
    + exfalso. pose proof (opposite_zero Hm two_nonzero y1 y2 E1 E2) as H2.
      assert (H1 : y1 = 0) by (replace y1 with (y1 + y2 - y2) by ring; rewrite E1, H2; ring).
      subst y1 y2. pose proof (zero_difference x1 x2 C1 C2) as Q. cbv zeta in Q. fold yD in Q.
      destruct (fld_integral Hm (1 - yD) (1 + yD)) as [E|E]; [replace ((1 - yD) * (1 + yD)) with (1 - yD²) by ring; rewrite Q; ring|auto|].
      rewrite E in HD. destruct (fld_integral Hm _ _ HD); auto.
    + right. repeat apply (fld_neq_mul Hm); try exact Hu;
        replace (k * y2 - k * y1) with (k * (0 - 1) * (y1 - y2)) by ring; repeat apply (fld_neq_mul Hm); try assumption;
        intros E; apply one_nonzero; replace 1 with (0 - (0 - 1)) by ring; rewrite E; ring.
    + left. replace (k * y2 + k * y1) with (k * (y1 + y2)) by ring. repeat apply (fld_neq_mul Hm); assumption.
Qed.

(** A step from n A and (n + 1) A: their difference is A. *)
Lemma consecutive_difference A P : on_curve d A -> on_curve d P ->
  snd (ed_add d (ed_add d A P) (ed_opp P)) = snd A /\ snd (ed_add d P (ed_opp (ed_add d A P))) = snd A.
Proof.
  intros CA CP. assert (E : ed_add d (ed_add d A P) (ed_opp P) = A).
  { rewrite (ed_add_assoc Hm d i i_square d_nonsquare two_nonzero), (ed_add_opp Hm d i i_square d_nonsquare two_nonzero),
      (ed_add_comm Hm d), (ed_add_0_l Hm d two_nonzero) by (try apply on_curve_opp; assumption). reflexivity. }
  split; [now rewrite E|]. rewrite ed_sub_swap, E. now destruct A.
Qed.

(** Points whose u is 0 (or infinite, which counts as 0) have order two. *)
Lemma ucoord_zero A : on_curve d A -> ucoord A = 0 -> ed_add d A A = ed_zero.
Proof.
  destruct A as [x y]. intros C E. pose proof C as C'. cbn in C', E.
  assert (Y : y² = 1 /\ x = 0).
  { assert (H : y² = 1).
    { destruct (fld_eq_dec (1 - y) 0) as [N|N].
      - replace (y²) with (1 - (1 - y) * (1 + y)) by ring. rewrite N. ring.
      - assert (P : 1 + y = 0) by (replace (1 + y) with ((1 + y) / (1 - y) * (1 - y)) by (field; exact N); rewrite E; ring).
        replace (y²) with (1 - (1 - y) * (1 + y)) by ring. rewrite P. ring. }
    split; [exact H|]. pose proof (curve_factor Hm d i i_square d_nonsquare two_nonzero 1) as N. rewrite H in C'.
    destruct (fld_integral Hm (x²) (d * (1 * 1) + 1)) as [X|X]; [|now destruct (fld_integral Hm _ _ X)|contradiction].
    replace (x² * (d * (1 * 1) + 1)) with (1 + d * x² * 1 - (1 - x²)) by ring. rewrite C'. ring. }
  destruct Y as [Y ->]. cbn. unfold ed_zero.
  replace (1 + d * 0 * 0 * y * y) with 1 by ring. replace (1 - d * 0 * 0 * y * y) with 1 by ring. rewrite Y.
  f_equal; field; exact one_nonzero.
Qed.

End Montgomery.
