(* ===== verification/X25519Group.v ===== *)
(** * X25519Group: key agreement

    The ladder of X25519 computes the u-coordinate of a multiple of the point
    it is given ([scalarmult_multiple]), through the map of [Montgomery] to the
    group of [Edwards].  Hence the secrets two parties compute from each
    other's public keys agree, and what one seals in a box the other opens. *)

From stdpp Require Import base list numbers.
From Stdlib Require Import ZArith Lia Zmod ZmodInv Zdivisibility Zpow_facts Field.
From S2P Require Import Prelude Machine UInt128 Salsa20 Curve25519 FieldProofs LadderProofs NaCl Ed25519Proofs Prime25519 Edwards Ed25519Group Montgomery.

Local Open Scope Z_scope.
Local Open Scope buf_scope.

(** ** The ladder in the field *)

Definition a24F : Fp := fz Curve25519_Spec.a24.

Lemma a24F_d : Zmod.mul dF (Zmod.add a24F Zmod.one) = Zmod.sub Zmod.zero a24F.
Proof.
  unfold dF, a24F, fz. rewrite <- Zmod.of_Z_0, <- Zmod.of_Z_1, <- Zmod.of_Z_add, <- Zmod.of_Z_sub, <- Zmod.of_Z_mul.
  apply fz_eq. vm_compute. reflexivity.
Qed.

Definition fxz (p : Curve25519_Spec.point) : Fp * Fp := (fz (fst p), fz (snd p)).

Lemma add_double_fields u p q :
  fxz (fst (Curve25519_Spec.add_double u (p, q))) = mdouble a24F (fxz p) /\
  fxz (snd (Curve25519_Spec.add_double u (p, q))) = mdiffadd (fz u) (fxz p) (fxz q).
Proof.
  destruct p as [x2 z2], q as [x3 z3].
  cbv beta iota zeta delta [fxz Curve25519_Spec.add_double mdouble mdiffadd fst snd].
  rewrite ?fz_fmul, ?fz_fsub, ?fz_fadd, ?fz_fmul, ?fz_fsub, ?fz_fadd, ?fz_fmul, ?fz_fsub, ?fz_fadd, ?fz_fmul.
  rewrite ?fz_fsub, ?fz_fmul, ?fz_fadd, ?fz_fsub, ?fz_fmul, ?fz_fadd, ?fz_fsub. now split.
Qed.

Notation u_of := (ucoord (m := prime)).
Notation rep := (mrep (m := prime)).

(** The pair of the ladder after the bits of [n]: n A and (n + 1) A. *)
Definition mladder_at (n : Z) (A : ed_point (m := prime)) (pq : Curve25519_Spec.point * Curve25519_Spec.point) : Prop :=
  rep (fxz (fst pq)) (mul_ed n A) /\ rep (fxz (snd pq)) (mul_ed (n + 1) A).

Lemma mul_ed_succ n A : 0 <= n -> mul_ed (n + 1) A = add_ed A (mul_ed n A).
Proof. intros Hn. rewrite Z.add_1_r. now apply smul_succ. Qed.

Lemma on_mul_ed n A : 0 <= n -> on_ed A -> on_ed (mul_ed n A).
Proof. apply (on_curve_smul prime_p dF iF iF_square dF_nonsquare two_nonzero). Qed.

Section Ladder.
Variables (u : Z) (A : ed_point (m := prime)).
Hypothesis HA : on_ed A.
Hypothesis Hu : fz u = u_of A.
Hypothesis Nu : fz u <> Zmod.zero.

(** u is neither 0 nor infinite. *)
Lemma finite_u : Zmod.sub Zmod.one (snd A) <> Zmod.zero.
Proof.
  destruct A as [x y]. cbn in *. intros E. apply Nu. rewrite Hu, E, <- Zmod.mul_inv_r, Zmod.inv_0. apply Zmod.mul_0_r.
Qed.

Lemma u_equation : Zmod.mul (fz u) (Zmod.sub Zmod.one (snd A)) = Zmod.add Zmod.one (snd A).
Proof.
  pose proof finite_u as N. destruct A as [x y]. cbn in *. rewrite Hu, <- Zmod.mul_inv_r, <- Zmod.mul_assoc.
  pose proof (Field_theory.Finv_l (Zmod.field_theory prime prime_p) (Zmod.sub Zmod.one y) N) as I.
  rewrite I. apply Zmod.mul_1_r.
Qed.

Lemma step_double n p : 0 <= n -> rep p (mul_ed n A) -> rep (mdouble a24F p) (mul_ed (2 * n) A).
Proof.
  intros Hn Hp. rewrite <- mul_ed_double by done.
  exact (mdouble_correct prime_p dF iF a24F iF_square dF_nonsquare two_nonzero a24F_d p _ (on_mul_ed n A Hn HA) Hp).
Qed.

Lemma step_add n p q : 0 <= n -> rep p (mul_ed n A) -> rep q (mul_ed (n + 1) A) ->
  rep (mdiffadd (fz u) p q) (mul_ed (2 * n + 1) A) /\ rep (mdiffadd (fz u) q p) (mul_ed (2 * n + 1) A).
Proof.
  intros Hn Hp Hq. pose proof (on_mul_ed n A Hn HA) as Cp. pose proof (on_mul_ed (n + 1) A ltac:(lia) HA) as Cq.
  destruct (consecutive_difference prime_p dF iF iF_square dF_nonsquare two_nonzero A _ HA Cp) as [D1 D2].
  rewrite <- mul_ed_succ in D1, D2 by done. rewrite <- mul_ed_odd by done. split.
  - apply (mdiffadd_correct prime_p dF iF iF_square dF_nonsquare two_nonzero); [done..|]. cbv zeta. rewrite D2. exact u_equation.
  - rewrite (ed_add_comm prime_p dF).
    apply (mdiffadd_correct prime_p dF iF iF_square dF_nonsquare two_nonzero); [done..|]. cbv zeta. rewrite D1. exact u_equation.
Qed.

Lemma ladder_step_at n pq b : 0 <= n -> mladder_at n A pq ->
  mladder_at (2 * n + Z.b2z b) A (Curve25519_Spec.ladder_step u pq b).
Proof.
  intros Hn. destruct pq as [p q]. intros [Hp Hq]. cbn [fst snd] in *. unfold Curve25519_Spec.ladder_step.
  destruct (step_add n _ _ Hn Hp Hq) as [S1 S2].
  destruct b; cbn [Curve25519_Spec.cswap fst snd Z.b2z]; unfold mladder_at; cbn [fst snd].
  - destruct (add_double_fields u q p) as [-> ->]. split; [exact S2|].
    replace (2 * n + 1 + 1) with (2 * (n + 1)) by lia. apply step_double; [lia|done].
  - destruct (add_double_fields u p q) as [-> ->]. rewrite Z.add_0_r. split; [now apply step_double|exact S1].
Qed.

Lemma mladder_fold bs : forall n pq, 0 <= n -> mladder_at n A pq ->
  mladder_at (bits_value n bs) A (fold_left (Curve25519_Spec.ladder_step u) bs pq).
Proof.
  induction bs as [|b bs IH]; intros n pq Hn H; [exact H|]. cbn [fold_left bits_value].
  apply IH; [destruct b; cbn; lia|]. now apply ladder_step_at.
Qed.

Lemma ladder_multiple k : 0 <= k < 2 ^ 256 -> rep (fxz (fst (Curve25519_Spec.ladder u k))) (mul_ed k A).
Proof.
  intros Hk. pose proof (mladder_fold (Curve25519_Spec.scalar_bits 256 k) 0 ((1, 0), (u, 1)) ltac:(lia)) as L.
  rewrite scalar_bits_value in L. change (2 ^ Z.of_nat 256) with (2 ^ 256) in L. rewrite Z.mod_small in L by lia.
  apply L. unfold mladder_at, fxz. cbn [fst snd]. rewrite fz_0, fz_1. split.
  - exact (mrep_zero prime_p two_nonzero).
  - change (0 + 1) with 1. rewrite (smul_1 prime_p dF two_nonzero), Hu.
    pose proof finite_u as N. destruct A as [x y]. exact (mrep_affine prime_p two_nonzero x y N).
Qed.

End Ladder.

(** ** u = 0

    The products X Z are zero at the start and both Z are zero after a step. *)

Definition degenerate (p : Fp * Fp) : Prop := Zmod.mul (fst p) (snd p) = Zmod.zero.

Lemma mdouble_degenerate p : degenerate p -> snd (mdouble a24F p) = Zmod.zero.
Proof.
  destruct p as [X Z]. unfold degenerate. cbn [mdouble fst snd]. intros E.
  assert (H : Zmod.sub (Zmod.mul (Zmod.add X Z) (Zmod.add X Z)) (Zmod.mul (Zmod.sub X Z) (Zmod.sub X Z)) =
    Zmod.mul (fz 4) (Zmod.mul X Z)).
  { unfold fz. rewrite <- (Zmod.of_Z_to_Z X), <- (Zmod.of_Z_to_Z Z).
    rewrite <- !Zmod.of_Z_add, <- !Zmod.of_Z_sub, <- !Zmod.of_Z_mul, <- Zmod.of_Z_sub. f_equal. ring. }
  rewrite H, E, Zmod.mul_0_r. apply Zmod.mul_0_l.
Qed.

Lemma ladder_step_degenerate u pq b : fz u = Zmod.zero -> degenerate (fxz (fst pq)) -> degenerate (fxz (snd pq)) ->
  let r := Curve25519_Spec.ladder_step u pq b in fz (snd (fst r)) = Zmod.zero /\ fz (snd (snd r)) = Zmod.zero.
Proof.
  intros Hu. destruct pq as [p q]. cbn [fst snd]. intros Hp Hq. cbv zeta. unfold Curve25519_Spec.ladder_step.
  assert (G : forall p q, degenerate (fxz p) -> let r := Curve25519_Spec.add_double u (p, q) in
    fz (snd (fst r)) = Zmod.zero /\ fz (snd (snd r)) = Zmod.zero).
  { clear -Hu. intros p q Hp. destruct (add_double_fields u p q) as [E1 E2]. cbv zeta.
    rewrite Hu in E2. apply (f_equal snd) in E1, E2. split.
    - etransitivity; [exact E1|]. now apply mdouble_degenerate.
    - etransitivity; [exact E2|]. destruct (fxz p), (fxz q). apply Zmod.mul_0_l. }
  destruct b; cbn [Curve25519_Spec.cswap fst snd]; [destruct (G q p Hq)|destruct (G p q Hp)]; now split.
Qed.

Lemma ladder_fold_degenerate u bs : fz u = Zmod.zero -> forall pq b,
  degenerate (fxz (fst pq)) -> degenerate (fxz (snd pq)) ->
  fz (snd (fst (fold_left (Curve25519_Spec.ladder_step u) (b :: bs) pq))) = Zmod.zero.
Proof.
  intros Hu. induction bs as [|b' bs IH]; intros pq b Hp Hq;
    destruct (ladder_step_degenerate u pq b Hu Hp Hq) as [E1 E2]; [exact E1|].
  change (fold_left _ (b :: b' :: bs) pq) with (fold_left (Curve25519_Spec.ladder_step u) (b' :: bs) (Curve25519_Spec.ladder_step u pq b)).
  apply IH; unfold degenerate, fxz; cbn [fst snd]; [rewrite E1|rewrite E2]; apply Zmod.mul_0_r.
Qed.

Lemma ladder_zero u k : fz u = Zmod.zero -> fz (snd (fst (Curve25519_Spec.ladder u k))) = Zmod.zero.
Proof.
  intros Hu. unfold Curve25519_Spec.ladder. rewrite (scalar_bits_S 255 k). apply ladder_fold_degenerate; [done|..];
    unfold degenerate, fxz; cbn [fst snd]; [rewrite fz_0; apply Zmod.mul_0_r|rewrite Hu; apply Zmod.mul_0_l].
Qed.

(** ** X25519 multiplies *)

Lemma fmul_finv x z : Curve25519_Spec.fmul x (Curve25519_Spec.finv z) = Zmod.to_Z (Zmod.mdiv (fz x) (fz z)).
Proof.
  apply to_Z_unique; [apply Z.mod_pos_bound, prime_pos|]. rewrite fz_fmul, <- mdiv_inv. f_equal.
  destruct (fld_eq_dec (fz z) Zmod.zero) as [E|N]; [|now apply fz_finv].
  unfold Curve25519_Spec.finv. rewrite Zpow_mod_correct by done. rewrite fz_mod. unfold fz in *.
  now rewrite Zmod.of_Z_pow, E, Zmod.pow_0_l, Zmod.inv_0 by done.
Qed.

Lemma clamp_even k : 0 <= k -> exists j, 0 <= j /\ Curve25519_Spec.clamp k = 2 * j /\ 2 * j < 2 ^ 256.
Proof.
  intros Hk. pose proof (clamp_bound k Hk) as B.
  assert (E : Curve25519_Spec.clamp k mod 2 = 0).
  { rewrite <- Z.bit0_mod. unfold Curve25519_Spec.clamp. rewrite Z.lor_spec, Z.land_spec, andb_false_r. reflexivity. }
  exists (Curve25519_Spec.clamp k / 2). pose proof (Z.div_mod (Curve25519_Spec.clamp k) 2 ltac:(lia)). lia.
Qed.

Lemma scalarmult_multiple secret basepoint A : bytes secret -> on_ed A ->
  fz (le_combine basepoint mod 2 ^ 255) = u_of A ->
  Curve25519_Spec.scalarmult secret basepoint =
  le_split 32 (Zmod.to_Z (u_of (mul_ed (Curve25519_Spec.clamp (le_combine secret)) A))).
Proof.
  intros Hs HA Hu. unfold Curve25519_Spec.scalarmult. cbv zeta. set (u := le_combine basepoint mod 2 ^ 255) in *.
  pose proof (le_combine_bound secret Hs) as Bs. destruct (clamp_even (le_combine secret) ltac:(lia)) as (j & Hj & Ek & Bk).
  rewrite Ek. destruct (fld_eq_dec (fz u) Zmod.zero) as [E|N].
  - pose proof (ladder_zero u (2 * j) E) as L. destruct (Curve25519_Spec.ladder u (2 * j)) as [[x2 z2] q].
    cbn [fst snd] in L. rewrite fmul_finv, L. f_equal. f_equal. rewrite E in Hu. symmetry in Hu.
    rewrite Z.mul_comm, (smul_mul prime_p dF iF iF_square dF_nonsquare two_nonzero) by (lia || done).
    change 2 with (1 + 1). rewrite mul_ed_succ, (smul_1 prime_p dF two_nonzero) by lia.
    rewrite (ucoord_zero prime_p dF iF iF_square dF_nonsquare two_nonzero A HA Hu), smul_zero by (done || exact prime_p || exact two_nonzero).
    unfold ucoord, ed_zero. rewrite Zmod.sub_same, <- !Zmod.mul_inv_r, Zmod.inv_0. now rewrite !Zmod.mul_0_r.
  - pose proof (ladder_multiple u A HA Hu N (2 * j) ltac:(lia)) as L.
    destruct (Curve25519_Spec.ladder u (2 * j)) as [[x2 z2] q]. cbn [fst snd fxz] in L.
    rewrite fmul_finv. f_equal. f_equal. exact (mrep_ucoord prime_p _ _ _ L).
Qed.

(** ** The base point *)

Definition basepoint : list Z := 9 :: replicate 31 0.

Lemma bytes_basepoint : bytes basepoint.
Proof. constructor; [lia|now apply bytes_replicate]. Qed.

Lemma base_u : u_of base_ed = fz 9.
Proof.
  unfold base_ed, ucoord. set (y := fz Ed25519_Spec.base_y).
  assert (N : Zmod.sub Zmod.one y <> Zmod.zero).
  { unfold y. rewrite <- fz_1, <- fz_sub, <- fz_0. intros E%fz_eq. vm_compute in E. discriminate. }
  assert (E : Zmod.add Zmod.one y = Zmod.mul (fz 9) (Zmod.sub Zmod.one y)).
  { unfold y. rewrite <- fz_1, <- fz_sub, <- fz_add, <- fz_mul. apply fz_eq. vm_compute. reflexivity. }
  rewrite E, <- Zmod.mul_inv_r, <- Zmod.mul_assoc, (Zmod.mul_comm (Zmod.sub _ _)).
  rewrite (Field_theory.Finv_l (Zmod.field_theory prime prime_p) _ N). apply Zmod.mul_1_r.
Qed.

(** The public key of a secret is the u-coordinate of its multiple of the base
    point. *)
Lemma public_key_multiple secret : bytes secret ->
  let pk := Curve25519_Spec.scalarmult secret basepoint in
  bytes pk /\ length pk = 32%nat /\
  fz (le_combine pk mod 2 ^ 255) = u_of (mul_ed (Curve25519_Spec.clamp (le_combine secret)) base_ed).
Proof.
  intros Hs. cbv zeta. rewrite (scalarmult_multiple secret basepoint base_ed Hs base_on_curve) by now rewrite base_u.
  split; [apply bytes_le_split|]. split; [apply length_le_split|].
  set (w := u_of _). pose proof (to_Z_bound w) as B.
  assert (P : prime < 2 ^ 255) by done. assert (P' : 2 ^ 255 < 256 ^ Z.of_nat 32) by done.
  rewrite le_combine_split, (Z.mod_small (Zmod.to_Z w) (256 ^ _)), Z.mod_small by lia. apply fz_to_Z.
Qed.

Lemma agreement a b : bytes a -> bytes b ->
  Curve25519_Spec.scalarmult a (Curve25519_Spec.scalarmult b basepoint) =
  Curve25519_Spec.scalarmult b (Curve25519_Spec.scalarmult a basepoint).
Proof.
  intros Ha Hb. destruct (public_key_multiple a Ha) as (_ & _ & Ea). destruct (public_key_multiple b Hb) as (_ & _ & Eb).
  pose proof (clamp_bound _ (proj1 (le_combine_bound a Ha))) as Ka.
  pose proof (clamp_bound _ (proj1 (le_combine_bound b Hb))) as Kb.
  rewrite (scalarmult_multiple a _ _ Ha (on_mul_ed _ _ (proj1 Kb) base_on_curve) Eb).
  rewrite (scalarmult_multiple b _ _ Hb (on_mul_ed _ _ (proj1 Ka) base_on_curve) Ea).
  rewrite <- !(smul_mul prime_p dF iF iF_square dF_nonsquare two_nonzero) by (lia || exact base_on_curve).
  now rewrite Z.mul_comm.
Qed.

(** ** Main results *)

Section Results.
Context {T : Type} {U128Ops : UInt128Ops T} {U128 : UInt128 T}.
Import Curve25519 NaCl.

Local Notation public_key o secret := (Hacl_Curve25519_crypto_scalarmult (T := T) o secret basepoint).

(** C8: Diffie-Hellman key agreement: the secret one party computes with
    [Hacl_Curve25519_crypto_scalarmult] from its own secret and the other's public
    key is the one the other computes, for every pair of secrets; the public keys
    are the multiples of the base point 9 the code computes. *)
Theorem x25519_agreement ska skb oa ob outa outb :
  bytes ska -> length ska = 32%nat -> bytes skb -> length skb = 32%nat ->
  length oa = 32%nat -> length ob = 32%nat -> length outa = 32%nat -> length outb = 32%nat ->
  Hacl_Curve25519_crypto_scalarmult (T := T) outa ska (public_key ob skb) =
  Hacl_Curve25519_crypto_scalarmult (T := T) outb skb (public_key oa ska).
Proof.
  intros Ba La Bb Lb Loa Lob L1 L2. rewrite !(scalarmult_spec _ _ basepoint) by (done || apply bytes_basepoint).
  destruct (public_key_multiple ska Ba) as (Pa & Na & _). destruct (public_key_multiple skb Bb) as (Pb & Nb & _).
  rewrite !scalarmult_spec by done. now apply agreement.
Qed.

(** C4: what one party seals with [crypto_box_easy] for the other's public
    key, the other opens with [crypto_box_open_easy] from the sender's public key:
    the call returns 0 and the message, for all secrets, nonces and messages below
    4 GiB, with the public keys the code computes from the secrets. *)
Theorem box_exchange ska skb oa ob n m c out :
  bytes ska -> length ska = 32%nat -> bytes skb -> length skb = 32%nat -> length oa = 32%nat -> length ob = 32%nat ->
  bytes m -> Z.of_nat (32 + length m) < 2 ^ 32 ->
  length c = (32 + length m)%nat -> length out = (32 + length m)%nat ->
  let box := fst (Hacl_Box_ZeroPad_crypto_box_easy (T := T) c (replicate 32 0 ++ m) (Z.of_nat (length m)) n
                    (public_key ob skb) ska) in
  Hacl_Box_ZeroPad_crypto_box_open_easy (T := T) out box (Z.of_nat (length m)) n (public_key oa ska) skb =
  (replicate 32 0 ++ m, 0).
Proof.
  intros Ba La Bb Lb Loa Lob Hm Hl Hc Ho. rewrite !(scalarmult_spec _ _ basepoint) by (done || apply bytes_basepoint).
  destruct (public_key_multiple ska Ba) as (Pa & Na & _). destruct (public_key_multiple skb Bb) as (Pb & Nb & _).
  apply box_two_party; auto. now apply agreement.
Qed.

End Results.

Lemma x25519_agreement_witness :
  Curve25519.Hacl_Curve25519_crypto_scalarmult (T := Z) (replicate 32 0) (replicate 32 7)
    (Curve25519.Hacl_Curve25519_crypto_scalarmult (T := Z) (replicate 32 0) (replicate 32 9) basepoint) =
  Curve25519.Hacl_Curve25519_crypto_scalarmult (T := Z) (replicate 32 0) (replicate 32 9)
    (Curve25519.Hacl_Curve25519_crypto_scalarmult (T := Z) (replicate 32 0) (replicate 32 7) basepoint).
Proof.
  refine (x25519_agreement (T := Z) (replicate 32 7) (replicate 32 9) (replicate 32 0) (replicate 32 0) (replicate 32 0)
    (replicate 32 0) _ eq_refl _ eq_refl eq_refl eq_refl eq_refl eq_refl); now apply bytes_replicate.
Defined.

Lemma box_exchange_witness :
  let pk s := Curve25519.Hacl_Curve25519_crypto_scalarmult (T := Z) (replicate 32 0) (replicate 32 s) basepoint in
  let box := fst (NaCl.Hacl_Box_ZeroPad_crypto_box_easy (T := Z) (replicate 33 0) (replicate 32 0 ++ [104]) 1
                    (replicate 24 0) (pk 9) (replicate 32 7)) in
  NaCl.Hacl_Box_ZeroPad_crypto_box_open_easy (T := Z) (replicate 33 0) box 1 (replicate 24 0) (pk 7) (replicate 32 9) =
  (replicate 32 0 ++ [104], 0).
Proof.
  refine (box_exchange (T := Z) (replicate 32 7) (replicate 32 9) (replicate 32 0) (replicate 32 0) (replicate 24 0) [104]
    (replicate 33 0) (replicate 33 0) _ eq_refl _ eq_refl eq_refl eq_refl _ eq_refl eq_refl eq_refl);
    [now apply bytes_replicate|now apply bytes_replicate|constructor; [lia|constructor]].
Defined.
