(* ===== verification/Blake2b.v ===== *)
(** * Blake2b: the hash function of blake2b-ref.c

    The hash of the node: identifiers, proofs of work and checksums go through
    it.  The state keeps up to one block of input back, since the last block
    is compressed differently; a computation is [init] or [init_key], any
    number of [update]s, [final].  The code is refined to RFC 7693, and the
    state after any sequence of updates to the bytes it was fed.

    A pointer that the code compares with [NULL] is an [option]. *)

From stdpp Require Import base list numbers.
From Stdlib Require Import ZArith Lia.
From S2P Require Import Prelude Machine.

Local Open Scope Z_scope.
Local Open Scope buf_scope.

(** ** The code *)

Module Blake2b.

(** *** blake2-impl.h *)

Definition load64 (p : list Z) : Z :=
  (((((((wshl 64 p.[0] 0 .| wshl 64 p.[1] 8) .| wshl 64 p.[2] 16) .| wshl 64 p.[3] 24)
     .| wshl 64 p.[4] 32) .| wshl 64 p.[5] 40) .| wshl 64 p.[6] 48) .| wshl 64 p.[7] 56)%u64.

Definition store32 (p : list Z) (off : nat) (w : Z) : list Z :=
  let p := p.[off + 0 <- wrap 8 (wshr w 0)] in
  let p := p.[off + 1 <- wrap 8 (wshr w 8)] in
  let p := p.[off + 2 <- wrap 8 (wshr w 16)] in
  p.[off + 3 <- wrap 8 (wshr w 24)].

Definition store64 (p : list Z) (off : nat) (w : Z) : list Z :=
  let p := p.[off + 0 <- wrap 8 (wshr w 0)] in
  let p := p.[off + 1 <- wrap 8 (wshr w 8)] in
  let p := p.[off + 2 <- wrap 8 (wshr w 16)] in
  let p := p.[off + 3 <- wrap 8 (wshr w 24)] in
  let p := p.[off + 4 <- wrap 8 (wshr w 32)] in
  let p := p.[off + 5 <- wrap 8 (wshr w 40)] in
  let p := p.[off + 6 <- wrap 8 (wshr w 48)] in
  p.[off + 7 <- wrap 8 (wshr w 56)].

Definition rotr64 (w c : Z) : Z := ((w >> c) .| (w << (64 - c)%u32))%u64.

(** *** blake2.h *)

Definition BLAKE2B_BLOCKBYTES : nat := 128.
Definition BLAKE2B_OUTBYTES : nat := 64.
Definition BLAKE2B_KEYBYTES : nat := 64.

Record blake2b_state := {
  h : list Z;
  t : list Z;
  f : list Z;
  buf : list Z;
  buflen : nat;
  outlen : nat;
  last_node : Z
}.

(** The packed parameter block; multi-byte fields are kept as the bytes
    [store32] writes. *)
Record blake2b_param := {
  digest_length : Z;
  key_length : Z;
  fanout : Z;
  depth : Z;
  leaf_length : list Z;
  node_offset : list Z;
  xof_length : list Z;
  node_depth : Z;
  inner_length : Z;
  reserved : list Z;
  salt : list Z;
  personal : list Z
}.

(** The parameter block read as an array of bytes. *)
Definition param_bytes (P : blake2b_param) : list Z :=
  [digest_length P; key_length P; fanout P; depth P] ++ leaf_length P ++ node_offset P ++ xof_length P ++
  [node_depth P; inner_length P] ++ reserved P ++ salt P ++ personal P.

(** *** blake2b-ref.c *)

Definition blake2b_IV : list Z := Eval cbv in concat
  [[0x6a09e667f3bcc908; 0xbb67ae8584caa73b]; [0x3c6ef372fe94f82b; 0xa54ff53a5f1d36f1];
   [0x510e527fade682d1; 0x9b05688c2b3e6c1f]; [0x1f83d9abfb41bd6b; 0x5be0cd19137e2179]].

Definition blake2b_sigma : list (list nat) :=
  [[0; 1; 2; 3; 4; 5; 6; 7; 8; 9; 10; 11; 12; 13; 14; 15];
   [14; 10; 4; 8; 9; 15; 13; 6; 1; 12; 0; 2; 11; 7; 5; 3];
   [11; 8; 12; 0; 5; 2; 15; 13; 10; 14; 3; 6; 7; 1; 9; 4];
   [7; 9; 3; 1; 13; 12; 11; 14; 2; 6; 5; 10; 4; 0; 15; 8];
   [9; 0; 5; 7; 2; 4; 10; 15; 14; 1; 11; 12; 6; 8; 3; 13];
   [2; 12; 6; 10; 0; 11; 8; 3; 4; 13; 7; 5; 15; 14; 1; 9];
   [12; 5; 1; 15; 14; 13; 4; 10; 0; 7; 6; 3; 9; 2; 8; 11];
   [13; 11; 7; 14; 12; 1; 3; 9; 5; 0; 15; 4; 8; 6; 2; 10];
   [6; 15; 14; 9; 11; 3; 0; 8; 12; 2; 13; 7; 1; 4; 10; 5];
   [10; 2; 8; 4; 7; 6; 1; 5; 15; 11; 9; 14; 3; 12; 13; 0];
   [0; 1; 2; 3; 4; 5; 6; 7; 8; 9; 10; 11; 12; 13; 14; 15];
   [14; 10; 4; 8; 9; 15; 13; 6; 1; 12; 0; 2; 11; 7; 5; 3]]%nat.

Definition blake2b_set_lastnode (st : blake2b_state) : blake2b_state :=
  {| h := h st; t := t st; f := (f st).[1 <- 0xffffffffffffffff];
     buf := buf st; buflen := buflen st; outlen := outlen st; last_node := last_node st |}.

Definition blake2b_is_lastblock (st : blake2b_state) : bool := negb ((f st).[0] =? 0).

Definition blake2b_set_lastblock (st : blake2b_state) : blake2b_state :=
  let st := if last_node st =? 0 then st else blake2b_set_lastnode st in
  {| h := h st; t := t st; f := (f st).[0 <- 0xffffffffffffffff];
     buf := buf st; buflen := buflen st; outlen := outlen st; last_node := last_node st |}.

Definition blake2b_increment_counter (st : blake2b_state) (inc : Z) : blake2b_state :=
  let t' := (t st).[0 <- ((t st).[0] + inc)%u64] in
  let t' := t'.[1 <- (t'.[1] + Z.b2z (t'.[0] <? inc)%Z)%u64] in
  {| h := h st; t := t'; f := f st; buf := buf st; buflen := buflen st; outlen := outlen st; last_node := last_node st |}.

(** The state is cleared first, so it does not depend on what it was. *)
Definition blake2b_init0 : blake2b_state :=
  {| h := for_ 0 8 (fun i h => h.[i <- blake2b_IV.[i]]) (replicate 8 0);
     t := replicate 2 0; f := replicate 2 0; buf := replicate 128 0;
     buflen := 0; outlen := 0; last_node := 0 |}.

Definition blake2b_init_param (P : blake2b_param) : blake2b_state * Z :=
  let p := param_bytes P in
  let st := blake2b_init0 in
  let h' := for_ 0 8 (fun i h => h.[i <- Z.lxor h.[i] (load64 (drop (8 * i) p))]) (h st) in
  ({| h := h'; t := t st; f := f st; buf := buf st; buflen := buflen st;
      outlen := Z.to_nat (digest_length P); last_node := last_node st |}, 0).

Definition blake2b_init (st : blake2b_state) (outlen : nat) : blake2b_state * Z :=
  if (outlen =? 0)%nat || (BLAKE2B_OUTBYTES <? outlen)%nat then (st, -1)
  else
    let P := {| digest_length := wrap 8 (Z.of_nat outlen); key_length := 0; fanout := 1; depth := 1;
                leaf_length := store32 (replicate 4 0) 0 0; node_offset := store32 (replicate 4 0) 0 0;
                xof_length := store32 (replicate 4 0) 0 0; node_depth := 0; inner_length := 0;
                reserved := replicate 14 0; salt := replicate 16 0; personal := replicate 16 0 |} in
    blake2b_init_param P.

(** *** The compression function *)

Definition G (m : list Z) (r i a b c d : nat) (v : list Z) : list Z :=
  let v := v.[a <- (v.[a] + v.[b] + m.[(blake2b_sigma.[r]).[2 * i + 0]])%u64] in
  let v := v.[d <- rotr64 (v.[d] ^^ v.[a])%u64 32] in
  let v := v.[c <- (v.[c] + v.[d])%u64] in
  let v := v.[b <- rotr64 (v.[b] ^^ v.[c])%u64 24] in
  let v := v.[a <- (v.[a] + v.[b] + m.[(blake2b_sigma.[r]).[2 * i + 1]])%u64] in
  let v := v.[d <- rotr64 (v.[d] ^^ v.[a])%u64 16] in
  let v := v.[c <- (v.[c] + v.[d])%u64] in
  v.[b <- rotr64 (v.[b] ^^ v.[c])%u64 63].

Definition ROUND (m : list Z) (r : nat) (v : list Z) : list Z :=
  let v := G m r 0 0 4 8 12 v in
  let v := G m r 1 1 5 9 13 v in
  let v := G m r 2 2 6 10 14 v in
  let v := G m r 3 3 7 11 15 v in
  let v := G m r 4 0 5 10 15 v in
  let v := G m r 5 1 6 11 12 v in
  let v := G m r 6 2 7 8 13 v in
  G m r 7 3 4 9 14 v.

Definition blake2b_compress (st : blake2b_state) (block : list Z) : blake2b_state :=
  let m := for_ 0 16 (fun i m => m.[i <- load64 (drop (i * 8) block)]) (replicate 16 0) in
  let v := for_ 0 8 (fun i v => v.[i <- (h st).[i]]) (replicate 16 0) in
  let v := v.[8 <- blake2b_IV.[0]] in
  let v := v.[9 <- blake2b_IV.[1]] in
  let v := v.[10 <- blake2b_IV.[2]] in
  let v := v.[11 <- blake2b_IV.[3]] in
  let v := v.[12 <- (blake2b_IV.[4] ^^ (t st).[0])%u64] in
  let v := v.[13 <- (blake2b_IV.[5] ^^ (t st).[1])%u64] in
  let v := v.[14 <- (blake2b_IV.[6] ^^ (f st).[0])%u64] in
  let v := v.[15 <- (blake2b_IV.[7] ^^ (f st).[1])%u64] in
  let v := ROUND m 0 v in
  let v := ROUND m 1 v in
  let v := ROUND m 2 v in
  let v := ROUND m 3 v in
  let v := ROUND m 4 v in
  let v := ROUND m 5 v in
  let v := ROUND m 6 v in
  let v := ROUND m 7 v in
  let v := ROUND m 8 v in
  let v := ROUND m 9 v in
  let v := ROUND m 10 v in
  let v := ROUND m 11 v in
  let h' := for_ 0 8 (fun i h => h.[i <- ((h.[i] ^^ v.[i]) ^^ v.[i + 8])%u64]) (h st) in
  {| h := h'; t := t st; f := f st; buf := buf st; buflen := buflen st; outlen := outlen st; last_node := last_node st |}.

(** *** Feeding and finishing *)

(** [while (inlen > BLAKE2B_BLOCKBYTES)]; each turn consumes 128 bytes, so
    [inlen] turns are enough. *)
Fixpoint update_loop (fuel : nat) (st : blake2b_state) (input : list Z) (inlen : nat)
    : blake2b_state * list Z * nat :=
  match fuel with
  | O => (st, input, inlen)
  | Datatypes.S fuel =>
      if (BLAKE2B_BLOCKBYTES <? inlen)%nat then
        let st := blake2b_increment_counter st 128 in
        let st := blake2b_compress st input in
        update_loop fuel st (drop BLAKE2B_BLOCKBYTES input) (inlen - BLAKE2B_BLOCKBYTES)
      else (st, input, inlen)
  end.

(** [memcpy( S->buf + off, src, n )] *)
Definition set_buf (st : blake2b_state) (off n : nat) (src : list Z) : blake2b_state :=
  {| h := h st; t := t st; f := f st; buf := blit (buf st) off (take n src);
     buflen := buflen st; outlen := outlen st; last_node := last_node st |}.

Definition set_buflen (st : blake2b_state) (n : nat) : blake2b_state :=
  {| h := h st; t := t st; f := f st; buf := buf st; buflen := n; outlen := outlen st; last_node := last_node st |}.

Definition blake2b_update (st : blake2b_state) (input : list Z) (inlen : nat) : blake2b_state * Z :=
  let st :=
    if (0 <? inlen)%nat then
      let left := buflen st in
      let fill := (BLAKE2B_BLOCKBYTES - left)%nat in
      let '(st, input, inlen) :=
        if (fill <? inlen)%nat then
          let st := set_buflen st 0 in
          let st := set_buf st left fill input in
          let st := blake2b_increment_counter st 128 in
          let st := blake2b_compress st (buf st) in
          update_loop inlen st (drop fill input) (inlen - fill)
        else (st, input, inlen) in
      let st := set_buf st (buflen st) inlen input in
      set_buflen st (buflen st + inlen)
    else st in
  (st, 0).

Definition blake2b_init_key (st : blake2b_state) (outlen : nat) (key : option (list Z)) (keylen : nat)
    : blake2b_state * Z :=
  if (outlen =? 0)%nat || (BLAKE2B_OUTBYTES <? outlen)%nat then (st, -1)
  else match key with
  | None => (st, -1)
  | Some key =>
      if (keylen =? 0)%nat || (BLAKE2B_KEYBYTES <? keylen)%nat then (st, -1)
      else
        let P := {| digest_length := wrap 8 (Z.of_nat outlen); key_length := wrap 8 (Z.of_nat keylen);
                    fanout := 1; depth := 1;
                    leaf_length := store32 (replicate 4 0) 0 0; node_offset := store32 (replicate 4 0) 0 0;
                    xof_length := store32 (replicate 4 0) 0 0; node_depth := 0; inner_length := 0;
                    reserved := replicate 14 0; salt := replicate 16 0; personal := replicate 16 0 |} in
        let '(st, r) := blake2b_init_param P in
        if r <? 0 then (st, -1)
        else
          let block := replicate BLAKE2B_BLOCKBYTES 0 in
          let block := blit block 0 (take keylen key) in
          let '(st, _) := blake2b_update st block BLAKE2B_BLOCKBYTES in
          (st, 0)
  end.

Definition blake2b_final (st : blake2b_state) (out : option (list Z)) (outlen' : nat)
    : blake2b_state * option (list Z) * Z :=
  match out with
  | None => (st, out, -1)
  | Some o =>
      if (outlen' <? outlen st)%nat then (st, out, -1)
      else if blake2b_is_lastblock st then (st, out, -1)
      else
        let st := blake2b_increment_counter st (Z.of_nat (buflen st)) in
        let st := blake2b_set_lastblock st in
        let st := set_buf st (buflen st) (BLAKE2B_BLOCKBYTES - buflen st) (replicate (BLAKE2B_BLOCKBYTES - buflen st) 0) in
        let st := blake2b_compress st (buf st) in
        let buffer := replicate BLAKE2B_OUTBYTES 0 in
        let buffer := for_ 0 8 (fun i b => store64 b (8 * i) (h st).[i]) buffer in
        let o := blit o 0 (take (outlen st) buffer) in
        (st, Some o, 0)
  end.

(** An uninitialised state on the stack; [init] overwrites all of it. *)
Definition blake2b (S0 : blake2b_state) (out : option (list Z)) (outlen : nat) (input : option (list Z)) (inlen : nat)
    (key : option (list Z)) (keylen : nat) : option (list Z) * Z :=
  match input, inlen with
  | None, Datatypes.S _ => (out, -1)
  | _, _ =>
  match out with
  | None => (out, -1)
  | Some _ =>
  match key, keylen with
  | None, Datatypes.S _ => (out, -1)
  | _, _ =>
  if (outlen =? 0)%nat || (BLAKE2B_OUTBYTES <? outlen)%nat then (out, -1)
  else if (BLAKE2B_KEYBYTES <? keylen)%nat then (out, -1)
  else
    let '(st, r) := if (0 <? keylen)%nat then blake2b_init_key S0 outlen key keylen
                   else blake2b_init S0 outlen in
    if r <? 0 then (out, -1)
    else
      let '(st, _) := blake2b_update st (from_option id [] input) inlen in
      let '(_, out, _) := blake2b_final st out outlen in
      (out, 0)
  end end end.

Definition blake2 := blake2b.

(** *** The OCaml stubs *)

Definition blake2b_state_outlen (st : blake2b_state) : nat := outlen st.

(** [Int_val(outlen)] as a [size_t]: a negative length becomes one that is
    above every limit, so any length above [BLAKE2B_OUTBYTES] stands for it. *)
Definition int_length (outlen : Z) : nat := if outlen <? 0 then S BLAKE2B_OUTBYTES else Z.to_nat outlen.

Definition ml_blake2b_init (st : blake2b_state) (outlen : Z) := blake2b_init st (int_length outlen).
Definition ml_blake2b_init_key (st : blake2b_state) (outlen : Z) (key : list Z) :=
  blake2b_init_key st (int_length outlen) (Some key) (length key).
Definition ml_blake2b_update (st : blake2b_state) (input : list Z) := blake2b_update st input (length input).
Definition ml_blake2b_final (st : blake2b_state) (out : list Z) := blake2b_final st (Some out) (length out).
Definition ml_blake2b (S0 : blake2b_state) (out input key : list Z) :=
  blake2b S0 (Some out) (length out) (Some input) (length input) (Some key) (length key).

End Blake2b.

(** ** Specification: RFC 7693 *)

Module Blake2b_Spec.

(** The initial values (section 2.6): the first 64 bits of the fractional parts
    of the square roots of the first eight primes. *)
Definition IV : list Z := (fun p => Z.sqrt (p * 2 ^ 128) mod 2 ^ 64) <$> [2; 3; 5; 7; 11; 13; 17; 19].

Definition rotr (x n : Z) : Z := Z.lor (wshr x n) (wshl 64 x (64 - n)).

(** The mixing of four words with two message words. *)
Definition mix (x y : Z) (w : Z * Z * Z * Z) : Z * Z * Z * Z :=
  let '(a, b, c, d) := w in
  let a := wadd 64 (wadd 64 a b) x in let d := rotr (Z.lxor d a) 32 in
  let c := wadd 64 c d in let b := rotr (Z.lxor b c) 24 in
  let a := wadd 64 (wadd 64 a b) y in let d := rotr (Z.lxor d a) 16 in
  let c := wadd 64 c d in let b := rotr (Z.lxor b c) 63 in
  (a, b, c, d).

Definition mix_at (v : list Z) (a b c d : nat) (x y : Z) : list Z :=
  let '(va, vb, vc, vd) := mix x y (v.[a], v.[b], v.[c], v.[d]) in
  v.[a <- va].[b <- vb].[c <- vc].[d <- vd].

(** The message schedule (section 2.7), ten permutations of 0 to 15. *)
Definition SIGMA : list (list nat) :=
  [[0; 1; 2; 3;  4; 5; 6; 7;  8; 9; 10; 11;  12; 13; 14; 15];
   [14; 10; 4; 8;  9; 15; 13; 6;  1; 12; 0; 2;  11; 7; 5; 3];
   [11; 8; 12; 0;  5; 2; 15; 13;  10; 14; 3; 6;  7; 1; 9; 4];
   [7; 9; 3; 1;  13; 12; 11; 14;  2; 6; 5; 10;  4; 0; 15; 8];
   [9; 0; 5; 7;  2; 4; 10; 15;  14; 1; 11; 12;  6; 8; 3; 13];
   [2; 12; 6; 10;  0; 11; 8; 3;  4; 13; 7; 5;  15; 14; 1; 9];
   [12; 5; 1; 15;  14; 13; 4; 10;  0; 7; 6; 3;  9; 2; 8; 11];
   [13; 11; 7; 14;  12; 1; 3; 9;  5; 0; 15; 4;  8; 6; 2; 10];
   [6; 15; 14; 9;  11; 3; 0; 8;  12; 2; 13; 7;  1; 4; 10; 5];
   [10; 2; 8; 4;  7; 6; 1; 5;  15; 11; 9; 14;  3; 12; 13; 0]]%nat.

(** Round [i]: the columns, then the diagonals. *)
Definition round (m : list Z) (v : list Z) (i : nat) : list Z :=
  let s := SIGMA.[i mod 10] in
  let x k := m.[s.[k]] in
  let v := mix_at v 0 4 8 12 (x 0%nat) (x 1%nat) in
  let v := mix_at v 1 5 9 13 (x 2%nat) (x 3%nat) in
  let v := mix_at v 2 6 10 14 (x 4%nat) (x 5%nat) in
  let v := mix_at v 3 7 11 15 (x 6%nat) (x 7%nat) in
  let v := mix_at v 0 5 10 15 (x 8%nat) (x 9%nat) in
  let v := mix_at v 1 6 11 12 (x 10%nat) (x 11%nat) in
  let v := mix_at v 2 7 8 13 (x 12%nat) (x 13%nat) in
  mix_at v 3 4 9 14 (x 14%nat) (x 15%nat).

(** Compression of a block at offset [t] of the message. *)
Definition F (h block : list Z) (t : Z) (last : bool) : list Z :=
  let m := (fun i => le_combine (slice block (8 * i) 8)) <$> seq 0 16 in
  let v := h ++ IV in
  let v := v.[12 <- Z.lxor v.[12] (t mod 2 ^ 64)] in
  let v := v.[13 <- Z.lxor v.[13] ((t / 2 ^ 64) mod 2 ^ 64)] in
  let v := v.[14 <- Z.lxor v.[14] (if last then 2 ^ 64 - 1 else 0)] in
  let v := fold_left (round m) (seq 0 12) v in
  (fun i => Z.lxor (Z.lxor h.[i] v.[i]) v.[i + 8]) <$> seq 0 8.

Definition pad128 (m : list Z) : list Z := m ++ replicate (128 - length m) 0.

(** The chaining value before the last block: [n] blocks of [d] compressed. *)
Definition absorb (h d : list Z) (n : nat) : list Z :=
  for_ 0 n (fun i h => F h (slice d (128 * i) 128) (Z.of_nat (128 * (i + 1))) false) h.

(** Number of blocks before the last one, which is never empty unless the
    message is. *)
Definition full (len : nat) : nat := ((len - 1) / 128)%nat.

Definition h0 (nn kk : nat) : list Z :=
  IV.[0 <- Z.lxor (Z.lxor (Z.lxor IV.[0] 0x01010000) (Z.shiftl (Z.of_nat kk) 8)) (Z.of_nat nn)].

(** The digest of [nn] bytes of a message under a key of at most 64 bytes; the
    key, if there is one, is hashed as a block of its own. *)
Definition blake2b (nn : nat) (key m : list Z) : list Z :=
  let d := match key with [] => m | _ => pad128 key ++ m end in
  let n := full (length d) in
  let h := absorb (h0 nn (length key)) d n in
  let h := F h (pad128 (drop (128 * n) d)) (Z.of_nat (length d)) true in
  take nn (concat (le_split 8 <$> h)).

End Blake2b_Spec.

(** The example of appendix A: BLAKE2b-512 of the bytes of abc.  It fixes the
    tables of the specification, which all take part in it. *)
Lemma blake2b_abc : Blake2b_Spec.blake2b 64 [] [97; 98; 99] =
  be_split 64 0xba80a53f981c4d0d6a2797b69f12f6e94c212f14685ac4b74b12bb6fdbffa2d17d87c5392aab792dc252d5de4533cc9518d38aa8dbf1925ab92386edd4009923.
Proof. vm_compute. reflexivity. Qed.

Lemma IV_spec : Blake2b_Spec.IV = Blake2b.blake2b_IV.
Proof. vm_compute. reflexivity. Qed.

(** ** Refinement *)

Section Refinement.
Import Blake2b Blake2b_Spec.

Lemma load64_spec p : bytes p -> (8 <= length p)%nat -> load64 p = le_combine (take 8 p).
Proof.
  intros Hb Hl. do 8 (destruct p as [|? p]; [cbn in Hl; lia|]). clear Hl.
  unfold load64. buf_simpl. cbn [take le_combine]. rewrite take_0. cbn [le_combine].
  unfold bytes in Hb. rewrite !Forall_cons_iff in Hb. destruct Hb as (? & ? & ? & ? & ? & ? & ? & ? & _).
  assert (W : forall b k, 0 <= b < 256 -> 0 <= k <= 56 -> wshl 64 b k = b * 2 ^ k).
  { intros b k Hb' Hk. apply wshl_small; [lia|]. assert (0 < 2 ^ k) by lia.
    assert (2 ^ k <= 2 ^ 56) by (apply Z.pow_le_mono_r; lia). nia. }
  rewrite !W by lia.
  assert (E : forall a b k, 0 <= k -> 0 <= a < 2 ^ k -> Z.lor a (b * 2 ^ k) = a + b * 2 ^ k).
  { intros a b k Hk Ha. rewrite <- (Z.shiftl_mul_pow2 b k) by done. rewrite Z_lor_add by done.
    rewrite Z.shiftl_mul_pow2 by done. lia. }
  rewrite Z.pow_0_r, Z.mul_1_r. 
  rewrite (E _ _ 8), (E _ _ 16), (E _ _ 24), (E _ _ 32), (E _ _ 40), (E _ _ 48), (E _ _ 56) by lia. lia.
Qed.

Lemma length_store64 p off w : length (store64 p off w) = length p.
Proof. unfold store64. cbv zeta. now rewrite !length_insert. Qed.

Lemma store64_spec p off w : (off + 8 <= length p)%nat -> store64 p off w = blit p off (le_split 8 w).
Proof.
  intros H. unfold store64, blit. cbv zeta. rewrite length_le_split.
  rewrite <- (take_drop off p) at 1. set (l := take off p).
  assert (Ll : length l = off) by (subst l; rewrite length_take; lia).
  assert (Hd : (8 <= length (drop off p))%nat) by (rewrite length_drop; lia).
  rewrite <- drop_drop. clearbody l. generalize dependent (drop off p). intros q Hq.
  do 8 (destruct q as [|? q]; [cbn in Hq; lia|]). clear Hq.
  rewrite !insert_app_r_alt by lia.
  replace (off + 0 - length l)%nat with 0%nat by lia. replace (off + 1 - length l)%nat with 1%nat by lia.
  replace (off + 2 - length l)%nat with 2%nat by lia. replace (off + 3 - length l)%nat with 3%nat by lia.
  replace (off + 4 - length l)%nat with 4%nat by lia. replace (off + 5 - length l)%nat with 5%nat by lia.
  replace (off + 6 - length l)%nat with 6%nat by lia. replace (off + 7 - length l)%nat with 7%nat by lia.
  buf_simpl. cbn [drop le_split app]. unfold wrap. rewrite !wshr_div by lia.
  rewrite !Z.div_div, Z.pow_0_r, Z.div_1_r by lia. reflexivity.
Qed.

(** *** Mixing *)

Lemma rotr64_spec w c : 0 <= c <= 64 -> rotr64 w c = rotr w c.
Proof. intros. unfold rotr64, rotr. now rewrite wsub_small by lia. Qed.

(** A list with four cells set. *)
Definition cells (v : list Z) (a b c d : nat) (w : Z * Z * Z * Z) : list Z :=
  let '(va, vb, vc, vd) := w in v.[a <- va].[b <- vb].[c <- vc].[d <- vd].

Section Cells.
Context (v : list Z) (a b c d : nat).
Context (Hd : (a <> b /\ a <> c /\ a <> d /\ b <> c /\ b <> d /\ c <> d)%nat).
Context (Hl : (a < length v /\ b < length v /\ c < length v /\ d < length v)%nat).

Ltac cells_solve :=
  destruct Hd as (? & ? & ? & ? & ? & ?), Hl as (? & ? & ? & ?); cbv zeta; cbn [cells];
  repeat first [rewrite list_lookup_total_insert_eq by (rewrite ?length_insert; lia)
               |rewrite list_lookup_total_insert_ne by lia]; reflexivity.

Lemma cells_get va vb vc vd :
  let l := cells v a b c d (va, vb, vc, vd) in l.[a] = va /\ l.[b] = vb /\ l.[c] = vc /\ l.[d] = vd.
Proof. repeat split; cells_solve. Qed.

Lemma cells_set va vb vc vd x :
  let l := cells v a b c d (va, vb, vc, vd) in
  l.[a <- x] = cells v a b c d (x, vb, vc, vd) /\ l.[b <- x] = cells v a b c d (va, x, vc, vd) /\
  l.[c <- x] = cells v a b c d (va, vb, x, vd) /\ l.[d <- x] = cells v a b c d (va, vb, vc, x).
Proof.
  destruct Hd as (? & ? & ? & ? & ? & ?). cbv zeta. cbn [cells].
  rewrite (list_insert_insert_ne _ a d), (list_insert_insert_ne _ a c), (list_insert_insert_ne _ a b),
    (list_insert_insert_ne _ b d), (list_insert_insert_ne _ b c), (list_insert_insert_ne _ c d) by lia.
  now rewrite !list_insert_insert_eq.
Qed.

Lemma cells_id : v = cells v a b c d (v.[a], v.[b], v.[c], v.[d]).
Proof.
  destruct Hl as (? & ? & ? & ?). cbn [cells].
  rewrite (list_insert_id v a), (list_insert_id v b), (list_insert_id v c), (list_insert_id v d)
    by now apply list_lookup_lookup_total_lt. reflexivity.
Qed.

(** One half of the mixing. *)
Definition half (x r1 r2 : Z) (v : list Z) : list Z :=
  let v := v.[a <- (v.[a] + v.[b] + x)%u64] in
  let v := v.[d <- rotr64 (v.[d] ^^ v.[a])%u64 r1] in
  let v := v.[c <- (v.[c] + v.[d])%u64] in
  v.[b <- rotr64 (v.[b] ^^ v.[c])%u64 r2].

Lemma half_spec x r1 r2 va vb vc vd :
  half x r1 r2 (cells v a b c d (va, vb, vc, vd)) =
  let va := wadd 64 (wadd 64 va vb) x in let vd := rotr64 (Z.lxor vd va) r1 in
  let vc := wadd 64 vc vd in let vb := rotr64 (Z.lxor vb vc) r2 in
  cells v a b c d (va, vb, vc, vd).
Proof.
  assert (Ga : forall p q r s, (cells v a b c d (p, q, r, s)).[a] = p) by (intros; apply cells_get).
  assert (Gb : forall p q r s, (cells v a b c d (p, q, r, s)).[b] = q) by (intros; apply cells_get).
  assert (Gc : forall p q r s, (cells v a b c d (p, q, r, s)).[c] = r) by (intros; apply cells_get).
  assert (Gd : forall p q r s, (cells v a b c d (p, q, r, s)).[d] = s) by (intros; apply cells_get).
  assert (Sa : forall p q r s y, (cells v a b c d (p, q, r, s)).[a <- y] = cells v a b c d (y, q, r, s)) by (intros; apply cells_set).
  assert (Sb : forall p q r s y, (cells v a b c d (p, q, r, s)).[b <- y] = cells v a b c d (p, y, r, s)) by (intros; apply cells_set).
  assert (Sc : forall p q r s y, (cells v a b c d (p, q, r, s)).[c <- y] = cells v a b c d (p, q, y, s)) by (intros; apply cells_set).
  assert (Sd : forall p q r s y, (cells v a b c d (p, q, r, s)).[d <- y] = cells v a b c d (p, q, r, y)) by (intros; apply cells_set).
  unfold half. cbv zeta. now rewrite !Ga, !Gb, !Sa, !Gd, !Ga, !Sd, !Gc, !Gd, !Sc, !Gb, !Gc, !Sb.
Qed.

End Cells.

(** The code writes the four cells twice, the specification once. *)
Lemma G_spec m r i a b c d v :
  (a <> b /\ a <> c /\ a <> d /\ b <> c /\ b <> d /\ c <> d)%nat ->
  (a < length v /\ b < length v /\ c < length v /\ d < length v)%nat ->
  G m r i a b c d v =
  mix_at v a b c d m.[(blake2b_sigma.[r]).[2 * i + 0]] m.[(blake2b_sigma.[r]).[2 * i + 1]].
Proof.
  intros Hd Hl. set (x := m !!! _). set (y := m !!! _).
  transitivity (half a b c d y 16 63 (half a b c d x 32 24 v)); [reflexivity|].
  rewrite (cells_id v a b c d Hl) at 1. rewrite (half_spec v a b c d Hd Hl). cbv zeta.
  rewrite (half_spec v a b c d Hd Hl). unfold mix_at, mix. cbv zeta. now rewrite !rotr64_spec by lia.
Qed.

Lemma length_mix_at v a b c d x y : length (mix_at v a b c d x y) = length v.
Proof. unfold mix_at. destruct (mix _ _ _) as [[[? ?] ?] ?]. now rewrite !length_insert. Qed.


Lemma length_G m r i a b c d v : length (G m r i a b c d v) = length v.
Proof. unfold G. cbv zeta. now rewrite !length_insert. Qed.

Lemma length_ROUND m r v : length (ROUND m r v) = length v.
Proof. unfold ROUND. cbv zeta. now rewrite !length_G. Qed.

Lemma length_blake_round m v i : length (round m v i) = length v.
Proof. unfold round. cbv zeta. now rewrite !length_mix_at. Qed.

Lemma sigma_spec r : (r < 12)%nat -> blake2b_sigma.[r] = SIGMA.[r mod 10].
Proof. intros. do 12 (destruct r as [|r]; [reflexivity|]). lia. Qed.

Lemma ROUND_spec m r v : length v = 16%nat -> (r < 12)%nat -> ROUND m r v = round m v r.
Proof.
  intros Hv Hr. unfold ROUND, round. cbv zeta. rewrite <- (sigma_spec r Hr).
  rewrite !G_spec by (rewrite ?length_mix_at, ?length_G; lia). reflexivity.
Qed.

(** *** Compression *)

(** The two counter words and the two flag words. *)
Definition counter (t : Z) : list Z := [t mod 2 ^ 64; (t / 2 ^ 64) mod 2 ^ 64].
Definition flags (last : bool) : list Z := [if last then 2 ^ 64 - 1 else 0; 0].

(** A state that is ready to compress. *)
Definition ready (st : blake2b_state) (T : Z) (last : bool) : Prop :=
  length (h st) = 8%nat /\ t st = counter T /\ f st = flags last.

Definition set_h (st : blake2b_state) (h' : list Z) : blake2b_state :=
  {| h := h'; t := t st; f := f st; buf := buf st; buflen := buflen st; outlen := outlen st; last_node := last_node st |}.

Lemma length_F h b T last : length (F h b T last) = 8%nat.
Proof. unfold F. cbv zeta. now rewrite length_fmap, length_seq. Qed.

Lemma message_words block : bytes block -> (128 <= length block)%nat ->
  for_ 0 16 (fun i m => m.[i <- load64 (drop (i * 8) block)]) (replicate 16 0) =
  (fun i => le_combine (slice block (8 * i) 8)) <$> seq 0 16.
Proof.
  intros Hb Hl. rewrite (for_write (fun i => load64 (drop (i * 8) block))), drop_ge, app_nil_r by (rewrite length_replicate; lia).
  apply list_fmap_ext. intros i x [-> Hi]%lookup_seq.
  rewrite load64_spec; [|now apply bytes_drop|rewrite length_drop; lia]. unfold slice. do 3 f_equal. lia.
Qed.

Lemma working_vector (hs : list Z) T last : length hs = 8%nat ->
  let v := for_ 0 8 (fun i v => v.[i <- hs.[i]]) (replicate 16 0) in
  let v := v.[8 <- blake2b_IV.[0]] in
  let v := v.[9 <- blake2b_IV.[1]] in
  let v := v.[10 <- blake2b_IV.[2]] in
  let v := v.[11 <- blake2b_IV.[3]] in
  let v := v.[12 <- (blake2b_IV.[4] ^^ (counter T).[0])%u64] in
  let v := v.[13 <- (blake2b_IV.[5] ^^ (counter T).[1])%u64] in
  let v := v.[14 <- (blake2b_IV.[6] ^^ (flags last).[0])%u64] in
  v.[15 <- (blake2b_IV.[7] ^^ (flags last).[1])%u64] =
  let v := hs ++ IV in
  let v := v.[12 <- Z.lxor v.[12] (T mod 2 ^ 64)] in
  let v := v.[13 <- Z.lxor v.[13] ((T / 2 ^ 64) mod 2 ^ 64)] in
  v.[14 <- Z.lxor v.[14] (if last then 2 ^ 64 - 1 else 0)].
Proof. intros Hh. rewrite IV_spec. destruct_list hs. reflexivity. Qed.

Lemma compress_spec st block T last : ready st T last -> bytes block -> (128 <= length block)%nat ->
  blake2b_compress st block = set_h st (F (h st) block T last).
Proof.
  intros (Hh & Ht & Hf) Hb Hl. unfold blake2b_compress, set_h. rewrite message_words by done.
  set (m := _ <$> seq 0 16). rewrite Ht, Hf.
  pose proof (working_vector (h st) T last Hh) as Hv. cbv zeta in Hv. cbv zeta. rewrite Hv. clear Hv.
  unfold F. cbv zeta. fold m. set (v := <[14%nat := _]> _).
  assert (Lv : length v = 16%nat) by (subst v; rewrite !length_insert, length_app, Hh, IV_spec; reflexivity).
  clearbody v m. change (seq 0 12) with [0; 1; 2; 3; 4; 5; 6; 7; 8; 9; 10; 11]%nat. cbn [fold_left].
  rewrite !ROUND_spec by (rewrite ?length_ROUND, ?length_blake_round; lia).
  set (w := round m _ 11). f_equal. clearbody w.
  rewrite (for_map (fun i x => Z.lxor (Z.lxor x w.[i]) w.[i + 8])) by lia.
  rewrite take_ge, drop_ge, app_nil_r by lia. apply list_eq. intros i. rewrite list_lookup_imap, list_lookup_fmap.
  destruct (decide (i < 8)%nat).
  - rewrite lookup_seq_lt by lia. now rewrite list_lookup_lookup_total_lt by lia.
  - rewrite lookup_seq_ge, lookup_ge_None_2 by lia. done.
Qed.

(** *** The running state *)

Lemma counter_add st T inc : t st = counter T -> 0 <= inc < 2 ^ 64 ->
  t (blake2b_increment_counter st inc) = counter (T + inc).
Proof.
  intros Ht Hi. unfold blake2b_increment_counter. rewrite Ht. cbn [t]. unfold counter. buf_simpl.
  unfold wadd, wrap. set (a := T mod 2 ^ 64). set (q := T / 2 ^ 64).
  assert (E : T = a + q * 2 ^ 64) by (subst a q; pose proof (Z.div_mod T (2 ^ 64)); lia).
  assert (Ba : 0 <= a < 2 ^ 64) by (subst a; apply Z.mod_pos_bound; lia). clearbody a q. subst T.
  replace (a + q * 2 ^ 64 + inc) with (a + inc + q * 2 ^ 64) by lia.
  rewrite Z_mod_plus_full, Z_div_plus_full by lia. f_equal. f_equal.
  rewrite Zplus_mod_idemp_l. f_equal.
  destruct (Z.ltb_spec ((a + inc) mod 2 ^ 64) inc); cbn [Z.b2z]; Z.div_mod_to_equations; lia.
Qed.

Lemma F_prefix h b T last n : (128 <= n)%nat -> F h (take n b) T last = F h b T last.
Proof.
  intros Hn. unfold F. replace ((fun i => le_combine (slice (take n b) (8 * i) 8)) <$> seq 0 16)
    with ((fun i => le_combine (slice b (8 * i) 8)) <$> seq 0 16); [done|].
  apply list_fmap_ext. intros i x [-> Hi]%lookup_seq. f_equal. unfold slice.
  rewrite skipn_firstn_comm, take_take. f_equal. lia.
Qed.

Lemma length_absorb_blocks H d n : length H = 8%nat -> length (absorb H d n) = 8%nat.
Proof.
  intros HH. unfold absorb. destruct n as [|n]; [now rewrite for_nil by lia|].
  rewrite for_last by lia. apply length_F.
Qed.

Lemma absorb_S H d n : absorb H d (S n) =
  F (absorb H d n) (slice d (128 * n) 128) (Z.of_nat (128 * (n + 1))) false.
Proof. unfold absorb. now rewrite for_last by lia. Qed.

Lemma absorb_prefix H d x n : (128 * n <= length d)%nat -> absorb H (d ++ x) n = absorb H d n.
Proof.
  intros Hn. apply for_ext. intros i s Hi.
  assert (E : slice (d ++ x) (128 * i) 128 = slice d (128 * i) 128).
  { unfold slice. rewrite drop_app_le, take_app_le by (rewrite ?length_drop; lia). done. }
  now rewrite E.
Qed.

Lemma full_unique len n : (128 * n < len <= 128 * (n + 1))%nat -> full len = n.
Proof. intros. unfold full. symmetry. apply Nat.div_unique with (r := (len - 1 - 128 * n)%nat); lia. Qed.

Lemma full_bounds len : (128 * full len <= len)%nat /\ (len - 128 * full len <= 128)%nat /\
  (0 < len -> 128 * full len < len)%nat.
Proof.
  unfold full. pose proof (Nat.div_mod_eq (len - 1) 128). pose proof (Nat.mod_upper_bound (len - 1) 128).
  destruct len; lia.
Qed.

(** [n] blocks of the data [D] have been compressed. *)
Definition compressed (H D : list Z) (n : nat) (st : blake2b_state) : Prop :=
  h st = absorb H D n /\ t st = counter (Z.of_nat (128 * n)) /\ f st = flags false.

(** The state has been fed the bytes [d], starting from [H]: all blocks but the
    last are compressed, the last one waits in the buffer. *)
Definition fed (H : list Z) (nn : nat) (d : list Z) (st : blake2b_state) : Prop :=
  let n := full (length d) in
  length H = 8%nat /\ compressed H d n st /\ length (buf st) = 128%nat /\ bytes (buf st) /\
  buflen st = (length d - 128 * n)%nat /\ take (buflen st) (buf st) = drop (128 * n) d /\
  outlen st = nn /\ last_node st = 0.

(** The fields a compression does not touch. *)
Definition frame (st st' : blake2b_state) : Prop :=
  buf st' = buf st /\ buflen st' = buflen st /\ outlen st' = outlen st /\ last_node st' = last_node st.

Lemma compress_block H D n st block : length H = 8%nat -> compressed H D n st ->
  bytes block -> (128 <= length block)%nat -> take 128 block = slice D (128 * n) 128 ->
  let st' := blake2b_compress (blake2b_increment_counter st 128) block in
  compressed H D (S n) st' /\ frame st st'.
Proof.
  intros HH (Hh & Ht & Hf) Hb Hl Hd. cbv zeta.
  assert (Hc := counter_add st _ 128 Ht ltac:(lia)).
  rewrite (compress_spec _ block (Z.of_nat (128 * n) + 128) false); try done.
  - unfold compressed, set_h, frame. cbn [h t f buf buflen outlen last_node]. rewrite Hc. cbn [blake2b_increment_counter h f].
    rewrite absorb_S, Hh, Hf, <- Hd, F_prefix by lia.
    replace (Z.of_nat (128 * n) + 128) with (Z.of_nat (128 * (n + 1))) by lia.
    replace (128 * S n)%nat with (128 * (n + 1))%nat by lia. now split_and!.
  - split; [cbn; rewrite Hh; now apply length_absorb_blocks|]. split; [done|cbn; done].
Qed.

Lemma update_loop_spec fuel : forall H D n st input inlen, length H = 8%nat -> compressed H D n st ->
  bytes D -> input = drop (128 * n) D -> inlen = (length D - 128 * n)%nat -> (0 < inlen)%nat -> (inlen <= fuel)%nat ->
  let '(st', input', inlen') := update_loop fuel st input inlen in
  let n' := full (length D) in
  compressed H D n' st' /\ frame st st' /\ input' = drop (128 * n') D /\ inlen' = (length D - 128 * n')%nat.
Proof.
  induction fuel as [|fuel IH]; intros H D n st input inlen HH Hc HD Hi Hn H0 Hf; [lia|].
  cbn [update_loop]. unfold BLAKE2B_BLOCKBYTES. destruct (Nat.ltb_spec 128 inlen) as [Hlt|Hge].
  - destruct (compress_block H D n st input HH Hc) as [Hc' (F1 & F2 & F3 & F4)]; subst input;
      [now apply bytes_drop|rewrite length_drop; lia|done|].
    pose proof (IH H D (S n) (blake2b_compress (blake2b_increment_counter st 128) (drop (128 * n) D))
      (drop 128 (drop (128 * n) D)) (inlen - 128)%nat HH Hc' HD) as IH'.
    destruct (update_loop fuel _ _ _) as [[st' input'] inlen'].
    destruct IH' as (I1 & (G1 & G2 & G3 & G4) & I2 & I3); try lia.
    { rewrite drop_drop. f_equal. lia. }
    split; [done|]. split; [|done]. unfold frame in *. rewrite G1, G2, G3, G4. done.
  - assert (E : full (length D) = n) by (apply full_unique; lia). cbv zeta. rewrite E. repeat split; try done; apply Hc.
Qed.

(** The buffer after a copy of the rest of the input. *)
Lemma set_buf_rest st off (rest : list Z) : (off + length rest <= length (buf st))%nat -> 
  let st' := set_buflen (set_buf st off (length rest) rest) (off + length rest) in
  length (buf st') = length (buf st) /\ take (buflen st') (buf st') = take off (buf st) ++ rest.
Proof.
  intros Hl. cbv zeta. cbn [set_buflen set_buf buf buflen]. rewrite firstn_all. split; [now apply length_blit|].
  unfold blit. rewrite app_assoc, take_app_length'; [done|]. rewrite length_app, length_take. lia.
Qed.

(** The buffer is filled up and compressed as block [n]. *)
Lemma fill_spec H nn d st input : fed H nn d st -> bytes d -> bytes input ->
  let n := full (length d) in
  let fill := (128 - buflen st)%nat in
  (fill < length input)%nat ->
  let st1 := set_buf (set_buflen st 0) (buflen st) fill input in
  let st' := blake2b_compress (blake2b_increment_counter st1 128) (buf st1) in
  compressed H (d ++ input) (S n) st' /\ length (buf st') = 128%nat /\ bytes (buf st') /\ buflen st' = 0%nat /\
  outlen st' = nn /\ last_node st' = 0.
Proof.
  intros (HH & Hc & Lb & Bb & Hbl & Hbuf & Ho & Hln) Hd Hi n fill Hbig st1. cbv zeta.
  destruct (full_bounds (length d)) as (B1 & B2 & B3). fold n in B1, B2, B3, Hbl, Hbuf, Hc.
  assert (Eb : buf st1 = drop (128 * n) d ++ take fill input).
  { subst st1. cbn [set_buf set_buflen buf]. unfold blit. rewrite Hbuf, (drop_ge (buf st)), app_nil_r; [done|].
    rewrite length_take. lia. }
  assert (Lb1 : length (buf st1) = 128%nat) by (rewrite Eb, length_app, length_drop, length_take; lia).
  assert (P1 : compressed H (d ++ input) n st1).
  { destruct Hc as (E1 & E2 & E3). split; [|exact (conj E2 E3)]. change (h st1) with (h st).
    rewrite E1, absorb_prefix by lia. reflexivity. }
  assert (P2 : bytes (buf st1)).
  { rewrite Eb. apply bytes_app. split; [now apply bytes_drop|now apply bytes_take]. }
  assert (P3 : take 128 (buf st1) = slice (d ++ input) (128 * n) 128).
  { rewrite take_ge, Eb by lia. unfold slice. rewrite drop_app_le by lia.
    rewrite take_app_ge by (rewrite length_drop; lia). do 2 f_equal. rewrite length_drop. lia. }
  destruct (compress_block H (d ++ input) n st1 (buf st1) HH P1 P2 ltac:(lia) P3) as [Hc1 (F1 & F2 & F3 & F4)].
  rewrite F1, F2, F3, F4. split; [exact Hc1|]. split; [done|]. split; [done|]. split; [reflexivity|]. exact (conj Ho Hln).
Qed.

(** The rest of the input goes to the start of the buffer. *)
Lemma rest_spec H nn D st rest : length H = 8%nat -> bytes D -> (0 < length D)%nat ->
  let n := full (length D) in
  compressed H D n st -> length (buf st) = 128%nat -> bytes (buf st) -> buflen st = 0%nat ->
  outlen st = nn -> last_node st = 0 -> rest = drop (128 * n) D ->
  fed H nn D (set_buflen (set_buf st (buflen st) (length rest) rest) (buflen st + length rest)).
Proof.
  intros HH BD LD n Hc Lb Bb Hbl Ho Hln ->. destruct (full_bounds (length D)) as (C1 & C2 & C3). fold n in C1, C2, C3.
  rewrite Hbl. destruct (set_buf_rest st 0 (drop (128 * n) D)) as [R1 R2]; [rewrite length_drop; lia|].
  unfold fed. fold n. split; [done|]. split; [exact Hc|]. split; [rewrite R1; lia|].
  split; [cbn [set_buflen set_buf buf]; apply bytes_blit; [done|rewrite firstn_all; now apply bytes_drop]|].
  split; [change (0 + length (drop (128 * n) D) = length D - 128 * n)%nat; rewrite length_drop; lia|].
  split; [rewrite R2, take_0; reflexivity|exact (conj Ho Hln)].
Qed.

Lemma update_spec_fed H nn d st input : fed H nn d st -> bytes d -> bytes input ->
  let '(st', r) := blake2b_update st input (length input) in
  r = 0 /\ fed H nn (d ++ input) st'.
Proof.
  intros Hfed Hd Hi. pose proof Hfed as (HH & Hc & Lb & Bb & Hbl & Hbuf & Ho & Hln).
  unfold blake2b_update. split; [done|]. destruct (full_bounds (length d)) as (B1 & B2 & B3).
  destruct (Nat.ltb_spec 0 (length input)) as [Hpos|Hz].
  2:{ destruct input; [|cbn in Hz; lia]. now rewrite app_nil_r. }
  unfold BLAKE2B_BLOCKBYTES. cbv zeta. assert (BD : bytes (d ++ input)) by now apply bytes_app.
  destruct (Nat.ltb_spec (128 - buflen st) (length input)) as [Hbig|Hsmall].
  - destruct (fill_spec H nn d st input Hfed Hd Hi Hbig) as (Hc1 & F1 & F2 & F3 & F4 & F5).
    change (buf (blake2b_increment_counter ?x 128)) with (buf x). set (n := full (length d)) in *.
    set (st1 := blake2b_compress _ _) in *. set (fill := (128 - buflen st)%nat) in *. clearbody st1.
    assert (Q2 : drop fill input = drop (128 * S n) (d ++ input)) by (rewrite drop_app_ge by lia; f_equal; lia).
    assert (Q3 : (length input - fill)%nat = (length (d ++ input) - 128 * S n)%nat) by (rewrite length_app; lia).
    pose proof (update_loop_spec (length input) H (d ++ input) (S n) st1 (drop fill input) (length input - fill)
      HH Hc1 BD Q2 Q3 ltac:(lia) ltac:(lia)) as HL.
    destruct (update_loop _ _ _ _) as [[st2 input2] inlen2]. destruct HL as (L1 & (G1 & G2 & G3 & G4) & L2 & L3).
    rewrite L3, <- length_drop, <- L2.
    change (fed H nn (d ++ input) (set_buflen (set_buf st2 (buflen st2) (length input2) input2) (buflen st2 + length input2))).
    apply rest_spec; rewrite ?G1, ?G2, ?G3, ?G4; try done. rewrite length_app. lia.
  - destruct (set_buf_rest st (buflen st) input) as [R1 R2]; [lia|].
    assert (En : full (length (d ++ input)) = full (length d)) by (apply full_unique; rewrite length_app; lia).
    change (fed H nn (d ++ input) (set_buflen (set_buf st (buflen st) (length input) input) (buflen st + length input))).
    unfold fed. rewrite En. split; [done|]. set (n := full (length d)) in *.
    split; [destruct Hc as (E1 & E2 & E3); split; [change (h st = absorb H (d ++ input) n); rewrite E1, absorb_prefix by lia; reflexivity|exact (conj E2 E3)]|].
    split; [now rewrite R1|]. split; [cbn [set_buflen set_buf buf]; apply bytes_blit; [done|now rewrite firstn_all]|].
    split; [change (buflen st + length input = length (d ++ input) - 128 * n)%nat; rewrite length_app; lia|].
    split; [|exact (conj Ho Hln)]. rewrite R2, Hbuf. now rewrite drop_app_le by lia.
Qed.

(** *** Initialisation *)

Definition param (nn kk : nat) : blake2b_param :=
  {| digest_length := wrap 8 (Z.of_nat nn); key_length := wrap 8 (Z.of_nat kk); fanout := 1; depth := 1;
     leaf_length := store32 (replicate 4 0) 0 0; node_offset := store32 (replicate 4 0) 0 0;
     xof_length := store32 (replicate 4 0) 0 0; node_depth := 0; inner_length := 0;
     reserved := replicate 14 0; salt := replicate 16 0; personal := replicate 16 0 |}.

Lemma param_words nn kk : (nn <= 64)%nat -> (kk <= 64)%nat ->
  h (fst (blake2b_init_param (param nn kk))) = h0 nn kk.
Proof.
  intros Hn Hk. unfold blake2b_init_param. cbn [fst h].
  assert (E : (fun i => load64 (drop (8 * i) (param_bytes (param nn kk)))) <$> seq 0 8 =
              [Z.of_nat nn + 256 * Z.of_nat kk + 0x01010000; 0; 0; 0; 0; 0; 0; 0]).
  { assert (E0 : store32 (replicate 4 0) 0 0 = replicate 4 0) by reflexivity.
    unfold param, param_bytes. cbn [digest_length key_length leaf_length node_offset xof_length]. rewrite !E0. rewrite !(wrap_small 8) by (unfold word; lia).
    cbn -[Z.of_nat load64]. f_equal.
    - rewrite load64_spec by ((repeat constructor; lia) || (cbn; lia)). cbn [take le_combine]. lia. }
  set (p := param_bytes (param nn kk)) in *. clearbody p.
  cbn -[drop load64 Z.add Z.mul Z.of_nat] in E. injection E as E0 E1 E2 E3 E4 E5 E6 E7.
  unfold h0. rewrite IV_spec. change (h blake2b_init0) with blake2b_IV.
  cbn -[drop load64 Z.add Z.mul Z.of_nat Z.lxor Z.shiftl].
  rewrite E0, E1, E2, E3, E4, E5, E6, E7, !Z.lxor_0_r. f_equal.
  rewrite !Z.lxor_assoc. f_equal. rewrite (Z.lxor_comm _ (Z.of_nat nn)), (Z.lxor_comm 16842752).
  change 16842752 with (Z.shiftl 257 16). rewrite (Z_lxor_add (Z.of_nat nn) (Z.of_nat kk) 8) by lia.
  rewrite Z_lxor_add by lia. change (Z.shiftl 257 16) with 16842752. lia.
Qed.

Lemma length_h0 nn kk : length (h0 nn kk) = 8%nat.
Proof. unfold h0. now rewrite IV_spec. Qed.

Lemma init_param_fed nn kk : (0 < nn <= 64)%nat -> (kk <= 64)%nat ->
  fed (h0 nn kk) nn [] (fst (blake2b_init_param (param nn kk))).
Proof.
  intros Hn Hk. split; [reflexivity|]. split; [split; [|split]|].
  - rewrite param_words by lia. reflexivity.
  - reflexivity.
  - reflexivity.
  - split; [reflexivity|]. split; [now apply bytes_replicate|]. split; [reflexivity|]. split; [reflexivity|].
    split; [|reflexivity]. unfold blake2b_init_param, param. cbn [fst outlen digest_length].
    rewrite wrap_small by (unfold word; lia). lia.
Qed.

Lemma init_fed st nn : (0 < nn <= 64)%nat ->
  let '(st', r) := blake2b_init st nn in r = 0 /\ fed (h0 nn 0) nn [] st'.
Proof.
  intros Hn. unfold blake2b_init, BLAKE2B_OUTBYTES.
  destruct (Nat.eqb_spec nn 0); [lia|]. destruct (Nat.ltb_spec 64 nn); [lia|]. cbn [orb].
  split; [reflexivity|]. apply (init_param_fed nn 0); lia.
Qed.

Lemma length_pad128 m : (length m <= 128)%nat -> length (pad128 m) = 128%nat.
Proof. intros. unfold pad128. rewrite length_app, length_replicate. lia. Qed.

Lemma bytes_pad128 m : bytes m -> bytes (pad128 m).
Proof. intros. apply bytes_app. split; [done|now apply bytes_replicate]. Qed.

Lemma init_key_fed st nn key : (0 < nn <= 64)%nat -> (0 < length key <= 64)%nat -> bytes key ->
  let '(st', r) := blake2b_init_key st nn (Some key) (length key) in
  r = 0 /\ fed (h0 nn (length key)) nn (pad128 key) st'.
Proof.
  intros Hn Hk Hb. unfold blake2b_init_key, BLAKE2B_OUTBYTES, BLAKE2B_KEYBYTES.
  destruct (Nat.eqb_spec nn 0); [lia|]. destruct (Nat.ltb_spec 64 nn); [lia|].
  destruct (Nat.eqb_spec (length key) 0); [lia|]. destruct (Nat.ltb_spec 64 (length key)); [lia|]. cbn [orb].
  fold (param nn (length key)). pose proof (init_param_fed nn (length key) Hn ltac:(lia)) as Hf.
  rewrite (surjective_pairing (blake2b_init_param _)).
  change (snd (blake2b_init_param (param nn (length key)))) with 0. change (0 <? 0) with false. cbv iota.
  set (st1 := fst _) in *. clearbody st1.
  replace (blit (replicate BLAKE2B_BLOCKBYTES 0) 0 (take (length key) key)) with (pad128 key).
  2:{ unfold blit, pad128, BLAKE2B_BLOCKBYTES. rewrite firstn_all, drop_replicate. reflexivity. }
  pose proof (update_spec_fed _ _ _ st1 (pad128 key) Hf (Forall_nil_2 _) (bytes_pad128 key Hb)) as Hu.
  rewrite length_pad128 in Hu by lia. unfold BLAKE2B_BLOCKBYTES.
  destruct (blake2b_update st1 (pad128 key) 128) as [st2 r2]. destruct Hu as [_ Hu]. now split.
Qed.

(** *** Finishing *)

(** What [final] writes for the data [d]. *)
Definition digest (H : list Z) (nn : nat) (d : list Z) : list Z :=
  let n := full (length d) in
  take nn (concat (le_split 8 <$> F (absorb H d n) (pad128 (drop (128 * n) d)) (Z.of_nat (length d)) true)).

Lemma store_words (hs : list Z) : length hs = 8%nat ->
  for_ 0 8 (fun i b => store64 b (8 * i) hs.[i]) (replicate BLAKE2B_OUTBYTES 0) = concat (le_split 8 <$> hs).
Proof.
  intros Hh. destruct (for_ext_inv (fun b => length b = 64%nat) 0 8 (fun i b => store64 b (8 * i) hs.[i])
    (fun i b => blit b (8 * i) (le_split 8 hs.[i])) (replicate BLAKE2B_OUTBYTES 0)) as [-> _].
  - reflexivity.
  - intros i b Hi Hb. rewrite store64_spec by lia. split; [done|]. rewrite length_blit; [done|]. rewrite length_le_split. lia.
  - rewrite (for_blit 8 (fun i => le_split 8 hs.[i])) by (intros; rewrite ?length_le_split; cbn; lia).
    rewrite drop_ge, app_nil_r by (cbn; lia). destruct_list hs. reflexivity.
Qed.

Lemma final_block st : length (buf st) = 128%nat -> (buflen st <= 128)%nat ->
  buf (set_buf st (buflen st) (128 - buflen st) (replicate (128 - buflen st) 0)) = pad128 (take (buflen st) (buf st)).
Proof.
  intros Hl Hb. cbn [set_buf buf]. unfold blit, pad128.
  rewrite take_replicate, Nat.min_id, length_replicate, drop_ge, app_nil_r, length_take by lia.
  do 3 f_equal. lia.
Qed.

Lemma final_spec H nn d st o outlen' : fed H nn d st -> bytes d -> (nn <= outlen')%nat ->
  exists st', blake2b_final st (Some o) outlen' = (st', Some (blit o 0 (digest H nn d)), 0) /\
    blake2b_is_lastblock st' = true.
Proof.
  intros (HH & (Hh & Ht & Hf) & Lb & Bb & Hbl & Hbuf & Ho & Hln) Hd Hout.
  destruct (full_bounds (length d)) as (B1 & B2 & B3). set (n := full (length d)) in *.
  unfold blake2b_final. rewrite Ho. destruct (Nat.ltb_spec outlen' nn); [lia|].
  unfold blake2b_is_lastblock at 1. rewrite Hf. cbn [negb flags lookup_total list_lookup_total Z.eqb].
  unfold BLAKE2B_BLOCKBYTES.
  set (st1 := blake2b_set_lastblock (blake2b_increment_counter st (Z.of_nat (buflen st)))).
  assert (E1 : buf st1 = buf st /\ buflen st1 = buflen st /\ h st1 = h st /\ outlen st1 = nn).
  { subst st1. unfold blake2b_set_lastblock. cbn [last_node blake2b_increment_counter]. now rewrite Hln. }
  destruct E1 as (Ebuf & Ebl & Eh & Eo).
  assert (R : ready (set_buf st1 (buflen st1) (128 - buflen st1) (replicate (128 - buflen st1) 0)) (Z.of_nat (length d)) true).
  { split; [change (length (h st1) = 8%nat); rewrite Eh, Hh; now apply length_absorb_blocks|].
    change (t st1 = counter (Z.of_nat (length d)) /\ f st1 = flags true).
    subst st1. unfold blake2b_set_lastblock. cbn [last_node blake2b_increment_counter]. rewrite Hln. cbn [Z.eqb].
    split; [|cbn [f blake2b_increment_counter]; rewrite Hf; reflexivity].
    rewrite (counter_add st _ (Z.of_nat (buflen st)) Ht) by lia. cbn [t]. f_equal. lia. }
  assert (Ebk : buf (set_buf st1 (buflen st1) (128 - buflen st1) (replicate (128 - buflen st1) 0)) = pad128 (drop (128 * n) d)).
  { rewrite final_block by (rewrite ?Ebuf, ?Ebl; lia). now rewrite Ebuf, Ebl, Hbuf. }
  set (st2 := set_buf st1 _ _ _) in *. assert (Eh2 : h st2 = h st1) by reflexivity.
  assert (Eo2 : outlen st2 = nn) by exact Eo. cbv zeta.
  assert (Lp : length (pad128 (drop (128 * n) d)) = 128%nat) by (apply length_pad128; rewrite length_drop; lia).
  rewrite Ebk, (compress_spec st2 _ _ _ R) by (try apply bytes_pad128; try apply bytes_drop; (done || lia)).
  eexists. split.
  - cbn [set_h h outlen]. rewrite store_words by apply length_F. rewrite Eh2, Eh, Hh, Eo2. reflexivity.
  - unfold blake2b_is_lastblock. destruct R as (_ & _ & Rf). cbn [set_h f]. rewrite Rf. reflexivity.
Qed.

(** The data a keyed or unkeyed hash is computed over. *)
Lemma digest_is_spec nn key m : Blake2b_Spec.blake2b nn key m =
  digest (h0 nn (length key)) nn (match key with [] => m | _ => pad128 key ++ m end).
Proof. reflexivity. Qed.

(** Updates in sequence. *)
Lemma updates_fed pieces : forall H nn d st, fed H nn d st -> bytes d -> Forall bytes pieces ->
  fed H nn (d ++ concat pieces)
    (fold_left (fun st p => fst (blake2b_update st p (length p))) pieces st) /\ bytes (d ++ concat pieces).
Proof.
  induction pieces as [|p ps IH]; intros H nn d st Hf Hd Hp; cbn [fold_left concat].
  - now rewrite app_nil_r.
  - apply Forall_cons_iff in Hp as [Hp Hps].
    pose proof (update_spec_fed H nn d st p Hf Hd Hp) as Hu.
    destruct (blake2b_update st p (length p)) as [st' r]. destruct Hu as [_ Hu]. rewrite app_assoc. cbn [fst].
    apply IH; [done|now apply bytes_app|done].
Qed.

Lemma bytes_concat (ps : list (list Z)) : Forall bytes ps -> bytes (concat ps).
Proof. induction 1; [constructor|]. cbn. now apply bytes_app. Qed.

(** A computation starts from the key block, if there is a key. *)
Lemma start_fed st nn key : (0 < nn <= 64)%nat -> (length key <= 64)%nat -> bytes key ->
  let d := match key with [] => [] | _ => pad128 key end in
  let '(st', r) := match key with
                   | [] => blake2b_init st nn
                   | _ => blake2b_init_key st nn (Some key) (length key)
                   end in
  r = 0 /\ fed (h0 nn (length key)) nn d st' /\ bytes d.
Proof.
  intros Hn Hk Hb. destruct key as [|k key].
  - pose proof (init_fed st nn Hn) as H. destruct (blake2b_init st nn) as [st' r]. destruct H as [Hr Hf].
    split; [done|]. split; [exact Hf|constructor].
  - pose proof (init_key_fed st nn (k :: key) Hn ltac:(cbn in *; lia) Hb) as H.
    destruct (blake2b_init_key _ _ _ _) as [st' r]. destruct H as [Hr Hf].
    split; [done|]. split; [exact Hf|now apply bytes_pad128].
Qed.

Lemma length_concat_split (hs : list Z) : length (concat (le_split 8 <$> hs)) = (8 * length hs)%nat.
Proof.
  induction hs as [|x hs IH]; [done|]. cbn [fmap list_fmap concat length].
  rewrite length_app, length_le_split. cbn [fmap] in IH. lia.
Qed.

Lemma oneshot_spec st out input key :
  (0 < length out <= 64)%nat -> (length key <= 64)%nat -> bytes input -> bytes key ->
  ml_blake2b st out input key = (Some (blit out 0 (Blake2b_Spec.blake2b (length out) key input)), 0) /\
  length (Blake2b_Spec.blake2b (length out) key input) = length out.
Proof.
  intros Ho Hk Hi Hkb. split.
  2:{ rewrite digest_is_spec. unfold digest. cbv zeta. rewrite length_take, length_concat_split, length_F. lia. }
  pose proof (start_fed st (length out) key Ho Hk Hkb) as Hs. cbv zeta in Hs.
  unfold ml_blake2b, Blake2b.blake2b, BLAKE2B_OUTBYTES, BLAKE2B_KEYBYTES.
  destruct (Nat.eqb_spec (length out) 0); [lia|]. destruct (Nat.ltb_spec 64 (length out)); [lia|].
  destruct (Nat.ltb_spec 64 (length key)); [lia|]. cbn [orb from_option id].
  replace (if (0 <? length key)%nat then _ else _) with
    (match key with [] => blake2b_init st (length out) | _ => blake2b_init_key st (length out) (Some key) (length key) end)
    by now destruct key.
  destruct (match key with [] => _ | _ => _ end) as [st1 r]. destruct Hs as (-> & Hf & Hb).
  change (0 <? 0) with false. cbv iota.
  pose proof (update_spec_fed _ _ _ _ input Hf Hb Hi) as Hu.
  destruct (blake2b_update st1 input (length input)) as [st2 r2]. destruct Hu as [_ Hf2].
  assert (Hb2 := proj2 (bytes_app _ _) (conj Hb Hi)).
  destruct (final_spec _ _ _ _ out (length out) Hf2 Hb2 (Nat.le_refl _)) as (st3 & -> & _).
  rewrite digest_is_spec. do 3 f_equal. now destruct key.
Qed.

End Refinement.

Lemma int_length_nat n : Blake2b.int_length (Z.of_nat n) = n.
Proof. unfold Blake2b.int_length. destruct (Z.ltb_spec (Z.of_nat n) 0); lia. Qed.

(** ** Main results *)

(** C31: [blake2b] through its stub is the keyed hash of RFC 7693: for a
    digest of 1 to 64 bytes and a key of at most 64 it returns 0 and fills the
    output with the digest of the message, whatever the state on the stack held. *)
Theorem blake2b_refines st out input key :
  (0 < length out <= 64)%nat -> (length key <= 64)%nat -> bytes input -> bytes key ->
  Blake2b.ml_blake2b st out input key = (Some (Blake2b_Spec.blake2b (length out) key input), 0).
Proof.
  intros Ho Hk Hi Hkb. destruct (oneshot_spec st out input key Ho Hk Hi Hkb) as [E L]. rewrite E.
  now rewrite blit_0_exact.
Qed.

(** C32: the streaming interface, keyed or not, gives the one-shot digest
    however the message is cut into pieces, empty ones included; the state then
    refuses to be finished again: [blake2b_final] returns -1 and leaves the output
    alone. *)
Theorem blake2b_streaming_equiv st out key (pieces : list (list Z)) out2 :
  (0 < length out <= 64)%nat -> (length key <= 64)%nat -> bytes key -> Forall bytes pieces ->
  let '(st, r) := match key with
                  | [] => Blake2b.ml_blake2b_init st (Z.of_nat (length out))
                  | _ => Blake2b.ml_blake2b_init_key st (Z.of_nat (length out)) key
                  end in
  let st := fold_left (fun st p => fst (Blake2b.ml_blake2b_update st p)) pieces st in
  let '(st', out', r') := Blake2b.ml_blake2b_final st out in
  r = 0 /\ r' = 0 /\ (out', 0) = Blake2b.ml_blake2b Blake2b.blake2b_init0 out (concat pieces) key /\
  Blake2b.ml_blake2b_final st' out2 = (st', Some out2, -1).
Proof.
  intros Ho Hk Hkb Hp.
  rewrite (proj1 (oneshot_spec _ out (concat pieces) key Ho Hk (bytes_concat _ Hp) Hkb)).
  pose proof (start_fed st (length out) key Ho Hk Hkb) as Hs. cbv zeta in Hs.
  unfold Blake2b.ml_blake2b_init, Blake2b.ml_blake2b_init_key. rewrite !int_length_nat.
  destruct (match key with [] => _ | _ => _ end) as [st1 r]. destruct Hs as (Hr & Hf & Hb).
  destruct (updates_fed pieces _ _ _ _ Hf Hb Hp) as [Hf2 Hb2].
  unfold Blake2b.ml_blake2b_update, Blake2b.ml_blake2b_final.
  set (st2 := fold_left _ _ _) in *. clearbody st2.
  destruct (final_spec _ _ _ _ out (length out) Hf2 Hb2 (Nat.le_refl _)) as (st3 & -> & Hlast).
  split; [done|]. split; [done|]. split; [|].
  - rewrite digest_is_spec. do 3 f_equal. now destruct key.
  - unfold Blake2b.blake2b_final. rewrite Hlast. now destruct (_ <? _)%nat.
Qed.

(** the error paths of [blake2b]: a missing output, a missing message or
    key of non-zero length, a digest length of 0 or above 64 and a key above 64 bytes
    are refused with -1, and nothing is written. *)
Theorem blake2b_rejects st out outlen input inlen key keylen :
  out = None \/ (input = None /\ (0 < inlen)%nat) \/ (key = None /\ (0 < keylen)%nat) \/
  outlen = 0%nat \/ (64 < outlen)%nat \/ (64 < keylen)%nat ->
  Blake2b.blake2b st out outlen input inlen key keylen = (out, -1).
Proof.
  intros Hcase. unfold Blake2b.blake2b, Blake2b.BLAKE2B_OUTBYTES, Blake2b.BLAKE2B_KEYBYTES.
  destruct input as [i|], inlen as [|inlen]; try reflexivity;
  (destruct out as [o|]; [|reflexivity]); destruct key as [k|], keylen as [|keylen]; try reflexivity;
  destruct (Nat.eqb_spec outlen 0); try reflexivity; destruct (Nat.ltb_spec 64 outlen); try reflexivity; cbn [orb];
  try (destruct (Nat.ltb_spec 64 (S keylen)); [reflexivity|]);
  exfalso; destruct Hcase as [?|[[? ?]|[[? ?]|[?|[?|?]]]]]; (discriminate || lia).
Qed.

Lemma bytes_abc_blake : bytes [97; 98; 99].
Proof. repeat constructor; lia. Qed.

Lemma blake2b_refines_witness :
  Blake2b.ml_blake2b Blake2b.blake2b_init0 (replicate 32 0) [97; 98; 99] [1; 2] =
  (Some (Blake2b_Spec.blake2b 32 [1; 2] [97; 98; 99]), 0).
Proof.
  refine (blake2b_refines Blake2b.blake2b_init0 (replicate 32 0) [97; 98; 99] [1; 2] _ _ bytes_abc_blake _);
    [simpl; lia|simpl; lia|repeat constructor; lia].
Defined.

Lemma blake2b_streaming_equiv_witness :
  let '(st, r) := Blake2b.ml_blake2b_init Blake2b.blake2b_init0 32 in
  let st := fold_left (fun st p => fst (Blake2b.ml_blake2b_update st p)) [[97]; []; [98; 99]] st in
  let '(st', out', r') := Blake2b.ml_blake2b_final st (replicate 32 0) in
  r = 0 /\ r' = 0 /\
  (out', 0) = Blake2b.ml_blake2b Blake2b.blake2b_init0 (replicate 32 0) (concat [[97]; []; [98; 99]]) [] /\
  Blake2b.ml_blake2b_final st' [7] = (st', Some [7], -1).
Proof.
  refine (blake2b_streaming_equiv Blake2b.blake2b_init0 (replicate 32 0) [] [[97]; []; [98; 99]] [7] _ _ _ _);
    [simpl; lia|simpl; lia|constructor|repeat constructor; lia].
Defined.

Lemma blake2b_rejects_witness :
  Blake2b.blake2b Blake2b.blake2b_init0 (Some [1; 2]) 65 (Some []) 0 (Some []) 0 = (Some [1; 2], -1).
Proof. apply blake2b_rejects. do 4 right. left. lia. Defined.
