(* ===== verification/Midl.v ===== *)
(** * Midl: the identifier lists of LMDB (midl.c)

    The storage engine keeps the page numbers it may reuse, and the pages a
    transaction has touched, in arrays of identifiers: cell 0 holds the number
    of identifiers, which follow in descending order ([MDB_IDL]) or, paired
    with a pointer, in ascending order ([MDB_ID2L]).  An array that was
    allocated has one more cell in front, its capacity.

    A list that a function only reads or rearranges is the list of its cells
    from cell 0 on; the functions that may reallocate work on the whole block,
    capacity first.  [malloc] and [realloc] are those of an [Allocator]. *)

From stdpp Require Import base list numbers sorting.
From Stdlib Require Import ZArith Lia.
From S2P Require Import Prelude Machine.

Local Open Scope Z_scope.
Local Open Scope buf_scope.

(** ** Memory *)

(** Blocks of words of eight bytes, with their sizes in bytes; a block that is
    resized keeps its contents up to the smaller of the two sizes. *)
Class Allocator := {
  malloc : Z -> option (list Z);
  realloc : list Z -> Z -> option (list Z);
  malloc_spec n b : malloc n = Some b -> length b = Z.to_nat (n / 8);
  realloc_spec b n b' : realloc b n = Some b' ->
    length b' = Z.to_nat (n / 8) /\ forall i, (i < length b)%nat -> (i < Z.to_nat (n / 8))%nat -> b'.[i] = b.[i]
}.

(** ** The code *)

Module Midl.

Definition MDB_IDL_LOGN : Z := 16.
Definition MDB_IDL_UM_SIZE : Z := 2 ^ (MDB_IDL_LOGN + 1).
Definition MDB_IDL_UM_MAX : Z := MDB_IDL_UM_SIZE - 1.
Definition ENOMEM : Z := 12.

Definition CMP (x y : Z) : Z := if x <? y then -1 else if y <? x then 1 else 0.

(** *** Searching *)

(** [while( 0 < n )]: [n] shrinks in every turn, so [n] turns are enough.  The
    result is the cursor and the last comparison, [None] for a hit. *)
Fixpoint search_loop (fuel : nat) (cmp : nat -> Z) (base cursor : nat) (val : Z) (n : nat) : nat * option Z :=
  match fuel with
  | O => (cursor, Some val)
  | S fuel =>
      if (0 <? n)%nat then
        let pivot := (n / 2)%nat in
        let cursor := (base + pivot + 1)%nat in
        let val := cmp cursor in
        if val <? 0 then search_loop fuel cmp base cursor val pivot
        else if 0 <? val then search_loop fuel cmp cursor cursor val (n - (pivot + 1))
        else (cursor, None)
      else (cursor, Some val)
  end.

Definition search_result (r : nat * option Z) : nat :=
  match r with
  | (cursor, None) => cursor
  | (cursor, Some val) => if 0 <? val then S cursor else cursor
  end.

Definition mdb_midl_search (ids : list Z) (id : Z) : nat :=
  let n := Z.to_nat (wrap 32 ids.[0]) in
  search_result (search_loop n (fun cursor => CMP ids.[cursor] id) 0 1 0 n).

(** *** Allocation *)

(** The conversion to [int], and [n * sizeof(MDB_ID)] in [size_t]. *)
Definition to_int (x : Z) : Z := to_signed 32 (wrap 32 x).
Definition id_bytes (n : Z) : Z := (wrap 64 n * 8)%u64.

Section Alloc.
Context {A : Allocator}.

(** [num] is an [int]; [num+2] must not leave its range. *)
Definition mdb_midl_alloc (num : Z) : option (list Z) :=
  match malloc (id_bytes (num + 2)) with
  | Some b => let b := b.[0 <- wrap 64 num] in Some b.[1 <- 0]
  | None => None
  end.

Definition mdb_midl_shrink (b : list Z) : list Z :=
  if MDB_IDL_UM_MAX <? b.[0] then
    match realloc b (id_bytes (MDB_IDL_UM_MAX + 2)) with
    | Some b => b.[0 <- MDB_IDL_UM_MAX]
    | None => b
    end
  else b.

(** [num] is an [int], which the sums convert to 64 bits. *)
Definition mdb_midl_grow (b : list Z) (num : Z) : list Z * Z :=
  match realloc b (id_bytes (b.[0] + wrap 64 num + 2)%u64) with
  | None => (b, ENOMEM)
  | Some b => (b.[0 <- (b.[0] + wrap 64 num)%u64], 0)
  end.

Definition mdb_midl_need (b : list Z) (num : Z) : list Z * Z :=
  let num := wrap 32 (num + b.[1]) in
  if b.[0] <? num then
    let num := ((num + wshr num 2 + (256 + 2)) & 0xffffff00)%u32 in
    match realloc b (id_bytes num) with
    | None => (b, ENOMEM)
    | Some b => (b.[0 <- (num - 2)%u32], 0)
    end
  else (b, 0).

Definition mdb_midl_append (b : list Z) (id : Z) : list Z * Z :=
  let '(b, r) := if b.[0] <=? b.[1] then mdb_midl_grow b MDB_IDL_UM_MAX else (b, 0) in
  if r =? 0 then
    let b := b.[1 <- (b.[1] + 1)%u64] in
    (b.[S (Z.to_nat b.[1]) <- id], 0)
  else (b, ENOMEM).

Definition mdb_midl_append_list (b app : list Z) : list Z * Z :=
  let '(b, r) := if b.[0] <=? (b.[1] + app.[0])%u64 then mdb_midl_grow b (to_int app.[0]) else (b, 0) in
  if r =? 0 then
    let b := blit b (S (Z.to_nat b.[1] + 1)) (slice app 1 (Z.to_nat app.[0])) in
    (b.[1 <- (b.[1] + app.[0])%u64], 0)
  else (b, ENOMEM).

(** [while (n) ids[n--] = id++], [ids] being the pointer to cell [len] *)
Fixpoint range_loop (b : list Z) (len n : nat) (id : Z) : list Z :=
  match n with
  | O => b
  | S n' => range_loop (b.[S (len + n) <- id]) len n' (id + 1)%u64
  end.

Definition mdb_midl_append_range (b : list Z) (id n : Z) : list Z * Z :=
  let len := b.[1] in
  let '(b, r) := if b.[0] <? (len + n)%u64 then mdb_midl_grow b (to_int (Z.lor n MDB_IDL_UM_MAX)) else (b, 0) in
  if r =? 0 then
    let b := b.[1 <- (len + n)%u64] in
    (range_loop b (Z.to_nat len) (Z.to_nat n) id, 0)
  else (b, ENOMEM).

End Alloc.

(** [xappend] of midl.h: the list must be big enough. *)
Definition mdb_midl_xappend (idl : list Z) (id : Z) : list Z :=
  let xlen := (idl.[0] + 1)%u64 in
  let xidl := idl.[0 <- xlen] in
  xidl.[Z.to_nat xlen <- id].

(** *** Merging *)

(** [for (; old_id < merge_id; old_id = idl[--j]) idl[k--] = old_id] *)
Fixpoint xmerge_shift (idl : list Z) (old_id merge_id : Z) (j k : nat) : list Z * Z * nat * nat :=
  if old_id <? merge_id then
    match j with
    | O => (idl, old_id, j, k)
    | S j' =>
        let idl := idl.[k <- old_id] in
        xmerge_shift idl idl.[j'] merge_id j' (k - 1)
    end
  else (idl, old_id, j, k).

Fixpoint xmerge_loop (idl merge : list Z) (i j k : nat) (old_id : Z) : list Z :=
  match i with
  | O => idl
  | S i' =>
      let merge_id := merge.[i] in
      let '(idl, old_id, j, k) := xmerge_shift idl old_id merge_id j k in
      let idl := idl.[k <- merge_id] in
      xmerge_loop idl merge i' j (k - 1) old_id
  end.

Definition mdb_midl_xmerge (idl merge : list Z) : list Z :=
  let i := Z.to_nat merge.[0] in
  let j := Z.to_nat idl.[0] in
  let k := (i + j)%nat in
  let total := k in
  let idl := idl.[0 <- 0xffffffffffffffff] in
  let old_id := idl.[j] in
  let idl := xmerge_loop idl merge i j k old_id in
  idl.[0 <- Z.of_nat total].

(** *** Sorting *)

(** The indices [i], [j], [k], [l] and [ir] are of type [int].  They are never
    negative, so they are natural numbers here, but a sum that [int] cannot
    hold has no defined value: it is [None], and so is what is computed from
    it. *)
Definition INT_MAX : Z := 2 ^ 31 - 1.
Definition int_add (x y : nat) : option nat := if Z.of_nat x + Z.of_nat y <=? INT_MAX then Some (x + y)%nat else None.

Definition SMALL : nat := 8.

Definition MIDL_SWAP (ids : list Z) (x y : nat) : list Z :=
  let itmp := ids.[x] in
  let ids := ids.[x <- ids.[y]] in
  ids.[y <- itmp].

(** [for (i=j-1;i>=1;i--) { if (ids[i] >= a) break; ids[i+1] = ids[i]; }] *)
Fixpoint insert_shift (ids : list Z) (a : Z) (i : nat) : list Z * nat :=
  match i with
  | O => (ids, i)
  | S i' =>
      if a <=? ids.[i] then (ids, i)
      else insert_shift (ids.[i + 1 <- ids.[i]]) a i'
  end.

(** [for (j=l+1;j<=ir;j++)]: unless there is no turn, [j] ends as [ir+1]. *)
Definition insertion_sort (ids : list Z) (l ir : nat) : option (list Z) :=
  first ← int_add l 1;
  if (first <=? ir)%nat then
    last ← int_add ir 1;
    Some (for_ first last (fun j ids =>
      let a := ids.[j] in
      let '(ids, i) := insert_shift ids a (j - 1) in
      ids.[i + 1 <- a]) ids)
  else Some ids.

(** [do i++; while(ids[i] > a)] and [do j--; while(ids[j] < a)] *)
Fixpoint scan_up (fuel : nat) (ids : list Z) (a : Z) (i : nat) : nat :=
  match fuel with
  | O => i
  | S fuel => let i := S i in if a <? ids.[i] then scan_up fuel ids a i else i
  end.

Fixpoint scan_down (ids : list Z) (a : Z) (j : nat) : nat :=
  match j with
  | O => j
  | S j => if ids.[j] <? a then scan_down ids a j else j
  end.

Fixpoint partition_loop (fuel : nat) (ids : list Z) (a : Z) (i j : nat) : list Z * nat * nat :=
  match fuel with
  | O => (ids, i, j)
  | S fuel =>
      let i := scan_up (length ids) ids a i in
      let j := scan_down ids a j in
      if (j <? i)%nat then (ids, i, j)
      else partition_loop fuel (MIDL_SWAP ids i j) a i j
  end.

(** The median of three goes to [l+1], then the segment is partitioned. *)
Definition partition (ids : list Z) (l ir : nat) : option (list Z * nat * nat) :=
  sum ← int_add l ir;
  let k := (sum / 2)%nat in
  let ids := MIDL_SWAP ids k (l + 1) in
  let ids := if ids.[l] <? ids.[ir] then MIDL_SWAP ids l ir else ids in
  let ids := if ids.[l + 1] <? ids.[ir] then MIDL_SWAP ids (l + 1) ir else ids in
  let ids := if ids.[l] <? ids.[l + 1] then MIDL_SWAP ids l (l + 1) else ids in
  let i := (l + 1)%nat in
  let j := ir in
  let a := ids.[l + 1] in
  let '(ids, i, j) := partition_loop ir ids a i j in
  let ids := ids.[l + 1 <- ids.[j]] in
  let ids := ids.[j <- a] in
  Some (ids, i, j).

(** The state of the outer loop; [istack] is used from cell 1 on. *)
Record sort_state := { s_ids : list Z; s_l : nat; s_ir : nat; s_istack : list nat; s_jstack : nat }.

(** One turn of [for(;;)]: [inr] is the [break], [None] an overflow. *)
Definition sort_step (s : sort_state) : option (sort_state + list Z) :=
  let '{| s_ids := ids; s_l := l; s_ir := ir; s_istack := istack; s_jstack := jstack |} := s in
  if Z.of_nat ir - Z.of_nat l <? Z.of_nat SMALL then
    ids ← insertion_sort ids l ir;
    if (jstack =? 0)%nat then Some (inr ids)
    else
      let ir := istack.[jstack] in
      let l := istack.[jstack - 1] in
      Some (inl {| s_ids := ids; s_l := l; s_ir := ir; s_istack := istack; s_jstack := jstack - 2 |})
  else
    '(ids, i, j) ← partition ids l ir;
    let jstack := (jstack + 2)%nat in
    if Z.of_nat j - Z.of_nat l <=? Z.of_nat ir - Z.of_nat i + 1 then
      let istack := istack.[jstack <- ir] in
      let istack := istack.[jstack - 1 <- i] in
      Some (inl {| s_ids := ids; s_l := l; s_ir := j - 1; s_istack := istack; s_jstack := jstack |})
    else
      let istack := istack.[jstack <- (j - 1)%nat] in
      let istack := istack.[jstack - 1 <- l] in
      Some (inl {| s_ids := ids; s_l := i; s_ir := ir; s_istack := istack; s_jstack := jstack |}).

(** The loop, for at most [fuel] turns; [None] when they are not enough, and
    after an overflow. *)
Fixpoint sort_loop (fuel : nat) (s : sort_state) : option (list Z) :=
  match fuel with
  | O => None
  | S fuel =>
      r ← sort_step s;
      match r with
      | inl s => sort_loop fuel s
      | inr ids => Some ids
      end
  end.

(** [istack] has [sizeof(int)*CHAR_BIT * 2] cells.  A count below 0, after its
    conversion to [int], leaves nothing to sort, as 0 does. *)
Definition sort_start (ids : list Z) : sort_state :=
  {| s_ids := ids; s_l := 1; s_ir := Z.to_nat (to_int ids.[0]);
     s_istack := replicate 64 0%nat; s_jstack := 0 |}.

(** The first [ir - l] overflows for the lowest [int]. *)
Definition mdb_midl_sort (ids : list Z) : option (list Z) :=
  let s := sort_start ids in
  if to_int ids.[0] - 1 <? - INT_MAX - 1 then None else sort_loop (2 * s_ir s + 2) s.

(** *** Identifier and pointer pairs *)

Record MDB_ID2 := { mid : Z; mptr : Z }.
#[global] Instance id2_inhabited : Inhabited MDB_ID2 := populate {| mid := 0; mptr := 0 |}.

Definition mdb_mid2l_search (ids : list MDB_ID2) (id : Z) : nat :=
  let n := Z.to_nat (wrap 32 (mid ids.[0])) in
  search_result (search_loop n (fun cursor => CMP id (mid ids.[cursor])) 0 1 0 n).

Definition set_count (ids : list MDB_ID2) (n : Z) : list MDB_ID2 :=
  ids.[0 <- {| mid := n; mptr := mptr ids.[0] |}].

(** [for (i=...; i>x; i--) ids[i] = ids[i-1]] *)
Fixpoint shift_up (ids : list MDB_ID2) (x i : nat) : list MDB_ID2 :=
  match i with
  | O => ids
  | S i' => if (x <? i)%nat then shift_up (ids.[i <- ids.[i']]) x i' else ids
  end.

Definition mdb_mid2l_insert (ids : list MDB_ID2) (id : MDB_ID2) : list MDB_ID2 * Z :=
  let x := mdb_mid2l_search ids (mid id) in
  if (x <? 1)%nat then (ids, -2)
  else if (Z.of_nat x <=? mid ids.[0]) && (mid ids.[x] =? mid id) then (ids, -1)
  else if MDB_IDL_UM_MAX <=? mid ids.[0] then (ids, -2)
  else
    let ids := set_count ids (mid ids.[0] + 1)%u64 in
    let ids := shift_up ids x (Z.to_nat (wrap 32 (mid ids.[0]))) in
    (ids.[x <- id], 0).

Definition mdb_mid2l_append (ids : list MDB_ID2) (id : MDB_ID2) : list MDB_ID2 * Z :=
  if MDB_IDL_UM_MAX <=? mid ids.[0] then (ids, -2)
  else
    let ids := set_count ids (mid ids.[0] + 1)%u64 in
    (ids.[Z.to_nat (mid ids.[0]) <- id], 0).

End Midl.

(** ** Searching *)

Section Search.
Import Midl.

(** The comparisons along a sorted list: positive, then at most one zero, then
    negative. *)
Context (cmp : nat -> Z) (N : nat).
Context (cmp_mono : forall k k', (1 <= k < k')%nat -> (k' <= N)%nat -> cmp k <= 0 -> cmp k' < 0).

Definition found (x : nat) : Prop :=
  (1 <= x <= N + 1)%nat /\ (forall k, (1 <= k < x)%nat -> 0 < cmp k) /\ (forall k, (x <= k <= N)%nat -> cmp k <= 0).

(** The window is [base + 1 .. base + n]. *)
Lemma search_loop_spec fuel : forall base cursor val n,
  (n <= fuel)%nat -> (base + n <= N)%nat ->
  (forall k, (1 <= k <= base)%nat -> 0 < cmp k) -> (forall k, (base + n < k <= N)%nat -> cmp k <= 0) ->
  (0 < val /\ cursor = base) \/ (val < 0 /\ cursor = (base + n + 1)%nat) \/
    (val = 0 /\ cursor = 1%nat /\ base = 0%nat /\ n = N) ->
  found (search_result (search_loop fuel cmp base cursor val n)).
Proof.
  assert (Hend : forall base cursor val, (base <= N)%nat ->
    (forall k, (1 <= k <= base)%nat -> 0 < cmp k) -> (forall k, (base + 0 < k <= N)%nat -> cmp k <= 0) ->
    (0 < val /\ cursor = base) \/ (val < 0 /\ cursor = (base + 0 + 1)%nat) \/
      (val = 0 /\ cursor = 1%nat /\ base = 0%nat /\ 0%nat = N) ->
    found (search_result (cursor, Some val))).
  { intros base cursor val Hb Hlow Hhigh Hc. cbn [search_result].
    assert (E : (if 0 <? val then S cursor else cursor) = (base + 1)%nat) by (destruct (Z.ltb_spec 0 val); lia).
    rewrite E. split; [lia|]. split; intros k Hk; [apply Hlow|apply Hhigh]; lia. }
  induction fuel as [|fuel IH]; intros base cursor val n Hf Hb Hlow Hhigh Hc.
  { assert (n = 0%nat) as -> by lia. apply (Hend base); (done || lia). }
  cbn [search_loop]. destruct (Nat.ltb_spec 0 n) as [Hn|Hn].
  2:{ assert (n = 0%nat) as -> by lia. apply (Hend base); (done || lia). }
  pose proof (Nat.div_lt n 2 Hn ltac:(lia)) as Hp. set (pivot := (n / 2)%nat) in *. clearbody pivot.
  destruct (Z.ltb_spec (cmp (base + pivot + 1)%nat) 0) as [Hneg|Hneg].
  - apply IH; try lia; [done|]. intros k Hk. destruct (decide (k = base + pivot + 1)%nat) as [->|]; [lia|].
    assert (cmp k < 0) by (apply (cmp_mono (base + pivot + 1)); lia). lia.
  - destruct (Z.ltb_spec 0 (cmp (base + pivot + 1)%nat)) as [Hpos|Hpos].
    + apply IH; try lia; [|intros k Hk; apply Hhigh; lia].
      intros k Hk. destruct (Z.lt_ge_cases 0 (cmp k)) as [|Hk0]; [done|]. exfalso.
      destruct (decide (k = base + pivot + 1)%nat) as [->|]; [lia|].
      pose proof (cmp_mono k (base + pivot + 1)%nat ltac:(lia) ltac:(lia) Hk0). lia.
    + cbn [search_result]. split; [lia|]. split; intros k Hk.
      * destruct (Z.lt_ge_cases 0 (cmp k)) as [|Hk0]; [done|]. exfalso.
        pose proof (cmp_mono k (base + pivot + 1)%nat ltac:(lia) ltac:(lia) Hk0). lia.
      * destruct (decide (k = base + pivot + 1)%nat) as [->|]; [lia|].
        pose proof (cmp_mono (base + pivot + 1)%nat k ltac:(lia) ltac:(lia) ltac:(lia)). lia.
Qed.

Lemma search_spec : found (search_result (search_loop N cmp 0 1 0 N)).
Proof. apply search_loop_spec; try lia; intros; lia. Qed.

End Search.

(** *** Sorted lists *)

(** The identifiers of a list: cells 1 to [cell 0]. *)
Definition elems (ids : list Z) : list Z := slice ids 1 (Z.to_nat ids.[0]).

(** A list with room for its identifiers and a count that fits an [int]. *)
Definition idl_wf (ids : list Z) : Prop :=
  0 <= ids.[0] < 2 ^ 31 /\ (Z.to_nat ids.[0] < length ids)%nat.

Definition descending (ids : list Z) : Prop :=
  forall k k', (1 <= k < k')%nat -> (k' <= Z.to_nat ids.[0])%nat -> ids.[k'] < ids.[k].

Lemma length_elems ids : idl_wf ids -> length (elems ids) = Z.to_nat ids.[0].
Proof. intros [_ H]. apply length_slice. lia. Qed.

Lemma elems_lookup ids k : idl_wf ids -> (1 <= k <= Z.to_nat ids.[0])%nat -> elems ids !! (k - 1)%nat = Some ids.[k].
Proof.
  intros [_ H] Hk. unfold elems, slice. rewrite lookup_take_lt, lookup_drop by lia.
  replace (1 + (k - 1))%nat with k by lia. apply list_lookup_lookup_total_lt. lia.
Qed.

Lemma elem_of_elems ids x : idl_wf ids ->
  x ∈ elems ids <-> exists k, (1 <= k <= Z.to_nat ids.[0])%nat /\ ids.[k] = x.
Proof.
  intros Hw. rewrite list_elem_of_lookup. split.
  - intros [i Hi]. pose proof (lookup_lt_Some _ _ _ Hi) as Hl. rewrite length_elems in Hl by done.
    exists (S i). split; [lia|]. pose proof (elems_lookup ids (S i) Hw ltac:(lia)) as E.
    cbn [Nat.sub] in E. rewrite Nat.sub_0_r in E. rewrite E in Hi. now injection Hi.
  - intros (k & Hk & <-). exists (k - 1)%nat. now apply elems_lookup.
Qed.

Lemma CMP_neg x y : Midl.CMP x y < 0 <-> x < y.
Proof. unfold Midl.CMP. destruct (Z.ltb_spec x y), (Z.ltb_spec y x); lia. Qed.

Lemma CMP_pos x y : 0 < Midl.CMP x y <-> y < x.
Proof. unfold Midl.CMP. destruct (Z.ltb_spec x y), (Z.ltb_spec y x); lia. Qed.

Lemma CMP_le x y : Midl.CMP x y <= 0 <-> x <= y.
Proof. unfold Midl.CMP. destruct (Z.ltb_spec x y), (Z.ltb_spec y x); lia. Qed.

Lemma midl_search_spec ids id : idl_wf ids -> descending ids ->
  let x := Midl.mdb_midl_search ids id in
  (1 <= x <= Z.to_nat ids.[0] + 1)%nat /\
  (forall k, (1 <= k < x)%nat -> id < ids.[k]) /\ (forall k, (x <= k <= Z.to_nat ids.[0])%nat -> ids.[k] <= id).
Proof.
  intros [Hr Hl] Hd. unfold Midl.mdb_midl_search. rewrite wrap_small by (unfold word; lia).
  destruct (search_spec (fun c => Midl.CMP ids.[c] id) (Z.to_nat ids.[0])) as (H1 & H2 & H3).
  { intros k k' Hk Hk' Hc. rewrite CMP_le in Hc. rewrite CMP_neg.
    pose proof (Hd k k' Hk Hk'). lia. }
  cbv zeta. split; [done|]. split.
  - intros k Hk. apply H2 in Hk. now rewrite CMP_pos in Hk.
  - intros k Hk. apply H3 in Hk. now rewrite CMP_le in Hk.
Qed.

(** ** Pairs *)

Section Pairs.
Import Midl.

Lemma UM_MAX_val : MDB_IDL_UM_MAX = 131071.
Proof. reflexivity. Qed.

Definition count2 (ids : list MDB_ID2) : nat := Z.to_nat (mid ids.[0]).
Definition elems2 (ids : list MDB_ID2) : list MDB_ID2 := slice ids 1 (count2 ids).

Definition id2l_wf (ids : list MDB_ID2) : Prop :=
  0 <= mid ids.[0] <= MDB_IDL_UM_MAX /\ length ids = Z.to_nat (MDB_IDL_UM_MAX + 1).

Definition ascending (ids : list MDB_ID2) : Prop :=
  forall k k', (1 <= k < k')%nat -> (k' <= count2 ids)%nat -> mid ids.[k] < mid ids.[k'].

Lemma mid2l_search_spec ids id : id2l_wf ids -> ascending ids ->
  let x := mdb_mid2l_search ids id in
  (1 <= x <= count2 ids + 1)%nat /\
  (forall k, (1 <= k < x)%nat -> mid ids.[k] < id) /\ (forall k, (x <= k <= count2 ids)%nat -> id <= mid ids.[k]).
Proof.
  intros [Hr Hl] Hd. unfold mdb_mid2l_search. rewrite UM_MAX_val in *.
  rewrite wrap_small by (unfold word; lia).
  destruct (search_spec (fun c => CMP id (mid ids.[c])) (count2 ids)) as (H1 & H2 & H3).
  { intros k k' Hk Hk' Hc. rewrite CMP_le in Hc. rewrite CMP_neg. pose proof (Hd k k' Hk Hk'). lia. }
  cbv zeta. split; [done|]. split.
  - intros k Hk. apply H2 in Hk. now rewrite CMP_pos in Hk.
  - intros k Hk. apply H3 in Hk. now rewrite CMP_le in Hk.
Qed.

Lemma length_shift_up i : forall ids x, length (shift_up ids x i) = length ids.
Proof.
  induction i as [|i IH]; intros ids x; cbn [shift_up]; [done|].
  destruct (x <? S i)%nat; [|done]. now rewrite IH, length_insert.
Qed.

(** The cells from [x] to [i - 1] move up by one. *)
Lemma shift_up_spec i : forall ids x k, (i < length ids)%nat ->
  (shift_up ids x i).[k] = if decide (x < k <= i)%nat then ids.[k - 1] else ids.[k].
Proof.
  induction i as [|i IH]; intros ids x k Hi; cbn [shift_up].
  { case_decide; [lia|done]. }
  destruct (Nat.ltb_spec x (S i)) as [Hx|Hx].
  2:{ case_decide; [lia|done]. }
  rewrite IH by (rewrite length_insert; lia). destruct (decide (k = S i)) as [->|].
  - rewrite decide_False, decide_True, list_lookup_total_insert_eq by lia. f_equal. lia.
  - case_decide.
    + rewrite decide_True, list_lookup_total_insert_ne by lia. done.
    + rewrite decide_False, list_lookup_total_insert_ne by lia. done.
Qed.

(** Insertion at position [x], cell by cell. *)
Definition inserted (ids : list MDB_ID2) (x : nat) (id : MDB_ID2) : list MDB_ID2 :=
  (shift_up (set_count ids (mid ids.[0] + 1)) x (count2 ids + 1)).[x <- id].

Lemma inserted_lookup ids x id k : id2l_wf ids -> mid ids.[0] < MDB_IDL_UM_MAX -> (1 <= x <= count2 ids + 1)%nat ->
  (1 <= k <= count2 ids + 1)%nat ->
  (inserted ids x id).[k] = if decide (k < x)%nat then ids.[k] else if decide (k = x) then id else ids.[k - 1].
Proof.
  intros [Hr Hl] Hm Hx Hk. rewrite UM_MAX_val in *. unfold inserted, count2 in *.
  assert (L : (x < length (shift_up (set_count ids (mid ids.[0] + 1)) x (Z.to_nat (mid ids.[0]) + 1)))%nat).
  { rewrite length_shift_up. unfold set_count. rewrite length_insert. lia. }
  destruct (decide (k = x)) as [->|].
  { rewrite list_lookup_total_insert_eq by done. now rewrite decide_False by lia. }
  rewrite list_lookup_total_insert_ne by done. rewrite shift_up_spec by (unfold set_count; rewrite length_insert; lia).
  unfold set_count. case_decide.
  - rewrite decide_False by lia. rewrite list_lookup_total_insert_ne by lia. done.
  - rewrite decide_True by lia. rewrite list_lookup_total_insert_ne by lia. done.
Qed.

Lemma elems2_lookup ids i : (count2 ids < length ids)%nat -> (i < count2 ids)%nat ->
  elems2 ids !! i = Some ids.[S i].
Proof.
  intros Hl Hi. unfold elems2, slice. rewrite lookup_take_lt, lookup_drop by lia.
  apply list_lookup_lookup_total_lt. lia.
Qed.

Lemma length_elems2 ids : (count2 ids < length ids)%nat -> length (elems2 ids) = count2 ids.
Proof. intros. apply length_slice. lia. Qed.

Lemma inserted_head ids x id : (0 < x)%nat -> (0 < length ids)%nat ->
  (count2 ids + 1 < length ids)%nat -> (inserted ids x id).[0] = {| mid := mid ids.[0] + 1; mptr := mptr ids.[0] |}.
Proof.
  intros Hx Hl Hc. unfold inserted. rewrite list_lookup_total_insert_ne by lia.
  rewrite shift_up_spec by (unfold set_count; rewrite length_insert; lia). rewrite decide_False by lia.
  unfold set_count. now rewrite list_lookup_total_insert_eq.
Qed.

Lemma inserted_elems ids x id : id2l_wf ids -> mid ids.[0] < MDB_IDL_UM_MAX -> (1 <= x <= count2 ids + 1)%nat ->
  elems2 (inserted ids x id) = take (x - 1) (elems2 ids) ++ id :: drop (x - 1) (elems2 ids).
Proof.
  intros Hw Hm Hx. pose proof Hw as [Hr Hl]. rewrite UM_MAX_val in Hl, Hm, Hr.
  assert (Hc : (count2 ids + 1 < length ids)%nat) by (unfold count2; lia).
  assert (H0 := inserted_head ids x id ltac:(lia) ltac:(lia) Hc).
  assert (Ec : count2 (inserted ids x id) = (count2 ids + 1)%nat) by (unfold count2; rewrite H0; cbn; lia).
  assert (Li : length (inserted ids x id) = length ids).
  { unfold inserted, set_count. now rewrite length_insert, length_shift_up, length_insert. }
  assert (Le := length_elems2 ids ltac:(lia)).
  apply list_eq. intros i. destruct (decide (i < count2 ids + 1)%nat) as [Hi|Hi].
  - rewrite elems2_lookup, inserted_lookup by (done || lia).
    destruct (decide (S i < x)%nat); [|destruct (decide (S i = x))].
    + rewrite lookup_app_l by (rewrite length_take; lia). rewrite lookup_take_lt, elems2_lookup by lia. done.
    + rewrite lookup_app_r by (rewrite length_take; lia). rewrite length_take.
      replace (i - (x - 1) `min` length (elems2 ids))%nat with 0%nat by lia. done.
    + rewrite lookup_app_r by (rewrite length_take; lia). rewrite length_take.
      replace (i - (x - 1) `min` length (elems2 ids))%nat with (S (i - x))%nat by lia.
      change ((id :: drop (x - 1) (elems2 ids)) !! S (i - x)) with (drop (x - 1) (elems2 ids) !! (i - x)%nat).
      rewrite lookup_drop, elems2_lookup by lia.
      f_equal. f_equal. lia.
  - rewrite !lookup_ge_None_2; [done| |].
    + rewrite length_app, length_take. cbn. rewrite length_drop. lia.
    + rewrite length_elems2; lia.
Qed.

(** The search finds an identifier exactly when it is there. *)
Lemma search2_hit ids id : id2l_wf ids -> ascending ids ->
  let x := mdb_mid2l_search ids id in
  id ∈ mid <$> elems2 ids <-> (x <= count2 ids)%nat /\ mid ids.[x] = id.
Proof.
  intros Hw Ha. destruct (mid2l_search_spec ids id Hw Ha) as (S1 & S2 & S3). cbv zeta.
  set (x := mdb_mid2l_search ids id) in *. clearbody x. pose proof Hw as [Hr Hl]. rewrite UM_MAX_val in *.
  assert (Hc : (count2 ids < length ids)%nat) by (unfold count2; lia). rewrite list_elem_of_fmap. split.
  - intros (y & -> & [i Hi]%list_elem_of_lookup).
    pose proof (lookup_lt_Some _ _ _ Hi) as Hlt. rewrite length_elems2 in Hlt by done.
    rewrite elems2_lookup in Hi by done. injection Hi as <-.
    destruct (Nat.lt_ge_cases (S i) x) as [Hs|Hs]; [pose proof (S2 (S i) ltac:(lia)); lia|].
    split; [lia|]. destruct (decide (S i = x)) as [<-|]; [done|].
    pose proof (Ha x (S i) ltac:(lia) ltac:(lia)). pose proof (S3 x ltac:(lia)). lia.
  - intros [Hx <-]. exists ids.[x]. split; [done|]. rewrite list_elem_of_lookup. exists (x - 1)%nat.
    rewrite elems2_lookup by lia. do 2 f_equal. lia.
Qed.

Lemma inserted_ascending ids x id : id2l_wf ids -> mid ids.[0] < MDB_IDL_UM_MAX -> ascending ids ->
  (1 <= x <= count2 ids + 1)%nat -> (forall k, (1 <= k < x)%nat -> mid ids.[k] < mid id) ->
  (forall k, (x <= k <= count2 ids)%nat -> mid id < mid ids.[k]) -> ascending (inserted ids x id).
Proof.
  intros Hw Hm Ha Hx S2 S3 k k' Hk Hk'. pose proof Hw as [Hr Hl]. rewrite UM_MAX_val in Hl, Hr.
  unfold count2 in Hk'. rewrite inserted_head in Hk' by (rewrite ?UM_MAX_val in *; unfold count2; lia). cbn [mid] in Hk'.
  assert (Z.to_nat (mid ids.[0] + 1) = (count2 ids + 1)%nat) as E by (unfold count2; lia). rewrite E in Hk'.
  rewrite !inserted_lookup by (done || lia).
  destruct (decide (k < x)%nat), (decide (k = x)), (decide (k' < x)%nat), (decide (k' = x)); try lia;
    first [apply S2; lia | apply S3; lia | apply Ha; lia].
Qed.

(** The whole contract of the insertion. *)
Lemma insert_spec ids id : id2l_wf ids -> ascending ids ->
  let '(ids', r) := mdb_mid2l_insert ids id in
  if decide (mid id ∈ mid <$> elems2 ids) then r = -1 /\ ids' = ids
  else if decide (mid ids.[0] = MDB_IDL_UM_MAX) then r = -2 /\ ids' = ids
  else r = 0 /\ id2l_wf ids' /\ ascending ids' /\ elems2 ids' ≡ₚ id :: elems2 ids.
Proof.
  intros Hw Ha. pose proof Hw as [Hr Hl]. pose proof (search2_hit ids (mid id) Hw Ha) as Hhit. cbv zeta in Hhit.
  destruct (mid2l_search_spec ids (mid id) Hw Ha) as (S1 & S2 & S3). unfold mdb_mid2l_insert.
  set (x := mdb_mid2l_search ids (mid id)) in *. clearbody x. cbv zeta.
  destruct (Nat.ltb_spec x 1); [lia|].
  assert (Eb : (Z.of_nat x <=? mid ids.[0]) && (mid ids.[x] =? mid id) = bool_decide (mid id ∈ mid <$> elems2 ids)).
  { apply eq_bool_prop_intro. rewrite andb_True, bool_decide_spec, Hhit, !Is_true_true, Z.leb_le, Z.eqb_eq.
    unfold count2. lia. }
  rewrite Eb. clear Eb. destruct (decide (mid id ∈ mid <$> elems2 ids)) as [Hin|Hin].
  { now rewrite bool_decide_eq_true_2. }
  rewrite bool_decide_eq_false_2 by done.
  destruct (Z.leb_spec MDB_IDL_UM_MAX (mid ids.[0])).
  { now rewrite decide_True by lia. }
  rewrite decide_False by lia. split; [done|]. assert (HM := UM_MAX_val).
  assert (S3' : forall k, (x <= k <= count2 ids)%nat -> mid id < mid ids.[k]).
  { intros k Hk. pose proof (S3 k Hk). destruct (decide (mid ids.[k] = mid id)) as [E|]; [|lia]. exfalso.
    apply Hin. rewrite <- E, list_elem_of_fmap. exists ids.[k]. split; [done|]. rewrite list_elem_of_lookup.
    exists (k - 1)%nat. rewrite elems2_lookup by (unfold count2 in *; lia). do 2 f_equal. lia. }
  assert (Hc : (count2 ids + 1 < length ids)%nat) by (unfold count2; lia).
  assert (E : (shift_up (set_count ids (wadd 64 (mid ids.[0]) 1)) x
                 (Z.to_nat (wrap 32 (mid (set_count ids (wadd 64 (mid ids.[0]) 1)).[0])))).[x <- id] = inserted ids x id).
  { rewrite wadd_small by lia. unfold inserted. do 2 f_equal. unfold set_count at 1.
    rewrite list_lookup_total_insert_eq by lia. cbn [mid]. rewrite wrap_small by (unfold word; lia). unfold count2. lia. }
  rewrite E. split; [|split].
  - split; [rewrite inserted_head by lia; cbn [mid]; lia|].
    unfold inserted, set_count. now rewrite length_insert, length_shift_up, length_insert.
  - now apply inserted_ascending.
  - rewrite inserted_elems by done. rewrite <- (take_drop (x - 1) (elems2 ids)) at 3. now rewrite Permutation_middle.
Qed.

Lemma append2_spec ids id : id2l_wf ids ->
  let '(ids', r) := mdb_mid2l_append ids id in
  if decide (mid ids.[0] = MDB_IDL_UM_MAX) then r = -2 /\ ids' = ids
  else r = 0 /\ id2l_wf ids' /\ elems2 ids' = elems2 ids ++ [id].
Proof.
  intros Hw. pose proof Hw as [Hr Hl]. assert (HM := UM_MAX_val). unfold mdb_mid2l_append.
  destruct (Z.leb_spec MDB_IDL_UM_MAX (mid ids.[0])); [now rewrite decide_True by lia|].
  rewrite decide_False, wadd_small by lia.
  assert (Hc : (count2 ids + 1 < length ids)%nat) by (unfold count2; lia).
  assert (E : <[Z.to_nat (mid (set_count ids (mid ids.[0] + 1)).[0]) := id]> (set_count ids (mid ids.[0] + 1)) =
    inserted ids (count2 ids + 1) id).
  { unfold inserted. replace (shift_up _ (count2 ids + 1) (count2 ids + 1)) with (set_count ids (mid ids.[0] + 1)).
    - unfold set_count at 1. rewrite list_lookup_total_insert_eq by lia. cbn [mid]. f_equal. unfold count2. lia.
    - rewrite Nat.add_1_r. cbn [shift_up]. now rewrite Nat.ltb_irrefl. }
  cbv zeta. rewrite E. split; [done|]. split.
  - split; [rewrite inserted_head by lia; cbn [mid]; lia|].
    unfold inserted, set_count. now rewrite length_insert, length_shift_up, length_insert.
  - rewrite inserted_elems by (done || lia). rewrite Nat.add_sub.
    rewrite <- (length_elems2 ids) by lia. now rewrite firstn_all, drop_all.
Qed.

End Pairs.

(** ** Allocated lists *)

Section Allocated.
Import Midl.
Context {A : Allocator}.

(** A block: capacity, count, and [capacity] cells; the identifiers in it. *)
Definition block_wf (b : list Z) : Prop :=
  0 <= b.[1] <= b.[0] /\ b.[0] < 2 ^ 31 /\ length b = (Z.to_nat b.[0] + 2)%nat.

Definition belems (b : list Z) : list Z := slice b 2 (Z.to_nat b.[1]).

Lemma length_belems b : block_wf b -> length (belems b) = Z.to_nat b.[1].
Proof. intros (H1 & H2 & H3). apply length_slice. lia. Qed.

Lemma belems_lookup b i : block_wf b -> (i < Z.to_nat b.[1])%nat -> belems b !! i = Some b.[S (S i)].
Proof.
  intros (H1 & H2 & H3) Hi. unfold belems, slice. rewrite lookup_take_lt, lookup_drop by lia.
  apply list_lookup_lookup_total_lt. lia.
Qed.

(** [b'] is [b] with at least the same room and the same identifiers. *)
Definition extends (b b' : list Z) : Prop :=
  block_wf b' /\ b'.[1] = b.[1] /\ belems b' = belems b.

Lemma extends_refl b : block_wf b -> extends b b.
Proof. intros H. split; [exact H|]. now split. Qed.

Lemma extends_intro b b' : block_wf b -> b.[1] <= b'.[0] < 2 ^ 31 -> length b' = (Z.to_nat b'.[0] + 2)%nat ->
  (forall i, (1 <= i <= Z.to_nat b.[1] + 1)%nat -> b'.[i] = b.[i]) -> extends b b'.
Proof.
  intros Hw Hc Hl Hi. assert (E1 : b'.[1] = b.[1]) by (apply Hi; lia). pose proof Hw as (H1 & H2 & H3).
  assert (Hw' : block_wf b') by (repeat split; lia). split; [done|]. split; [done|].
  apply list_eq. intros i. destruct (decide (i < Z.to_nat b.[1])%nat).
  - rewrite !belems_lookup by (done || lia). f_equal. apply Hi. lia.
  - rewrite !lookup_ge_None_2; [done| |]; rewrite length_belems by done; lia.
Qed.

Lemma id_bytes_words n : 0 <= n < 2 ^ 60 -> Z.to_nat (id_bytes n / 8) = Z.to_nat n.
Proof. intros Hn. unfold id_bytes. rewrite (wrap_small 64 n), wmul_small by (unfold word; lia). now rewrite Z.div_mul. Qed.

Lemma to_int_small x : 0 <= x < 2 ^ 31 -> to_int x = x.
Proof.
  intros Hx. unfold to_int, to_signed. rewrite wrap_small by (unfold word; lia). destruct (Z.ltb_spec x (2 ^ (32 - 1))); [done|lia].
Qed.

(** Whether the memory asked for, if any, is there. *)
Definition granted (ask : bool) (b : list Z) (cells : Z) : bool :=
  if ask then match realloc b (id_bytes cells) with Some _ => true | None => false end else true.

(** Growing succeeds, with more room, exactly when there is memory; it fails
    without a change. *)
Lemma grow_spec b num : block_wf b -> 0 <= num -> b.[0] + num < 2 ^ 31 ->
  let '(b', r) := mdb_midl_grow b num in
  if granted true b (b.[0] + num + 2) then r = 0 /\ extends b b' /\ b'.[0] = b.[0] + num else r = ENOMEM /\ b' = b.
Proof.
  intros Hw Hn Hc. pose proof Hw as (H1 & H2 & H3). unfold mdb_midl_grow, granted.
  rewrite (wrap_small 64 num) by (unfold word; lia). rewrite (wadd_small 64 b.[0] num), wadd_small by lia.
  destruct (realloc b _) as [b1|] eqn:E; [|done].
  apply realloc_spec in E as [Hl Hi]. rewrite id_bytes_words in Hl, Hi by lia.
  assert (E0 : b1.[0] = b.[0]) by (apply Hi; lia). rewrite E0, wadd_small by lia.
  assert (G0 : (b1.[0 <- b.[0] + num]).[0] = b.[0] + num) by (rewrite list_lookup_total_insert_eq; lia).
  split; [done|]. split; [|done]. apply extends_intro; [done|rewrite G0; lia|rewrite G0, length_insert; lia|].
  intros i Hr. rewrite list_lookup_total_insert_ne by lia. apply Hi; lia.
Qed.

(** Writing [vs] behind the identifiers and adding to the count. *)
Lemma write_spec b (f : list Z -> list Z) vs : block_wf b -> b.[1] + Z.of_nat (length vs) <= b.[0] ->
  length (f b) = length b -> (f b).[0] = b.[0] -> (f b).[1] = b.[1] + Z.of_nat (length vs) ->
  (forall i, (i < Z.to_nat b.[1])%nat -> (f b).[S (S i)] = b.[S (S i)]) ->
  (forall i v, vs !! i = Some v -> (f b).[S (S (Z.to_nat b.[1] + i))] = v) ->
  block_wf (f b) /\ belems (f b) = belems b ++ vs.
Proof.
  intros Hw Hc Hl H0 H1 Hold Hnew. pose proof Hw as (W1 & W2 & W3).
  assert (Hw' : block_wf (f b)) by (repeat split; lia). split; [done|].
  apply list_eq. intros i. destruct (decide (i < Z.to_nat b.[1])%nat) as [Hi|Hi].
  - rewrite lookup_app_l by (rewrite length_belems; done). rewrite !belems_lookup by (done || lia).
    now rewrite Hold.
  - rewrite lookup_app_r by (rewrite length_belems by done; lia). rewrite length_belems by done.
    destruct (vs !! (i - Z.to_nat b.[1])%nat) as [v|] eqn:Ev.
    + pose proof (lookup_lt_Some _ _ _ Ev). rewrite belems_lookup by (done || lia). f_equal.
      rewrite <- (Hnew _ _ Ev). f_equal. lia.
    + apply lookup_ge_None_1 in Ev. apply lookup_ge_None_2. rewrite length_belems by done. lia.
Qed.

(** The room check in front of an append. *)
Lemma room_spec b (full : bool) num n : block_wf b -> 0 <= num -> b.[0] + num < 2 ^ 31 ->
  (full = false -> b.[1] + n <= b.[0]) -> n <= num \/ b.[1] + n <= b.[0] + num ->
  let '(b', r) := if full then mdb_midl_grow b num else (b, 0) in
  if granted full b (b.[0] + num + 2) then r = 0 /\ extends b b' /\ b'.[1] + n <= b'.[0] /\ b'.[0] = (if full then b.[0] + num else b.[0])
  else r = ENOMEM /\ b' = b.
Proof.
  intros Hw Hn Hc Hf Hr. pose proof Hw as (W1 & W2 & W3). destruct full.
  - pose proof (grow_spec b num Hw Hn Hc) as G. destruct (mdb_midl_grow b num) as [b1 r1].
    destruct (granted true b _); [|exact G]. destruct G as (-> & Hx & H0). split; [done|]. split; [done|].
    pose proof Hx as (_ & E1 & _). rewrite E1. split; [lia|done].
  - split; [done|]. split; [now apply extends_refl|]. split; [now apply Hf|done].
Qed.

(** The identifiers [vs] are added and the capacity is [cap]. *)
Definition added (b vs : list Z) (cap : Z) (b' : list Z) : Prop :=
  block_wf b' /\ belems b' = belems b ++ vs /\ b'.[0] = cap.

Lemma added_intro b b1 vs cap b' : belems b1 = belems b -> block_wf b' /\ belems b' = belems b1 ++ vs -> b'.[0] = cap -> added b vs cap b'.
Proof. intros E [H1 H2] H3. split; [done|]. split; [|done]. now rewrite <- E. Qed.

Lemma append_spec b id : block_wf b -> b.[0] + MDB_IDL_UM_MAX < 2 ^ 31 ->
  let full := b.[0] <=? b.[1] in
  let '(b', r) := mdb_midl_append b id in
  if granted full b (b.[0] + MDB_IDL_UM_MAX + 2) then r = 0 /\ added b [id] (if full then b.[0] + MDB_IDL_UM_MAX else b.[0]) b'
  else r = ENOMEM /\ b' = b.
Proof.
  intros Hw Hc. cbv zeta. unfold mdb_midl_append. assert (HM : MDB_IDL_UM_MAX = 131071) by reflexivity.
  pose proof (room_spec b (b.[0] <=? b.[1]) MDB_IDL_UM_MAX 1 Hw ltac:(lia) Hc) as R.
  destruct (if b.[0] <=? b.[1] then mdb_midl_grow _ _ else _) as [b1 r1].
  destruct (granted _ b _); destruct R as [-> R]; [intros Hf; apply Z.leb_gt in Hf; lia|lia| |intros Hf; apply Z.leb_gt in Hf; lia|lia|now subst b1].
  destruct R as ((Hw1 & E1 & Eb) & Hlt & E0). pose proof Hw1 as (W1 & W2 & W3). rewrite wadd_small by lia.
  rewrite list_lookup_total_insert_eq by lia. split; [done|]. rewrite <- E0.
  apply (added_intro _ _ _ _ _ Eb); [|rewrite !list_lookup_total_insert_ne by lia; done].
  apply (write_spec b1 (fun b1 => <[S (Z.to_nat (b1.[1] + 1)) := id]> (b1.[1 <- b1.[1] + 1])) [id]); try done; cbn [length]; try lia.
  - now rewrite !length_insert.
  - rewrite !list_lookup_total_insert_ne by lia. done.
  - rewrite list_lookup_total_insert_ne, list_lookup_total_insert_eq by lia. lia.
  - intros i Hi. rewrite !list_lookup_total_insert_ne by lia. done.
  - intros [|i] v Hv; [|now rewrite lookup_nil in Hv || discriminate]. injection Hv as <-.
    replace (S (S (Z.to_nat b1.[1] + 0))) with (S (Z.to_nat (b1.[1] + 1))) by lia.
    rewrite list_lookup_total_insert_eq; [done|]. rewrite length_insert. lia.
Qed.

(** Reading a block that was copied to. *)
Lemma blit_lookup (b : list Z) off src i : (off + length src <= length b)%nat ->
  (blit b off src).[i] = if decide (off <= i < off + length src)%nat then src.[i - off] else b.[i].
Proof.
  intros Hl. rewrite !list_lookup_total_alt. unfold blit.
  destruct (decide (i < off)%nat); [|destruct (decide (i < off + length src)%nat)].
  - rewrite decide_False by lia. rewrite lookup_app_l by (rewrite length_take; lia). now rewrite lookup_take_lt.
  - rewrite decide_True by lia. rewrite lookup_app_r by (rewrite length_take; lia). rewrite length_take.
    rewrite lookup_app_l by lia. now replace (off `min` length b)%nat with off by lia.
  - rewrite decide_False by lia. rewrite app_assoc, lookup_app_r by (rewrite length_app, length_take; lia).
    rewrite length_app, length_take, lookup_drop. do 2 f_equal. lia.
Qed.

Lemma append_list_spec b app : block_wf b -> idl_wf app -> b.[0] + app.[0] < 2 ^ 31 ->
  let full := b.[0] <=? b.[1] + app.[0] in
  let '(b', r) := mdb_midl_append_list b app in
  if granted full b (b.[0] + app.[0] + 2) then r = 0 /\ added b (elems app) (if full then b.[0] + app.[0] else b.[0]) b'
  else r = ENOMEM /\ b' = b.
Proof.
  intros Hw Happ Hc. pose proof Happ as [Ha La]. pose proof Hw as (W1 & W2 & W3). cbv zeta. unfold mdb_midl_append_list.
  rewrite (wadd_small 64 b.[1]), to_int_small by lia.
  pose proof (room_spec b (b.[0] <=? b.[1] + app.[0]) app.[0] app.[0] Hw (proj1 Ha) Hc) as R.
  destruct (if b.[0] <=? _ then mdb_midl_grow _ _ else _) as [b1 r1].
  destruct (granted _ b _); destruct R as [-> R]; [intros Hf; apply Z.leb_gt in Hf; lia|lia| |intros Hf; apply Z.leb_gt in Hf; lia|lia|now subst b1].
  destruct R as ((Hw1 & E1 & Eb) & Hlt & E0). pose proof Hw1 as (V1 & V2 & V3). split; [done|]. rewrite <- E0.
  fold (elems app). assert (Le := length_elems app Happ).
  assert (HL : (S (Z.to_nat b1.[1] + 1) + length (elems app) <= length b1)%nat) by lia.
  assert (B1 : (blit b1 (S (Z.to_nat b1.[1] + 1)) (elems app)).[1] = b1.[1]).
  { rewrite blit_lookup by done. now rewrite decide_False by lia. }
  rewrite B1, wadd_small by lia.
  apply (added_intro _ _ _ _ _ Eb); [|rewrite list_lookup_total_insert_ne, blit_lookup, decide_False by lia; done].
  apply (write_spec b1 (fun b1 => <[1%nat := b1.[1] + app.[0]]> (blit b1 (S (Z.to_nat b1.[1] + 1)) (elems app)))); try done; try lia.
  - now rewrite length_insert, length_blit.
  - rewrite list_lookup_total_insert_ne, blit_lookup, decide_False by lia. done.
  - rewrite list_lookup_total_insert_eq by (rewrite length_blit; lia). lia.
  - intros i Hi. rewrite list_lookup_total_insert_ne, blit_lookup, decide_False by lia. done.
  - intros i v Hv. pose proof (lookup_lt_Some _ _ _ Hv). rewrite list_lookup_total_insert_ne, blit_lookup, decide_True by lia.
    replace (S (S (Z.to_nat b1.[1] + i)) - S (Z.to_nat b1.[1] + 1))%nat with i by lia.
    now apply list_lookup_total_correct.
Qed.

Lemma length_range_loop n : forall b len id, length (range_loop b len n id) = length b.
Proof. induction n as [|n IH]; intros; cbn [range_loop]; [done|]. now rewrite IH, length_insert. Qed.

(** The identifiers of a range, the highest first. *)
Lemma range_loop_lookup n : forall b len id k, 0 <= id -> id + Z.of_nat n <= 2 ^ 64 -> (S (len + n) < length b)%nat ->
  (range_loop b len n id).[k] =
  if decide (S len < k <= S (len + n))%nat then id + Z.of_nat (S (len + n) - k) else b.[k].
Proof.
  induction n as [|n IH]; intros b len id k H0 Hid Hl; cbn [range_loop].
  { rewrite decide_False by lia. done. }
  destruct (decide (n = 0%nat)) as [->|].
  - cbn [range_loop]. destruct (decide (k = S (len + 1))) as [->|].
    + rewrite decide_True, list_lookup_total_insert_eq by lia. lia.
    + rewrite decide_False, list_lookup_total_insert_ne by lia. done.
  - rewrite wadd_small, IH by (rewrite ?length_insert; lia). destruct (decide (k = S (len + S n))) as [->|].
    + rewrite decide_False, decide_True, list_lookup_total_insert_eq by lia. lia.
    + rewrite list_lookup_total_insert_ne by lia. case_decide.
      * rewrite decide_True by lia. lia.
      * rewrite decide_False by lia. done.
Qed.

Definition range (id : Z) (n : nat) : list Z := (fun i => id + Z.of_nat (n - 1 - i)) <$> seq 0 n.

Lemma append_range_spec b id n : block_wf b -> 0 <= n -> 0 <= id -> id + n <= 2 ^ 64 ->
  b.[0] + Z.lor n MDB_IDL_UM_MAX < 2 ^ 31 ->
  let full := b.[0] <? b.[1] + n in
  let '(b', r) := mdb_midl_append_range b id n in
  if granted full b (b.[0] + Z.lor n MDB_IDL_UM_MAX + 2) then
    r = 0 /\ added b (range id (Z.to_nat n)) (if full then b.[0] + Z.lor n MDB_IDL_UM_MAX else b.[0]) b'
  else r = ENOMEM /\ b' = b.
Proof.
  intros Hw Hn Hid Hid' Hc. pose proof Hw as (W1 & W2 & W3). cbv zeta. unfold mdb_midl_append_range.
  assert (Hlor : n <= Z.lor n MDB_IDL_UM_MAX).
  { pose proof (Z.add_lor_land n MDB_IDL_UM_MAX) as E. pose proof (Z.land_nonneg n MDB_IDL_UM_MAX).
    assert (Z.land n MDB_IDL_UM_MAX <= MDB_IDL_UM_MAX); [|lia]. rewrite Z.land_comm.
    unfold MDB_IDL_UM_MAX, MDB_IDL_UM_SIZE, MDB_IDL_LOGN. change (2 ^ (16 + 1) - 1) with (Z.ones 17).
    rewrite Z.land_comm, Z.land_ones by lia. pose proof (Z.mod_pos_bound n (2 ^ 17) ltac:(lia)). change (Z.ones 17) with (2 ^ 17 - 1). lia. }
  rewrite (wadd_small 64 b.[1] n), to_int_small by lia.
  pose proof (room_spec b (b.[0] <? b.[1] + n) (Z.lor n MDB_IDL_UM_MAX) n Hw) as R.
  destruct (if b.[0] <? _ then mdb_midl_grow _ _ else _) as [b1 r1].
  specialize (R ltac:(lia) Hc ltac:(intros Hf; apply Z.ltb_ge in Hf; lia) ltac:(lia)).
  destruct (granted _ b _); destruct R as [-> R]; [|now subst b1].
  destruct R as ((Hw1 & E1 & Eb) & Hlt & E0). pose proof Hw1 as (V1 & V2 & V3). split; [done|]. rewrite <- E0, <- E1.
  assert (Lr : length (range id (Z.to_nat n)) = Z.to_nat n) by (unfold range; now rewrite length_fmap, length_seq).
  assert (Hb : (S (Z.to_nat b1.[1] + Z.to_nat n) < length (b1.[1 <- (b1.[1] + n)%Z]))%nat) by (rewrite length_insert; lia).
  apply (added_intro _ _ _ _ _ Eb); [|rewrite range_loop_lookup, decide_False, list_lookup_total_insert_ne by lia; done].
  apply (write_spec b1 (fun b1 => range_loop (b1.[1 <- b1.[1] + n]) (Z.to_nat b1.[1]) (Z.to_nat n) id)); try done; try lia.
  - now rewrite length_range_loop, length_insert.
  - rewrite range_loop_lookup, decide_False, list_lookup_total_insert_ne by lia. done.
  - rewrite range_loop_lookup, decide_False, list_lookup_total_insert_eq by lia. lia.
  - intros i Hi. rewrite range_loop_lookup, decide_False, list_lookup_total_insert_ne by lia. done.
  - intros i v Hv. pose proof (lookup_lt_Some _ _ _ Hv) as Hi. rewrite Lr in Hi.
    rewrite range_loop_lookup, decide_True by lia. unfold range in Hv. rewrite list_lookup_fmap, lookup_seq_lt in Hv by done.
    injection Hv as <-. lia.
Qed.

Lemma need_round x : 0 <= x < 2 ^ 32 -> Z.land x 0xffffff00 = x - x mod 256.
Proof.
  intros Hx. apply Z.bits_inj'. intros i Hi. rewrite Z.land_spec.
  assert (E : x - x mod 256 = Z.shiftl (Z.shiftr x 8) 8).
  { rewrite Z.shiftl_mul_pow2, Z.shiftr_div_pow2 by lia. change (2 ^ 8) with 256.
    pose proof (Z.div_mod x 256 ltac:(lia)). lia. }
  rewrite E. change 0xffffff00 with (Z.shiftl (Z.ones 24) 8). destruct (Z.lt_ge_cases i 8).
  - rewrite !Z.shiftl_spec_low by lia. apply andb_false_r.
  - rewrite !Z.shiftl_spec_high, Z.shiftr_spec by lia. replace (i - 8 + 8) with i by lia.
    destruct (Z.lt_ge_cases i 32).
    + rewrite Z.ones_spec_low by lia. apply andb_true_r.
    + rewrite (word_bit_high 32 x i) by (unfold word; lia). done.
Qed.

(** The room that [mdb_midl_need] asks for: a quarter more, in whole blocks of
    256 cells, of which two are the capacity and the count. *)
Definition needed (q : Z) : Z := (q + q / 4 + 258) / 256 * 256.

Lemma need_spec b num : block_wf b -> 0 <= num -> b.[1] + num < 2 ^ 30 ->
  let full := b.[0] <? b.[1] + num in
  let '(b', r) := mdb_midl_need b num in
  if granted full b (needed (b.[1] + num)) then
    r = 0 /\ extends b b' /\ b'.[1] + num <= b'.[0] /\ b'.[0] = (if full then needed (b.[1] + num) - 2 else b.[0])
  else r = ENOMEM /\ b' = b.
Proof.
  intros Hw Hn Hc. cbv zeta. rewrite (Z.add_comm b.[1] num). pose proof Hw as (W1 & W2 & W3). unfold mdb_midl_need. rewrite wrap_small by (unfold word; lia).
  destruct (Z.ltb_spec b.[0] (num + b.[1])) as [Hg|Hg].
  2:{ cbn [granted]. split; [done|]. split; [now apply extends_refl|]. split; [lia|done]. }
  set (q := num + b.[1]) in *. rewrite (wshr_div q) by lia. change (2 ^ 2) with 4.
  assert (Bq : 0 <= q / 4 <= q) by (split; [apply Z.div_pos; lia|apply Z.div_le_upper_bound; lia]).
  assert (Bq4 : q / 4 <= 2 ^ 28) by (apply Z.div_le_upper_bound; lia).
  rewrite (wadd_small 32 q), (wadd_small 32 256), wadd_small by lia. rewrite need_round by lia. change (256 + 2) with 258.
  assert (Em : q + q / 4 + 258 - (q + q / 4 + 258) mod 256 = needed q).
  { unfold needed. pose proof (Z.div_mod (q + q / 4 + 258) 256 ltac:(lia)). lia. }
  rewrite Em. assert (Bm : q + 3 <= needed q <= q + q / 4 + 258).
  { rewrite <- Em. pose proof (Z.mod_pos_bound (q + q / 4 + 258) 256 ltac:(lia)). lia. }
  set (m := needed q) in *. clearbody m. unfold granted. rewrite wsub_small by lia.
  destruct (realloc b (id_bytes m)) as [b1|] eqn:E; [|done].
  apply realloc_spec in E as [Hl Hi]. rewrite id_bytes_words in Hl, Hi by lia.
  assert (G0 : (b1.[0 <- m - 2]).[0] = m - 2) by (rewrite list_lookup_total_insert_eq; lia).
  split; [done|]. split.
  - apply extends_intro; [done|rewrite G0; lia|rewrite G0, length_insert; lia|].
    intros i Hr. rewrite list_lookup_total_insert_ne by lia. apply Hi; lia.
  - rewrite G0, list_lookup_total_insert_ne by lia. rewrite Hi by lia. split; [lia|done].
Qed.

Lemma alloc_spec num : 0 <= num < 2 ^ 31 - 2 ->
  match mdb_midl_alloc num with
  | Some b => block_wf b /\ b.[0] = num /\ belems b = []
  | None => malloc (id_bytes (num + 2)) = None
  end.
Proof.
  intros Hn. unfold mdb_midl_alloc. rewrite (wrap_small 64 num) by (unfold word; lia).
  destruct (malloc _) as [b|] eqn:E; [|done]. apply malloc_spec in E. rewrite id_bytes_words in E by lia.
  assert (G1 : (b.[0 <- num].[1 <- 0]).[1] = 0) by (rewrite list_lookup_total_insert_eq; rewrite ?length_insert; lia).
  assert (G0 : (b.[0 <- num].[1 <- 0]).[0] = num).
  { rewrite list_lookup_total_insert_ne, list_lookup_total_insert_eq by lia. done. }
  split; [|split; [done|]].
  - split; [lia|]. split; [lia|]. rewrite !length_insert, G0. lia.
  - unfold belems. rewrite G1. done.
Qed.

Lemma shrink_spec b : block_wf b -> b.[1] <= MDB_IDL_UM_MAX -> extends b (mdb_midl_shrink b).
Proof.
  intros Hw Hc. unfold mdb_midl_shrink. assert (HM : MDB_IDL_UM_MAX = 131071) by reflexivity.
  pose proof Hw as (W1 & W2 & W3). destruct (Z.ltb_spec MDB_IDL_UM_MAX b.[0]) as [Hg|]; [|now apply extends_refl].
  destruct (realloc b _) as [b1|] eqn:E; [|now apply extends_refl]. apply realloc_spec in E as [Hl Hi]. rewrite id_bytes_words in Hl, Hi by lia.
  assert (G0 : (b1.[0 <- MDB_IDL_UM_MAX]).[0] = MDB_IDL_UM_MAX) by (rewrite list_lookup_total_insert_eq; lia).
  apply extends_intro; [done|rewrite G0; lia|rewrite G0, length_insert; lia|].
  intros i Hr. rewrite list_lookup_total_insert_ne by lia. apply Hi; lia.
Qed.

End Allocated.

(** ** What the lists guarantee *)

(** C35: In a descending list [mdb_midl_search] returns the first position whose
    identifier is not above [id], one past the end when there is none; [id] is
    in the list exactly when it is at that position. *)
Theorem mdb_midl_search_correct (ids : list Z) (id : Z) : idl_wf ids -> descending ids ->
  let x := Midl.mdb_midl_search ids id in
  (1 <= x <= Z.to_nat ids.[0] + 1)%nat /\
  (forall k, (1 <= k < x)%nat -> id < ids.[k]) /\ (forall k, (x <= k <= Z.to_nat ids.[0])%nat -> ids.[k] <= id) /\
  (id ∈ elems ids <-> (x <= Z.to_nat ids.[0])%nat /\ ids.[x] = id).
Proof.
  intros Hw Hd. destruct (midl_search_spec ids id Hw Hd) as (S1 & S2 & S3). cbv zeta.
  set (x := Midl.mdb_midl_search ids id) in *. clearbody x. split; [done|]. split; [done|]. split; [done|].
  rewrite elem_of_elems by done. split.
  - intros (k & Hk & <-). destruct (Nat.lt_ge_cases k x) as [Hkx|Hkx]; [specialize (S2 k); lia|].
    split; [lia|]. destruct (decide (k = x)) as [->|]; [done|].
    pose proof (Hd x k ltac:(lia) ltac:(lia)). pose proof (S3 x ltac:(lia)). lia.
  - intros [Hx <-]. exists x. split; [lia|done].
Qed.

Lemma mdb_midl_search_correct_witness :
  Midl.mdb_midl_search [5; 80; 41; 40; 7; 2] 9 = 4%nat /\ Midl.mdb_midl_search [5; 80; 41; 40; 7; 2] 41 = 2%nat /\
  (9 ∈ elems [5; 80; 41; 40; 7; 2] <-> (4 <= 5)%nat /\ [5; 80; 41; 40; 7; 2].[4] = 9).
Proof.
  split; [reflexivity|]. split; [reflexivity|].
  refine (proj2 (proj2 (proj2 (mdb_midl_search_correct [5; 80; 41; 40; 7; 2] 9 _ _)))).
  - split; vm_compute; [split; congruence|lia].
  - intros k k' Hk Hk'. change (k' <= 5)%nat in Hk'.
    assert (Ek : k = 1%nat \/ k = 2%nat \/ k = 3%nat \/ k = 4%nat) by lia.
    assert (Ek' : k' = 2%nat \/ k' = 3%nat \/ k' = 4%nat \/ k' = 5%nat) by lia.
    repeat destruct Ek as [Ek|Ek]; repeat destruct Ek' as [Ek'|Ek']; subst; (lia || reflexivity).
Defined.

(** C36: [mdb_mid2l_insert] and [mdb_mid2l_append] on every branch.  An insertion
    refuses an identifier that is there (-1) and a full list (-2) and changes
    nothing; otherwise the pair is added and the list stays ascending.  An
    append refuses a full list and adds the pair at the end otherwise. *)
Theorem mdb_mid2l_correct (ids : list Midl.MDB_ID2) (id : Midl.MDB_ID2) : id2l_wf ids -> ascending ids ->
  (let '(ids', r) := Midl.mdb_mid2l_insert ids id in
   if decide (Midl.mid id ∈ Midl.mid <$> elems2 ids) then r = -1 /\ ids' = ids
   else if decide (Midl.mid ids.[0] = Midl.MDB_IDL_UM_MAX) then r = -2 /\ ids' = ids
   else r = 0 /\ id2l_wf ids' /\ ascending ids' /\ elems2 ids' ≡ₚ id :: elems2 ids) /\
  (let '(ids', r) := Midl.mdb_mid2l_append ids id in
   if decide (Midl.mid ids.[0] = Midl.MDB_IDL_UM_MAX) then r = -2 /\ ids' = ids
   else r = 0 /\ id2l_wf ids' /\ elems2 ids' = elems2 ids ++ [id]).
Proof. intros Hw Ha. split; [exact (insert_spec ids id Hw Ha)|exact (append2_spec ids id Hw)]. Qed.

Lemma mdb_mid2l_correct_witness :
  let pair m p := {| Midl.mid := m; Midl.mptr := p |} in
  let ids := pair 2 0 :: pair 5 1 :: pair 9 2 :: replicate (Z.to_nat 131069) (pair 0 0) in
  id2l_wf ids /\ ascending ids /\
  exists ids', Midl.mdb_mid2l_append ids (pair 12 3) = (ids', 0) /\ elems2 ids' = elems2 ids ++ [pair 12 3].
Proof.
  cbv zeta. set (R := replicate (Z.to_nat 131069) _).
  assert (HR : length R = Z.to_nat 131069) by apply length_replicate. clearbody R.
  match goal with |- id2l_wf ?i /\ _ => set (ids := i) end.
  assert (Hw : id2l_wf ids).
  { split; [vm_compute; split; congruence|]. subst ids. cbn [length]. rewrite HR, UM_MAX_val. lia. }
  assert (Ha : ascending ids).
  { intros k k' Hk Hk'. change (k' <= 2)%nat in Hk'. assert (k = 1 /\ k' = 2)%nat as [-> ->] by lia. reflexivity. }
  split; [exact Hw|]. split; [exact Ha|].
  pose proof (proj2 (mdb_mid2l_correct ids {| Midl.mid := 12; Midl.mptr := 3 |} Hw Ha)) as H.
  eexists. split; [reflexivity|exact (proj2 (proj2 H))].
Defined.

(** Blocks of zeroed words, never refused. *)
Definition zeroed : Allocator.
Proof.
refine {| malloc n := Some (replicate (Z.to_nat (n / 8)) 0);
  realloc b n := Some (take (Z.to_nat (n / 8)) b ++ replicate (Z.to_nat (n / 8) - length b) 0) |}.
- intros n b [= <-]. apply length_replicate.
- intros b n b' [= <-]. split; [rewrite length_app, length_take, length_replicate; lia|].
  intros i Hi Hn. rewrite lookup_total_app_l by (rewrite length_take; lia).
  rewrite !list_lookup_total_alt. now rewrite lookup_take_lt.
Defined.

(** C37: Adding to an allocated list.  [mdb_midl_append], [mdb_midl_append_list]
    and [mdb_midl_append_range] ask for memory when the block is full and only
    then, put the identifiers behind those there are, a range with its highest
    first, and set the new capacity; [mdb_midl_need] makes room for [n] more and
    keeps the identifiers.  They return [ENOMEM], and leave the block as it was,
    exactly when they ask for memory and [realloc] has none. *)
Theorem mdb_midl_append_correct {A : Allocator} (b app : list Z) (id n : Z) :
  block_wf b -> idl_wf app -> 0 <= n -> 0 <= id -> id + n <= 2 ^ 64 -> b.[1] + n < 2 ^ 30 ->
  b.[0] + Midl.MDB_IDL_UM_MAX < 2 ^ 31 -> b.[0] + app.[0] < 2 ^ 31 -> b.[0] + Z.lor n Midl.MDB_IDL_UM_MAX < 2 ^ 31 ->
  let adds (full : bool) more vs '(b', r) :=
    if granted full b (b.[0] + more + 2) then r = 0 /\ added b vs (if full then b.[0] + more else b.[0]) b'
    else r = Midl.ENOMEM /\ b' = b in
  adds (b.[0] <=? b.[1]) Midl.MDB_IDL_UM_MAX [id] (Midl.mdb_midl_append b id) /\
  adds (b.[0] <=? b.[1] + app.[0]) app.[0] (elems app) (Midl.mdb_midl_append_list b app) /\
  adds (b.[0] <? b.[1] + n) (Z.lor n Midl.MDB_IDL_UM_MAX) (range id (Z.to_nat n)) (Midl.mdb_midl_append_range b id n) /\
  (let full := b.[0] <? b.[1] + n in
   let '(b', r) := Midl.mdb_midl_need b n in
   if granted full b (needed (b.[1] + n)) then
     r = 0 /\ extends b b' /\ b'.[1] + n <= b'.[0] /\ b'.[0] = (if full then needed (b.[1] + n) - 2 else b.[0])
   else r = Midl.ENOMEM /\ b' = b).
Proof.
  intros Hw Happ Hn Hid Hidn H0 H1 H2 H3. cbv zeta. pose proof (append_spec b id Hw H1) as P1.
  pose proof (append_list_spec b app Hw Happ H2) as P2. pose proof (append_range_spec b id n Hw Hn Hid Hidn H3) as P3.
  pose proof (need_spec b n Hw Hn H0) as P4. cbv zeta in P1, P2, P3, P4.
  destruct (Midl.mdb_midl_append b id), (Midl.mdb_midl_append_list b app), (Midl.mdb_midl_append_range b id n).
  split; [exact P1|]. split; [exact P2|]. split; [exact P3|exact P4].
Qed.

(** A full block that grows, and the same block without memory. *)
Definition exhausted : Allocator.
Proof. refine {| malloc _ := None; realloc _ _ := None |}; intros; discriminate. Defined.

Lemma mdb_midl_append_correct_witness :
  let b := [2; 2; 90; 80] in
  (let '(b', r) := Midl.mdb_midl_append (A := zeroed) b 31 in r = 0 /\ belems b' = [90; 80; 31] /\ b'.[0] = 131073) /\
  Midl.mdb_midl_append (A := exhausted) b 31 = (b, Midl.ENOMEM).
Proof.
  cbv zeta. set (b := [2; 2; 90; 80]). assert (Hw : block_wf b).
  { split; [vm_compute; split; congruence|]. split; [vm_compute; congruence|reflexivity]. }
  assert (Ha : idl_wf [1; 70]) by (split; [vm_compute; split; congruence|vm_compute; lia]).
  pose proof (fun A => mdb_midl_append_correct (A := A) b [1; 70] 31 2 Hw Ha ltac:(lia) ltac:(lia) ltac:(lia)
    eq_refl eq_refl eq_refl eq_refl) as H. cbv zeta in H. split.
  - specialize (H zeroed). apply proj1 in H. destruct (Midl.mdb_midl_append b 31) as [b' r]. destruct H as [H1 (_ & H2 & H3)].
    split; [exact H1|]. split; [exact H2|exact H3].
  - specialize (H exhausted). apply proj1 in H. destruct (Midl.mdb_midl_append b 31) as [b' r]. destruct H as [-> ->]. reflexivity.
Defined.
