(* ===== verification/MidlSort.v ===== *)
(** * MidlSort: merging and sorting identifier lists

    [mdb_midl_xmerge] merges a sorted list into another from the back, with a
    sentinel in cell 0; [mdb_midl_sort] is a quicksort with an explicit stack
    that leaves short segments to an insertion sort.  Both are shown to return
    a sorted permutation of what they were given, within the bounds of their
    arrays. *)

From stdpp Require Import base list numbers sorting relations.
From Stdlib Require Import ZArith Lia.
From S2P Require Import Prelude Machine Midl.

Local Open Scope Z_scope.
Local Open Scope buf_scope.

(** Sorted in descending order, as the lists of this code are. *)
Notation sorted := (StronglySorted (fun x y : Z => y <= x)).

(** ** Merging *)

Section Merge.
Import Midl.

Lemma lookup_end (s : Z) P l : (s :: P ++ l).[length P] = (s :: P).[length P].
Proof.
  destruct (s :: P) eqn:E; [discriminate|]. rewrite <- E. rewrite app_comm_cons.
  rewrite lookup_total_app_l; [done|]. cbn. lia.
Qed.

Lemma lookup_snoc (s : Z) P x : (s :: P ++ [x]).[length (P ++ [x])] = x.
Proof.
  rewrite length_app, Nat.add_comm, app_comm_cons, lookup_total_app_r by (cbn; lia).
  now replace (length [x] + length P - length (s :: P))%nat with 0%nat by (cbn; lia).
Qed.

(** A write to the last cell of a gap. *)
Lemma write_gap (s : Z) P g0 y T v :
  <[(length P + length (g0 ++ [y]))%nat := v]> (s :: P ++ (g0 ++ [y]) ++ T) = s :: P ++ g0 ++ v :: T.
Proof.
  replace (length P + length (g0 ++ [y]))%nat with (length (s :: P ++ g0) + 0)%nat
    by (cbn; rewrite !length_app; cbn; lia).
  replace (s :: P ++ (g0 ++ [y]) ++ T) with ((s :: P ++ g0) ++ y :: T) by (cbn; now rewrite <- !app_assoc).
  rewrite insert_app_r. cbn. now rewrite <- app_assoc.
Qed.

Lemma xmerge_shift_snoc idl old m (P : list Z) x k :
  xmerge_shift idl old m (length (P ++ [x])) k =
  if old <? m then xmerge_shift (idl.[k <- old]) (idl.[k <- old]).[length P] m (length P) (k - 1)
  else (idl, old, length (P ++ [x]), k).
Proof. rewrite length_app, Nat.add_1_r. cbn [xmerge_shift]. reflexivity. Qed.

(** The identifiers below [m] move up behind the gap. *)
Lemma xmerge_shift_spec s m gap : m <= s -> gap <> [] -> forall P T,
  exists P1 P2 gap', P = P1 ++ P2 /\ length gap' = length gap /\ Forall (fun x => x < m) P2 /\
    m <= (s :: P1).[length P1] /\
    xmerge_shift (s :: P ++ gap ++ T) (s :: P).[length P] m (length P) (length P + length gap) =
    (s :: P1 ++ gap' ++ P2 ++ T, (s :: P1).[length P1], length P1, (length P1 + length gap)%nat).
Proof.
  intros Hs Hg P. revert gap Hg. induction P as [|x P IH] using rev_ind; intros gap Hg T.
  - exists [], [], gap. cbn [length app]. repeat split; try done.
    cbn. destruct (Z.ltb_spec s m); [lia|done].
  - rewrite lookup_snoc. destruct (Z.ltb_spec x m) as [Hx|Hx].
    + destruct gap as [|y g0 _] using rev_ind; [done|].
      rewrite xmerge_shift_snoc. destruct (Z.ltb_spec x m) as [_|]; [|lia].
      rewrite write_gap. rewrite <- (app_assoc P). rewrite lookup_end.
      destruct (IH (x :: g0) ltac:(done) (x :: T)) as (P1 & P2 & gap' & -> & Hl & Hf & Hm & E).
      exists P1, (P2 ++ [x]), gap'. split; [now rewrite app_assoc|]. split; [rewrite Hl, length_app; cbn; lia|].
      split; [apply Forall_app; split; [done|now constructor]|]. split; [done|].
      replace (length ((P1 ++ P2) ++ [x]) + length (g0 ++ [y]) - 1)%nat with (length (P1 ++ P2) + length (x :: g0))%nat
        by (rewrite !length_app; cbn; lia).
      change ([x] ++ g0 ++ x :: T) with ((x :: g0) ++ x :: T). rewrite E.
      rewrite <- (app_assoc P2). cbn [app]. replace (length (g0 ++ [y])) with (length (x :: g0)) by (rewrite length_app; cbn; lia).
      reflexivity.
    + exists (P ++ [x]), [], gap. rewrite app_nil_r, lookup_snoc. repeat split; try done.
      rewrite xmerge_shift_snoc. destruct (Z.ltb_spec x m); [lia|done].
Qed.

Lemma sorted_ge_last s P m : sorted P -> m <= s -> m <= (s :: P).[length P] -> Forall (fun x => m <= x) P.
Proof.
  intros HP Hs Hm. destruct P as [|x P _] using rev_ind; [constructor|]. rewrite lookup_snoc in Hm.
  apply StronglySorted_app in HP as (H1 & _ & _). apply Forall_app. split; [|now constructor].
  apply Forall_forall. intros y Hy. specialize (H1 y x Hy ltac:(left)). cbv beta in H1. lia.
Qed.

(** The loop fills the gap: the list up to [T] becomes the merge. *)
Lemma xmerge_loop_spec merge s i : forall P gap T,
  length gap = i -> (i < length merge)%nat -> sorted P -> sorted (slice merge 1 i) ->
  (forall k, (1 <= k <= i)%nat -> merge.[k] <= s) ->
  exists L, xmerge_loop (s :: P ++ gap ++ T) merge i (length P) (length P + length gap) (s :: P).[length P] = s :: L ++ T /\
    L ≡ₚ P ++ slice merge 1 i /\ sorted L.
Proof.
  induction i as [|i IH]; intros P gap T Hg Hl HP HM Hs.
  { exists P. destruct gap; [|done]. rewrite app_nil_r. done. }
  assert (EM : slice merge 1 (S i) = slice merge 1 i ++ [merge.[S i]]).
  { unfold slice. rewrite (take_S_r _ i merge.[S i]); [done|]. rewrite lookup_drop. apply list_lookup_lookup_total_lt. lia. }
  rewrite EM in HM |- *. set (m := merge.[S i]) in *.
  apply StronglySorted_app in HM as (HM1 & HM2 & _).
  destruct (xmerge_shift_spec s m gap (Hs (S i) ltac:(lia)) ltac:(intros ->; discriminate) P T)
    as (P1 & P2 & gap' & -> & Hgl & HP2 & Hlast & E).
  cbn [xmerge_loop]. fold m. rewrite E. clear E.
  apply StronglySorted_app in HP as (Hx & HP1 & HP2s).
  destruct gap' as [|y g0 _] using rev_ind; [rewrite Hg in Hgl; discriminate|].
  rewrite <- Hgl, write_gap.
  assert (Lg : length g0 = i) by (rewrite length_app in Hgl; cbn in Hgl; lia).
  replace (length P1 + length (g0 ++ [y]) - 1)%nat with (length P1 + length g0)%nat by (rewrite length_app; cbn; lia).
  destruct (IH P1 g0 (m :: P2 ++ T) Lg ltac:(lia) HP1 HM2 ltac:(intros; apply Hs; lia)) as (L & -> & HL & HLs).
  exists (L ++ m :: P2). split; [now rewrite <- app_assoc|]. split.
  - rewrite HL. rewrite <- !app_assoc. f_equiv. now rewrite (Permutation_app_comm P2), <- app_assoc.
  - apply StronglySorted_app. split; [|split; [done|]].
    + intros a b Ha Hb. rewrite HL in Ha.
      assert (Hma : m <= a).
      { apply elem_of_app in Ha as [Ha|Ha]; [|apply (HM1 a m Ha); left].
        pose proof (sorted_ge_last s P1 m HP1 (Hs (S i) ltac:(lia)) Hlast) as HF. rewrite Forall_forall in HF. now apply HF. }
      apply elem_of_cons in Hb as [->|Hb]; [done|]. rewrite Forall_forall in HP2. specialize (HP2 b Hb). cbv beta in HP2. lia.
    + apply StronglySorted_cons. split; [|done]. eapply Forall_impl; [exact HP2|]. cbv beta. lia.
Qed.

(** An array as its count, its identifiers, a gap of [i] cells and the rest. *)
Lemma idl_split idl i : idl_wf idl -> (Z.to_nat idl.[0] + i < length idl)%nat ->
  exists gap, idl = idl.[0] :: elems idl ++ gap ++ drop (S (Z.to_nat idl.[0]) + i) idl /\ length gap = i.
Proof.
  intros [_ Hl] Hi. exists (slice idl (S (Z.to_nat idl.[0])) i).
  split; [|apply length_slice; lia]. unfold elems, slice. destruct idl as [|c idl]; [cbn in Hi; lia|].
  change ((c :: idl).[0]) with c. cbn [drop Nat.add]. f_equal.
  rewrite <- drop_drop, take_drop. now rewrite take_drop.
Qed.

Lemma elems_cons (c : Z) L T : Z.to_nat c = length L -> elems (c :: L ++ T) = L.
Proof. intros Hc. unfold elems, slice. change ((c :: L ++ T).[0]) with c. rewrite Hc. apply take_app_length. Qed.

End Merge.

(** ** Sorting *)

(** *** Exchanges within a segment *)

Section Swaps.
Import Midl.

Lemma swap_lookup ids x y z : (x < length ids)%nat -> (y < length ids)%nat ->
  (MIDL_SWAP ids x y).[z] = if decide (z = y) then ids.[x] else if decide (z = x) then ids.[y] else ids.[z].
Proof.
  intros Hx Hy. unfold MIDL_SWAP. destruct (decide (z = y)) as [->|].
  - rewrite list_lookup_total_insert_eq; [done|]. now rewrite length_insert.
  - rewrite list_lookup_total_insert_ne by done. destruct (decide (z = x)) as [->|].
    + now rewrite list_lookup_total_insert_eq.
    + now rewrite list_lookup_total_insert_ne.
Qed.

Lemma length_swap ids x y : length (MIDL_SWAP ids x y) = length ids.
Proof. unfold MIDL_SWAP. now rewrite !length_insert. Qed.

(** Reached by exchanges of cells of the segment [l .. r]. *)
Inductive swaps (l r : nat) : list Z -> list Z -> Prop :=
| swaps_refl ids : swaps l r ids ids
| swaps_step x y ids ids' : (l <= x <= r)%nat -> (l <= y <= r)%nat -> (r < length ids)%nat ->
    swaps l r (MIDL_SWAP ids x y) ids' -> swaps l r ids ids'.

Lemma swaps_trans l r ids1 ids2 ids3 : swaps l r ids1 ids2 -> swaps l r ids2 ids3 -> swaps l r ids1 ids3.
Proof. induction 1; intros; [done|]. apply swaps_step with x y; auto. Qed.

Lemma swaps_one l r ids x y : (l <= x <= r)%nat -> (l <= y <= r)%nat -> (r < length ids)%nat ->
  swaps l r ids (MIDL_SWAP ids x y).
Proof. intros. apply swaps_step with x y; auto using swaps_refl. Qed.

Lemma swaps_wider l r l' r' ids ids' : swaps l r ids ids' -> (l' <= l)%nat -> (r <= r')%nat -> (r' < length ids)%nat ->
  swaps l' r' ids ids'.
Proof.
  induction 1; intros; [constructor|]. apply swaps_step with x y; [lia|lia|done|].
  apply IHswaps; [done|done|]. now rewrite length_swap.
Qed.

Lemma swaps_length l r ids ids' : swaps l r ids ids' -> length ids' = length ids.
Proof. induction 1; [done|]. now rewrite IHswaps, length_swap. Qed.

Lemma swaps_outside l r ids ids' z : swaps l r ids ids' -> (z < l)%nat \/ (r < z)%nat -> ids'.[z] = ids.[z].
Proof.
  induction 1; intros Hz; [done|]. rewrite IHswaps by done. rewrite swap_lookup by lia.
  rewrite !decide_False by lia. done.
Qed.

(** What holds of every identifier of the segment still does. *)
Lemma swaps_forall (Q : Z -> Prop) l r ids ids' : swaps l r ids ids' ->
  (forall z, (l <= z <= r)%nat -> Q ids.[z]) -> forall z, (l <= z <= r)%nat -> Q ids'.[z].
Proof.
  induction 1; intros HQ; [done|]. apply IHswaps. intros z Hz. rewrite swap_lookup by lia.
  repeat case_decide; auto.
Qed.

Lemma swaps_perm l r ids ids' : swaps l r ids ids' -> ids' ≡ₚ ids.
Proof.
  induction 1 as [|x y ids ids' Hx Hy Hr _ IH]; [done|]. rewrite IH.
  apply Permutation_insert_swap; apply list_lookup_lookup_total_lt; lia.
Qed.

(** *** Insertion sort *)

Definition sorted_seg (ids : list Z) (l r : nat) : Prop :=
  forall x y, (l <= x)%nat -> (x < y)%nat -> (y <= r)%nat -> ids.[y] <= ids.[x].

(** Sorted up to [r], but for what may be too far to the right at [p]. *)
Definition sorted_but (ids : list Z) (l r p : nat) : Prop :=
  forall x y, (l <= x)%nat -> (x < y)%nat -> (y <= r)%nat -> y <> p -> ids.[y] <= ids.[x].

Lemma sorted_but_done ids l r p : sorted_but ids l r p -> (p <= l)%nat \/ ids.[p] <= ids.[p - 1] -> sorted_seg ids l r.
Proof.
  intros H Hp x y Hx Hxy Hy. destruct (decide (y = p)) as [->|]; [|now apply H].
  destruct Hp as [|Hp]; [lia|]. destruct (decide (x = p - 1)%nat) as [->|]; [done|].
  pose proof (H x (p - 1)%nat Hx ltac:(lia) ltac:(lia) ltac:(lia)). lia.
Qed.

Lemma sorted_but_swap ids l r i : sorted_but ids l r (S i) -> (l <= i)%nat -> (S i <= r)%nat -> (r < length ids)%nat ->
  ids.[i] <= ids.[S i] -> sorted_but (MIDL_SWAP ids i (S i)) l r i.
Proof.
  intros H Hl Hr Hlen Hi x y Hx Hxy Hy Hyi. rewrite !swap_lookup by lia.
  destruct (decide (y = S i)) as [->|Hy1].
  - rewrite (decide_False (P := x = S i)) by lia. destruct (decide (x = i)) as [->|]; [done|]. apply H; lia.
  - rewrite decide_False by done. destruct (decide (x = S i)) as [->|]; [apply H; lia|].
    destruct (decide (x = i)) as [->|]; apply H; lia.
Qed.

(** Shifting and then writing [a] is a sequence of exchanges. *)
Lemma insert_shift_write ids a i : (S i < length ids)%nat ->
  ((ids.[i + 1 <- ids.[i]]).[i <- a]) = MIDL_SWAP (ids.[S i <- a]) i (S i).
Proof.
  intros Hi. unfold MIDL_SWAP. rewrite Nat.add_1_r. rewrite list_lookup_total_insert_eq by done.
  rewrite list_lookup_total_insert_ne by lia.
  rewrite (list_insert_insert_ne ids i (S i) a a) by lia. rewrite list_insert_insert_eq.
  now rewrite (list_insert_insert_ne ids i (S i)) by lia.
Qed.

Lemma insert_shift_spec l r j a : (1 <= l)%nat -> (j <= r)%nat -> forall i ids, (l <= S i)%nat -> (S i <= j)%nat ->
  (r < length ids)%nat -> (l = 1%nat \/ a <= ids.[l - 1]) -> sorted_but (ids.[S i <- a]) l j (S i) ->
  let '(ids', i') := insert_shift ids a i in
  swaps l r (ids.[S i <- a]) (ids'.[i' + 1 <- a]) /\ sorted_seg (ids'.[i' + 1 <- a]) l j.
Proof.
  intros Hl Hj. induction i as [|i IH]; intros ids Hli Hij Hlen Hb Hs; cbn [insert_shift].
  { split; [constructor|]. apply (sorted_but_done _ _ _ 1); [done|]. lia. }
  destruct (Z.leb_spec a ids.[S i]) as [Ha|Ha].
  { rewrite Nat.add_1_r. split; [constructor|]. apply (sorted_but_done _ _ _ (S (S i))); [done|]. right.
    rewrite list_lookup_total_insert_eq by lia. cbn. rewrite list_lookup_total_insert_ne by lia. done. }
  assert (Hli' : (l <= S i)%nat).
  { destruct (decide (l = S (S i))) as [->|]; [|lia]. cbn in Hb. lia. }
  assert (Hg : ids.[S i] <= (ids.[S (S i) <- a]).[S (S i)]) by (rewrite list_lookup_total_insert_eq by lia; lia).
  assert (E := insert_shift_write ids a (S i) ltac:(lia)).
  specialize (IH (ids.[S i + 1 <- ids.[S i]])). rewrite E in IH.
  destruct (insert_shift _ a i) as [ids' i'].
  destruct IH as [IH1 IH2]; [lia|lia|now rewrite length_insert| | |].
  - destruct Hb as [|Hb]; [now left|right]. now rewrite list_lookup_total_insert_ne by lia.
  - apply sorted_but_swap; [done|lia|lia|rewrite length_insert; lia|].
    now rewrite (list_lookup_total_insert_ne _ _ (S i)) by lia.
  - split; [|exact IH2]. apply swaps_step with (S i) (S (S i)); [lia|lia|now rewrite length_insert|exact IH1].
Qed.

Lemma int_add_small x y : Z.of_nat x + Z.of_nat y < 2 ^ 31 -> int_add x y = Some (x + y)%nat.
Proof. intros H. unfold int_add, INT_MAX. destruct (Z.leb_spec (Z.of_nat x + Z.of_nat y) (2 ^ 31 - 1)); [done|lia]. Qed.

Lemma int_add_large x y : 2 ^ 31 <= Z.of_nat x + Z.of_nat y -> int_add x y = None.
Proof. intros H. unfold int_add, INT_MAX. destruct (Z.leb_spec (Z.of_nat x + Z.of_nat y) (2 ^ 31 - 1)); [lia|done]. Qed.

Lemma insertion_sort_spec ids l r : (1 <= l)%nat -> (r < length ids)%nat -> Z.of_nat l < 2 ^ 31 - 1 -> Z.of_nat r < 2 ^ 31 - 1 ->
  (l = 1%nat \/ forall x, (l <= x <= r)%nat -> ids.[x] <= ids.[l - 1]) ->
  exists ids', insertion_sort ids l r = Some ids' /\ swaps l r ids ids' /\ sorted_seg ids' l r.
Proof.
  intros Hl Hr Hli Hri Hb. unfold insertion_sort. rewrite (int_add_small l 1) by lia. cbn [mbind option_bind].
  destruct (Nat.leb_spec (l + 1) r) as [Hlr|Hlr].
  2:{ exists ids. split; [done|]. split; [constructor|]. intros x y. lia. }
  rewrite (int_add_small r 1) by lia. cbn [mbind option_bind]. eexists. split; [reflexivity|].
  replace (sorted_seg _ l r) with (sorted_seg (for_ (l + 1) (r + 1) (fun (j : nat) (ids : list Z) => let a := ids.[j] in
    let '(ids, i) := insert_shift ids a (j - 1) in ids.[i + 1 <- a]) ids) l (r + 1 - 1)) by (f_equal; lia).
  apply (for_ind (fun j ids' => swaps l r ids ids' /\ sorted_seg ids' l (j - 1))); [lia| |].
  - split; [constructor|]. intros x y. lia.
  - intros j ids' Hj [Hsw Hs]. assert (Hlen := swaps_length _ _ _ _ Hsw). cbv zeta.
    assert (E : ids'.[S (j - 1) <- ids'.[j]] = ids').
    { apply list_insert_id. replace (S (j - 1)) with j by lia. apply list_lookup_lookup_total_lt. lia. }
    pose proof (insert_shift_spec l r j ids'.[j] Hl ltac:(lia) (j - 1) ids' ltac:(lia) ltac:(lia) ltac:(lia)) as H.
    rewrite E in H. replace (S (j - 1)) with j in H by lia.
    destruct (insert_shift ids' ids'.[j] (j - 1)) as [ids2 i']. destruct H as [H1 H2].
    + destruct Hb as [|Hb]; [now left|right]. rewrite (swaps_outside _ _ _ _ (l - 1) Hsw) by lia.
      apply (swaps_forall (fun v => v <= ids.[l - 1]) _ _ _ _ Hsw Hb). lia.
    + intros x y Hx Hxy Hy Hne. apply Hs; lia.
    + split; [now apply swaps_trans with ids'|]. now replace (S j - 1)%nat with j by lia.
Qed.

(** *** Partition *)

(** The scan stops at the latest at [s]. *)
Lemma scan_up_spec ids a s : ids.[s] <= a -> forall fuel i, (i < s)%nat -> (s - i <= fuel)%nat ->
  let i' := scan_up fuel ids a i in
  (i < i' <= s)%nat /\ ids.[i'] <= a /\ forall x, (i < x < i')%nat -> a < ids.[x].
Proof.
  intros Hs. induction fuel as [|fuel IH]; intros i Hi Hf; [lia|]. cbn [scan_up]. cbv zeta.
  destruct (Z.ltb_spec a ids.[S i]) as [Ha|Ha].
  - assert (i <> s - 1)%nat by (intros ->; replace (S (s - 1)) with s in Ha by lia; lia).
    destruct (IH (S i)) as (H1 & H2 & H3); [lia|lia|]. split; [lia|]. split; [done|].
    intros x Hx. destruct (decide (x = S i)) as [->|]; [done|]. apply H3. lia.
  - split; [lia|]. split; [done|]. intros x Hx. lia.
Qed.

Lemma scan_down_spec ids a s : a <= ids.[s] -> forall j, (s < j)%nat ->
  let j' := scan_down ids a j in
  (s <= j' < j)%nat /\ a <= ids.[j'] /\ forall x, (j' < x < j)%nat -> ids.[x] < a.
Proof.
  intros Hs. induction j as [|j IH]; intros Hj; [lia|]. cbn [scan_down]. cbv zeta.
  destruct (Z.ltb_spec ids.[j] a) as [Ha|Ha].
  - assert (j <> s) by (intros ->; lia).
    destruct IH as (H1 & H2 & H3); [lia|]. split; [lia|]. split; [done|].
    intros x Hx. destruct (decide (x = j)) as [->|]; [done|]. apply H3. lia.
  - split; [lia|]. split; [done|]. intros x Hx. lia.
Qed.

(** At the head of the loop: the cells up to [i] and from [j] on are on their
    sides, and both scans have a cell to stop at. *)
Record part_inv (ids : list Z) (a : Z) (l r i j : nat) : Prop := {
  pi_range : (l + 1 <= i <= j)%nat /\ (l + 2 <= j <= r)%nat /\ (r < length ids)%nat;
  pi_stop : i = j -> (j < r)%nat;
  pi_pivot : ids.[l + 1] = a;
  pi_left : forall x, (l + 2 <= x <= i)%nat -> a <= ids.[x];
  pi_right : forall x, (j <= x <= r)%nat -> ids.[x] <= a
}.

(** After the loop, [a] still at [l + 1]. *)
Record part_exit (ids : list Z) (a : Z) (l r i j : nat) : Prop := {
  pe_range : (l + 1 <= j < i)%nat /\ (i <= r < length ids)%nat;
  pe_pivot : ids.[l + 1] = a;
  pe_left : forall x, (l + 2 <= x < i)%nat -> a <= ids.[x];
  pe_right : forall x, (j < x <= r)%nat -> ids.[x] <= a;
  pe_last : a <= ids.[j]
}.

(** One turn: the scans meet, or the exchange restores the invariant closer in. *)
Lemma part_turn ids a l r i j : part_inv ids a l r i j ->
  let i' := scan_up (length ids) ids a i in
  let j' := scan_down ids a j in
  if (j' <? i')%nat then part_exit ids a l r i' j'
  else (l + 2 <= i' <= j')%nat /\ (j' < j)%nat /\ part_inv (MIDL_SWAP ids i' j') a l r i' j'.
Proof.
  intros [(R1 & R2 & R3) Hst Hp HL HR].
  set (s := if decide (i = j) then r else j).
  assert (Hs : (i < s <= r)%nat /\ ids.[s] <= a).
  { subst s. case_decide as D; [specialize (Hst D)|]; (split; [lia|]); apply HR; lia. }
  destruct (scan_up_spec ids a s (proj2 Hs) (length ids) i) as (U1 & U2 & U3); [lia|lia|].
  destruct (scan_down_spec ids a (l + 1) ltac:(lia) j) as (D1 & D2 & D3); [lia|].
  cbv zeta. set (i' := scan_up _ _ _ _) in *. set (j' := scan_down _ _ _) in *. clearbody i' j'.
  assert (HL' : forall x, (l + 2 <= x < i')%nat -> a <= ids.[x]).
  { intros x Hx. destruct (Nat.le_gt_cases x i); [apply HL; lia|]. pose proof (U3 x ltac:(lia)). lia. }
  assert (HR' : forall x, (j' < x <= r)%nat -> ids.[x] <= a).
  { intros x Hx. destruct (Nat.le_gt_cases j x); [apply HR; lia|]. pose proof (D3 x ltac:(lia)). lia. }
  destruct (Nat.ltb_spec j' i') as [Hji|Hji]; [constructor; (done || lia)|].
  split; [lia|]. split; [lia|]. constructor; rewrite ?length_swap; try lia.
  - rewrite swap_lookup, !decide_False by lia. done.
  - intros x Hx. rewrite swap_lookup by lia. repeat case_decide; [|lia|apply HL'; lia]. now replace i' with j' by lia.
  - intros x Hx. rewrite swap_lookup by lia. repeat case_decide; [lia| |apply HR'; lia]. now replace j' with i' by lia.
Qed.

Lemma partition_loop_spec a l r fuel : forall ids i j, (j <= fuel)%nat -> part_inv ids a l r i j ->
  let '(ids', i', j') := partition_loop fuel ids a i j in
  swaps l r ids ids' /\ part_exit ids' a l r i' j' /\ ids'.[l] = ids.[l].
Proof.
  induction fuel as [|fuel IH]; intros ids i j Hf Hi; pose proof (pi_range _ _ _ _ _ _ Hi) as (R1 & R2 & R3); [lia|].
  cbn [partition_loop]. pose proof (part_turn _ _ _ _ _ _ Hi) as H. cbv zeta in H |- *.
  set (i' := scan_up _ _ _ _) in *. set (j' := scan_down _ _ _) in *. clearbody i' j'.
  destruct (Nat.ltb_spec j' i') as [Hji|Hji]; [split; [constructor|done]|].
  destruct H as (H1 & H2 & H3). specialize (IH _ i' j' ltac:(lia) H3).
  destruct (partition_loop _ _ _ _ _) as [[ids' i2] j2]. destruct IH as (I1 & I2 & I3).
  split; [apply swaps_step with i' j'; (done || lia)|]. split; [done|].
  rewrite I3, swap_lookup, !decide_False by lia. done.
Qed.

(** What the whole partition leaves: not below [a], equal to [a], not above. *)
Definition partitioned (ids : list Z) (l r i j : nat) : Prop :=
  exists a, (forall x, (l <= x < j)%nat -> a <= ids.[x]) /\ (forall x, (j <= x < i)%nat -> ids.[x] = a) /\
    (forall x, (i <= x <= r)%nat -> ids.[x] <= a).

(** A compare and exchange. *)
Lemma cswap_spec ids l r x y : (l <= x <= r)%nat -> (l <= y <= r)%nat -> x <> y -> (r < length ids)%nat ->
  let ids' := if ids.[x] <? ids.[y] then MIDL_SWAP ids x y else ids in
  swaps l r ids ids' /\ ids'.[x] = Z.max ids.[x] ids.[y] /\ ids'.[y] = Z.min ids.[x] ids.[y] /\
  forall z, z <> x -> z <> y -> ids'.[z] = ids.[z].
Proof.
  intros Hx Hy Hne Hr. cbv zeta. destruct (Z.ltb_spec ids.[x] ids.[y]).
  - split; [now apply swaps_one|]. rewrite !swap_lookup by lia. rewrite (decide_False (P := x = y)), !decide_True by done.
    split; [lia|]. split; [lia|]. intros z Hzx Hzy. rewrite swap_lookup, !decide_False by (done || lia). done.
  - split; [constructor|]. split; [lia|]. split; [lia|done].
Qed.

(** The median of three in the middle of the three. *)
Lemma median_spec ids l r : (l + 1 < r)%nat -> (r < length ids)%nat ->
  let ids1 := if ids.[l] <? ids.[r] then MIDL_SWAP ids l r else ids in
  let ids2 := if ids1.[l + 1] <? ids1.[r] then MIDL_SWAP ids1 (l + 1) r else ids1 in
  let ids3 := if ids2.[l] <? ids2.[l + 1] then MIDL_SWAP ids2 l (l + 1) else ids2 in
  swaps l r ids ids3 /\ ids3.[l + 1] <= ids3.[l] /\ ids3.[r] <= ids3.[l + 1].
Proof.
  intros Hlr Hr. cbv zeta.
  destruct (cswap_spec ids l r l r) as (S1 & A1 & B1 & C1); [lia|lia|lia|lia|]. cbv zeta in *.
  set (ids1 := if ids.[l] <? ids.[r] then _ else _) in *. clearbody ids1. pose proof (swaps_length _ _ _ _ S1).
  destruct (cswap_spec ids1 l r (l + 1) r) as (S2 & A2 & B2 & C2); [lia|lia|lia|lia|]. cbv zeta in *.
  set (ids2 := if ids1.[l + 1] <? ids1.[r] then _ else _) in *. clearbody ids2. pose proof (swaps_length _ _ _ _ S2).
  destruct (cswap_spec ids2 l r l (l + 1)) as (S3 & A3 & B3 & C3); [lia|lia|lia|lia|]. cbv zeta in *.
  set (ids3 := if ids2.[l] <? ids2.[l + 1] then _ else _) in *. clearbody ids3.
  split; [eapply swaps_trans; [exact S1|]; now apply swaps_trans with ids2|].
  rewrite A3, B3, (C3 r) by lia. rewrite (C2 l) by lia. lia.
Qed.

Lemma partition_spec ids l r : (l + SMALL <= r)%nat -> (r < length ids)%nat -> Z.of_nat l + Z.of_nat r < 2 ^ 31 ->
  exists ids' i j, partition ids l r = Some (ids', i, j) /\
  swaps l r ids ids' /\ (l + 1 <= j < i)%nat /\ (i <= r)%nat /\ partitioned ids' l r i j.
Proof.
  unfold SMALL. intros Hlr Hr Hs. unfold partition. rewrite int_add_small by exact Hs. cbn [mbind option_bind].
  assert (Hk : (l <= (l + r) / 2 <= r)%nat).
  { split; [apply Nat.div_le_lower_bound|apply Nat.Div0.div_le_upper_bound]; lia. }
  pose proof (swaps_one l r ids ((l + r) / 2) (l + 1) Hk ltac:(lia) Hr) as S0.
  set (ids0 := MIDL_SWAP ids ((l + r) / 2) (l + 1)) in *. clearbody ids0. pose proof (swaps_length _ _ _ _ S0) as L0.
  destruct (median_spec ids0 l r) as (S1 & M1 & M2); [lia|lia|]. cbv zeta in *.
  match type of S1 with swaps _ _ _ ?e => set (ids3 := e) in *; clearbody ids3 end.
  pose proof (swaps_length _ _ _ _ S1) as L1.
  pose proof (partition_loop_spec ids3.[l + 1] l r r ids3 (l + 1) r ltac:(lia)) as P.
  destruct (partition_loop r ids3 ids3.[l + 1] (l + 1) r) as [[ids4 i] j]. set (a := ids3.[l + 1]) in *.
  destruct P as (S2 & [(E1 & E2) Ep El Er Ej] & E0).
  { constructor; try lia. intros x Hx. now replace x with r by lia. }
  assert (EQ : (ids4.[l + 1 <- ids4.[j]]).[j <- a] = MIDL_SWAP ids4 (l + 1) j) by (unfold MIDL_SWAP; now rewrite Ep).
  eexists _, _, _. split; [reflexivity|]. rewrite EQ. clear EQ. split; [|split; [lia|split; [lia|]]].
  - eapply swaps_trans; [exact S0|]. eapply swaps_trans; [exact S1|]. eapply swaps_trans; [exact S2|]. apply swaps_one; lia.
  - exists a. split; [|split]; intros x Hx; rewrite swap_lookup by lia.
    + rewrite decide_False by lia. case_decide; [done|]. destruct (decide (x = l)) as [->|]; [lia|]. apply El. lia.
    + case_decide; [done|]. rewrite decide_False by lia.
      pose proof (El x ltac:(lia)). pose proof (Er x ltac:(lia)). lia.
    + rewrite !decide_False by lia. apply Er. lia.
Qed.

End Swaps.

(** *** The stack of segments *)

Section Driver.
Import Midl.

Notation seg := (nat * nat)%type.
Definition in_seg (x : nat) (s : seg) : Prop := (s.1 <= x <= s.2)%nat.
Definition size (s : seg) : nat := (s.2 + 1 - s.1)%nat.

(** The open segments are apart from each other, *)
Fixpoint apart (segs : list seg) : Prop :=
  match segs with
  | [] => True
  | s :: segs => Forall (fun s' => s'.2 < s.1 \/ s.2 < s'.1)%nat segs /\ apart segs
  end.

(** of a size that halves with the depth of the stack, *)
Fixpoint shallow (n : nat) (segs : list seg) : Prop :=
  match segs with
  | [] => True
  | s :: segs => (size s * 2 ^ length segs <= n)%nat /\ shallow n segs
  end.

(** and two identifiers are in order unless one open segment holds both. *)
Definition ordered (n : nat) (ids : list Z) (segs : list seg) : Prop :=
  forall x y, (1 <= x)%nat -> (x < y)%nat -> (y <= n)%nat ->
    Exists (fun s => in_seg x s /\ in_seg y s) segs \/ ids.[y] <= ids.[x].

(** [istack] holds the segments below the first one, the top last. *)
Fixpoint stacked (istack : list nat) (jstack : nat) (segs : list seg) : Prop :=
  match segs with
  | [] => jstack = 0%nat
  | s :: segs => (2 <= jstack)%nat /\ istack.[jstack] = s.2 /\ istack.[jstack - 1] = s.1 /\ stacked istack (jstack - 2) segs
  end.

Lemma stacked_depth istack segs : forall jstack, stacked istack jstack segs -> jstack = (2 * length segs)%nat.
Proof. induction segs as [|s segs IH]; intros j; cbn [stacked length]; [done|]. intros (H & _ & _ & E%IH). lia. Qed.

Lemma stacked_above istack segs k v : forall jstack, (jstack < k)%nat -> stacked istack jstack segs ->
  stacked (istack.[k <- v]) jstack segs.
Proof.
  induction segs as [|s segs IH]; intros j Hj; cbn [stacked]; [done|]. intros (H & E1 & E2 & E3).
  rewrite !list_lookup_total_insert_ne by lia. split_and!; try done. apply IH; [lia|done].
Qed.

Lemma stacked_push istack jstack segs l r : (jstack + 2 < length istack)%nat -> stacked istack jstack segs ->
  stacked ((istack.[jstack + 2 <- r]).[jstack + 2 - 1 <- l]) (jstack + 2) ((l, r) :: segs).
Proof.
  intros Hl Hs. cbn [stacked fst snd]. split; [lia|].
  rewrite list_lookup_total_insert_ne, !list_lookup_total_insert_eq by (rewrite ?length_insert; lia).
  split_and!; try done. replace (jstack + 2 - 2)%nat with jstack by lia.
  apply stacked_above; [lia|]. apply stacked_above; [lia|done].
Qed.

Lemma apart_notin l r segs x y : apart ((l, r) :: segs) -> (l <= x <= r)%nat ->
  Exists (fun s => in_seg x s /\ in_seg y s) segs -> False.
Proof.
  intros [Ha _] Hx Hex. apply Exists_exists in Hex as (s & Hs & H1 & H2). rewrite Forall_forall in Ha.
  specialize (Ha s Hs). unfold in_seg in *. cbn in *. lia.
Qed.

(** Work inside the first segment, which leaves the segments [new] open. *)
Lemma ordered_step n ids ids' l r new segs : ordered n ids ((l, r) :: segs) -> apart ((l, r) :: segs) ->
  (1 <= l)%nat -> (r <= n)%nat -> swaps l r ids ids' ->
  (forall x y, (l <= x)%nat -> (x < y)%nat -> (y <= r)%nat ->
     Exists (fun s => in_seg x s /\ in_seg y s) new \/ ids'.[y] <= ids'.[x]) ->
  ordered n ids' (new ++ segs).
Proof.
  intros Ho Ha Hl Hr Hsw Hin x y Hx Hxy Hy. rewrite Exists_app.
  destruct (decide (l <= x <= r)%nat) as [Dx|Dx], (decide (l <= y <= r)%nat) as [Dy|Dy].
  - destruct (Hin x y) as [H|H]; [lia|lia|lia|left; now left|now right].
  - right. rewrite (swaps_outside l r ids ids' y) by (done || lia).
    apply (swaps_forall (fun v => ids.[y] <= v) l r ids ids' Hsw); [|done]. intros z Hz.
    destruct (Ho z y) as [H|H]; [lia|lia|lia| |done]. exfalso. apply Exists_cons in H as [[_ H]|H].
    + unfold in_seg in H. cbn in H. lia.
    + now apply (apart_notin l r segs z y).
  - right. rewrite (swaps_outside l r ids ids' x) by (done || lia).
    apply (swaps_forall (fun v => v <= ids.[x]) l r ids ids' Hsw); [|done]. intros z Hz.
    destruct (Ho x z) as [H|H]; [lia|lia|lia| |done]. exfalso. apply Exists_cons in H as [[H _]|H].
    + unfold in_seg in H. cbn in H. lia.
    + apply (apart_notin l r segs z x Ha Hz). eapply Exists_impl; [exact H|]. cbv beta. tauto.
  - rewrite !(swaps_outside l r ids ids') by (done || lia).
    destruct (Ho x y Hx Hxy Hy) as [H|H]; [|now right]. apply Exists_cons in H as [[H _]|H]; [|left; now right].
    unfold in_seg in H. cbn in H. lia.
Qed.

(** The identifier before the first segment is not below any in it. *)
Lemma before_seg n ids l r segs : ordered n ids ((l, r) :: segs) -> apart ((l, r) :: segs) -> (1 <= l)%nat -> (r <= n)%nat ->
  l = 1%nat \/ forall x, (l <= x <= r)%nat -> ids.[x] <= ids.[l - 1].
Proof.
  intros Ho Ha Hl Hr. destruct (decide (l = 1)%nat); [now left|right]. intros x Hx.
  destruct (Ho (l - 1)%nat x) as [H|H]; [lia|lia|lia| |done]. exfalso. apply Exists_cons in H as [[H _]|H].
  - unfold in_seg in H. cbn in H. lia.
  - apply (apart_notin l r segs x (l - 1)%nat Ha Hx). eapply Exists_impl; [exact H|]. cbv beta. tauto.
Qed.

Lemma shallow_depth n s segs : Z.of_nat n < 2 ^ 30 -> shallow n (s :: segs) -> (SMALL < size s)%nat -> (length segs <= 27)%nat.
Proof.
  unfold SMALL. intros Hn [Hd _] Hs. destruct (Nat.le_gt_cases (length segs) 27) as [|Hgt]; [done|]. exfalso.
  apply Nat2Z.inj_le in Hd. rewrite Nat2Z.inj_mul, Nat2Z.inj_pow in Hd.
  pose proof (Z.pow_le_mono_r 2 28 (Z.of_nat (length segs)) ltac:(lia) ltac:(lia)) as Hp.
  change (Z.of_nat 2) with 2 in Hd. change (2 ^ 28) with 268435456 in Hp. change (2 ^ 30) with 1073741824 in Hn. nia.
Qed.

(** The state between two turns, with the segments still open. *)
Record sort_inv (n : nat) (ids0 : list Z) (s : sort_state) (segs : list seg) : Prop := {
  si_count : Z.of_nat n < 2 ^ 30 /\ (n < length ids0)%nat;
  si_swaps : swaps 1 n ids0 (s_ids s);
  si_bounds : Forall (fun s => 1 <= s.1 <= n + 1 /\ s.2 <= n)%nat ((s_l s, s_ir s) :: segs);
  si_apart : apart ((s_l s, s_ir s) :: segs);
  si_shallow : shallow n ((s_l s, s_ir s) :: segs);
  si_ordered : ordered n (s_ids s) ((s_l s, s_ir s) :: segs);
  si_stack : stacked (s_istack s) (s_jstack s) segs /\ length (s_istack s) = 64%nat;
  si_depth : (length segs <= 28)%nat
}.

Fixpoint measure (segs : list seg) : nat :=
  match segs with
  | [] => 0
  | s :: segs => 2 * size s + 1 + measure segs
  end.

(** Two segments [s1] and [s2] in place of the first, [s2] on the stack. *)
Lemma split_segs n l r s1 s2 segs : Forall (fun s => 1 <= s.1 <= n + 1 /\ s.2 <= n)%nat ((l, r) :: segs) ->
  apart ((l, r) :: segs) -> shallow n ((l, r) :: segs) ->
  (l <= s1.1)%nat -> (s1.2 <= r)%nat -> (l <= s2.1)%nat -> (s2.2 <= r)%nat -> (s1.2 < s2.1 \/ s2.2 < s1.1)%nat ->
  (0 < size s1 <= size s2)%nat -> (size s1 + size s2 < size (l, r))%nat ->
  Forall (fun s => 1 <= s.1 <= n + 1 /\ s.2 <= n)%nat (s1 :: s2 :: segs) /\ apart (s1 :: s2 :: segs) /\
  shallow n (s1 :: s2 :: segs) /\ (measure (s1 :: s2 :: segs) < measure ((l, r) :: segs))%nat.
Proof.
  intros Hb [Ha Ha'] [Hs Hs'] H1 H2 H3 H4 H5 H6 H7. apply Forall_cons_iff in Hb as [Hb0 Hb]. cbn [fst snd] in *.
  assert (Hin : forall s, (l <= s.1)%nat -> (s.2 <= r)%nat -> Forall (fun s' : seg => s'.2 < s.1 \/ s.2 < s'.1)%nat segs).
  { intros s Hl Hr. eapply Forall_impl; [exact Ha|]. cbn. intros s' Hs0. lia. }
  split_and!.
  - rewrite !Forall_cons_iff. split_and!; (done || lia || (unfold size in *; lia)).
  - cbn [apart]. rewrite Forall_cons_iff. split_and!; try done; [lia|now apply Hin|now apply Hin].
  - cbn [shallow length]. rewrite Nat.pow_succ_r'. split_and!; [nia|nia|done].
  - cbn [measure]. lia.
Qed.

(** A short segment is sorted and closed. *)
Lemma small_turn n ids0 s segs : sort_inv n ids0 s segs ->
  exists ids, insertion_sort (s_ids s) (s_l s) (s_ir s) = Some ids /\ swaps 1 n ids0 ids /\ ordered n ids segs.
Proof.
  intros [[C1 C2] Hsw Hb Ha Hsh Ho [Hst Hl] Hdep]. destruct s as [ids l r istack jstack]. cbn in Hsw, Hb, Ha, Hsh, Ho |- *.
  apply Forall_cons_iff in Hb as [[[B1 B1u] B2] Hb]. cbn in B1, B1u, B2. pose proof (swaps_length _ _ _ _ Hsw) as L.
  destruct (insertion_sort_spec ids l r B1 ltac:(lia) ltac:(lia) ltac:(lia) (before_seg n ids l r segs Ho Ha B1 B2)) as (ids' & E & I1 & I2).
  exists ids'. split; [exact E|]. split; [apply swaps_trans with ids; [done|]; apply swaps_wider with l r; (done || lia)|].
  apply (ordered_step n ids _ l r [] segs); try done. intros x y Hx Hxy Hy. right. now apply I2.
Qed.

(** A long one is split in two around a pivot. *)
Lemma large_turn n ids0 s segs : sort_inv n ids0 s segs -> (s_l s + SMALL <= s_ir s)%nat ->
  exists ids' i j, partition (s_ids s) (s_l s) (s_ir s) = Some (ids', i, j) /\
  (s_l s + 1 <= j < i)%nat /\ (i <= s_ir s)%nat /\ swaps 1 n ids0 ids' /\
  ordered n ids' ((s_l s, (j - 1)%nat) :: (i, s_ir s) :: segs) /\ ordered n ids' ((i, s_ir s) :: (s_l s, (j - 1)%nat) :: segs).
Proof.
  intros [[C1 C2] Hsw Hb Ha Hsh Ho [Hst Hl]] Hlarge. destruct s as [ids l r istack jstack]. cbn in Hsw, Hb, Ha, Hsh, Ho, Hlarge |- *.
  apply Forall_cons_iff in Hb as [[[B1 B1u] B2] Hb]. cbn in B1, B1u, B2. pose proof (swaps_length _ _ _ _ Hsw) as L.
  destruct (partition_spec ids l r Hlarge ltac:(lia) ltac:(unfold SMALL in Hlarge; lia)) as (ids' & i & j & E & P1 & P2 & P3 & a & Q1 & Q2 & Q3).
  assert (Hin : forall x y, (l <= x)%nat -> (x < y)%nat -> (y <= r)%nat ->
    ((l <= x <= j - 1)%nat /\ (l <= y <= j - 1)%nat) \/ ((i <= x <= r)%nat /\ (i <= y <= r)%nat) \/ ids'.[y] <= ids'.[x]).
  { intros x y Hx Hxy Hy. destruct (Nat.lt_ge_cases y j); [left; lia|]. destruct (Nat.le_gt_cases i x); [right; left; lia|].
    right. right.
    assert (Hya : ids'.[y] <= a) by (destruct (Nat.le_gt_cases i y); [apply Q3; lia|rewrite Q2 by lia; lia]).
    assert (Hxa : a <= ids'.[x]) by (destruct (Nat.le_gt_cases j x); [rewrite Q2 by lia; lia|apply Q1; lia]). lia. }
  exists ids', i, j. split; [exact E|]. split; [done|]. split; [done|].
  split; [apply swaps_trans with ids; [done|]; apply swaps_wider with l r; (done || lia)|].
  split; [apply (ordered_step n ids ids' l r [(l, (j - 1)%nat); (i, r)] segs)|apply (ordered_step n ids ids' l r [(i, r); (l, (j - 1)%nat)] segs)];
    try done; intros x y Hx Hxy Hy; rewrite !Exists_cons; unfold in_seg; cbn [fst snd]; specialize (Hin x y Hx Hxy Hy); tauto.
Qed.

Lemma sort_step_spec n ids0 s segs : sort_inv n ids0 s segs ->
  match sort_step s with
  | Some (inl s') => exists segs', sort_inv n ids0 s' segs' /\
      (measure ((s_l s', s_ir s') :: segs') < measure ((s_l s, s_ir s) :: segs))%nat
  | Some (inr ids') => swaps 1 n ids0 ids' /\ sorted_seg ids' 1 n
  | None => False
  end.
Proof.
  intros Hi. pose proof Hi as [HC Hsw Hb Ha Hsh Ho [Hst Hl] Hdep].
  pose proof (small_turn _ _ _ _ Hi) as SM. pose proof (large_turn n ids0 s segs Hi) as LG.
  pose proof (stacked_depth _ _ _ Hst) as HD.
  destruct s as [ids l r istack jstack]. cbn [s_ids s_l s_ir s_istack s_jstack] in *. unfold sort_step.
  destruct (Z.ltb_spec (Z.of_nat r - Z.of_nat l) (Z.of_nat SMALL)) as [Hsm|Hlg].
  - destruct SM as (ids' & -> & SM1 & SM2). cbn [mbind option_bind]. destruct segs as [|[l2 r2] segs].
    + rewrite HD. cbn. split; [done|]. intros x y Hx Hxy Hy. destruct (SM2 x y Hx Hxy Hy) as [H|H]; [|done].
      now apply Exists_nil in H.
    + cbn [length] in HD. destruct (Nat.eqb_spec jstack 0); [lia|].
      destruct Hst as (T1 & T2 & T3 & T4). rewrite T2, T3. cbn [fst snd]. exists segs. split; [|cbn; lia].
      constructor; cbn [s_ids s_l s_ir s_istack s_jstack]; try done.
      * now apply Forall_cons_iff in Hb as [_ Hb].
      * exact (proj2 Ha).
      * exact (proj2 Hsh).
      * cbn in Hdep. lia.
  - assert (Hlg' : (l + SMALL <= r)%nat) by lia. destruct (LG Hlg') as (ids' & i & j & -> & G1 & G2 & G3 & G4 & G5). cbn [mbind option_bind].
    assert (Hd : (length segs <= 27)%nat).
    { apply (shallow_depth n (l, r)); [exact (proj1 HC)|done|]. unfold size, SMALL in *. cbn. lia. }
    destruct (Z.leb_spec (Z.of_nat j - Z.of_nat l) (Z.of_nat r - Z.of_nat i + 1)).
    + destruct (split_segs n l r (l, (j - 1)%nat) (i, r) segs Hb Ha Hsh) as (S1 & S2 & S3 & S4);
        try (unfold size; cbn; lia).
      exists ((i, r) :: segs). split; [|exact S4]. constructor; cbn [s_ids s_l s_ir s_istack s_jstack]; try done; [|cbn; lia].
      split; [apply stacked_push; [lia|done]|now rewrite !length_insert].
    + destruct (split_segs n l r (i, r) (l, (j - 1)%nat) segs Hb Ha Hsh) as (S1 & S2 & S3 & S4);
        try (unfold size; cbn; lia).
      exists ((l, (j - 1)%nat) :: segs). split; [|exact S4]. constructor; cbn [s_ids s_l s_ir s_istack s_jstack]; try done; [|cbn; lia].
      split; [apply stacked_push; [lia|done]|now rewrite !length_insert].
Qed.

Lemma sort_loop_spec n ids0 fuel : forall s segs, sort_inv n ids0 s segs ->
  (measure ((s_l s, s_ir s) :: segs) <= fuel)%nat ->
  exists ids', sort_loop fuel s = Some ids' /\ swaps 1 n ids0 ids' /\ sorted_seg ids' 1 n.
Proof.
  induction fuel as [|fuel IH]; intros s segs Hi Hm; [cbn in Hm; lia|]. cbn [sort_loop].
  pose proof (sort_step_spec _ _ _ _ Hi) as H. destruct (sort_step s) as [[s'|ids']|]; [| |done]; cbn [mbind option_bind].
  - destruct H as (segs' & Hi' & Hm'). apply (IH s' segs'); [done|lia].
  - now exists ids'.
Qed.

Lemma sort_start_ir ids : idl_wf ids -> s_ir (sort_start ids) = Z.to_nat ids.[0].
Proof. intros [Hr _]. cbn [s_ir sort_start]. now rewrite to_int_small. Qed.

Lemma sort_start_inv ids : idl_wf ids -> ids.[0] < 2 ^ 30 -> sort_inv (Z.to_nat ids.[0]) ids (sort_start ids) [].
Proof.
  intros Hw H30. pose proof Hw as [Hr Hl]. pose proof (sort_start_ir ids Hw) as E.
  constructor; rewrite ?E; cbn [s_ids s_l s_istack s_jstack sort_start].
  - lia.
  - constructor.
  - rewrite Forall_cons_iff. cbn. split; [lia|constructor].
  - cbn. split; [constructor|done].
  - cbn [shallow length]. rewrite Nat.pow_0_r. unfold size. cbn. lia.
  - intros x y Hx Hxy Hy. left. rewrite Exists_cons. left. unfold in_seg. cbn. lia.
  - split; [done|]. now rewrite length_replicate.
  - cbn. lia.
Qed.

(** Exchanges among the identifiers permute them and leave the rest. *)
Lemma swaps_elems ids ids' : idl_wf ids -> swaps 1 (Z.to_nat ids.[0]) ids ids' ->
  idl_wf ids' /\ ids'.[0] = ids.[0] /\ elems ids' ≡ₚ elems ids.
Proof.
  intros Hw Hsw. pose proof (swaps_length _ _ _ _ Hsw) as L.
  assert (E0 : ids'.[0] = ids.[0]) by (apply (swaps_outside _ _ _ _ 0 Hsw); lia).
  pose proof Hw as [Hr Hl]. assert (Hw' : idl_wf ids') by (unfold idl_wf; rewrite E0, L; exact Hw).
  split; [done|]. split; [done|].
  destruct (idl_split ids 0 Hw ltac:(lia)) as (g & E & Hg). destruct g; [|done].
  destruct (idl_split ids' 0 Hw' ltac:(lia)) as (g & E' & Hg'). destruct g; [|done].
  cbn [app] in E, E'. rewrite E0 in E'.
  assert (ET : drop (S (Z.to_nat ids.[0]) + 0) ids' = drop (S (Z.to_nat ids.[0]) + 0) ids).
  { apply list_eq. intros k. rewrite !lookup_drop. destruct (decide (S (Z.to_nat ids.[0]) + 0 + k < length ids)%nat).
    - rewrite !list_lookup_lookup_total_lt by lia. f_equal. apply (swaps_outside _ _ _ _ _ Hsw). lia.
    - rewrite !lookup_ge_None_2 by lia. done. }
  pose proof (swaps_perm _ _ _ _ Hsw) as HP. rewrite ET in E'. rewrite E, E' in HP.
  apply Permutation_cons_inv in HP. now apply Permutation_app_inv_r in HP.
Qed.

Lemma sorted_lookup (l : list Z) :
  (forall i j x y, (i < j)%nat -> l !! i = Some x -> l !! j = Some y -> y <= x) -> sorted l.
Proof.
  induction l as [|x l IH]; intros H; [constructor|]. apply StronglySorted_cons. split.
  - apply Forall_lookup. intros i y Hi. apply (H 0%nat (S i) x y); [lia|done|done].
  - apply IH. intros i j a b Hij Hi Hj. apply (H (S i) (S j) a b); [lia|done|done].
Qed.

Lemma sorted_seg_elems ids : idl_wf ids -> sorted_seg ids 1 (Z.to_nat ids.[0]) -> sorted (elems ids).
Proof.
  intros Hw Hs. apply sorted_lookup. intros i j x y Hij Hi Hj.
  pose proof (lookup_lt_Some _ _ _ Hj) as Hl. rewrite length_elems in Hl by done.
  pose proof (elems_lookup ids (S i) Hw ltac:(lia)) as Ei. pose proof (elems_lookup ids (S j) Hw ltac:(lia)) as Ej.
  cbn [Nat.sub] in Ei, Ej. rewrite Nat.sub_0_r in Ei, Ej. rewrite Ei in Hi. rewrite Ej in Hj.
  injection Hi as <-. injection Hj as <-. apply Hs; lia.
Qed.

(** One turn of the loop, as a relation. *)
Definition sort_turn (s s' : sort_state) : Prop := sort_step s = Some (inl s').

Lemma sort_inv_reachable n ids0 s segs s' : rtc sort_turn s s' -> sort_inv n ids0 s segs ->
  exists segs', sort_inv n ids0 s' segs'.
Proof.
  intros Hr. revert segs. induction Hr as [s|s s1 s2 H1 _ IH]; intros segs Hi; [now exists segs|].
  pose proof (sort_step_spec _ _ _ _ Hi) as Hs. unfold sort_turn in H1. rewrite H1 in Hs.
  destruct Hs as (segs1 & Hi1 & _). exact (IH segs1 Hi1).
Qed.

Lemma sort_unfold ids : idl_wf ids -> mdb_midl_sort ids = sort_loop (2 * Z.to_nat ids.[0] + 2) (sort_start ids).
Proof.
  intros Hw. unfold mdb_midl_sort. cbv zeta. rewrite sort_start_ir by exact Hw. pose proof Hw as [Hr _]. rewrite to_int_small by lia.
  unfold INT_MAX. destruct (Z.ltb_spec (ids.[0] - 1) (- (2 ^ 31 - 1) - 1)); [lia|done].
Qed.

(** The midpoint of the longest list that an [int] can count overflows. *)
Lemma sort_overflow ids : idl_wf ids -> ids.[0] = INT_MAX -> mdb_midl_sort ids = None.
Proof.
  intros Hw E. pose proof (sort_start_ir ids Hw) as Eir. rewrite sort_unfold by exact Hw.
  replace (2 * Z.to_nat ids.[0] + 2)%nat with (S (2 * Z.to_nat ids.[0] + 1)) by lia. cbn [sort_loop].
  destruct (sort_start ids) as [ids' l ir istack jstack] eqn:Es. assert (l = 1%nat) as -> by (unfold sort_start in Es; congruence).
  cbn [s_ir] in Eir. subst ir. rewrite E. unfold sort_step, SMALL, INT_MAX.
  destruct (Z.ltb_spec (Z.of_nat (Z.to_nat (2 ^ 31 - 1)) - Z.of_nat 1) (Z.of_nat 8)) as [H|_]; [lia|].
  unfold partition. rewrite int_add_large by lia. reflexivity.
Qed.

End Driver.

(** ** What the lists guarantee *)

(** C33: [mdb_midl_sort] returns, on every list with room for its identifiers
    and a count below 2^30: the identifiers are sorted in descending order,
    they are the ones that were there, and the count is unchanged.  On a list
    of INT_MAX identifiers the first midpoint overflows [int]. *)
Theorem mdb_midl_sort_correct (ids : list Z) : idl_wf ids ->
  (ids.[0] < 2 ^ 30 -> exists ids', Midl.mdb_midl_sort ids = Some ids' /\
    idl_wf ids' /\ ids'.[0] = ids.[0] /\ elems ids' ≡ₚ elems ids /\ sorted (elems ids')) /\
  (ids.[0] = Midl.INT_MAX -> Midl.mdb_midl_sort ids = None).
Proof.
  intros Hw. split; [|exact (sort_overflow ids Hw)]. intros H30. pose proof (sort_start_inv ids Hw H30) as Hi.
  destruct (sort_loop_spec _ _ (2 * Z.to_nat ids.[0] + 2) _ _ Hi) as (ids' & E & Hsw & Hs).
  { cbn [measure]. unfold size. rewrite sort_start_ir by exact Hw. cbn [fst snd Midl.s_l Midl.sort_start]. lia. }
  exists ids'. split; [rewrite sort_unfold by exact Hw; exact E|]. destruct (swaps_elems ids ids' Hw Hsw) as (W & E0 & HP).
  split_and!; try done. apply sorted_seg_elems; [done|]. now rewrite E0.
Qed.

Definition shuffled : list Z := [21; 3; 14; 15; 9; 26; 5; 35; 8; 97; 93; 2; 38; 46; 2; 64; 33; 83; 27; 95; 0; 28; 77; 77].

Lemma mdb_midl_sort_correct_witness :
  idl_wf shuffled /\ exists ids', Midl.mdb_midl_sort shuffled = Some ids' /\ elems ids' ≡ₚ elems shuffled /\ sorted (elems ids') /\
  elems ids' = [97; 95; 93; 83; 64; 46; 38; 35; 33; 28; 27; 26; 15; 14; 9; 8; 5; 3; 2; 2; 0].
Proof.
  assert (Hw : idl_wf shuffled) by (split; vm_compute; [split; congruence|lia]).
  split; [exact Hw|]. destruct (proj1 (mdb_midl_sort_correct shuffled Hw) eq_refl) as (ids' & E & _ & _ & HP & HS).
  exists ids'. split_and!; [exact E|exact HP|exact HS|]. vm_compute in E. injection E as <-. reflexivity.
Defined.

(** C34: In every state the loop of [mdb_midl_sort] reaches from a list of fewer
    than 2^30 identifiers, the next turn overflows no [int], the stack pointer
    stays within [istack], two cells free above it when a segment is long
    enough to be split, and the segment at hand lies within the identifiers. *)
Theorem mdb_midl_sort_stack_safe (ids : list Z) (s : Midl.sort_state) : idl_wf ids -> ids.[0] < 2 ^ 30 ->
  rtc sort_turn (Midl.sort_start ids) s ->
  Midl.sort_step s <> None /\
  length (Midl.s_istack s) = 64%nat /\ (Midl.s_jstack s <= 56)%nat /\
  ((Midl.s_l s + Midl.SMALL <= Midl.s_ir s)%nat -> (Midl.s_jstack s + 2 <= 56)%nat) /\
  (1 <= Midl.s_l s)%nat /\ Z.of_nat (Midl.s_ir s) <= ids.[0].
Proof.
  intros Hw H30 Hr. destruct (sort_inv_reachable _ ids _ _ _ Hr (sort_start_inv ids Hw H30)) as [segs Hi].
  split; [pose proof (sort_step_spec _ _ _ _ Hi) as Hs; now destruct (Midl.sort_step s)|].
  pose proof Hi as [HC _ Hb _ Hsh _ [Hst Hl] Hd]. apply Forall_cons_iff in Hb as [[[B1 B1u] B2] _]. cbn in B1, B2.
  pose proof (stacked_depth _ _ _ Hst) as HD. pose proof Hw as [Hr0 _]. split_and!; [exact Hl|lia| |exact B1|lia].
  intros Hlg. pose proof (shallow_depth _ _ _ (proj1 HC) Hsh) as H. unfold size, Midl.SMALL in *. cbn in H. lia.
Qed.

Lemma mdb_midl_sort_stack_safe_witness :
  exists s, rtc sort_turn (Midl.sort_start shuffled) s /\ Midl.s_jstack s = 2%nat /\ (Midl.s_jstack s <= 56)%nat.
Proof.
  assert (Hw : idl_wf shuffled) by (split; vm_compute; [split; congruence|lia]).
  destruct (Midl.sort_step (Midl.sort_start shuffled)) as [[s|]|] eqn:E; [|vm_compute in E; discriminate..].
  assert (Hr : rtc sort_turn (Midl.sort_start shuffled) s) by (apply rtc_once; exact E).
  exists s. split; [exact Hr|]. split; [vm_compute in E; now injection E as <-|].
  exact (proj1 (proj2 (proj2 (mdb_midl_sort_stack_safe shuffled s Hw eq_refl Hr)))).
Defined.

(** [mdb_midl_xmerge] merges one sorted list into another that has room
    for both: the result is sorted, holds the identifiers of both, and the
    array keeps its length. *)
Theorem mdb_midl_xmerge_correct (idl merge : list Z) : idl_wf idl -> idl_wf merge ->
  (Z.to_nat idl.[0] + Z.to_nat merge.[0] < length idl)%nat ->
  sorted (elems idl) -> sorted (elems merge) -> Forall (word 64) (elems merge) ->
  let idl' := Midl.mdb_midl_xmerge idl merge in
  length idl' = length idl /\ idl'.[0] = idl.[0] + merge.[0] /\
  elems idl' ≡ₚ elems idl ++ elems merge /\ sorted (elems idl').
Proof.
  intros Hw Hm Hroom Hs1 Hs2 Hb. destruct (idl_split idl _ Hw Hroom) as (gap & E & Hg).
  set (T := drop _ idl) in E. clearbody T.
  assert (Le := length_elems idl Hw). pose proof Hw as [Hr _]. pose proof Hm as [Hrm Hlm].
  assert (Lm := length_elems merge Hm).
  set (P := elems idl) in *. clearbody P. set (c := idl.[0]) in *. clearbody c. subst idl.
  destruct (xmerge_loop_spec merge 0xffffffffffffffff (Z.to_nat merge.[0]) P gap T Hg Hlm Hs1 Hs2) as (L & EL & HL & HLs).
  { intros k Hk. pose proof (elems_lookup merge k Hm Hk) as Ek. rewrite Forall_lookup in Hb.
    pose proof (Hb _ _ Ek) as Bk. unfold word in Bk. lia. }
  fold (elems merge) in HL. apply Permutation_length in HL as Ll. rewrite length_app in Ll.
  assert (EM : Midl.mdb_midl_xmerge (c :: P ++ gap ++ T) merge = (c + merge.[0]) :: L ++ T).
  { unfold Midl.mdb_midl_xmerge. change ((c :: P ++ gap ++ T).[0]) with c. rewrite <- Le.
    change ((c :: P ++ gap ++ T).[0 <- 0xffffffffffffffff]) with (0xffffffffffffffff :: P ++ gap ++ T).
    rewrite lookup_end. rewrite Hg, (Nat.add_comm (length P)) in EL. rewrite EL. cbn. f_equal. lia. }
  cbv zeta. rewrite EM, elems_cons by lia. split_and!; [|reflexivity|exact HL|exact HLs].
  cbn [length]. rewrite !length_app. lia.
Qed.

Lemma mdb_midl_xmerge_correct_witness :
  let idl := [3; 90; 40; 7; 0; 0; 0] in let merge := [2; 95; 8] in
  elems (Midl.mdb_midl_xmerge idl merge) = [95; 90; 40; 8; 7] /\
  elems (Midl.mdb_midl_xmerge idl merge) ≡ₚ elems idl ++ elems merge.
Proof.
  split; [reflexivity|].
  refine (proj1 (proj2 (proj2 (mdb_midl_xmerge_correct [3; 90; 40; 7; 0; 0; 0] [2; 95; 8] _ _ _ _ _ _)))).
  - split; vm_compute; [split; congruence|lia].
  - split; vm_compute; [split; congruence|lia].
  - vm_compute. lia.
  - change (sorted [90; 40; 7]). repeat (constructor; [|repeat constructor; lia]). constructor.
  - change (sorted [95; 8]). repeat (constructor; [|repeat constructor; lia]). constructor.
  - change (Forall (word 64) [95; 8]). repeat constructor; vm_compute; congruence.
Defined.
