(* ===== verification/Weierstrass.v ===== *)
(** * Weierstrass: the group of a short Weierstrass curve

    The curve y^2 = x^3 + a x + b over the integers modulo a prime other than
    2, with the chord and tangent addition and the point at infinity.  A line
    through two points, chord or tangent, has a slope with two equations
    ([line]); they describe the sum whichever case it is ([line_add]) and turn
    associativity into identities of rational functions.  [UECCPoints] maps the
    coordinates of micro-ecc to this group. *)

From Stdlib Require Import ZArith Lia Zmod ZmodInv Field Zdivisibility.
From S2P Require Import Edwards.

Section Weierstrass.
Context {m : Z} (Hm : Z.prime m).
Local Open Scope fld_scope.
Local Notation F := (Zmod m).
Local Notation "0" := (@Zmod.zero m) : fld_scope.
Local Notation "1" := (@Zmod.one m) : fld_scope.
Local Infix "+" := (@Zmod.add m) : fld_scope.
Local Infix "*" := (@Zmod.mul m) : fld_scope.
Local Infix "-" := (@Zmod.sub m) : fld_scope.
Local Infix "/" := (@Zmod.mdiv m) : fld_scope.
Local Notation "- x" := (@Zmod.opp m x) : fld_scope.
Local Notation "x ²" := (x * x) (at level 30) : fld_scope.
Local Notation "2" := (1 + 1) : fld_scope.
Local Notation "3" := (1 + 1 + 1) : fld_scope.

Add Field wfld : (Zmod.field_theory m Hm).

(** ** The curve and its addition *)

Variables a b : F.
Hypothesis two_nonzero : 2 <> 0.

(** The curve has no double point: x^3 + a x + b has no double root. *)
Hypothesis smooth : forall x, x² * x + a * x + b = 0 -> 3 * x² + a <> 0.

Definition w_point : Type := option (F * F).

Definition w_on (P : w_point) : Prop :=
  match P with
  | None => True
  | Some (x, y) => y² = x² * x + a * x + b
  end.

Definition w_opp (P : w_point) : w_point :=
  match P with
  | None => None
  | Some (x, y) => Some (x, - y)
  end.

(** The reflected third point of the line of slope [l] through (x1, y1) and x2. *)
Definition third (l x1 y1 x2 : F) : F * F :=
  let x3 := l² - x1 - x2 in (x3, l * (x1 - x3) - y1).

Definition w_add (P Q : w_point) : w_point :=
  match P, Q with
  | None, _ => Q
  | _, None => P
  | Some (x1, y1), Some (x2, y2) =>
      if Zmod.eqb x1 x2 then
        if Zmod.eqb (y1 + y2) 0 then None else Some (third ((3 * x1² + a) / (2 * y1)) x1 y1 x2)
      else Some (third ((y2 - y1) / (x2 - x1)) x1 y1 x2)
  end.

(** ** Lines *)

(** [l] is the slope of the chord, or of the tangent where the points are equal. *)
Definition line (x1 y1 x2 y2 l : F) : Prop :=
  y2 - y1 = l * (x2 - x1) /\ l * (y1 + y2) = x1² + x1 * x2 + x2² + a.

Lemma sub_zero (x y : F) : x - y = 0 -> x = y.
Proof. intros H. replace x with (x - y + y) by ring. rewrite H. ring. Qed.

Lemma add_zero (x y : F) : x + y = 0 -> x = - y.
Proof. intros H. replace x with (x + y - y) by ring. rewrite H. ring. Qed.

Lemma sub_nonzero (x y : F) : x <> y -> y - x <> 0.
Proof. intros N H. apply N. symmetry. now apply sub_zero. Qed.

Lemma fld_cancel (c x y : F) : c <> 0 -> c * x = c * y -> x = y.
Proof. intros N H. destruct (fld_integral Hm c (x - y)) as [E|E]; [|contradiction|now apply sub_zero]. replace (c * (x - y)) with (c * x - c * y) by ring. rewrite H. ring. Qed.

Lemma double_zero (y : F) : y + y = 0 -> y = 0.
Proof. intros H. apply (fld_cancel 2); [exact two_nonzero|]. replace (2 * y) with (y + y) by ring. rewrite H. ring. Qed.

Lemma div_mul (x c : F) : c <> 0 -> x * c / c = x.
Proof. intros N. field. exact N. Qed.

Lemma mul_div (x c : F) : c <> 0 -> x / c * c = x.
Proof. intros N. field. exact N. Qed.

(** Points of equal abscissa are equal or opposite. *)
Lemma same_x x y1 y2 : w_on (Some (x, y1)) -> w_on (Some (x, y2)) -> y1 = y2 \/ y1 + y2 = 0.
Proof.
  cbn. intros H1 H2. destruct (fld_integral Hm (y1 - y2) (y1 + y2)) as [E|E]; [|left; now apply sub_zero|now right].
  replace ((y1 - y2) * (y1 + y2)) with (y1² - y2²) by ring. rewrite H1, H2. ring.
Qed.

Lemma line_add x1 y1 x2 y2 l : ~ (x1 = x2 /\ y1 + y2 = 0) -> line x1 y1 x2 y2 l ->
  w_add (Some (x1, y1)) (Some (x2, y2)) = Some (third l x1 y1 x2).
Proof.
  intros N [E1 E2]. cbn. destruct (Zmod.eqb_spec x1 x2) as [->|Nx].
  - destruct (Zmod.eqb_spec (y1 + y2) 0) as [E|Ny]; [now destruct N|].
    assert (y2 = y1) as -> by (apply sub_zero; rewrite E1; ring).
    assert (2 * y1 <> 0) by (replace (2 * y1) with (y1 + y1) by ring; exact Ny).
    replace ((3 * x2² + a) / (2 * y1)) with l; [reflexivity|]. replace (3 * x2² + a) with (l * (2 * y1)).
    + now rewrite div_mul.
    + replace (l * (2 * y1)) with (l * (y1 + y1)) by ring. rewrite E2. ring.
  - replace ((y2 - y1) / (x2 - x1)) with l; [reflexivity|]. rewrite E1. field. now apply sub_nonzero.
Qed.

Lemma line_exists x1 y1 x2 y2 : w_on (Some (x1, y1)) -> w_on (Some (x2, y2)) -> ~ (x1 = x2 /\ y1 + y2 = 0) ->
  exists l, line x1 y1 x2 y2 l.
Proof.
  intros H1 H2 N. destruct (fld_eq_dec x1 x2) as [->|Nx].
  - destruct (same_x x2 y1 y2 H1 H2) as [->|E]; [|now destruct N].
    assert (y2 <> 0) by (intros ->; apply N; split; [reflexivity|ring]).
    exists ((3 * x2² + a) / (2 * y2)). split; [ring|]. replace (y2 + y2) with (2 * y2) by ring.
    rewrite mul_div by now apply (fld_neq_mul Hm). ring.
  - exists ((y2 - y1) / (x2 - x1)). pose proof (sub_nonzero _ _ Nx). split; [field; auto|].
    cbn in H1, H2. replace ((y2 - y1) / (x2 - x1) * (y1 + y2)) with ((y2² - y1²) / (x2 - x1)) by (field; auto).
    rewrite H1, H2. field. auto.
Qed.

Lemma line_sym x1 y1 x2 y2 l : line x1 y1 x2 y2 l -> line x2 y2 x1 y1 l.
Proof.
  intros [E1 E2]. split; [replace (y1 - y2) with (- (y2 - y1)) by ring; rewrite E1; ring|].
  replace (y2 + y1) with (y1 + y2) by ring. rewrite E2. ring.
Qed.

Lemma third_sym x1 y1 x2 y2 l : line x1 y1 x2 y2 l -> third l x1 y1 x2 = third l x2 y2 x1.
Proof.
  intros [E1 _]. unfold third. replace y2 with (y1 + l * (x2 - x1)) by (rewrite <- E1; ring). f_equal; ring.
Qed.

Lemma third_on x1 y1 x2 y2 l : w_on (Some (x1, y1)) -> line x1 y1 x2 y2 l -> w_on (Some (third l x1 y1 x2)).
Proof.
  cbn. intros H [E1 E2]. assert (Ey : y2 = y1 + l * (x2 - x1)) by (rewrite <- E1; ring). rewrite Ey in E2.
  assert (Ea : a = l * (y1 + (y1 + l * (x2 - x1))) - x1² - x1 * x2 - x2²) by (rewrite E2; ring).
  assert (Eb : b = y1² - x1² * x1 - a * x1) by (rewrite H; ring).
  rewrite Eb, Ea. ring.
Qed.

(** ** Laws that need no cases *)

(** The sum is infinity, or one of the points, or comes from a line. *)
Inductive sum_case (P Q : w_point) : Prop :=
| sum_zero_l : P = None -> sum_case P Q
| sum_zero_r : Q = None -> sum_case P Q
| sum_opposite : P = w_opp Q -> w_add P Q = None -> sum_case P Q
| sum_line x1 y1 x2 y2 l : P = Some (x1, y1) -> Q = Some (x2, y2) -> ~ (x1 = x2 /\ y1 + y2 = 0) ->
    line x1 y1 x2 y2 l -> w_add P Q = Some (third l x1 y1 x2) -> sum_case P Q.

Lemma w_add_cases P Q : w_on P -> w_on Q -> sum_case P Q.
Proof.
  intros HP HQ. destruct P as [[x1 y1]|]; [|now constructor]. destruct Q as [[x2 y2]|]; [|now constructor 2].
  destruct (fld_eq_dec x1 x2) as [Ex|Nx]; [destruct (fld_eq_dec (y1 + y2) 0) as [Ey|Ny]|].
  - subst x2. constructor 3; cbn.
    + f_equal. f_equal. replace y1 with (y1 + y2 - y2) by ring. rewrite Ey. ring.
    + now rewrite Zmod.eqb_refl, Ey, Zmod.eqb_refl.
  - destruct (line_exists _ _ _ _ HP HQ) as [l Hl]; [now intros [_ ?]|]. econstructor 4; try reflexivity; [now intros [_ ?]|exact Hl|].
    apply line_add; [now intros [_ ?]|exact Hl].
  - destruct (line_exists _ _ _ _ HP HQ) as [l Hl]; [now intros [? _]|]. econstructor 4; try reflexivity; [now intros [? _]|exact Hl|].
    apply line_add; [now intros [? _]|exact Hl].
Qed.

Lemma w_add_0_r P : w_add P None = P.
Proof. now destruct P as [[x y]|]. Qed.

Lemma w_opp_opp P : w_opp (w_opp P) = P.
Proof. destruct P as [[x y]|]; [|reflexivity]. cbn. do 2 f_equal. ring. Qed.

Lemma w_on_opp P : w_on P -> w_on (w_opp P).
Proof. destruct P as [[x y]|]; [|trivial]. cbn. intros H. replace ((- y)²) with (y²) by ring. exact H. Qed.

Lemma w_add_opp P : w_add P (w_opp P) = None.
Proof. destruct P as [[x y]|]; [|reflexivity]. cbn. rewrite Zmod.eqb_refl. replace (y + - y) with 0 by ring. now rewrite Zmod.eqb_refl. Qed.

Lemma w_on_add P Q : w_on P -> w_on Q -> w_on (w_add P Q).
Proof.
  intros HP HQ. destruct (w_add_cases P Q HP HQ) as [-> | -> |_ ->|x1 y1 x2 y2 l -> -> _ Hl ->].
  - exact HQ.
  - now rewrite w_add_0_r.
  - exact I.
  - now apply (third_on x1 y1 x2 y2).
Qed.

Lemma w_add_comm P Q : w_on P -> w_on Q -> w_add P Q = w_add Q P.
Proof.
  intros HP HQ. destruct (w_add_cases P Q HP HQ) as [-> | -> | -> -> |x1 y1 x2 y2 l -> -> N Hl ->].
  - now rewrite w_add_0_r.
  - now rewrite w_add_0_r.
  - now rewrite w_add_opp.
  - rewrite (line_add x2 y2 x1 y1 l).
    + now rewrite (third_sym x1 y1 x2 y2).
    + intros [-> E]. apply N. split; [reflexivity|]. rewrite <- E. ring.
    + now apply line_sym.
Qed.

Lemma w_opp_add P Q : w_on P -> w_on Q -> w_opp (w_add P Q) = w_add (w_opp P) (w_opp Q).
Proof.
  intros HP HQ. destruct (w_add_cases P Q HP HQ) as [-> | -> | -> -> |x1 y1 x2 y2 l -> -> N Hl ->].
  - reflexivity.
  - cbn. now rewrite !w_add_0_r.
  - now rewrite w_opp_opp, w_add_opp.
  - cbn [w_opp]. rewrite (line_add x1 (- y1) x2 (- y2) (- l)).
    + unfold third. cbn [w_opp]. do 2 f_equal; ring.
    + intros [-> E]. apply N. split; [reflexivity|]. replace (y1 + y2) with (- (- y1 + - y2)) by ring. rewrite E. ring.
    + destruct Hl as [E1 E2]. split.
      * replace (- y2 - - y1) with (- (y2 - y1)) by ring. rewrite E1. ring.
      * replace (- l * (- y1 + - y2)) with (l * (y1 + y2)) by ring. exact E2.
Qed.

(** ** Cancellation *)

(** The slopes of the two equations, solved. *)
Lemma line_y x1 y1 x2 y2 l : line x1 y1 x2 y2 l -> y1 = y2 - l * (x2 - x1).
Proof. intros [E _]. rewrite <- E. ring. Qed.

Lemma line_a x1 y1 x2 y2 l : line x1 y1 x2 y2 l -> a = l * (y1 + y2) - x1² - x1 * x2 - x2².
Proof. intros [_ E]. rewrite E. ring. Qed.

(** The line through the sum and an opposite has the opposite slope. *)
Lemma line_third x1 y1 x2 y2 l x3 y3 : line x1 y1 x2 y2 l -> third l x1 y1 x2 = (x3, y3) -> line x3 y3 x2 (- y2) (- l).
Proof.
  intros Hl [= <- <-]. pose proof (line_y _ _ _ _ _ Hl) as ->. pose proof (line_a _ _ _ _ _ Hl) as Ea. split; [ring|]. rewrite Ea. ring.
Qed.

Lemma sum_not_operand x1 y1 x2 y2 l : w_on (Some (x2, y2)) -> line x1 y1 x2 y2 l -> third l x1 y1 x2 <> (x2, y2).
Proof.
  intros H2 Hl E. pose proof (line_y _ _ _ _ _ Hl) as ->. pose proof (line_a _ _ _ _ _ Hl) as Ea. injection E as Ex Ey.
  assert (El : l² = x1 + 2 * x2) by (replace (l²) with (l² - x1 - x2 + x1 + x2) by ring; rewrite Ex; ring).
  rewrite Ex in Ey. assert (Y0 : y2 = 0) by (apply double_zero; rewrite <- Ey at 1; ring). clear Ey.
  apply (smooth x2); [rewrite <- H2, Y0; ring|]. rewrite Ea, Y0.
  replace (3 * x2² + (l * (0 - l * (x2 - x1) + 0) - x1² - x1 * x2 - x2²)) with ((x1 - x2) * (l² - (x1 + 2 * x2))) by ring.
  rewrite El. ring.
Qed.

Lemma w_add_cancel P Q : w_on P -> w_on Q -> w_add (w_add P Q) (w_opp Q) = P.
Proof.
  intros HP HQ. destruct (w_add_cases P Q HP HQ) as [-> | -> | -> -> |x1 y1 x2 y2 l -> -> N Hl ->].
  - apply w_add_opp.
  - cbn [w_opp]. now rewrite !w_add_0_r.
  - reflexivity.
  - pose proof (sum_not_operand _ _ _ _ _ HQ Hl) as NS. destruct (third l x1 y1 x2) as [x3 y3] eqn:E3.
    pose proof (line_third _ _ _ _ _ _ _ Hl E3) as H3. cbn [w_opp]. rewrite (fun N => line_add _ _ _ _ _ N H3).
    + injection E3 as <- <-. unfold third. do 2 f_equal; ring.
    + intros [-> E]. apply NS. f_equal. apply sub_zero. rewrite <- E. ring.
Qed.

(** ** Associativity

    For slopes l of A B and k of B C that differ, the slopes of (A + B) C and
    A (B + C) are -(l + q) and -(k + q), where q = (x3 - x1) / (l - k). *)

Section Slopes.
Variables x1 y1 x2 y2 x3 y3 l k q : F.
Hypothesis AB : line x1 y1 x2 y2 l.
Hypothesis BC : line x2 y2 x3 y3 k.
Hypothesis slopes : l <> k.
Hypothesis q_def : x3 - x1 = q * (l - k).

Lemma sum_of_y : y1 + y3 = q * (k * l - (x1 + x2 + x3)).
Proof.
  apply (fld_cancel (l - k)); [intros E; apply slopes; now apply sub_zero|].
  replace ((l - k) * (q * (k * l - (x1 + x2 + x3)))) with (q * (l - k) * (k * l - (x1 + x2 + x3))) by ring.
  rewrite <- q_def. pose proof (line_a _ _ _ _ _ AB) as E1. pose proof (line_a _ _ _ _ _ BC) as E2.
  pose proof (line_y _ _ _ _ _ AB) as Y1. pose proof (line_y _ _ _ _ _ (line_sym _ _ _ _ _ BC)) as Y3. rewrite E1 in E2. rewrite Y1, Y3 in *.
  assert (E : (l + l - (k + k)) * y2 = l² * (x2 - x1) + k² * (x3 - x2) + x1² + x1 * x2 - x2 * x3 - x3²).
  { apply sub_zero. match type of E2 with ?u = ?v => transitivity (u - v); [ring|rewrite E2; ring] end. }
  replace ((l - k) * (y2 - l * (x2 - x1) + (y2 - k * (x2 - x3))))
    with ((l + l - (k + k)) * y2 - (l - k) * (l * (x2 - x1) + k * (x2 - x3))) by ring.
  rewrite E. ring.
Qed.

Lemma twice_y : y1 + y1 = q * (k * l - (x1 + x2 + x3)) - l * (x2 - x1) - k * (x3 - x2).
Proof.
  rewrite <- sum_of_y, (line_y _ _ _ _ _ (line_sym _ _ _ _ _ BC)), (line_y _ _ _ _ _ (line_sym _ _ _ _ _ AB)). ring.
Qed.

Lemma line_left : let '(xs, ys) := third l x1 y1 x2 in line xs ys x3 y3 (- (l + q)).
Proof.
  cbn. pose proof sum_of_y as Sy. pose proof (line_a _ _ _ _ _ AB) as Ea. pose proof (line_y _ _ _ _ _ (line_sym _ _ _ _ _ AB)) as Y2.
  assert (X3 : x3 = x1 + q * (l - k)) by (rewrite <- q_def; ring). pose proof twice_y as W.
  assert (D : y3 = q * (k * l - (x1 + x2 + x3)) - y1) by (rewrite <- Sy; ring).
  unfold line. rewrite Ea, Y2, D. clear Ea Y2 Sy D AB BC q_def. split.
  - rewrite X3. ring.
  - replace (l * (y1 + (y1 - l * (x1 - x2)))) with (l * (y1 + y1 - l * (x1 - x2))) by ring.
    replace (l * (x1 - (l² - x1 - x2)) - y1 + (q * (k * l - (x1 + x2 + x3)) - y1))
      with (l * (x1 - (l² - x1 - x2)) + q * (k * l - (x1 + x2 + x3)) - (y1 + y1)) by ring.
    rewrite W, X3. ring.
Qed.

End Slopes.

(** Reading the lines backwards gives the other slope. *)
Lemma line_right x1 y1 x2 y2 x3 y3 l k q : line x1 y1 x2 y2 l -> line x2 y2 x3 y3 k -> l <> k -> x3 - x1 = q * (l - k) ->
  let '(xt, yt) := third k x2 y2 x3 in line x1 y1 xt yt (- (k + q)).
Proof.
  intros AB BC N Q. rewrite (third_sym x2 y2 x3 y3 k BC).
  pose proof (line_left x3 y3 x2 y2 x1 y1 k l q (line_sym _ _ _ _ _ BC) (line_sym _ _ _ _ _ AB) (not_eq_sym N)) as H.
  destruct (third k x3 y3 x2) as [xt yt]. apply line_sym, H. replace (x1 - x3) with (- (x3 - x1)) by ring. rewrite Q. ring.
Qed.

(** On one line, either the ends are equal or the third point closes it. *)
Lemma collinear x1 y1 x2 y2 x3 y3 l : line x1 y1 x2 y2 l -> line x2 y2 x3 y3 l ->
  (x1 = x3 /\ y1 = y3) \/ third l x1 y1 x2 = (x3, - y3).
Proof.
  intros AB BC. pose proof (line_a _ _ _ _ _ AB) as E1. pose proof (line_a _ _ _ _ _ BC) as E2.
  pose proof (line_y _ _ _ _ _ AB) as Y1. pose proof (line_y _ _ _ _ _ (line_sym _ _ _ _ _ BC)) as Y3. rewrite E1 in E2. rewrite Y1, Y3 in *.
  destruct (fld_integral Hm (x1 - x3) (x1 + x2 + x3 - l²)) as [E|E].
  - match type of E2 with ?u = ?v => transitivity (v - u); [ring|rewrite E2; ring] end.
  - left. apply sub_zero in E as ->. split; [reflexivity|ring].
  - right. assert (X3 : x3 = l² - x1 - x2) by (apply sub_zero; rewrite <- E; ring). rewrite X3. unfold third. f_equal. ring.
Qed.

Lemma w_add_assoc_lines x1 y1 x2 y2 x3 y3 l k xs ys xt yt : line x1 y1 x2 y2 l -> line x2 y2 x3 y3 k ->
  third l x1 y1 x2 = (xs, ys) -> third k x2 y2 x3 = (xt, yt) -> ~ (xs = x3 /\ ys + y3 = 0) -> ~ (x1 = xt /\ y1 + yt = 0) ->
  w_on (Some (x1, y1)) -> w_on (Some (xs, ys)) -> w_add (Some (xs, ys)) (Some (x3, y3)) = w_add (Some (x1, y1)) (Some (xt, yt)).
Proof.
  intros AB BC ES ET NS NT HA HS. destruct (fld_eq_dec l k) as [<-|N].
  - destruct (collinear _ _ _ _ _ _ _ AB BC) as [[<- <-]|E].
    + rewrite (third_sym _ _ _ _ _ BC), ES in ET. injection ET as <- <-. apply w_add_comm; assumption.
    + rewrite ES in E. injection E as -> ->. destruct NS. split; [reflexivity|ring].
  - assert (Nlk : l - k <> 0) by (intros E; apply N; now apply sub_zero).
    set (q := (x3 - x1) / (l - k)). assert (Q : x3 - x1 = q * (l - k)) by (unfold q; now rewrite mul_div).
    pose proof (line_left x1 y1 x2 y2 x3 y3 l k q AB BC N Q) as HL. pose proof (line_right x1 y1 x2 y2 x3 y3 l k q AB BC N Q) as HR.
    rewrite ES in HL. rewrite ET in HR. rewrite (line_add _ _ _ _ _ NS HL), (line_add _ _ _ _ _ NT HR). f_equal.
    injection ES as <- <-. injection ET as <- <-. clear HL HR NS NT HA HS. clearbody q. unfold third.
    assert (X3 : x3 = x1 + q * (l - k)) by (rewrite <- Q; ring). pose proof (twice_y x1 y1 x2 y2 x3 y3 l k q AB BC N Q) as W.
    rewrite X3 in *. f_equal; [ring|]. apply sub_zero.
    match type of W with _ = ?w => match goal with |- ?u = _ => transitivity (u - (y1 + y1) + w); [rewrite <- W|]; ring end end.
Qed.

Lemma w_opp_inj_add P Q R : w_on P -> w_on Q -> w_add P Q = w_opp R -> w_add Q R = w_opp P.
Proof.
  intros HP HQ E. rewrite <- (w_opp_opp R), <- E, <- (w_opp_opp Q) at 1. rewrite <- w_opp_add; [|now apply w_on_opp|now apply w_on_add].
  f_equal. rewrite w_add_comm; [|now apply w_on_opp|now apply w_on_add]. now apply w_add_cancel.
Qed.

Lemma opp_pair x1 y1 x2 y2 : x1 = x2 /\ y1 + y2 = 0 -> Some (x1, y1) = w_opp (Some (x2, y2)).
Proof. intros [-> E]. cbn. do 2 f_equal. replace y1 with (y1 + y2 - y2) by ring. rewrite E. ring. Qed.

Lemma w_opp_l P : w_add (w_opp P) P = None.
Proof. rewrite <- (w_opp_opp P) at 2. apply w_add_opp. Qed.

Lemma opp_dec (x1 y1 x2 y2 : F) : {x1 = x2 /\ y1 + y2 = 0} + {~ (x1 = x2 /\ y1 + y2 = 0)}.
Proof. destruct (fld_eq_dec x1 x2), (fld_eq_dec (y1 + y2) 0); (now left) || (right; tauto). Qed.

Lemma w_add_assoc P Q R : w_on P -> w_on Q -> w_on R -> w_add (w_add P Q) R = w_add P (w_add Q R).
Proof.
  intros HP HQ HR. destruct (w_add_cases P Q HP HQ) as [-> | -> | EP E0 |x1 y1 x2 y2 l EP EQ N1 AB ES].
  - reflexivity.
  - now rewrite w_add_0_r.
  - rewrite E0. cbn. rewrite EP, (w_add_comm (w_opp Q)), (w_add_comm Q) by (try apply w_on_add; try apply w_on_opp; assumption).
    symmetry. now apply w_add_cancel.
  - destruct (w_add_cases Q R HQ HR) as [E | -> | EQ' E0 |x2' y2' x3 y3 k EQ' ER N2 BC ET].
    + now rewrite EQ in E.
    + now rewrite !w_add_0_r.
    + rewrite E0, w_add_0_r. rewrite <- (w_opp_opp R), <- EQ'. now apply w_add_cancel.
    + rewrite EQ in EQ'. injection EQ' as <- <-. destruct (third l x1 y1 x2) as [xs ys] eqn:E3. destruct (third k x2 y2 x3) as [xt yt] eqn:E4.
      destruct (opp_dec xs ys x3 y3) as [O|NS]; [|destruct (opp_dec x1 y1 xt yt) as [O|NT]].
      * apply opp_pair in O. rewrite <- ER, <- ES in O. now rewrite (w_opp_inj_add P Q R HP HQ O), w_add_opp, O, w_opp_l.
      * apply opp_pair in O. rewrite <- EP, <- ET in O. assert (O' : w_add Q R = w_opp P) by (rewrite O; now rewrite w_opp_opp).
        rewrite O', w_add_opp, (w_opp_inj_add R P Q HR HP (w_opp_inj_add Q R P HQ HR O')). apply w_opp_l.
      * rewrite ES, ET, EP, ER. rewrite EP in HP. apply (w_add_assoc_lines x1 y1 x2 y2 x3 y3 l k); try assumption.
        rewrite <- E3. now apply (third_on x1 y1 x2 y2).
Qed.

(** ** Multiples *)

Definition w_mul (k : Z) (P : w_point) : w_point :=
  if (k <? 0)%Z then w_opp (N.iter (Z.to_N (- k)) (w_add P) None) else N.iter (Z.to_N k) (w_add P) None.

Lemma w_mul_0 P : w_mul 0 P = None.
Proof. reflexivity. Qed.

Lemma w_mul_1 P : w_mul 1 P = P.
Proof. apply w_add_0_r. Qed.

Lemma w_mul_nonneg k P : (0 <= k)%Z -> w_mul (Z.succ k) P = w_add P (w_mul k P).
Proof.
  intros Hk. unfold w_mul. rewrite (proj2 (Z.ltb_ge k 0)), (proj2 (Z.ltb_ge (Z.succ k) 0)) by lia. rewrite Z2N.inj_succ by lia. apply N.iter_succ.
Qed.

Lemma w_mul_opp_pos k P : (0 < k)%Z -> w_mul (- k) P = w_opp (w_mul k P).
Proof. intros Hk. unfold w_mul. rewrite (proj2 (Z.ltb_lt (- k) 0)), (proj2 (Z.ltb_ge k 0)), Z.opp_involutive by lia. reflexivity. Qed.

Section Multiples.
Variable P : w_point.
Hypothesis HP : w_on P.

Lemma w_on_mul k : w_on (w_mul k P).
Proof.
  assert (H : forall j, (0 <= j)%Z -> w_on (w_mul j P)).
  { intros j Hj. pattern j. apply natlike_ind; [exact I| |exact Hj]. intros i Hi IH. rewrite w_mul_nonneg by exact Hi. now apply w_on_add. }
  destruct (Z.lt_ge_cases k 0) as [Hk|Hk]; [|now apply H]. rewrite <- (Z.opp_involutive k), w_mul_opp_pos by lia. apply w_on_opp, H. lia.
Qed.

Lemma w_mul_succ k : w_mul (Z.succ k) P = w_add (w_mul k P) P.
Proof.
  destruct (Z.lt_ge_cases k 0) as [Hk|Hk].
  - assert (E : w_mul (- k) P = w_add P (w_mul (- Z.succ k) P)).
    { replace (- k)%Z with (Z.succ (- Z.succ k)) by lia. apply w_mul_nonneg. lia. }
    rewrite <- (Z.opp_involutive k) at 2. rewrite w_mul_opp_pos, E, w_opp_add by (lia || exact HP || apply w_on_mul).
    rewrite w_add_comm by (try apply w_on_add; try apply w_on_opp; try apply w_on_mul; exact HP).
    rewrite <- w_add_assoc, w_add_opp by (try apply w_on_opp; try apply w_on_mul; exact HP). cbn [w_add].
    destruct (Z.eq_dec k (-1)) as [->|N]; [reflexivity|]. rewrite <- w_mul_opp_pos by lia. f_equal. lia.
  - rewrite w_mul_nonneg by exact Hk. apply w_add_comm; [exact HP|apply w_on_mul].
Qed.

Lemma w_mul_pred k : w_mul (Z.pred k) P = w_add (w_mul k P) (w_opp P).
Proof. rewrite <- (Z.succ_pred k) at 2. rewrite w_mul_succ, w_add_cancel; [reflexivity|apply w_on_mul|exact HP]. Qed.

Lemma w_mul_add j k : w_mul (j + k) P = w_add (w_mul j P) (w_mul k P).
Proof.
  pattern k. apply Zind; [now rewrite Z.add_0_r, w_add_0_r|..]; intros i IH.
  - rewrite Z.add_succ_r, !w_mul_succ, IH. apply w_add_assoc; try apply w_on_mul. exact HP.
  - rewrite Z.add_pred_r, !w_mul_pred, IH. apply w_add_assoc; try apply w_on_mul. now apply w_on_opp.
Qed.

Lemma w_add_inj Q R S : w_on Q -> w_on R -> w_on S -> w_add Q S = w_add R S -> Q = R.
Proof. intros HQ HR HS E. rewrite <- (w_add_cancel Q S HQ HS), E. now apply w_add_cancel. Qed.

Lemma w_mul_opp k : w_mul (- k) P = w_opp (w_mul k P).
Proof.
  apply (w_add_inj _ _ (w_mul k P)); try apply w_on_mul; [apply w_on_opp, w_on_mul|].
  now rewrite w_opp_l, <- w_mul_add, Z.add_opp_diag_l.
Qed.

Lemma w_mul_sub j k : w_mul (j - k) P = w_add (w_mul j P) (w_opp (w_mul k P)).
Proof. unfold Z.sub. now rewrite w_mul_add, w_mul_opp. Qed.

End Multiples.

Lemma w_mul_mul j k P : w_on P -> w_mul (j * k) P = w_mul j (w_mul k P).
Proof.
  intros HP. pose proof (w_on_mul P HP k) as HK. pattern j. apply Zind; [reflexivity|..]; intros i IH.
  - rewrite Z.mul_succ_l, w_mul_add, IH, w_mul_succ by assumption. reflexivity.
  - rewrite Z.mul_pred_l, w_mul_sub, IH, w_mul_pred by assumption. reflexivity.
Qed.

Lemma w_mul_None k : w_mul k None = None.
Proof. replace (None : w_point) with (w_mul 0 None) at 1 by reflexivity. rewrite <- w_mul_mul, Z.mul_0_r by exact I. reflexivity. Qed.

(** ** Points of prime order *)

Section Order.
Variables (n : Z) (P : w_point).
Hypothesis Hn : Z.prime n.
Hypothesis HP : w_on P.
Hypothesis order_n : w_mul n P = None.
Hypothesis P_finite : P <> None.

Lemma w_mul_multiple k : Z.divide n k -> w_mul k P = None.
Proof. intros [j ->]. rewrite w_mul_mul, order_n by exact HP. apply w_mul_None. Qed.

Lemma w_mul_zero k : w_mul k P = None -> Z.divide n k.
Proof.
  intros E. destruct (Z.eq_dec (k mod n) 0) as [D|N]; [apply Z.mod_divide; [pose proof (Z.prime_ge_2 n Hn); lia|exact D]|].
  exfalso. apply P_finite. assert (C : Z.gcd n k = 1%Z).
  { apply Z.coprime_prime_l; [exact Hn|]. intros D. apply N. apply Z.mod_divide; [pose proof (Z.prime_ge_2 n Hn); lia|exact D]. }
  destruct (Z.gcd_bezout n k 1 C) as (u & v & B). rewrite <- (w_mul_1 P), <- B, w_mul_add by exact HP.
  rewrite !w_mul_mul, order_n, E, !w_mul_None by exact HP. reflexivity.
Qed.

Lemma w_mul_eq j k : w_mul j P = w_mul k P <-> Z.divide n (j - k).
Proof.
  split; intros H.
  - apply w_mul_zero. rewrite w_mul_sub, H by exact HP. apply w_add_opp.
  - replace j with (j - k + k)%Z by lia. rewrite w_mul_add, w_mul_multiple by assumption. reflexivity.
Qed.

Lemma w_mul_mod k : w_mul (k mod n) P = w_mul k P.
Proof.
  apply w_mul_eq. exists (- (k / n))%Z. pose proof (Z.prime_ge_2 n Hn). rewrite Z.mod_eq by lia. ring.
Qed.

End Order.

End Weierstrass.
