(* ===== verification/Jacobian.v ===== *)
(** * Jacobian: projective formulas on a Weierstrass curve

    A pair (X, Y) represents an affine point with respect to a nonzero z by
    X = x z^2 and Y = y z^3.  The co-Z addition and its conjugate, for two
    points that share their z, and the doubling for a = -3 compute the sum,
    the difference and the double of the group of [Weierstrass]. *)

From Stdlib Require Import ZArith Lia Zmod ZmodInv Field Zdivisibility.
From S2P Require Import Edwards Weierstrass.

Section Jacobian.
Context {m : Z} (Hm : Z.prime m).
Local Open Scope fld_scope.
Local Notation F := (Zmod m).
Local Notation "0" := (@Zmod.zero m) : fld_scope.
Local Notation "1" := (@Zmod.one m) : fld_scope.
Local Infix "+" := (@Zmod.add m) : fld_scope.
Local Infix "*" := (@Zmod.mul m) : fld_scope.
Local Infix "-" := (@Zmod.sub m) : fld_scope.
Local Infix "/" := (@Zmod.mdiv m) : fld_scope.
Local Notation "- x" := (@Zmod.opp m x) : fld_scope.
Local Notation "x ²" := (x * x) (at level 30) : fld_scope.
Local Notation "2" := (1 + 1) : fld_scope.
Local Notation "3" := (1 + 1 + 1) : fld_scope.

Add Field jfld : (Zmod.field_theory m Hm).

Variables a b : F.
Hypothesis two_nonzero : 2 <> 0.

Definition jrep (z : F) (p : F * F) (P : w_point (m := m)) : Prop :=
  z <> 0 /\ exists x y, P = Some (x, y) /\ p = (x * z², y * (z² * z)).

(** ** The formulas *)

Definition apply_zF (z : F) '((X, Y) : F * F) : F * F := (X * z², Y * (z² * z)).

Definition coz_add '((X1, Y1) : F * F) '((X2, Y2) : F * F) : (F * F) * (F * F) :=
  let A := (X2 - X1)² in
  let B := X1 * A in
  let C := X2 * A in
  let X3 := (Y2 - Y1)² - B - C in
  let E := Y1 * (C - B) in
  ((B, E), (X3, (Y2 - Y1) * (B - X3) - E)).

Definition coz_addc '((X1, Y1) : F * F) '((X2, Y2) : F * F) : (F * F) * (F * F) :=
  let A := (X2 - X1)² in
  let B := X1 * A in
  let C := X2 * A in
  let E := Y1 * (C - B) in
  let X3 := (Y2 - Y1)² - (B + C) in
  let X3' := (Y2 + Y1)² - (B + C) in
  ((X3', (X3' - B) * (Y2 + Y1) - E), (X3, (Y2 - Y1) * (B - X3) - E)).

(** [h] is a half. *)
Definition jdouble (h : F) '((X, Y) : F * F) (z : F) : (F * F) * F :=
  let A := X * Y² in
  let B := 3 * ((X + z²) * (X - z²)) * h in
  let X3 := B² - A - A in
  ((X3, B * (A - X3) - Y² * Y²), Y * z).

(** ** Their correctness *)

Lemma apply_z_jrep z p P : z <> 0 -> P = Some p -> jrep z (apply_zF z p) P.
Proof. intros Hz ->. destruct p as [x y]. split; [exact Hz|]. now exists x, y. Qed.

Lemma apply_z_affine z w p P : jrep z p P -> w * z = 1 \/ w * z = 0 - 1 -> 
  exists x y, P = Some (x, y) /\ apply_zF w p = (x, y * (w * z)).
Proof.
  intros (Hz & x & y & -> & ->) Hw. exists x, y. split; [reflexivity|]. cbn.
  assert (E : (w * z)² = 1) by (destruct Hw as [-> | ->]; ring). f_equal.
  - replace (x * z² * w²) with (x * (w * z)²) by ring. rewrite E. ring.
  - replace (y * (z² * z) * (w² * w)) with (y * ((w * z)² * (w * z))) by ring. rewrite E. ring.
Qed.

(** Points of one z are told apart by their X. *)
Lemma jrep_x z X1 Y1 X2 Y2 P Q : jrep z (X1, Y1) P -> jrep z (X2, Y2) Q -> w_on a b P -> w_on a b Q ->
  P <> Q -> P <> w_opp Q -> X2 - X1 <> 0.
Proof.
  intros (Hz & x1 & y1 & -> & [= -> ->]) (_ & x2 & y2 & -> & [= -> ->]) HP HQ N1 N2 E. apply sub_zero in E; [|exact Hm].
  assert (x2 = x1) as ->.
  { apply (fld_cancel Hm (z²)); [now apply (fld_neq_mul Hm)|]. transitivity (x2 * z²); [ring|rewrite E; ring]. }
  destruct (same_x Hm a b x1 y1 y2 HP HQ) as [-> | E']; [now apply N1|]. apply N2. now apply (opp_pair Hm).
Qed.

Section Addition.
Variables (z : F) (p q : F * F) (P Q : w_point (m := m)).
Hypothesis HP : jrep z p P.
Hypothesis HQ : jrep z q Q.
Hypothesis apart : fst q - fst p <> 0.

Lemma coz_z : z * (fst q - fst p) <> 0.
Proof. apply (fld_neq_mul Hm); [apply HP|exact apart]. Qed.

Lemma chord_add x1 y1 x2 y2 : x2 - x1 <> 0 ->
  w_add a (Some (x1, y1)) (Some (x2, y2)) = Some (third ((y2 - y1) / (x2 - x1)) x1 y1 x2).
Proof.
  intros N. cbn. destruct (Zmod.eqb_spec x1 x2) as [->|]; [|reflexivity]. destruct N. ring.
Qed.

Lemma coz_add_correct : let '(p', s) := coz_add p q in
  jrep (z * (fst q - fst p)) p' P /\ jrep (z * (fst q - fst p)) s (w_add a P Q).
Proof.
  pose proof coz_z as Nz. destruct HP as (Hz & x1 & y1 & -> & ->), HQ as (_ & x2 & y2 & -> & ->). cbn [fst] in *.
  assert (Nx : x2 - x1 <> 0) by (intros E; apply apart; replace (x2 * z² - x1 * z²) with ((x2 - x1) * z²) by ring; rewrite E; ring).
  rewrite chord_add by exact Nx. cbn [coz_add]. split; (split; [exact Nz|]).
  - exists x1, y1. split; [reflexivity|]. f_equal; ring.
  - unfold third. eexists _, _. split; [reflexivity|]. f_equal; field; exact Nx.
Qed.

Lemma coz_addc_correct : let '(d, s) := coz_addc p q in
  jrep (z * (fst q - fst p)) d (w_add a P (w_opp Q)) /\ jrep (z * (fst q - fst p)) s (w_add a P Q).
Proof.
  pose proof coz_z as Nz. destruct HP as (Hz & x1 & y1 & -> & ->), HQ as (_ & x2 & y2 & -> & ->). cbn [fst w_opp] in *.
  assert (Nx : x2 - x1 <> 0) by (intros E; apply apart; replace (x2 * z² - x1 * z²) with ((x2 - x1) * z²) by ring; rewrite E; ring).
  rewrite !chord_add by exact Nx. cbn [coz_addc]. split; (split; [exact Nz|]).
  - unfold third. eexists _, _. split; [reflexivity|]. f_equal; field; exact Nx.
  - unfold third. eexists _, _. split; [reflexivity|]. f_equal; field; exact Nx.
Qed.

End Addition.

(** What the formulas give for opposite points: zeros, which the next
    additions keep. *)
Lemma coz_addc_opposite (X Y : F) : let t := (- Y - Y) in coz_addc (X, Y) (X, - Y) = ((0, 0), (t², - (t² * t))).
Proof. cbn. f_equal; f_equal; ring. Qed.

Lemma coz_add_zero (t : F) : let e := t² * t in coz_add (t², - e) (0, 0) = ((e², e² * e), (0, 0)).
Proof. cbn. f_equal; f_equal; ring. Qed.

Lemma coz_addc_zero_l (e : F) : coz_addc (0, 0) (e², e² * e) = ((0, 0), (0, 0)).
Proof. cbn. f_equal; f_equal; ring. Qed.

Lemma coz_addc_zero_r (e : F) : coz_addc (e², e² * e) (0, 0) = ((0, 0), (0, 0)).
Proof. cbn. f_equal; f_equal; ring. Qed.

Lemma jrep_opp z X Y X' Y' P : jrep z (X, Y) P -> jrep z (X', Y') (w_opp P) -> X' = X /\ Y' = - Y.
Proof.
  intros (_ & x & y & -> & [= -> ->]) (_ & x' & y' & E & [= -> ->]). injection E as <- <-. split; ring.
Qed.

(** The last inversion of the ladder recovers 1 / z from the known point. *)
Lemma final_z (x y z D : F) : x <> 0 -> y <> 0 -> z <> 0 -> D <> 0 ->
  Zmod.inv (D * (y * (z² * z)) * x) * y * (x * z²) * (z * D) = 1.
Proof. intros Hx Hy Hz HD. field. auto. Qed.

Lemma final_z_opp (x y z D : F) : x <> 0 -> y <> 0 -> z <> 0 -> D <> 0 ->
  Zmod.inv (D * (- y * (z² * z)) * x) * y * (x * z²) * (z * - D) = 1.
Proof.
  intros Hx Hy Hz HD. rewrite <- (final_z x y z (- D)); try assumption; [|intros E; apply HD; replace D with (- - D) by ring; rewrite E; ring].
  do 4 f_equal. ring.
Qed.

Hypothesis a_def : a = 0 - 3.

Lemma jdouble_correct h z p P : h + h = 1 -> jrep z p P -> w_on a b P -> snd p <> 0 ->
  let '(p', z') := jdouble h p z in jrep z' p' (w_add a P P).
Proof.
  intros Hh (Hz & x & y & -> & ->) HP Ny. cbn [snd jdouble] in *.
  assert (Hy : y <> 0) by (intros ->; apply Ny; ring).
  assert (NN : y + y <> 0) by (intros E; apply Hy; now apply (double_zero Hm)).
  assert (Nz' : y * (z² * z) * z <> 0) by (apply (fld_neq_mul Hm); assumption).
  set (l := (x² * 3 + a) * h / y).
  assert (Hl : line a x y x y l).
  { split; [ring|]. unfold l. replace ((x² * 3 + a) * h / y * (y + y)) with ((x² * 3 + a) * (h + h)) by (field; exact Hy). rewrite Hh. ring. }
  rewrite (line_add Hm a x y x y l (fun E => NN (proj2 E)) Hl). split; [exact Nz'|].
  unfold third. eexists _, _. split; [reflexivity|].
  replace (3 * ((x * z² + z²) * (x * z² - z²)) * h) with (l * y * (z² * z²)).
  - f_equal; ring.
  - unfold l. rewrite a_def. replace ((x² * 3 + (0 - 3)) * h / y * y) with ((x² * 3 + (0 - 3)) * h) by (field; exact Hy). ring.
Qed.

End Jacobian.
