(* ===== verification/UECC.v ===== *)
(** * UECC: micro-ecc, the P-256 keys and signatures

    uECC.c and curve-specific.h as the build configures them: 64-bit words
    with [unsigned __int128], squaring function, big-endian byte strings.  A
    number is a list of words, least significant first.  A function that
    writes to a buffer returns it; the operations that the code calls in place
    read each word before they write it, so that one definition serves both
    uses.  The random number generator is a parameter. *)

From stdpp Require Import base list numbers.
From Stdlib Require Import ZArith Lia.
From S2P Require Import Prelude Machine.

Local Open Scope Z_scope.
Local Open Scope buf_scope.

Module UECC.

(** ** Types and macros *)

Definition uECC_WORD_BITS : Z := 64.
Definition uECC_WORD_SIZE : nat := 8.
Definition uECC_MAX_WORDS : nat := 4.
Definition uECC_RNG_MAX_TRIES : nat := 64.
Definition HIGH_BIT_SET : Z := 0x8000000000000000.

Definition BITS_TO_WORDS (num_bits : Z) : nat := Z.to_nat ((num_bits + 63) / 64).
Definition BITS_TO_BYTES (num_bits : Z) : nat := Z.to_nat ((num_bits + 7) / 8).

(** [for (i = n - 1; i >= 0; --i)] *)
Definition for_down {St} (n : nat) (body : nat -> St -> St) (st : St) : St :=
  for_ 0 n (fun j s => body (n - 1 - j)%nat s) st.

(** ** Multi-word integers *)

Definition uECC_vli_clear (vli : list Z) (num_words : nat) : list Z :=
  for_ 0 num_words (fun i vli => vli.[i <- 0]) vli.

Definition uECC_vli_isZero (vli : list Z) (num_words : nat) : Z :=
  let bits := for_ 0 num_words (fun i bits => (bits .| vli.[i])%u64) 0 in
  Z.b2z (bits =? 0).

Definition uECC_vli_testBit (vli : list Z) (bit : Z) : Z :=
  (vli.[Z.to_nat (Z.shiftr bit 6)] & (1 << (Z.land bit 0x3f)))%u64.

Fixpoint vli_numDigits (vli : list Z) (max_words : nat) : nat :=
  match max_words with
  | O => O
  | S i => if vli.[i] =? 0 then vli_numDigits vli i else S i
  end.

(** [for (i = 0; digit; ++i) digit >>= 1], at most 64 turns *)
Fixpoint digit_bits (fuel : nat) (digit : Z) (i : Z) : Z :=
  match fuel with
  | O => i
  | S fuel => if digit =? 0 then i else digit_bits fuel (digit >> 1)%u64 (i + 1)
  end.

Definition uECC_vli_numBits (vli : list Z) (max_words : nat) : Z :=
  let num_digits := vli_numDigits vli max_words in
  match num_digits with
  | O => 0
  | S d =>
      let digit := vli.[d] in
      let i := digit_bits 64 digit 0 in
      Z.shiftl (Z.of_nat d) 6 + i
  end.

Definition uECC_vli_set (dest src : list Z) (num_words : nat) : list Z :=
  for_ 0 num_words (fun i dest => dest.[i <- src.[i]]) dest.

(** The sign of [left - right], from the word below [num_words] down. *)
Fixpoint uECC_vli_cmp_unsafe (left right : list Z) (num_words : nat) : Z :=
  match num_words with
  | O => 0
  | S i =>
      if right.[i] <? left.[i] then 1
      else if left.[i] <? right.[i] then -1
      else uECC_vli_cmp_unsafe left right i
  end.

Definition uECC_vli_equal (left right : list Z) (num_words : nat) : Z :=
  let diff := for_down num_words (fun i diff => (diff .| (left.[i] ^^ right.[i]))%u64) 0 in
  Z.b2z (diff =? 0).

Definition uECC_vli_rshift1 (vli : list Z) (num_words : nat) : list Z :=
  fst (for_down num_words (fun i '(vli, carry) =>
    let temp := vli.[i] in
    (vli.[i <- ((temp >> 1) .| carry)%u64], (temp << 63)%u64)) (vli, 0)).

Definition uECC_vli_add (result left right : list Z) (num_words : nat) : list Z * Z :=
  for_ 0 num_words (fun i '(result, carry) =>
    let sum := (left.[i] + right.[i] + carry)%u64 in
    let carry := if sum =? left.[i] then carry else Z.b2z (sum <? left.[i]) in
    (result.[i <- sum], carry)) (result, 0).

Definition uECC_vli_sub (result left right : list Z) (num_words : nat) : list Z * Z :=
  for_ 0 num_words (fun i '(result, borrow) =>
    let diff := (left.[i] - right.[i] - borrow)%u64 in
    let borrow := if diff =? left.[i] then borrow else Z.b2z (left.[i] <? diff) in
    (result.[i <- diff], borrow)) (result, 0).

Definition uECC_vli_cmp (left right : list Z) (num_words : nat) : Z :=
  let '(tmp, borrow) := uECC_vli_sub (replicate uECC_MAX_WORDS 0) left right num_words in
  let neg := if borrow =? 0 then 0 else 1 in
  let equal := uECC_vli_isZero tmp num_words in
  (if equal =? 0 then 1 else 0) - 2 * neg.

(** Three words of accumulator; [r01] and [p] have 128 bits. *)
Definition muladd (a b : Z) '((r0, r1, r2) : Z * Z * Z) : Z * Z * Z :=
  let p := wmul 128 a b in
  let r01 := Z.lor (wshl 128 r1 64) r0 in
  let r01 := wadd 128 r01 p in
  let r2 := (r2 + Z.b2z (r01 <? p)%Z)%u64 in
  let r1 := wrap 64 (wshr r01 64) in
  let r0 := wrap 64 r01 in
  (r0, r1, r2).

Definition mul2add (a b : Z) '((r0, r1, r2) : Z * Z * Z) : Z * Z * Z :=
  let p := wmul 128 a b in
  let r01 := Z.lor (wshl 128 r1 64) r0 in
  let r2 := (r2 + wrap 64 (wshr p 127))%u64 in
  let p := wmul 128 p 2 in
  let r01 := wadd 128 r01 p in
  let r2 := (r2 + Z.b2z (r01 <? p)%Z)%u64 in
  let r1 := wrap 64 (wshr r01 64) in
  let r0 := wrap 64 r01 in
  (r0, r1, r2).

(** [result[k] = r0; r0 = r1; r1 = r2; r2 = 0] *)
Definition put_word (k : nat) (result : list Z) '((r0, r1, r2) : Z * Z * Z) : list Z * (Z * Z * Z) :=
  (result.[k <- r0], (r1, r2, 0)).

Definition uECC_vli_mult (result left right : list Z) (num_words : nat) : list Z :=
  let '(result, r) :=
    for_ 0 num_words (fun k '(result, r) =>
      put_word k result (for_ 0 (k + 1) (fun i r => muladd left.[i] right.[k - i] r) r)) (result, (0, 0, 0)) in
  let '(result, (r0, _, _)) :=
    for_ num_words (num_words * 2 - 1) (fun k '(result, r) =>
      put_word k result (for_ (k + 1 - num_words) num_words (fun i r => muladd left.[i] right.[k - i] r) r))
      (result, r) in
  result.[num_words * 2 - 1 <- r0].

(** The inner loop runs while [i <= k && i <= k - i]. *)
Definition uECC_vli_square (result left : list Z) (num_words : nat) : list Z :=
  let '(result, (r0, _, _)) :=
    for_ 0 (num_words * 2 - 1) (fun k '(result, r) =>
      let min := if (k <? num_words)%nat then 0%nat else (k + 1 - num_words)%nat in
      put_word k result (for_ min (k / 2 + 1) (fun i r =>
        if (i <? k - i)%nat then mul2add left.[i] left.[k - i] r else muladd left.[i] left.[k - i] r) r))
      (result, (0, 0, 0)) in
  result.[num_words * 2 - 1 <- r0].

(** ** Modular arithmetic *)

Definition uECC_vli_modAdd (result left right mod_ : list Z) (num_words : nat) : list Z :=
  let '(result, carry) := uECC_vli_add result left right num_words in
  if negb (carry =? 0) || negb (uECC_vli_cmp_unsafe mod_ result num_words =? 1) then
    fst (uECC_vli_sub result result mod_ num_words)
  else result.

Definition uECC_vli_modSub (result left right mod_ : list Z) (num_words : nat) : list Z :=
  let '(result, l_borrow) := uECC_vli_sub result left right num_words in
  if negb (l_borrow =? 0) then fst (uECC_vli_add result result mod_ num_words)
  else result.

(** One turn of the loop of [uECC_vli_mmod]: subtract [mod_multiple] from the
    current of the two buffers [v] into the other, keep it unless it borrowed,
    and halve [mod_multiple]. *)
Definition mmod_step (num_words : nat) '((tmp, product, mod_multiple, index) : list Z * list Z * list Z * Z) :
    list Z * list Z * list Z * Z :=
  let v := if index =? 0 then tmp else product in
  let w := if index =? 0 then product else tmp in
  let '(w, borrow) :=
    for_ 0 (num_words * 2) (fun i '(w, borrow) =>
      let diff := (v.[i] - mod_multiple.[i] - borrow)%u64 in
      let borrow := if diff =? v.[i] then borrow else Z.b2z (v.[i] <? diff) in
      (w.[i <- diff], borrow)) (w, 0) in
  let '(tmp, product) := if index =? 0 then (tmp, w) else (w, product) in
  let index := if Z.lxor index borrow =? 0 then 1 else 0 in
  let mod_multiple := uECC_vli_rshift1 mod_multiple num_words in
  let mod_multiple := mod_multiple.[num_words - 1 <-
    (mod_multiple.[num_words - 1] .| (mod_multiple.[num_words] << 63))%u64] in
  let mod_multiple := at_off mod_multiple num_words (fun m => uECC_vli_rshift1 m num_words) in
  (tmp, product, mod_multiple, index).

Definition uECC_vli_mmod (result product mod_ : list Z) (num_words : nat) : list Z :=
  let mod_multiple := replicate (2 * uECC_MAX_WORDS) 0 in
  let tmp := replicate (2 * uECC_MAX_WORDS) 0 in
  let shift := Z.of_nat num_words * 2 * uECC_WORD_BITS - uECC_vli_numBits mod_ num_words in
  let word_shift := Z.to_nat (shift / uECC_WORD_BITS) in
  let bit_shift := shift mod uECC_WORD_BITS in
  let mod_multiple := uECC_vli_clear mod_multiple word_shift in
  let mod_multiple :=
    if 0 <? bit_shift then
      fst (for_ 0 num_words (fun index '(mod_multiple, carry) =>
        (mod_multiple.[word_shift + index <- ((mod_.[index] << bit_shift) .| carry)%u64],
         (mod_.[index] >> (uECC_WORD_BITS - bit_shift)%Z)%u64)) (mod_multiple, 0))
    else at_off mod_multiple word_shift (fun m => uECC_vli_set m mod_ num_words) in
  let '(tmp, product, _, index) :=
    Nat.iter (Z.to_nat (shift + 1)) (mmod_step num_words) (tmp, product, mod_multiple, 1) in
  uECC_vli_set result (if index =? 0 then tmp else product) num_words.

Definition uECC_vli_modMult (result left right mod_ : list Z) (num_words : nat) : list Z :=
  let product := replicate (2 * uECC_MAX_WORDS) 0 in
  let product := uECC_vli_mult product left right num_words in
  uECC_vli_mmod result product mod_ num_words.

Definition EVEN (vli : list Z) : bool := Z.land vli.[0] 1 =? 0.

Definition vli_modInv_update (uv mod_ : list Z) (num_words : nat) : list Z :=
  let '(uv, carry) := if EVEN uv then (uv, 0) else uECC_vli_add uv uv mod_ num_words in
  let uv := uECC_vli_rshift1 uv num_words in
  if carry =? 0 then uv else uv.[num_words - 1 <- (uv.[num_words - 1] .| HIGH_BIT_SET)%u64].

(** [if (cmp_unsafe(x, y) < 0) x += mod; x -= y; update(x)] *)
Definition modInv_reduce (x y mod_ : list Z) (num_words : nat) : list Z :=
  let x := if uECC_vli_cmp_unsafe x y num_words <? 0 then fst (uECC_vli_add x x mod_ num_words) else x in
  let x := fst (uECC_vli_sub x x y num_words) in
  vli_modInv_update x mod_ num_words.

(** The [while] loop; [None] when the fuel is too small. *)
Fixpoint modInv_loop (fuel : nat) (a b u v mod_ : list Z) (num_words : nat) : option (list Z) :=
  match fuel with
  | O => None
  | S fuel =>
      let cmpResult := uECC_vli_cmp_unsafe a b num_words in
      if cmpResult =? 0 then Some u
      else if EVEN a then
        modInv_loop fuel (uECC_vli_rshift1 a num_words) b (vli_modInv_update u mod_ num_words) v mod_ num_words
      else if EVEN b then
        modInv_loop fuel a (uECC_vli_rshift1 b num_words) u (vli_modInv_update v mod_ num_words) mod_ num_words
      else if 0 <? cmpResult then
        let a := uECC_vli_rshift1 (fst (uECC_vli_sub a a b num_words)) num_words in
        modInv_loop fuel a b (modInv_reduce u v mod_ num_words) v mod_ num_words
      else
        let b := uECC_vli_rshift1 (fst (uECC_vli_sub b b a num_words)) num_words in
        modInv_loop fuel a b u (modInv_reduce v u mod_ num_words) mod_ num_words
  end.

Definition uECC_vli_modInv (result input mod_ : list Z) (num_words : nat) : list Z :=
  if negb (uECC_vli_isZero input num_words =? 0) then uECC_vli_clear result num_words
  else
    let zeros := replicate uECC_MAX_WORDS 0 in
    let a := uECC_vli_set zeros input num_words in
    let b := uECC_vli_set zeros mod_ num_words in
    let u := uECC_vli_clear zeros num_words in
    let u := u.[0 <- 1] in
    let v := uECC_vli_clear zeros num_words in
    match modInv_loop (128 * num_words + 1) a b u v mod_ num_words with
    | Some u => uECC_vli_set result u num_words
    | None => result
    end.

(** ** Curves

    The function pointers of a curve take the curve as their last argument;
    here they take its data, [uECC_Curve_data]. *)

Record uECC_Curve_data : Type := {
  num_words : nat;
  num_bytes : nat;
  num_n_bits : Z;
  curve_p : list Z;
  curve_n : list Z;
  curve_G : list Z;
  curve_b : list Z;
  mmod_fast : list Z -> list Z -> list Z;
}.

Record uECC_Curve_t : Type := {
  curve_data :> uECC_Curve_data;
  double_jacobian : list Z -> list Z -> list Z -> uECC_Curve_data -> list Z * list Z * list Z;
  mod_sqrt : list Z -> uECC_Curve_data -> list Z;
  x_side : list Z -> list Z -> uECC_Curve_data -> list Z;
}.

Definition uECC_curve_private_key_size (curve : uECC_Curve_t) : nat := BITS_TO_BYTES (num_n_bits curve).
Definition uECC_curve_public_key_size (curve : uECC_Curve_t) : nat := 2 * num_bytes curve.

Definition uECC_vli_modMult_fast (result left right : list Z) (curve : uECC_Curve_data) : list Z :=
  let product := replicate (2 * uECC_MAX_WORDS) 0 in
  let product := uECC_vli_mult product left right (num_words curve) in
  mmod_fast curve result product.

Definition uECC_vli_modSquare_fast (result left : list Z) (curve : uECC_Curve_data) : list Z :=
  let product := replicate (2 * uECC_MAX_WORDS) 0 in
  let product := uECC_vli_square product left (num_words curve) in
  mmod_fast curve result product.

(** [if (testBit(X1, 0)) X1 += p; X1 >>= 1], with the carry as the top bit *)
Definition half_mod (X1 : list Z) (curve : uECC_Curve_data) : list Z :=
  let num_words := num_words curve in
  if negb (uECC_vli_testBit X1 0 =? 0) then
    let '(X1, l_carry) := uECC_vli_add X1 X1 (curve_p curve) num_words in
    let X1 := uECC_vli_rshift1 X1 num_words in
    X1.[num_words - 1 <- (X1.[num_words - 1] .| (l_carry << 63))%u64]
  else uECC_vli_rshift1 X1 num_words.

Definition double_jacobian_default (X1 Y1 Z1 : list Z) (curve : uECC_Curve_data) : list Z * list Z * list Z :=
  let num_words := num_words curve in
  let p := curve_p curve in
  let t4 := replicate uECC_MAX_WORDS 0 in
  let t5 := replicate uECC_MAX_WORDS 0 in
  if negb (uECC_vli_isZero Z1 num_words =? 0) then (X1, Y1, Z1)
  else
    let t4 := uECC_vli_modSquare_fast t4 Y1 curve in
    let t5 := uECC_vli_modMult_fast t5 X1 t4 curve in
    let t4 := uECC_vli_modSquare_fast t4 t4 curve in
    let Y1 := uECC_vli_modMult_fast Y1 Y1 Z1 curve in
    let Z1 := uECC_vli_modSquare_fast Z1 Z1 curve in
    let X1 := uECC_vli_modAdd X1 X1 Z1 p num_words in
    let Z1 := uECC_vli_modAdd Z1 Z1 Z1 p num_words in
    let Z1 := uECC_vli_modSub Z1 X1 Z1 p num_words in
    let X1 := uECC_vli_modMult_fast X1 X1 Z1 curve in
    let Z1 := uECC_vli_modAdd Z1 X1 X1 p num_words in
    let X1 := uECC_vli_modAdd X1 X1 Z1 p num_words in
    let X1 := half_mod X1 curve in
    let Z1 := uECC_vli_modSquare_fast Z1 X1 curve in
    let Z1 := uECC_vli_modSub Z1 Z1 t5 p num_words in
    let Z1 := uECC_vli_modSub Z1 Z1 t5 p num_words in
    let t5 := uECC_vli_modSub t5 t5 Z1 p num_words in
    let X1 := uECC_vli_modMult_fast X1 X1 t5 curve in
    let t4 := uECC_vli_modSub t4 X1 t4 p num_words in
    let X1 := uECC_vli_set X1 Z1 num_words in
    let Z1 := uECC_vli_set Z1 Y1 num_words in
    let Y1 := uECC_vli_set Y1 t4 num_words in
    (X1, Y1, Z1).

Definition x_side_default (result x : list Z) (curve : uECC_Curve_data) : list Z :=
  let _3 := (replicate uECC_MAX_WORDS 0).[0 <- 3] in
  let num_words := num_words curve in
  let result := uECC_vli_modSquare_fast result x curve in
  let result := uECC_vli_modSub result result _3 (curve_p curve) num_words in
  let result := uECC_vli_modMult_fast result result x curve in
  uECC_vli_modAdd result result (curve_b curve) (curve_p curve) num_words.

(** [for (i = numBits(p1) - 1; i > 1; --i)] *)
Definition mod_sqrt_default (a : list Z) (curve : uECC_Curve_data) : list Z :=
  let p1 := (replicate uECC_MAX_WORDS 0).[0 <- 1] in
  let l_result := (replicate uECC_MAX_WORDS 0).[0 <- 1] in
  let num_words := num_words curve in
  let p1 := fst (uECC_vli_add p1 (curve_p curve) p1 num_words) in
  let l_result := for_down (Z.to_nat (uECC_vli_numBits p1 num_words - 2)) (fun j l_result =>
    let i := Z.of_nat j + 2 in
    let l_result := uECC_vli_modSquare_fast l_result l_result curve in
    if negb (uECC_vli_testBit p1 i =? 0) then uECC_vli_modMult_fast l_result l_result a curve
    else l_result) l_result in
  uECC_vli_set a l_result num_words.

(** *** secp256r1 *)

Definition BYTES_TO_WORDS_8 (a b c d e f g h : Z) : Z := le_combine [a; b; c; d; e; f; g; h].

Definition secp256r1_p : list Z := Eval cbv in
  [BYTES_TO_WORDS_8 0xFF 0xFF 0xFF 0xFF 0xFF 0xFF 0xFF 0xFF;
   BYTES_TO_WORDS_8 0xFF 0xFF 0xFF 0xFF 0x00 0x00 0x00 0x00;
   BYTES_TO_WORDS_8 0x00 0x00 0x00 0x00 0x00 0x00 0x00 0x00;
   BYTES_TO_WORDS_8 0x01 0x00 0x00 0x00 0xFF 0xFF 0xFF 0xFF].

Definition secp256r1_n : list Z := Eval cbv in
  [BYTES_TO_WORDS_8 0x51 0x25 0x63 0xFC 0xC2 0xCA 0xB9 0xF3;
   BYTES_TO_WORDS_8 0x84 0x9E 0x17 0xA7 0xAD 0xFA 0xE6 0xBC;
   BYTES_TO_WORDS_8 0xFF 0xFF 0xFF 0xFF 0xFF 0xFF 0xFF 0xFF;
   BYTES_TO_WORDS_8 0x00 0x00 0x00 0x00 0xFF 0xFF 0xFF 0xFF].

Definition secp256r1_G : list Z := Eval cbv in
  [BYTES_TO_WORDS_8 0x96 0xC2 0x98 0xD8 0x45 0x39 0xA1 0xF4;
   BYTES_TO_WORDS_8 0xA0 0x33 0xEB 0x2D 0x81 0x7D 0x03 0x77;
   BYTES_TO_WORDS_8 0xF2 0x40 0xA4 0x63 0xE5 0xE6 0xBC 0xF8;
   BYTES_TO_WORDS_8 0x47 0x42 0x2C 0xE1 0xF2 0xD1 0x17 0x6B;
   BYTES_TO_WORDS_8 0xF5 0x51 0xBF 0x37 0x68 0x40 0xB6 0xCB;
   BYTES_TO_WORDS_8 0xCE 0x5E 0x31 0x6B 0x57 0x33 0xCE 0x2B;
   BYTES_TO_WORDS_8 0x16 0x9E 0x0F 0x7C 0x4A 0xEB 0xE7 0x8E;
   BYTES_TO_WORDS_8 0x9B 0x7F 0x1A 0xFE 0xE2 0x42 0xE3 0x4F].

Definition secp256r1_b : list Z := Eval cbv in
  [BYTES_TO_WORDS_8 0x4B 0x60 0xD2 0x27 0x3E 0x3C 0xCE 0x3B;
   BYTES_TO_WORDS_8 0xF6 0xB0 0x53 0xCC 0xB0 0x06 0x1D 0x65;
   BYTES_TO_WORDS_8 0xBC 0x86 0x98 0x76 0x55 0xBD 0xEB 0xB3;
   BYTES_TO_WORDS_8 0xE7 0x93 0x3A 0xAA 0xD8 0x35 0xC6 0x5A].

(** [do carry += add(result, p); while (carry < 0)] *)
Fixpoint mmod_add_p (fuel : nat) (result : list Z) (carry : Z) : list Z :=
  match fuel with
  | O => result
  | S fuel =>
      let '(result, c) := uECC_vli_add result result secp256r1_p 4 in
      let carry := carry + c in
      if carry <? 0 then mmod_add_p fuel result carry else result
  end.

(** [while (carry || cmp_unsafe(p, result) != 1) carry -= sub(result, p)] *)
Fixpoint mmod_sub_p (fuel : nat) (result : list Z) (carry : Z) : list Z :=
  match fuel with
  | O => result
  | S fuel =>
      if negb (carry =? 0) || negb (uECC_vli_cmp_unsafe secp256r1_p result 4 =? 1) then
        let '(result, c) := uECC_vli_sub result result secp256r1_p 4 in
        mmod_sub_p fuel result (carry - c)
      else result
  end.

Definition vli_mmod_fast_secp256r1 (result product : list Z) : list Z :=
  let tmp := replicate 4 0 in
  let result := uECC_vli_set result product 4 in
  let tmp := tmp.[0 <- 0] in
  let tmp := tmp.[1 <- (product.[5] & 0xffffffff00000000)%u64] in
  let tmp := tmp.[2 <- product.[6]] in
  let tmp := tmp.[3 <- product.[7]] in
  let '(tmp, carry) := uECC_vli_add tmp tmp tmp 4 in
  let '(result, c) := uECC_vli_add result result tmp 4 in
  let carry := carry + c in
  let tmp := tmp.[1 <- (product.[6] << 32)%u64] in
  let tmp := tmp.[2 <- ((product.[6] >> 32) .| (product.[7] << 32))%u64] in
  let tmp := tmp.[3 <- (product.[7] >> 32)%u64] in
  let '(tmp, c) := uECC_vli_add tmp tmp tmp 4 in
  let carry := carry + c in
  let '(result, c) := uECC_vli_add result result tmp 4 in
  let carry := carry + c in
  let tmp := tmp.[0 <- product.[4]] in
  let tmp := tmp.[1 <- (product.[5] & 0xffffffff)%u64] in
  let tmp := tmp.[2 <- 0] in
  let tmp := tmp.[3 <- product.[7]] in
  let '(result, c) := uECC_vli_add result result tmp 4 in
  let carry := carry + c in
  let tmp := tmp.[0 <- ((product.[4] >> 32) .| (product.[5] << 32))%u64] in
  let tmp := tmp.[1 <- ((product.[5] >> 32) .| (product.[6] & 0xffffffff00000000))%u64] in
  let tmp := tmp.[2 <- product.[7]] in
  let tmp := tmp.[3 <- ((product.[6] >> 32) .| (product.[4] << 32))%u64] in
  let '(result, c) := uECC_vli_add result result tmp 4 in
  let carry := carry + c in
  let tmp := tmp.[0 <- ((product.[5] >> 32) .| (product.[6] << 32))%u64] in
  let tmp := tmp.[1 <- (product.[6] >> 32)%u64] in
  let tmp := tmp.[2 <- 0] in
  let tmp := tmp.[3 <- ((product.[4] & 0xffffffff) .| (product.[5] << 32))%u64] in
  let '(result, c) := uECC_vli_sub result result tmp 4 in
  let carry := carry - c in
  let tmp := tmp.[0 <- product.[6]] in
  let tmp := tmp.[1 <- product.[7]] in
  let tmp := tmp.[2 <- 0] in
  let tmp := tmp.[3 <- ((product.[4] >> 32) .| (product.[5] & 0xffffffff00000000))%u64] in
  let '(result, c) := uECC_vli_sub result result tmp 4 in
  let carry := carry - c in
  let tmp := tmp.[0 <- ((product.[6] >> 32) .| (product.[7] << 32))%u64] in
  let tmp := tmp.[1 <- ((product.[7] >> 32) .| (product.[4] << 32))%u64] in
  let tmp := tmp.[2 <- ((product.[4] >> 32) .| (product.[5] << 32))%u64] in
  let tmp := tmp.[3 <- (product.[6] << 32)%u64] in
  let '(result, c) := uECC_vli_sub result result tmp 4 in
  let carry := carry - c in
  let tmp := tmp.[0 <- product.[7]] in
  let tmp := tmp.[1 <- (product.[4] & 0xffffffff00000000)%u64] in
  let tmp := tmp.[2 <- product.[5]] in
  let tmp := tmp.[3 <- (product.[6] & 0xffffffff00000000)%u64] in
  let '(result, c) := uECC_vli_sub result result tmp 4 in
  let carry := carry - c in
  if carry <? 0 then mmod_add_p 16 result carry
  else mmod_sub_p 16 result carry.

Definition data_secp256r1 : uECC_Curve_data := {|
  num_words := 4;
  num_bytes := 32;
  num_n_bits := 256;
  curve_p := secp256r1_p;
  curve_n := secp256r1_n;
  curve_G := secp256r1_G;
  curve_b := secp256r1_b;
  mmod_fast := vli_mmod_fast_secp256r1;
|}.

Definition curve_secp256r1 : uECC_Curve_t := {|
  curve_data := data_secp256r1;
  double_jacobian := double_jacobian_default;
  mod_sqrt := mod_sqrt_default;
  x_side := x_side_default;
|}.

(** ** Points *)

Definition EccPoint_isZero (point : list Z) (curve : uECC_Curve_t) : Z := uECC_vli_isZero point (num_words curve * 2).

Definition apply_z (X1 Y1 Z_ : list Z) (curve : uECC_Curve_t) : list Z * list Z :=
  let t1 := replicate uECC_MAX_WORDS 0 in
  let t1 := uECC_vli_modSquare_fast t1 Z_ curve in
  let X1 := uECC_vli_modMult_fast X1 X1 t1 curve in
  let t1 := uECC_vli_modMult_fast t1 t1 Z_ curve in
  let Y1 := uECC_vli_modMult_fast Y1 Y1 t1 curve in
  (X1, Y1).

Definition XYcZ_initial_double (X1 Y1 X2 Y2 : list Z) (initial_Z : option (list Z)) (curve : uECC_Curve_t) :
    list Z * list Z * list Z * list Z :=
  let z := replicate uECC_MAX_WORDS 0 in
  let num_words := num_words curve in
  let z :=
    match initial_Z with
    | Some initial_Z => uECC_vli_set z initial_Z num_words
    | None => (uECC_vli_clear z num_words).[0 <- 1]
    end in
  let X2 := uECC_vli_set X2 X1 num_words in
  let Y2 := uECC_vli_set Y2 Y1 num_words in
  let '(X1, Y1) := apply_z X1 Y1 z curve in
  let '(X1, Y1, z) := double_jacobian curve X1 Y1 z curve in
  let '(X2, Y2) := apply_z X2 Y2 z curve in
  (X1, Y1, X2, Y2).

Definition XYcZ_add (X1 Y1 X2 Y2 : list Z) (curve : uECC_Curve_t) : list Z * list Z * list Z * list Z :=
  let t5 := replicate uECC_MAX_WORDS 0 in
  let num_words := num_words curve in
  let p := curve_p curve in
  let t5 := uECC_vli_modSub t5 X2 X1 p num_words in
  let t5 := uECC_vli_modSquare_fast t5 t5 curve in
  let X1 := uECC_vli_modMult_fast X1 X1 t5 curve in
  let X2 := uECC_vli_modMult_fast X2 X2 t5 curve in
  let Y2 := uECC_vli_modSub Y2 Y2 Y1 p num_words in
  let t5 := uECC_vli_modSquare_fast t5 Y2 curve in
  let t5 := uECC_vli_modSub t5 t5 X1 p num_words in
  let t5 := uECC_vli_modSub t5 t5 X2 p num_words in
  let X2 := uECC_vli_modSub X2 X2 X1 p num_words in
  let Y1 := uECC_vli_modMult_fast Y1 Y1 X2 curve in
  let X2 := uECC_vli_modSub X2 X1 t5 p num_words in
  let Y2 := uECC_vli_modMult_fast Y2 Y2 X2 curve in
  let Y2 := uECC_vli_modSub Y2 Y2 Y1 p num_words in
  let X2 := uECC_vli_set X2 t5 num_words in
  (X1, Y1, X2, Y2).

Definition XYcZ_addC (X1 Y1 X2 Y2 : list Z) (curve : uECC_Curve_t) : list Z * list Z * list Z * list Z :=
  let t5 := replicate uECC_MAX_WORDS 0 in
  let t6 := replicate uECC_MAX_WORDS 0 in
  let t7 := replicate uECC_MAX_WORDS 0 in
  let num_words := num_words curve in
  let p := curve_p curve in
  let t5 := uECC_vli_modSub t5 X2 X1 p num_words in
  let t5 := uECC_vli_modSquare_fast t5 t5 curve in
  let X1 := uECC_vli_modMult_fast X1 X1 t5 curve in
  let X2 := uECC_vli_modMult_fast X2 X2 t5 curve in
  let t5 := uECC_vli_modAdd t5 Y2 Y1 p num_words in
  let Y2 := uECC_vli_modSub Y2 Y2 Y1 p num_words in
  let t6 := uECC_vli_modSub t6 X2 X1 p num_words in
  let Y1 := uECC_vli_modMult_fast Y1 Y1 t6 curve in
  let t6 := uECC_vli_modAdd t6 X1 X2 p num_words in
  let X2 := uECC_vli_modSquare_fast X2 Y2 curve in
  let X2 := uECC_vli_modSub X2 X2 t6 p num_words in
  let t7 := uECC_vli_modSub t7 X1 X2 p num_words in
  let Y2 := uECC_vli_modMult_fast Y2 Y2 t7 curve in
  let Y2 := uECC_vli_modSub Y2 Y2 Y1 p num_words in
  let t7 := uECC_vli_modSquare_fast t7 t5 curve in
  let t7 := uECC_vli_modSub t7 t7 t6 p num_words in
  let t6 := uECC_vli_modSub t6 t7 X1 p num_words in
  let t6 := uECC_vli_modMult_fast t6 t6 t5 curve in
  let Y1 := uECC_vli_modSub Y1 t6 Y1 p num_words in
  let X1 := uECC_vli_set X1 t7 num_words in
  (X1, Y1, X2, Y2).

(** The arrays [Rx] and [Ry] of two numbers; [nb] is the negated bit. *)
Definition neg_bit (scalar : list Z) (i : Z) : nat := if uECC_vli_testBit scalar i =? 0 then 1%nat else 0%nat.

Definition mult_addC (nb : nat) '((Rx, Ry) : list (list Z) * list (list Z)) (curve : uECC_Curve_t) :
    list (list Z) * list (list Z) :=
  let '(X1, Y1, X2, Y2) := XYcZ_addC Rx.[1 - nb] Ry.[1 - nb] Rx.[nb] Ry.[nb] curve in
  (Rx.[1 - nb <- X1].[nb <- X2], Ry.[1 - nb <- Y1].[nb <- Y2]).

Definition mult_add (nb : nat) '((Rx, Ry) : list (list Z) * list (list Z)) (curve : uECC_Curve_t) :
    list (list Z) * list (list Z) :=
  let '(X1, Y1, X2, Y2) := XYcZ_add Rx.[nb] Ry.[nb] Rx.[1 - nb] Ry.[1 - nb] curve in
  (Rx.[nb <- X1].[1 - nb <- X2], Ry.[nb <- Y1].[1 - nb <- Y2]).

Definition EccPoint_mult (result point scalar : list Z) (initial_Z : option (list Z)) (num_bits : Z)
    (curve : uECC_Curve_t) : list Z :=
  let num_words := num_words curve in
  let p := curve_p curve in
  let zeros := replicate uECC_MAX_WORDS 0 in
  let z := zeros in
  let Rx1 := uECC_vli_set zeros point num_words in
  let Ry1 := uECC_vli_set zeros (drop num_words point) num_words in
  let '(Rx1, Ry1, Rx0, Ry0) := XYcZ_initial_double Rx1 Ry1 zeros zeros initial_Z curve in
  let R := ([Rx0; Rx1], [Ry0; Ry1]) in
  let R := for_down (Z.to_nat (num_bits - 2)) (fun j R =>
    let i := Z.of_nat j + 1 in
    let nb := neg_bit scalar i in
    mult_add nb (mult_addC nb R curve) curve) R in
  let nb := neg_bit scalar 0 in
  let '(Rx, Ry) := mult_addC nb R curve in
  let z := uECC_vli_modSub z Rx.[1] Rx.[0] p num_words in
  let z := uECC_vli_modMult_fast z z Ry.[1 - nb] curve in
  let z := uECC_vli_modMult_fast z z point curve in
  let z := uECC_vli_modInv z z p num_words in
  let z := uECC_vli_modMult_fast z z (drop num_words point) curve in
  let z := uECC_vli_modMult_fast z z Rx.[1 - nb] curve in
  let '(Rx, Ry) := mult_add nb (Rx, Ry) curve in
  let '(X0, Y0) := apply_z Rx.[0] Ry.[0] z curve in
  let result := uECC_vli_set result X0 num_words in
  at_off result num_words (fun r => uECC_vli_set r Y0 num_words).

(** [k0 = k + n], [k1 = k + 2 n] and the carry. *)
Definition regularize_k (k k0 k1 : list Z) (curve : uECC_Curve_t) : list Z * list Z * bool :=
  let num_n_words := BITS_TO_WORDS (num_n_bits curve) in
  let num_n_bits := num_n_bits curve in
  let '(k0, c) := uECC_vli_add k0 k (curve_n curve) num_n_words in
  let carry := negb (c =? 0) ||
    (num_n_bits <? Z.of_nat num_n_words * 64) && negb (uECC_vli_testBit k0 num_n_bits =? 0) in
  let k1 := fst (uECC_vli_add k1 k0 (curve_n curve) num_n_words) in
  (k0, k1, carry).

Definition EccPoint_compute_public_key (result private_key : list Z) (curve : uECC_Curve_t) : list Z * Z :=
  let tmp1 := replicate uECC_MAX_WORDS 0 in
  let tmp2 := replicate uECC_MAX_WORDS 0 in
  let '(tmp1, tmp2, carry) := regularize_k private_key tmp1 tmp2 curve in
  let result := EccPoint_mult result (curve_G curve) (if carry then tmp1 else tmp2) None (num_n_bits curve + 1) curve in
  if negb (EccPoint_isZero result curve =? 0) then (result, 0) else (result, 1).

(** ** Byte strings, most significant byte first *)

Definition uECC_vli_nativeToBytes (bytes : list Z) (num_bytes : nat) (native : list Z) : list Z :=
  for_ 0 num_bytes (fun i bytes =>
    let b := (num_bytes - 1 - i)%nat in
    bytes.[i <- wrap 8 (native.[b / 8] >> Z.of_nat (8 * (b mod 8)))%u64]) bytes.

Definition uECC_vli_bytesToNative (native bytes : list Z) (num_bytes : nat) : list Z :=
  let native := uECC_vli_clear native ((num_bytes + 7) / 8) in
  for_ 0 num_bytes (fun i native =>
    let b := (num_bytes - 1 - i)%nat in
    native.[b / 8 <- (native.[b / 8] .| (bytes.[i] << Z.of_nat (8 * (b mod 8))))%u64]) native.

(** ** Keys *)

Definition uECC_compress (public_key compressed : list Z) (curve : uECC_Curve_t) : list Z :=
  let compressed := for_ 0 (num_bytes curve) (fun i compressed => compressed.[i + 1 <- public_key.[i]]) compressed in
  compressed.[0 <- (2 + (public_key.[num_bytes curve * 2 - 1] & 0x01))%u8].

Definition uECC_decompress (compressed public_key : list Z) (curve : uECC_Curve_t) : list Z :=
  let point := replicate (2 * uECC_MAX_WORDS) 0 in
  let point := uECC_vli_bytesToNative point (drop 1 compressed) (num_bytes curve) in
  let y := drop (num_words curve) point in
  let y := x_side curve y point curve in
  let y := mod_sqrt curve y curve in
  let y :=
    if negb (Z.land y.[0] 0x01 =? Z.land compressed.[0] 0x01) then
      fst (uECC_vli_sub y (curve_p curve) y (num_words curve))
    else y in
  let public_key := uECC_vli_nativeToBytes public_key (num_bytes curve) point in
  at_off public_key (num_bytes curve) (fun pk => uECC_vli_nativeToBytes pk (num_bytes curve) y).

Definition uECC_valid_point (point : list Z) (curve : uECC_Curve_t) : Z :=
  let tmp1 := replicate uECC_MAX_WORDS 0 in
  let tmp2 := replicate uECC_MAX_WORDS 0 in
  let num_words := num_words curve in
  if negb (EccPoint_isZero point curve =? 0) then 0
  else if negb (uECC_vli_cmp_unsafe (curve_p curve) point num_words =? 1) ||
          negb (uECC_vli_cmp_unsafe (curve_p curve) (drop num_words point) num_words =? 1) then 0
  else
    let tmp1 := uECC_vli_modSquare_fast tmp1 (drop num_words point) curve in
    let tmp2 := x_side curve tmp2 point curve in
    uECC_vli_equal tmp1 tmp2 num_words.

(** [_public], from the two halves of a public key. *)
Definition load_public (public_key : list Z) (curve : uECC_Curve_t) : list Z :=
  let _public := replicate (2 * uECC_MAX_WORDS) 0 in
  let _public := uECC_vli_bytesToNative _public public_key (num_bytes curve) in
  at_off _public (num_words curve) (fun y =>
    uECC_vli_bytesToNative y (drop (num_bytes curve) public_key) (num_bytes curve)).

Definition store_public (public_key _public : list Z) (curve : uECC_Curve_t) : list Z :=
  let public_key := uECC_vli_nativeToBytes public_key (num_bytes curve) _public in
  at_off public_key (num_bytes curve) (fun pk =>
    uECC_vli_nativeToBytes pk (num_bytes curve) (drop (num_words curve) _public)).

Definition uECC_valid_public_key (public_key : list Z) (curve : uECC_Curve_t) : Z :=
  uECC_valid_point (load_public public_key curve) curve.

Definition uECC_compute_public_key (private_key public_key : list Z) (curve : uECC_Curve_t) : list Z * Z :=
  let num_n_words := BITS_TO_WORDS (num_n_bits curve) in
  let _private := replicate uECC_MAX_WORDS 0 in
  let _public := replicate (2 * uECC_MAX_WORDS) 0 in
  let _private := uECC_vli_bytesToNative _private private_key (BITS_TO_BYTES (num_n_bits curve)) in
  if negb (uECC_vli_isZero _private num_n_words =? 0) then (public_key, 0)
  else if negb (uECC_vli_cmp (curve_n curve) _private num_n_words =? 1) then (public_key, 0)
  else
    let '(_public, ok) := EccPoint_compute_public_key _public _private curve in
    if ok =? 0 then (public_key, 0)
    else (store_public public_key _public curve, 1).

(** ** The random number generator

    [g_rng_function] is the installed generator, or [None] for a null pointer.
    A call fills a number of bytes and returns a flag; [R] is its state. *)

Section Random.
Context {R : Type} (g_rng_function : option (R -> nat -> list Z * Z * R)).

(** The words of a memory area of bytes, on a little-endian machine. *)
Definition words_of_bytes (bs : list Z) : list Z := le_combine <$> chunks 8 bs.

Fixpoint random_tries (tries : nat) (rng : R -> nat -> list Z * Z * R) (random top : list Z) (num_words : nat)
    (num_bits : Z) (st : R) : list Z * Z * R :=
  match tries with
  | O => (random, 0, st)
  | S tries =>
      let '(bs, ok, st) := rng st (num_words * uECC_WORD_SIZE)%nat in
      let random := blit random 0 (words_of_bytes bs) in
      if ok =? 0 then (random, 0, st)
      else
        let mask := 0xffffffffffffffff in
        let random := random.[num_words - 1 <-
          (random.[num_words - 1] & (mask >> (Z.of_nat num_words * 64 - num_bits)%Z))%u64] in
        if (uECC_vli_isZero random num_words =? 0) && (uECC_vli_cmp top random num_words =? 1) then (random, 1, st)
        else random_tries tries rng random top num_words num_bits st
  end.

Definition uECC_generate_random_int (random top : list Z) (num_words : nat) (st : R) : list Z * Z * R :=
  let num_bits := uECC_vli_numBits top num_words in
  match g_rng_function with
  | None => (random, 0, st)
  | Some rng => random_tries uECC_RNG_MAX_TRIES rng random top num_words num_bits st
  end.

Fixpoint make_key_tries (tries : nat) (public_key private_key _private _public : list Z) (curve : uECC_Curve_t) (st : R) :
    list Z * list Z * Z * R :=
  match tries with
  | O => (public_key, private_key, 0, st)
  | S tries =>
      let '(_private, ok, st) :=
        uECC_generate_random_int _private (curve_n curve) (BITS_TO_WORDS (num_n_bits curve)) st in
      if ok =? 0 then (public_key, private_key, 0, st)
      else
        let '(_public, ok) := EccPoint_compute_public_key _public _private curve in
        if negb (ok =? 0) then
          let private_key := uECC_vli_nativeToBytes private_key (BITS_TO_BYTES (num_n_bits curve)) _private in
          (store_public public_key _public curve, private_key, 1, st)
        else make_key_tries tries public_key private_key _private _public curve st
  end.

Definition uECC_make_key (public_key private_key : list Z) (curve : uECC_Curve_t) (st : R) :
    list Z * list Z * Z * R :=
  make_key_tries uECC_RNG_MAX_TRIES public_key private_key (replicate uECC_MAX_WORDS 0)
    (replicate (2 * uECC_MAX_WORDS) 0) curve st.

(** [p2] is { _private, tmp }: the random Z goes to the one that is not the scalar. *)
Definition uECC_shared_secret (public_key private_key secret : list Z) (curve : uECC_Curve_t) (st : R) :
    list Z * Z * R :=
  let num_words := num_words curve in
  let num_bytes := num_bytes curve in
  let tmp := replicate uECC_MAX_WORDS 0 in
  let _private := replicate uECC_MAX_WORDS 0 in
  let _private := uECC_vli_bytesToNative _private private_key (BITS_TO_BYTES (num_n_bits curve)) in
  let _public := load_public public_key curve in
  let '(_private, tmp, carry) := regularize_k _private _private tmp curve in
  let scalar := if carry then _private else tmp in
  let finish initial_Z st :=
    let _public := EccPoint_mult _public _public scalar initial_Z (num_n_bits curve + 1) curve in
    let secret := uECC_vli_nativeToBytes secret num_bytes _public in
    (secret, if EccPoint_isZero _public curve =? 0 then 1 else 0, st) in
  match g_rng_function with
  | None => finish None st
  | Some _ =>
      let '(z, ok, st) := uECC_generate_random_int (if carry then tmp else _private) (curve_p curve) num_words st in
      if ok =? 0 then (secret, 0, st) else finish (Some z) st
  end.

(** ** ECDSA *)

Definition bits2int (native bits : list Z) (bits_size : nat) (curve : uECC_Curve_t) : list Z :=
  let num_n_bytes := BITS_TO_BYTES (num_n_bits curve) in
  let num_n_words := BITS_TO_WORDS (num_n_bits curve) in
  let bits_size := if (num_n_bytes <? bits_size)%nat then num_n_bytes else bits_size in
  let native := uECC_vli_clear native num_n_words in
  let native := uECC_vli_bytesToNative native bits bits_size in
  if Z.of_nat bits_size * 8 <=? num_n_bits curve then native
  else
    let shift := Z.of_nat bits_size * 8 - num_n_bits curve in
    let native := fst (for_down num_n_words (fun i '(native, carry) =>
      let temp := native.[i] in
      (native.[i <- ((temp >> shift) .| carry)%u64], (temp << (uECC_WORD_BITS - shift)%Z)%u64)) (native, 0)) in
    if negb (uECC_vli_cmp_unsafe (curve_n curve) native num_n_words =? 1) then
      fst (uECC_vli_sub native native (curve_n curve) num_n_words)
    else native.

(** The blinding factor [tmp] of the inversion of [k]. *)
Definition sign_blind (tmp : list Z) (curve : uECC_Curve_t) (st : R) : list Z * Z * R :=
  let num_n_words := BITS_TO_WORDS (num_n_bits curve) in
  match g_rng_function with
  | None => ((uECC_vli_clear tmp num_n_words).[0 <- 1], 1, st)
  | Some _ => uECC_generate_random_int tmp (curve_n curve) num_n_words st
  end.

(** [k = 1 / (k * tmp) * tmp] *)
Definition sign_invert (k tmp : list Z) (curve : uECC_Curve_t) : list Z :=
  let num_n_words := BITS_TO_WORDS (num_n_bits curve) in
  let n := curve_n curve in
  let k := uECC_vli_modMult k k tmp n num_n_words in
  let k := uECC_vli_modInv k k n num_n_words in
  uECC_vli_modMult k k tmp n num_n_words.

(** [s = (e + r d) / k], from the inverse [k] and the point [p]. *)
Definition sign_scalar (s tmp p k private_key message_hash : list Z) (hash_size : nat) (curve : uECC_Curve_t) : list Z :=
  let num_n_words := BITS_TO_WORDS (num_n_bits curve) in
  let n := curve_n curve in
  let tmp := uECC_vli_bytesToNative tmp private_key (BITS_TO_BYTES (num_n_bits curve)) in
  let s := s.[num_n_words - 1 <- 0] in
  let s := uECC_vli_set s p (num_words curve) in
  let s := uECC_vli_modMult s tmp s n num_n_words in
  let tmp := bits2int tmp message_hash hash_size curve in
  let s := uECC_vli_modAdd s tmp s n num_n_words in
  uECC_vli_modMult s s k n num_n_words.

Definition uECC_sign_with_k (private_key message_hash : list Z) (hash_size : nat) (k signature : list Z)
    (curve : uECC_Curve_t) (st : R) : list Z * list Z * Z * R :=
  let num_words := num_words curve in
  let num_n_words := BITS_TO_WORDS (num_n_bits curve) in
  let num_n_bits := num_n_bits curve in
  let tmp := replicate uECC_MAX_WORDS 0 in
  let s := replicate uECC_MAX_WORDS 0 in
  let p := replicate (2 * uECC_MAX_WORDS) 0 in
  if negb (uECC_vli_isZero k num_words =? 0) || negb (uECC_vli_cmp (curve_n curve) k num_n_words =? 1) then
    (k, signature, 0, st)
  else
    let '(tmp, s, carry) := regularize_k k tmp s curve in
    let p := EccPoint_mult p (curve_G curve) (if carry then tmp else s) None (num_n_bits + 1) curve in
    if negb (uECC_vli_isZero p num_words =? 0) then (k, signature, 0, st)
    else
      let '(tmp, ok, st) := sign_blind tmp curve st in
      if ok =? 0 then (k, signature, 0, st)
      else
        let k := sign_invert k tmp curve in
        let signature := uECC_vli_nativeToBytes signature (num_bytes curve) p in
        let s := sign_scalar s tmp p k private_key message_hash hash_size curve in
        if Z.of_nat (num_bytes curve) * 8 <? uECC_vli_numBits s num_n_words then (k, signature, 0, st)
        else
          let signature := at_off signature (num_bytes curve) (fun g => uECC_vli_nativeToBytes g (num_bytes curve) s) in
          (k, signature, 1, st).

Fixpoint sign_tries (tries : nat) (private_key message_hash : list Z) (hash_size : nat) (k signature : list Z)
    (curve : uECC_Curve_t) (st : R) : list Z * Z * R :=
  match tries with
  | O => (signature, 0, st)
  | S tries =>
      let '(k, ok, st) := uECC_generate_random_int k (curve_n curve) (BITS_TO_WORDS (num_n_bits curve)) st in
      if ok =? 0 then (signature, 0, st)
      else
        let '(k, signature, ok, st) := uECC_sign_with_k private_key message_hash hash_size k signature curve st in
        if negb (ok =? 0) then (signature, 1, st)
        else sign_tries tries private_key message_hash hash_size k signature curve st
  end.

Definition uECC_sign (private_key message_hash : list Z) (hash_size : nat) (signature : list Z) (curve : uECC_Curve_t)
    (st : R) : list Z * Z * R :=
  sign_tries uECC_RNG_MAX_TRIES private_key message_hash hash_size (replicate uECC_MAX_WORDS 0) signature curve st.

End Random.

Definition smax (a b : Z) : Z := if b <? a then a else b.

(** The index into [points] of the bits [i] of the two scalars. *)
Definition bit_index (u1 u2 : list Z) (i : Z) : nat :=
  ((if (uECC_vli_testBit u1 i =? 0)%Z then 0 else 1) + (if (uECC_vli_testBit u2 i =? 0)%Z then 0 else 2))%nat.

(** One turn of Shamir's trick: double, and add the point the bits select. *)
Definition verify_step (points : list (option (list Z))) (u1 u2 : list Z) (i : Z) (curve : uECC_Curve_t)
    '((rx, ry, z) : list Z * list Z * list Z) : list Z * list Z * list Z :=
  let num_words := num_words curve in
  let '(rx, ry, z) := double_jacobian curve rx ry z curve in
  match points.[bit_index u1 u2 i] with
  | Some point =>
      let tx := uECC_vli_set (replicate uECC_MAX_WORDS 0) point num_words in
      let ty := uECC_vli_set (replicate uECC_MAX_WORDS 0) (drop num_words point) num_words in
      let '(tx, ty) := apply_z tx ty z curve in
      let tz := uECC_vli_modSub (replicate uECC_MAX_WORDS 0) rx tx (curve_p curve) num_words in
      let '(tx, ty, rx, ry) := XYcZ_add tx ty rx ry curve in
      let z := uECC_vli_modMult_fast z z tz curve in
      (rx, ry, z)
  | None => (rx, ry, z)
  end.

(** [sum = G + Q] in affine coordinates. *)
Definition verify_sum (_public : list Z) (curve : uECC_Curve_t) : list Z :=
  let num_words := num_words curve in
  let zeros := replicate uECC_MAX_WORDS 0 in
  let sx := uECC_vli_set zeros _public num_words in
  let sy := uECC_vli_set zeros (drop num_words _public) num_words in
  let tx := uECC_vli_set zeros (curve_G curve) num_words in
  let ty := uECC_vli_set zeros (drop num_words (curve_G curve)) num_words in
  let z := uECC_vli_modSub zeros sx tx (curve_p curve) num_words in
  let '(tx, ty, sx, sy) := XYcZ_add tx ty sx sy curve in
  let z := uECC_vli_modInv z z (curve_p curve) num_words in
  let '(sx, sy) := apply_z sx sy z curve in
  sx ++ sy.

(** The scalars [u1 = e / s] and [u2 = r / s]. *)
Definition verify_scalars (r s message_hash : list Z) (hash_size : nat) (curve : uECC_Curve_t) : list Z * list Z :=
  let num_n_words := BITS_TO_WORDS (num_n_bits curve) in
  let zeros := replicate uECC_MAX_WORDS 0 in
  let z := uECC_vli_modInv zeros s (curve_n curve) num_n_words in
  let u1 := zeros.[num_n_words - 1 <- 0] in
  let u1 := bits2int u1 message_hash hash_size curve in
  let u1 := uECC_vli_modMult u1 u1 z (curve_n curve) num_n_words in
  let u2 := uECC_vli_modMult zeros r z (curve_n curve) num_n_words in
  (u1, u2).

(** [None] where the code would follow the null pointer [points[0]]. *)
Definition uECC_verify (public_key message_hash : list Z) (hash_size : nat) (signature : list Z) (curve : uECC_Curve_t) :
    option Z :=
  let num_words := num_words curve in
  let num_n_words := BITS_TO_WORDS (num_n_bits curve) in
  let zeros := replicate uECC_MAX_WORDS 0 in
  let _public := load_public public_key curve in
  let r := uECC_vli_bytesToNative zeros.[num_n_words - 1 <- 0] signature (num_bytes curve) in
  let s := uECC_vli_bytesToNative zeros.[num_n_words - 1 <- 0] (drop (num_bytes curve) signature) (num_bytes curve) in
  if negb (uECC_vli_isZero r num_words =? 0) || negb (uECC_vli_isZero s num_words =? 0) then Some 0
  else if negb (uECC_vli_cmp_unsafe (curve_n curve) r num_n_words =? 1) ||
          negb (uECC_vli_cmp_unsafe (curve_n curve) s num_n_words =? 1) then Some 0
  else
    let '(u1, u2) := verify_scalars r s message_hash hash_size curve in
    let sum := verify_sum _public curve in
    let points := [None; Some (curve_G curve); Some _public; Some sum] in
    let num_bits := smax (uECC_vli_numBits u1 num_n_words) (uECC_vli_numBits u2 num_n_words) in
    match points.[bit_index u1 u2 (num_bits - 1)] with
    | None => None
    | Some point =>
        let rx := uECC_vli_set zeros point num_words in
        let ry := uECC_vli_set zeros (drop num_words point) num_words in
        let z := (uECC_vli_clear zeros num_words).[0 <- 1] in
        let '(rx, ry, z) := for_down (Z.to_nat (num_bits - 1)) (fun j r =>
          verify_step points u1 u2 (Z.of_nat j) curve r) (rx, ry, z) in
        let z := uECC_vli_modInv z z (curve_p curve) num_words in
        let '(rx, ry) := apply_z rx ry z curve in
        let rx :=
          if negb (uECC_vli_cmp_unsafe (curve_n curve) rx num_n_words =? 1) then
            fst (uECC_vli_sub rx rx (curve_n curve) num_n_words)
          else rx in
        Some (uECC_vli_equal rx r num_words)
    end.

End UECC.
