(* ===== verification/UECCVli.v ===== *)
(** * UECCVli: the multi-word integers of micro-ecc

    [num n V l]: the first [n] words of the buffer [l] are those of the number
    [V].  [wrote n r V r']: a call replaced the first [n] words of [r] by those
    of [V] and left the rest.  Comparison, shift, addition and subtraction are
    shown for any number of words, the products for the four words of a 256-bit
    curve; then modular addition and subtraction, the reduction by shift and
    subtract, and the binary inversion with its termination. *)

From stdpp Require Import base list numbers.
From Stdlib Require Import ZArith Lia Znumtheory Zdivisibility.
From S2P Require Import Prelude Machine UECC.
Import UECC.

Local Open Scope Z_scope.
Local Open Scope buf_scope.

(** ** Values *)

Fixpoint vval (l : list Z) : Z :=
  match l with
  | [] => 0
  | x :: l => x + 2 ^ 64 * vval l
  end.

Definition words (l : list Z) : Prop := Forall (word 64) l.

Definition num (n : nat) (V : Z) (l : list Z) : Prop :=
  (n <= length l)%nat /\ words (take n l) /\ vval (take n l) = V.

Definition wrote (n : nat) (r : list Z) (V : Z) (r' : list Z) : Prop :=
  exists out, length out = n /\ words out /\ vval out = V /\ r' = out ++ drop n r.

Notation base n := (2 ^ (64 * Z.of_nat n)).

Lemma base_S n : base (S n) = 2 ^ 64 * base n.
Proof. rewrite <- Z.pow_add_r by lia. f_equal. lia. Qed.

Lemma base_pos n : 0 < base n.
Proof. apply Z.pow_pos_nonneg; lia. Qed.

Lemma vval_app l1 l2 : vval (l1 ++ l2) = vval l1 + base (length l1) * vval l2.
Proof.
  induction l1 as [|x l1 IH]; [cbn [app length vval]; change (base 0) with 1; lia|].
  cbn [app length vval]. rewrite IH, base_S. ring.
Qed.

Lemma vval_bound l : words l -> 0 <= vval l < base (length l).
Proof.
  induction 1 as [|x l Hx Hl IH]; [cbn; lia|]. cbn [vval length]. rewrite base_S. unfold word in Hx. nia.
Qed.

Lemma words_lookup l i : words l -> word 64 (l !!! i).
Proof.
  intros H. destruct (Nat.lt_ge_cases i (length l)) as [L|L].
  - destruct (lookup_lt_is_Some_2 l i L) as [x E]. rewrite (list_lookup_total_correct l i x E).
    unfold words in H. rewrite Forall_lookup in H. exact (H i x E).
  - rewrite list_lookup_total_alt, lookup_ge_None_2 by lia. cbn. unfold word. lia.
Qed.

Lemma take_S_total (l : list Z) i : (i < length l)%nat -> take (S i) l = take i l ++ [l !!! i].
Proof. intros H. apply take_S_r. now apply list_lookup_lookup_total_lt. Qed.

Lemma vval_take_S l i : (i < length l)%nat -> vval (take (S i) l) = vval (take i l) + base i * l !!! i.
Proof.
  intros H. rewrite (take_S_total l i H), vval_app, length_take. cbn [vval]. rewrite Nat.min_l by lia. ring.
Qed.

Lemma words_take n l : words l -> words (take n l).
Proof. apply Forall_take. Qed.
Lemma words_drop n l : words l -> words (drop n l).
Proof. apply Forall_drop. Qed.
Lemma words_app l1 l2 : words (l1 ++ l2) <-> words l1 /\ words l2.
Proof. apply Forall_app. Qed.
Lemma words_replicate n : words (replicate n 0).
Proof. apply Forall_replicate. unfold word. lia. Qed.

Lemma words_lookup_take n l i : words (take n l) -> (i < n)%nat -> word 64 (l !!! i).
Proof.
  intros H Hi. replace (l !!! i) with (take n l !!! i); [now apply words_lookup|].
  now rewrite !list_lookup_total_alt, lookup_take_lt by lia.
Qed.

Lemma drop_take_S n i (l : list Z) : (n <= length l)%nat -> (i < n)%nat ->
  drop i (take n l) = l !!! i :: drop (S i) (take n l).
Proof. intros L Hi. apply drop_S. rewrite lookup_take_lt by lia. apply list_lookup_lookup_total_lt. lia. Qed.

Lemma vval_zeros n : vval (replicate n 0) = 0.
Proof. induction n as [|n IH]; [done|]. cbn [replicate vval]. lia. Qed.

(** Lists of words of one length are determined by their value. *)
Lemma vval_inj l1 l2 : words l1 -> words l2 -> length l1 = length l2 -> vval l1 = vval l2 -> l1 = l2.
Proof.
  intros H1. revert l2. induction H1 as [|x l1 Hx H1 IH]; intros [|y l2] H2 L E; try done.
  inversion_clear H2 as [|? ? Hy H2']. cbn [vval length] in *. unfold word in Hx, Hy. assert (x = y) by lia. subst y.
  f_equal. apply IH; [done|lia|lia].
Qed.

(** *** The predicates *)

Lemma num_intro l : words l -> num (length l) (vval l) l.
Proof. intros H. unfold num. rewrite firstn_all. auto. Qed.

Lemma num_word n V l i : num n V l -> (i < n)%nat -> word 64 (l !!! i).
Proof. intros (_ & H & _). now apply words_lookup_take. Qed.

Lemma num_bound n V l : num n V l -> 0 <= V < base n.
Proof. intros (L & H & <-). pose proof (vval_bound _ H) as B. now rewrite length_take, Nat.min_l in B by lia. Qed.

Lemma num_exact n V l : num n V l -> length l = n -> words l /\ vval l = V.
Proof. intros (_ & H & E) <-. now rewrite firstn_all in H, E. Qed.

Lemma wrote_num n r V r' : wrote n r V r' -> num n V r'.
Proof.
  intros (out & L & W & E & ->). unfold num. rewrite length_app, take_app_length' by done. split; [lia|auto].
Qed.

Lemma wrote_length n r V r' : (n <= length r)%nat -> wrote n r V r' -> length r' = length r.
Proof. intros Hn (out & L & W & E & ->). rewrite length_app, length_drop. lia. Qed.

Lemma wrote_drop n r V r' : wrote n r V r' -> drop n r' = drop n r.
Proof. intros (out & <- & W & E & ->). apply drop_app_length. Qed.

Lemma wrote_exact n r V r' : wrote n r V r' -> length r = n -> length r' = n /\ words r' /\ vval r' = V.
Proof. intros (out & L & W & E & ->) Hr. rewrite drop_ge, app_nil_r by lia. auto. Qed.

(** ** Loops with a carry *)

Lemma insert_prefix (pre r : list Z) i v : length pre = i -> (i < length r)%nat ->
  (pre ++ drop i r).[i <- v] = (pre ++ [v]) ++ drop (S i) r.
Proof.
  intros L H. destruct (lookup_lt_is_Some_2 r i H) as [x Hx]. rewrite insert_app_r_alt by lia.
  rewrite L, Nat.sub_diag, (drop_S r x i Hx). cbn. now rewrite <- app_assoc.
Qed.

Lemma for_carry (P : nat -> list Z -> Z -> Prop) (f g : nat -> Z -> Z) n r c0 : (n <= length r)%nat -> P O [] c0 ->
  (forall i pre c, (i < n)%nat -> length pre = i -> P i pre c -> P (S i) (pre ++ [f i c]) (g i c)) ->
  exists out c, for_ 0 n (fun i '(r, c) => (r.[i <- f i c], g i c)) (r, c0) = (out ++ drop n r, c) /\
    length out = n /\ P n out c.
Proof.
  intros Hn H0 Hs. induction n as [|n IH].
  { exists [], c0. rewrite for_nil by lia. now rewrite drop_0. }
  destruct IH as (out & c & E & L & HP); [lia|intros; apply Hs; (lia || done)|].
  rewrite for_last, E by lia. exists (out ++ [f n c]), (g n c). rewrite insert_prefix by lia.
  split; [done|]. rewrite length_app. cbn. split; [lia|]. apply Hs; (lia || done).
Qed.

(** ** The simple loops *)

Lemma vli_clear_spec r n : (n <= length r)%nat -> uECC_vli_clear r n = replicate n 0 ++ drop n r.
Proof.
  intros H. unfold uECC_vli_clear. rewrite (for_write (fun _ => 0)) by done. f_equal.
  clear H. generalize 0%nat. induction n as [|n IH]; intros k; [done|]. cbn. f_equal. apply IH.
Qed.

Lemma vli_clear_wrote r n : (n <= length r)%nat -> wrote n r 0 (uECC_vli_clear r n).
Proof.
  intros H. exists (replicate n 0). rewrite length_replicate, vval_zeros, vli_clear_spec by done.
  split_and!; auto using words_replicate.
Qed.

Lemma fmap_lookup_seq (src : list Z) n : (n <= length src)%nat -> (fun i => src !!! i) <$> seq 0 n = take n src.
Proof.
  induction n as [|n IH]; intros H; [done|]. rewrite seq_S, fmap_app, IH, (take_S_total src n) by lia. done.
Qed.

Lemma vli_set_spec dest src n : (n <= length dest)%nat -> (n <= length src)%nat ->
  uECC_vli_set dest src n = take n src ++ drop n dest.
Proof. intros H1 H2. unfold uECC_vli_set. rewrite (for_write (fun i => src !!! i)), fmap_lookup_seq by done. done. Qed.

Lemma vli_set_wrote dest src n V : (n <= length dest)%nat -> num n V src -> wrote n dest V (uECC_vli_set dest src n).
Proof.
  intros H (L & W & E). exists (take n src). rewrite length_take, vli_set_spec by done. split_and!; auto. lia.
Qed.

Lemma lor_zero a b : 0 <= a -> 0 <= b -> (Z.lor a b =? 0) = (a =? 0) && (b =? 0).
Proof.
  intros Ha Hb. destruct (Z.eqb_spec (Z.lor a b) 0) as [E|E].
  - apply Z.lor_eq_0_iff in E as [-> ->]. done.
  - destruct (Z.eqb_spec a 0) as [->|], (Z.eqb_spec b 0) as [->|]; try done.
Qed.

Lemma vli_isZero_spec n V l : num n V l -> uECC_vli_isZero l n = Z.b2z (V =? 0).
Proof.
  intros (L & W & <-). unfold uECC_vli_isZero. f_equal.
  apply (for_ind (fun i bits => 0 <= bits /\ (bits =? 0) = (vval (take i l) =? 0))); [lia|split; [lia|done]|].
  intros i bits Hi [B E]. pose proof (words_lookup_take n l i W ltac:(lia)) as Wi. unfold word in Wi.
  split; [apply Z.lor_nonneg; lia|]. rewrite lor_zero, E, vval_take_S by lia.
  pose proof (vval_bound (take i l)) as Bi. rewrite length_take, Nat.min_l in Bi by lia.
  specialize (Bi ltac:(replace (take i l) with (take i (take n l)) by (rewrite take_take; f_equal; lia); now apply words_take)).
  pose proof (base_pos i). destruct (Z.eqb_spec (vval (take i l)) 0), (Z.eqb_spec (l !!! i) 0),
    (Z.eqb_spec (vval (take i l) + base i * l !!! i) 0); try done; nia.
Qed.

(** ** Comparison *)

Definition sign_of (c : comparison) : Z := match c with Gt => 1 | Eq => 0 | Lt => -1 end.

Lemma words_take_le n i l : (i <= n)%nat -> words (take n l) -> words (take i l).
Proof. intros H W. replace (take i l) with (take i (take n l)) by (rewrite take_take; f_equal; lia). now apply words_take. Qed.

Lemma vval_take_bound n i l : (i <= n)%nat -> (n <= length l)%nat -> words (take n l) -> 0 <= vval (take i l) < base i.
Proof.
  intros H L W. pose proof (vval_bound (take i l) (words_take_le n i l H W)) as B. now rewrite length_take, Nat.min_l in B by lia.
Qed.

Lemma vli_cmp_unsafe_spec n V1 V2 l1 l2 : num n V1 l1 -> num n V2 l2 ->
  uECC_vli_cmp_unsafe l1 l2 n = sign_of (V1 ?= V2).
Proof.
  intros (L1 & W1 & <-) (L2 & W2 & <-). assert (H : forall i, (i <= n)%nat ->
    uECC_vli_cmp_unsafe l1 l2 i = sign_of (vval (take i l1) ?= vval (take i l2))); [|now apply H].
  induction i as [|i IH]; intros Hi; [done|]. cbn [uECC_vli_cmp_unsafe]. rewrite !vval_take_S, IH by lia.
  pose proof (vval_take_bound n i l1 ltac:(lia) L1 W1). pose proof (vval_take_bound n i l2 ltac:(lia) L2 W2).
  pose proof (base_pos i). destruct (Z.ltb_spec (l2 !!! i) (l1 !!! i)) as [C|C].
  - now rewrite (proj2 (Z.compare_gt_iff _ _)) by nia.
  - destruct (Z.ltb_spec (l1 !!! i) (l2 !!! i)) as [C'|C'].
    + now rewrite (proj2 (Z.compare_lt_iff _ _)) by nia.
    + replace (l2 !!! i) with (l1 !!! i) by lia. now rewrite !(Z.add_comm (vval _)), Z.add_compare_mono_l.
Qed.

(** The test [cmp_unsafe(a, b) != 1] of the code. *)
Lemma vli_gt_spec n V1 V2 l1 l2 : num n V1 l1 -> num n V2 l2 ->
  (uECC_vli_cmp_unsafe l1 l2 n =? 1) = (V2 <? V1).
Proof.
  intros H1 H2. rewrite (vli_cmp_unsafe_spec n V1 V2 l1 l2 H1 H2). rewrite Z.ltb_compare, (Z.compare_antisym V1 V2).
  now destruct (V1 ?= V2).
Qed.

(** ** Addition and subtraction *)

(** The carry of a word: [sum < left], or the carry that came in when the sum
    wraps around to [left]. *)
Lemma add_word a b c : word 64 a -> word 64 b -> c = 0 \/ c = 1 ->
  let sum := (a + b + c)%u64 in
  let c' := if sum =? a then c else Z.b2z (sum <? a) in
  word 64 sum /\ (c' = 0 \/ c' = 1) /\ sum + 2 ^ 64 * c' = a + b + c.
Proof.
  intros Ha Hb Hc. cbv zeta. unfold wadd, wrap. rewrite Zplus_mod_idemp_l. unfold word in *.
  pose proof (Z.mod_pos_bound (a + b + c) (2 ^ 64) ltac:(lia)). pose proof (Z.div_mod (a + b + c) (2 ^ 64) ltac:(lia)) as D.
  assert (Q : (a + b + c) / 2 ^ 64 = 0 \/ (a + b + c) / 2 ^ 64 = 1).
  { assert (0 <= (a + b + c) / 2 ^ 64 < 2) by (split; [apply Z.div_pos; lia|apply Z.div_lt_upper_bound; lia]). lia. }
  set (s := (a + b + c) mod 2 ^ 64) in *. split; [lia|].
  destruct (Z.eqb_spec s a); [|destruct (Z.ltb_spec s a)]; cbn [Z.b2z]; lia.
Qed.

Lemma sub_word a b c : word 64 a -> word 64 b -> c = 0 \/ c = 1 ->
  let diff := (a - b - c)%u64 in
  let c' := if diff =? a then c else Z.b2z (a <? diff) in
  word 64 diff /\ (c' = 0 \/ c' = 1) /\ diff - 2 ^ 64 * c' = a - b - c.
Proof.
  intros Ha Hb Hc. cbv zeta. unfold wsub, wrap. rewrite Zminus_mod_idemp_l. unfold word in *.
  pose proof (Z.mod_pos_bound (a - b - c) (2 ^ 64) ltac:(lia)). pose proof (Z.div_mod (a - b - c) (2 ^ 64) ltac:(lia)) as D.
  assert (Q : (a - b - c) / 2 ^ 64 = 0 \/ (a - b - c) / 2 ^ 64 = -1).
  { assert (-2 < (a - b - c) / 2 ^ 64 < 1); [|lia].
    split; [assert (-1 <= (a - b - c) / 2 ^ 64) by (apply Z.div_le_lower_bound; lia); lia|apply Z.div_lt_upper_bound; lia]. }
  set (s := (a - b - c) mod 2 ^ 64) in *. split; [lia|].
  destruct (Z.eqb_spec s a); [|destruct (Z.ltb_spec a s)]; cbn [Z.b2z]; lia.
Qed.

Lemma vli_add_spec n r V1 V2 l1 l2 : (n <= length r)%nat -> num n V1 l1 -> num n V2 l2 ->
  exists S c, wrote n r S (fst (uECC_vli_add r l1 l2 n)) /\ snd (uECC_vli_add r l1 l2 n) = c /\
    (c = 0 \/ c = 1) /\ S + base n * c = V1 + V2.
Proof.
  intros Hr (L1 & W1 & <-) (L2 & W2 & <-).
  destruct (for_carry (fun i pre c => words pre /\ (c = 0 \/ c = 1) /\
      vval pre + base i * c = vval (take i l1) + vval (take i l2))
    (fun i c => (l1.[i] + l2.[i] + c)%u64)
    (fun i c => let sum := (l1.[i] + l2.[i] + c)%u64 in if sum =? l1.[i] then c else Z.b2z (sum <? l1.[i])) n r 0 Hr)
    as (out & c & E & L & W & Hc & HV).
  - split; [constructor|]. split; [lia|done].
  - intros i pre c Hi L (W & Hc & HV).
    pose proof (words_lookup_take n l1 i W1 ltac:(lia)) as A1. pose proof (words_lookup_take n l2 i W2 ltac:(lia)) as A2.
    destruct (add_word _ _ _ A1 A2 Hc) as (B1 & B2 & B3). split; [apply words_app; repeat constructor; apply W || apply B1|].
    split; [exact B2|]. rewrite !vval_take_S, vval_app, L, base_S by lia. cbn [vval].
    set (s := (l1.[i] + l2.[i] + c)%u64) in *. set (c' := if s =? _ then _ else _) in *. nia.
  - unfold uECC_vli_add. cbv zeta in E |- *. rewrite E. exists (vval out), c. cbn [fst snd]. split_and!; auto. exists out. auto.
Qed.

Lemma vli_sub_spec n r V1 V2 l1 l2 : (n <= length r)%nat -> num n V1 l1 -> num n V2 l2 ->
  exists D c, wrote n r D (fst (uECC_vli_sub r l1 l2 n)) /\ snd (uECC_vli_sub r l1 l2 n) = c /\
    (c = 0 \/ c = 1) /\ D - base n * c = V1 - V2.
Proof.
  intros Hr (L1 & W1 & <-) (L2 & W2 & <-).
  destruct (for_carry (fun i pre c => words pre /\ (c = 0 \/ c = 1) /\
      vval pre - base i * c = vval (take i l1) - vval (take i l2))
    (fun i c => (l1.[i] - l2.[i] - c)%u64)
    (fun i c => let diff := (l1.[i] - l2.[i] - c)%u64 in if diff =? l1.[i] then c else Z.b2z (l1.[i] <? diff)) n r 0 Hr)
    as (out & c & E & L & W & Hc & HV).
  - split; [constructor|]. split; [lia|done].
  - intros i pre c Hi L (W & Hc & HV).
    pose proof (words_lookup_take n l1 i W1 ltac:(lia)) as A1. pose proof (words_lookup_take n l2 i W2 ltac:(lia)) as A2.
    destruct (sub_word _ _ _ A1 A2 Hc) as (B1 & B2 & B3). split; [apply words_app; repeat constructor; apply W || apply B1|].
    split; [exact B2|]. rewrite !vval_take_S, vval_app, L, base_S by lia. cbn [vval].
    set (s := (l1.[i] - l2.[i] - c)%u64) in *. set (c' := if s =? _ then _ else _) in *. nia.
  - unfold uECC_vli_sub. cbv zeta in E |- *. rewrite E. exists (vval out), c. cbn [fst snd]. split_and!; auto. exists out. auto.
Qed.

(** The difference of numbers in order, and the borrow. *)
Lemma vli_sub_exact n r V1 V2 l1 l2 : (n <= length r)%nat -> num n V1 l1 -> num n V2 l2 -> V2 <= V1 ->
  wrote n r (V1 - V2) (fst (uECC_vli_sub r l1 l2 n)).
Proof.
  intros Hr H1 H2 Hle. destruct (vli_sub_spec n r V1 V2 l1 l2 Hr H1 H2) as (D & c & HD & _ & Hc & E).
  pose proof (num_bound _ _ _ H1). pose proof (num_bound _ _ _ H2). pose proof (num_bound _ _ _ (wrote_num _ _ _ _ HD)).
  replace (V1 - V2) with D by (destruct Hc as [-> | ->]; lia). exact HD.
Qed.

Lemma vli_cmp_spec n V1 V2 l1 l2 : (n <= 4)%nat -> num n V1 l1 -> num n V2 l2 ->
  uECC_vli_cmp l1 l2 n = sign_of (V1 ?= V2).
Proof.
  intros Hn H1 H2. unfold uECC_vli_cmp.
  destruct (vli_sub_spec n (replicate uECC_MAX_WORDS 0) V1 V2 l1 l2 ltac:(now rewrite length_replicate) H1 H2)
    as (D & c & HD & Ec & Hc & E).
  destruct (uECC_vli_sub _ l1 l2 n) as [tmp borrow]. cbn [fst snd] in *. subst borrow.
  rewrite (vli_isZero_spec n D tmp (wrote_num _ _ _ _ HD)).
  pose proof (num_bound _ _ _ H1). pose proof (num_bound _ _ _ H2). pose proof (num_bound _ _ _ (wrote_num _ _ _ _ HD)).
  destruct (Z.compare_spec V1 V2); destruct (Z.eqb_spec D 0); destruct Hc as [-> | ->]; cbn; lia.
Qed.

(** ** Halving *)

Lemma half_word x V : word 64 x -> 0 <= V ->
  word 64 ((x >> 1) .| (wrap 64 (Z.shiftl V 63)))%u64 /\
  ((x >> 1) .| (wrap 64 (Z.shiftl V 63)))%u64 + 2 ^ 64 * (V / 2) = (x + 2 ^ 64 * V) / 2.
Proof.
  intros Hx HV. unfold word in Hx. rewrite wshr_div by lia. unfold wrap. rewrite Z.shiftl_mul_pow2 by lia.
  assert (E : V * 2 ^ 63 mod 2 ^ 64 = Z.shiftl (V mod 2) 63).
  { rewrite Z.shiftl_mul_pow2 by lia. change (2 ^ 64) with (2 * 2 ^ 63). now rewrite Z.mul_mod_distr_r by lia. }
  pose proof (Z.mod_pos_bound V 2 ltac:(lia)). pose proof (Z.div_mod V 2 ltac:(lia)).
  assert (B : 0 <= x / 2 < 2 ^ 63) by (split; [apply Z.div_pos; lia|apply Z.div_lt_upper_bound; lia]).
  change (2 ^ 1) with 2. rewrite E, Z_lor_add by lia. split; [unfold word; lia|].
  replace (x + 2 ^ 64 * V) with (x + 2 ^ 63 * V * 2) by lia. rewrite Z.div_add by lia. lia.
Qed.

Lemma wshl63 x : (x << 63)%u64 = wrap 64 (Z.shiftl x 63).
Proof. reflexivity. Qed.

Lemma wrap_shl63_low x V : wrap 64 (Z.shiftl (x + 2 ^ 64 * V) 63) = wrap 64 (Z.shiftl x 63).
Proof.
  unfold wrap. rewrite !Z.shiftl_mul_pow2 by lia. replace ((x + 2 ^ 64 * V) * 2 ^ 63) with (x * 2 ^ 63 + (V * 2 ^ 63) * 2 ^ 64) by lia.
  now rewrite Z_mod_plus_full.
Qed.

(** After [j] turns the top [j] of the [n] words are halved. *)
Lemma rshift1_loop n l : (n <= length l)%nat -> words (take n l) -> forall j, (j <= n)%nat ->
  exists suf, length suf = j /\ words suf /\ vval suf = vval (drop (n - j) (take n l)) / 2 /\
  for_ 0 j (fun j '(vli, carry) =>
    let temp := vli.[n - 1 - j] in
    (vli.[n - 1 - j <- ((temp >> 1) .| carry)%u64], (temp << 63)%u64)) (l, 0) =
  (take (n - j) l ++ suf ++ drop n l, wrap 64 (Z.shiftl (vval (drop (n - j) (take n l))) 63)).
Proof.
  intros L W. induction j as [|j IH]; intros Hj.
  { exists []. rewrite for_nil, Nat.sub_0_r by lia. rewrite (drop_ge (take n l)) by (rewrite length_take; lia).
    cbn [app vval]. rewrite take_drop. split_and!; auto. constructor. }
  destruct (IH ltac:(lia)) as (suf & Ls & Ws & Vs & E). rewrite for_last, E by lia. clear IH E. cbv zeta.
  set (i := (n - S j)%nat). replace (n - j)%nat with (S i) in * by lia. replace (n - 1 - j)%nat with i by lia.
  assert (Hi : (i < length l)%nat) by lia. pose proof (words_lookup_take n l i W ltac:(lia)) as Wx.
  rewrite (take_S_total l i Hi). set (x := l !!! i) in *.
  pose proof (drop_take_S n i l L ltac:(lia)) as D. fold x in D.
  set (V := vval (drop (S i) (take n l))) in *.
  assert (HV : 0 <= V) by (apply vval_bound; now apply words_drop).
  assert (Li : length (take i l) = i) by (rewrite length_take; lia).
  rewrite <- app_assoc, lookup_total_app_r, Li, Nat.sub_diag by lia. cbn [app]. change ((x :: suf ++ drop n l) !!! 0%nat) with x.
  destruct (half_word x V Wx HV) as [H1 H2].
  exists (((x >> 1) .| wrap 64 (Z.shiftl V 63))%u64 :: suf). rewrite D. cbn [vval length]. fold V.
  split; [lia|]. split; [now constructor|]. split; [rewrite Vs; exact H2|]. f_equal.
  - rewrite insert_app_r_alt by lia. now rewrite Li, Nat.sub_diag.
  - now rewrite wshl63, wrap_shl63_low.
Qed.

Lemma vli_rshift1_wrote n V l : num n V l -> wrote n l (V / 2) (uECC_vli_rshift1 l n).
Proof.
  intros (L & W & <-). unfold uECC_vli_rshift1, for_down.
  destruct (rshift1_loop n l L W n (le_n n)) as (suf & Ls & Ws & Vs & E). rewrite Nat.sub_diag, drop_0 in *.
  exists suf. split_and!; auto. exact (f_equal fst E).
Qed.

(** ** Equality *)

Lemma lxor_zero a b : (Z.lxor a b =? 0) = (a =? b).
Proof. destruct (Z.eqb_spec a b) as [->|N]; [now rewrite Z.lxor_nilpotent|]. apply Z.eqb_neq. intros E%Z.lxor_eq. done. Qed.

Lemma vli_equal_spec n V1 V2 l1 l2 : num n V1 l1 -> num n V2 l2 -> uECC_vli_equal l1 l2 n = Z.b2z (V1 =? V2).
Proof.
  intros (L1 & W1 & <-) (L2 & W2 & <-). unfold uECC_vli_equal, for_down. f_equal.
  assert (H : forall j, (j <= n)%nat ->
    0 <= for_ 0 j (fun j diff => (diff .| (l1.[n - 1 - j] ^^ l2.[n - 1 - j]))%u64) 0 /\
    (for_ 0 j (fun j diff => (diff .| (l1.[n - 1 - j] ^^ l2.[n - 1 - j]))%u64) 0 =? 0) =
    (vval (drop (n - j) (take n l1)) =? vval (drop (n - j) (take n l2)))).
  { induction j as [|j IH]; intros Hj.
    { rewrite for_nil, !drop_ge by (rewrite ?length_take; lia). done. }
    destruct (IH ltac:(lia)) as [B E]. rewrite for_last by lia. set (i := (n - S j)%nat).
    replace (n - j)%nat with (S i) in * by lia. replace (n - 1 - j)%nat with i by lia.
    pose proof (words_lookup_take n l1 i W1 ltac:(lia)) as A1. pose proof (words_lookup_take n l2 i W2 ltac:(lia)) as A2.
    unfold word in A1, A2. assert (X : 0 <= Z.lxor l1.[i] l2.[i]) by (apply Z.lxor_nonneg; lia).
    split; [apply Z.lor_nonneg; lia|]. rewrite lor_zero, E, lxor_zero by done.
    rewrite !(drop_take_S n i) by lia. cbn [vval]. destruct (Z.eqb_spec (vval (drop (S i) (take n l1))) (vval (drop (S i) (take n l2)))),
      (Z.eqb_spec (l1 !!! i) (l2 !!! i)); cbn; symmetry; [apply Z.eqb_eq|apply Z.eqb_neq..]; lia. }
  destruct (H n (le_n n)) as [_ E]. now rewrite Nat.sub_diag, !drop_0 in E.
Qed.

(** ** Bits *)

Lemma vval_testbit l : words l -> forall i j, (i < length l)%nat -> 0 <= j < 64 ->
  Z.testbit (vval l) (64 * Z.of_nat i + j) = Z.testbit (l !!! i) j.
Proof.
  induction 1 as [|x l Hx Hl IH]; intros i j Hi Hj; [cbn in Hi; lia|]. cbn [vval]. unfold word in Hx.
  destruct i as [|i].
  - change (64 * Z.of_nat 0 + j) with j. change ((x :: l) !!! 0%nat) with x.
    rewrite <- (Z.mod_pow2_bits_low (x + _) 64), Z.mul_comm, Z_mod_plus_full, Z.mod_small by lia. done.
  - change ((x :: l) !!! S i) with (l !!! i). cbn [length] in Hi. rewrite <- IH by lia.
    replace (64 * Z.of_nat (S i) + j) with ((64 * Z.of_nat i + j) + 64) by lia.
    rewrite <- Z.div_pow2_bits by lia. rewrite Z.mul_comm, Z.div_add, Z.div_small by lia. done.
Qed.

Lemma land_pow2_zero x m : 0 <= m -> (Z.land x (2 ^ m) =? 0) = negb (Z.testbit x m).
Proof.
  intros Hm. destruct (Z.testbit x m) eqn:E; cbn.
  - apply Z.eqb_neq. intros H. apply (f_equal (fun z => Z.testbit z m)) in H.
    rewrite Z.land_spec, E, Z.pow2_bits_true, Z.bits_0 in H by lia. done.
  - apply Z.eqb_eq. apply Z.bits_inj'. intros i Hi. rewrite Z.land_spec, Z.bits_0.
    destruct (Z.eq_dec i m) as [->|N]; [now rewrite E|]. now rewrite Z.pow2_bits_false, andb_false_r by lia.
Qed.

Lemma vli_testBit_spec n V l bit : num n V l -> 0 <= bit < 64 * Z.of_nat n ->
  (uECC_vli_testBit l bit =? 0) = negb (Z.testbit V bit).
Proof.
  intros (L & W & <-) Hb. unfold uECC_vli_testBit. change 63 with (Z.ones 6).
  rewrite Z.land_ones, Z.shiftr_div_pow2 by lia. change (2 ^ 6) with 64.
  pose proof (Z.mod_pos_bound bit 64 ltac:(lia)). pose proof (Z.div_mod bit 64 ltac:(lia)) as D.
  assert (Hi : 0 <= bit / 64 < Z.of_nat n) by (split; [apply Z.div_pos; lia|apply Z.div_lt_upper_bound; lia]).
  rewrite wshl_mul, wrap_small, Z.mul_1_l, land_pow2_zero by (try (unfold word; rewrite Z.mul_1_l; split; [apply Z.pow_nonneg|apply Z.pow_lt_mono_r]); lia).
  f_equal. rewrite D at 3. rewrite <- (Z2Nat.id (bit / 64)) at 2 by lia.
  rewrite (vval_testbit (take n l) W) by (rewrite ?length_take; lia).
  f_equal. rewrite !list_lookup_total_alt, lookup_take_lt by lia. done.
Qed.

(** *** The number of bits *)

Lemma digit_bits_spec fuel : forall x i, 0 <= x < 2 ^ Z.of_nat fuel ->
  digit_bits fuel x i = i + (if x =? 0 then 0 else Z.log2 x + 1).
Proof.
  induction fuel as [|fuel IH]; intros x i Hx; [cbn in *; replace x with 0 by lia; cbn; lia|].
  rewrite Nat2Z.inj_succ, Z.pow_succ_r in Hx by lia. cbn [digit_bits]. destruct (Z.eqb_spec x 0) as [|N]; [lia|].
  rewrite wshr_div, IH by (lia || (split; [apply Z.div_pos|apply Z.div_lt_upper_bound]; lia)). change (2 ^ 1) with 2.
  destruct (Z.eqb_spec (x / 2) 0) as [E|E].
  - replace x with 1 by (pose proof (Z.div_mod x 2 ltac:(lia)); pose proof (Z.mod_pos_bound x 2 ltac:(lia)); lia). cbn. lia.
  - pose proof (Z.log2_shiftr x 1 ltac:(lia)) as G. rewrite Z.shiftr_div_pow2 in G by lia. change (2 ^ 1) with 2 in G.
    assert (1 <= Z.log2 x) by (apply Z.log2_le_pow2; pose proof (Z.div_mod x 2 ltac:(lia));
      pose proof (Z.mod_pos_bound x 2 ltac:(lia)); pose proof (Z.div_pos x 2); lia). lia.
Qed.

Lemma vli_numDigits_spec l n : (n <= length l)%nat ->
  let d := vli_numDigits l n in (d <= n)%nat /\ vval (take n l) = vval (take d l) /\
    match d with O => True | S i => l !!! i <> 0 end.
Proof.
  induction n as [|n IH]; intros L; [done|]. cbn [vli_numDigits]. destruct (Z.eqb_spec l.[n] 0) as [E|E].
  - destruct (IH ltac:(lia)) as (H1 & H2 & H3). cbv zeta. split_and!; [lia| |exact H3]. rewrite vval_take_S, H2, E by lia. ring.
  - cbv zeta. auto.
Qed.

Definition bit_size (V : Z) : Z := if V =? 0 then 0 else Z.log2 V + 1.

Lemma vli_numBits_spec n V l : num n V l -> uECC_vli_numBits l n = bit_size V.
Proof.
  intros (L & W & <-). unfold uECC_vli_numBits. destruct (vli_numDigits_spec l n L) as (H1 & -> & H3).
  destruct (vli_numDigits l n) as [|d]; [done|]. cbv beta iota in H3.
  pose proof (words_lookup_take n l d W ltac:(lia)) as Wd. unfold word in Wd.
  rewrite digit_bits_spec by exact Wd. rewrite vval_take_S by lia.
  pose proof (vval_take_bound n d l ltac:(lia) L W) as B. pose proof (base_pos d).
  unfold bit_size. rewrite (proj2 (Z.eqb_neq l.[d] 0)), (proj2 (Z.eqb_neq (_ + _) 0)) by nia.
  rewrite Z.shiftl_mul_pow2 by lia. rewrite Z.add_0_l.
  assert (G : Z.log2 (vval (take d l) + base d * l !!! d) = 64 * Z.of_nat d + Z.log2 l.[d]); [|change (2 ^ 6) with 64; lia].
  set (x := l !!! d) in *. pose proof (Z.log2_spec x ltac:(lia)) as [G1 G2]. pose proof (Z.log2_nonneg x) as G0.
  apply Z.log2_unique; [lia|]. rewrite Z.pow_succ_r, Z.pow_add_r by lia. rewrite Z.pow_succ_r in G2 by lia. nia.
Qed.

(** ** Products *)

(** The accumulator of three words. *)
Definition acc3 (v : Z) : Z * Z * Z := (v mod 2 ^ 64, (v / 2 ^ 64) mod 2 ^ 64, v / 2 ^ 128).

Lemma acc3_join v : 0 <= v -> Z.lor (wshl 128 ((v / 2 ^ 64) mod 2 ^ 64) 64) (v mod 2 ^ 64) = v mod 2 ^ 128.
Proof.
  intros Hv. pose proof (Z.mod_pos_bound (v / 2 ^ 64) (2 ^ 64) ltac:(lia)). pose proof (Z.mod_pos_bound v (2 ^ 64) ltac:(lia)).
  rewrite wshl_small by lia. rewrite Z.lor_comm, <- Z.shiftl_mul_pow2, Z_lor_add by lia.
  change (2 ^ 128) with (2 ^ 64 * 2 ^ 64). rewrite Z.rem_mul_r by lia. lia.
Qed.

(** Adding [p] below 2^128 to the low two words carries into the third. *)
Lemma acc3_add v p : 0 <= v -> 0 <= p < 2 ^ 128 -> v + p < 2 ^ 192 ->
  let r01 := wadd 128 (v mod 2 ^ 128) p in
  (wrap 64 r01, wrap 64 (wshr r01 64), (v / 2 ^ 128 + Z.b2z (r01 <? p)%Z)%u64) = acc3 (v + p).
Proof.
  intros Hv Hp Hs. cbv zeta. unfold acc3, wadd, wrap. rewrite Zplus_mod_idemp_l, wshr_div by lia.
  pose proof (Z.div_mod v (2 ^ 128) ltac:(lia)) as D. pose proof (Z.mod_pos_bound v (2 ^ 128) ltac:(lia)).
  pose proof (Z.div_mod (v + p) (2 ^ 128) ltac:(lia)) as D'. pose proof (Z.mod_pos_bound (v + p) (2 ^ 128) ltac:(lia)).
  set (q := v / 2 ^ 128) in *. set (q' := (v + p) / 2 ^ 128) in *. set (r := v mod 2 ^ 128) in *.
  set (r' := (v + p) mod 2 ^ 128) in *. assert (0 <= q) by (apply Z.div_pos; lia).
  assert (E : q + Z.b2z (r' <? p) = q') by (destruct (Z.ltb_spec r' p); cbn [Z.b2z]; lia).
  rewrite E, (Z.mod_small q') by (change (2 ^ 192) with (2 ^ 128 * 2 ^ 64) in Hs; lia).
  assert (M : forall k, 0 <= k -> k + 64 <= 128 -> (r' / 2 ^ k) mod 2 ^ 64 = ((v + p) / 2 ^ k) mod 2 ^ 64).
  { intros k Hk Hk'. replace (v + p) with (r' + q' * 2 ^ (128 - k - 64) * 2 ^ 64 * 2 ^ k).
    - rewrite Z.div_add by (apply Z.pow_nonzero; lia). now rewrite Z_mod_plus_full.
    - rewrite <- !Z.mul_assoc, <- !Z.pow_add_r by lia. replace (128 - k - 64 + (64 + k)) with 128 by lia. lia. }
  pose proof (M 0 ltac:(lia) ltac:(lia)) as M0. change (2 ^ 0) with 1 in M0. rewrite !Z.div_1_r in M0.
  rewrite M0, M by lia. done.
Qed.

Lemma muladd_spec a b v : word 64 a -> word 64 b -> 0 <= v -> v + a * b < 2 ^ 192 ->
  muladd a b (acc3 v) = acc3 (v + a * b).
Proof.
  intros Ha Hb Hv Hs. unfold word in *. assert (0 <= a * b < 2 ^ 128) by nia. unfold muladd, acc3 at 1.
  rewrite wmul_small, acc3_join by lia. apply acc3_add; lia.
Qed.

Lemma mul2add_spec a b v : word 64 a -> word 64 b -> 0 <= v -> v + 2 * (a * b) < 2 ^ 192 ->
  mul2add a b (acc3 v) = acc3 (v + 2 * (a * b)).
Proof.
  intros Ha Hb Hv Hs. unfold word in *. assert (Hp : 0 <= a * b < 2 ^ 128) by nia. set (p := a * b) in *.
  unfold mul2add, acc3 at 1. rewrite (wmul_small 128 a b), acc3_join by (fold p; lia). fold p. cbv zeta. rewrite (wshr_div p) by lia.
  change (wmul 128 p 2) with ((p * 2) mod 2 ^ 128). set (h := p / 2 ^ 127).
  assert (Hh : 0 <= h < 2) by (split; [apply Z.div_pos; lia|apply Z.div_lt_upper_bound; lia]).
  assert (E2 : (p * 2) mod 2 ^ 128 = p * 2 - h * 2 ^ 128).
  { symmetry. apply (Z.mod_unique_pos _ _ h); [|lia]. pose proof (Z.div_mod p (2 ^ 127) ltac:(lia)) as D.
    pose proof (Z.mod_pos_bound p (2 ^ 127) ltac:(lia)). fold h in D. lia. }
  rewrite E2. set (p' := p * 2 - h * 2 ^ 128) in *. assert (Hp' : 0 <= p' < 2 ^ 128) by (rewrite <- E2; apply Z.mod_pos_bound; lia).
  replace (v + 2 * p) with (v + h * 2 ^ 128 + p') by lia. set (w := v + h * 2 ^ 128).
  assert (Ew : w mod 2 ^ 128 = v mod 2 ^ 128) by apply Z_mod_plus_full.
  assert (Dw : w / 2 ^ 128 = v / 2 ^ 128 + h) by (unfold w; rewrite Z.div_add by lia; lia).
  pose proof (acc3_add w p' ltac:(lia) Hp' ltac:(lia)) as A. cbv zeta in A. rewrite Ew, Dw in A. rewrite <- A. f_equal.
  assert (0 <= v / 2 ^ 128) by (apply Z.div_pos; lia).
  rewrite (wrap_small 64 h), (wadd_small 64 (v / 2 ^ 128) h) by
    (rewrite <- ?Dw; unfold word; split; [lia|]; try (apply Z.div_lt_upper_bound); lia). done.
Qed.

Lemma put_acc3 k result v : 0 <= v < 2 ^ 192 -> put_word k result (acc3 v) = (result.[k <- v mod 2 ^ 64], acc3 (v / 2 ^ 64)).
Proof.
  intros Hv. unfold put_word, acc3. rewrite !Z.div_div by lia. change (2 ^ 64 * 2 ^ 64) with (2 ^ 128).
  change (2 ^ 64 * 2 ^ 128) with (2 ^ 192). rewrite (Z.div_small v (2 ^ 192)) by lia.
  rewrite (Z.mod_small (v / 2 ^ 128)) by (split; [apply Z.div_pos|apply Z.div_lt_upper_bound]; lia). done.
Qed.

(** A column of the product: the terms [l1[i] * l2[k - i]] for [lo <= i < hi]. *)
Definition column (term : nat -> Z) (lo hi : nat) : Z := for_ lo hi (fun i s => s + term i) 0.

Lemma column_nil term lo hi : (hi <= lo)%nat -> column term lo hi = 0.
Proof. intros. unfold column. now rewrite for_nil. Qed.

Lemma column_last term lo hi : (lo <= hi)%nat -> column term lo (S hi) = column term lo hi + term hi.
Proof. intros. unfold column. now rewrite for_last. Qed.

Lemma vli_column_bound term lo hi : (forall i, (lo <= i < hi)%nat -> 0 <= term i <= 2 ^ 129) ->
  0 <= column term lo hi <= Z.of_nat (hi - lo) * 2 ^ 129.
Proof.
  induction hi as [|hi IH]; intros H; [rewrite column_nil by lia; lia|].
  destruct (Nat.lt_ge_cases hi lo); [rewrite column_nil by lia; lia|]. rewrite column_last by lia.
  specialize (IH ltac:(intros; apply H; lia)). specialize (H hi ltac:(lia)).
  replace (S hi - lo)%nat with (S (hi - lo)) by lia. lia.
Qed.

(** An inner loop adds a column to the accumulator. *)
Lemma column_loop (term : nat -> Z) (f : nat -> Z * Z * Z -> Z * Z * Z) lo hi v : (lo <= hi)%nat -> (hi - lo <= 8)%nat ->
  0 <= v <= 2 ^ 180 -> (forall i, (lo <= i < hi)%nat -> 0 <= term i <= 2 ^ 129) ->
  (forall i w, (lo <= i < hi)%nat -> 0 <= w -> w + term i < 2 ^ 192 -> f i (acc3 w) = acc3 (w + term i)) ->
  for_ lo hi f (acc3 v) = acc3 (v + column term lo hi).
Proof.
  intros Hle Hn Hv Ht Hf. apply (for_ind (fun i r => r = acc3 (v + column term lo i))); [done| |].
  - now rewrite column_nil, Z.add_0_r by lia.
  - intros i s Hi ->. rewrite column_last, Z.add_assoc by lia. pose proof (vli_column_bound term lo i ltac:(intros; apply Ht; lia)).
    specialize (Ht i Hi). apply Hf; lia.
Qed.

Lemma word_mul_bound a b : word 64 a -> word 64 b -> 0 <= a * b < 2 ^ 128.
Proof. unfold word. nia. Qed.

Lemma mult_column l1 l2 k lo hi v V1 V2 : num 4 V1 l1 -> num 4 V2 l2 -> (lo <= hi)%nat -> (hi <= 4)%nat -> (k - lo < 4)%nat ->
  0 <= v <= 2 ^ 180 ->
  for_ lo hi (fun i r => muladd l1.[i] l2.[k - i] r) (acc3 v) = acc3 (v + column (fun i => l1.[i] * l2.[k - i]) lo hi).
Proof.
  intros H1 H2 Hle Hh Hk Hv.
  assert (W : forall i, (lo <= i < hi)%nat -> word 64 l1.[i] /\ word 64 l2.[k - i]).
  { intros i Hi. split; [apply (num_word 4 V1)|apply (num_word 4 V2)]; (done || lia). }
  apply column_loop; [lia..|done| |].
  - intros i Hi. destruct (W i Hi) as [A B]. pose proof (word_mul_bound _ _ A B). lia.
  - intros i w Hi Hw Hs. destruct (W i Hi). now apply muladd_spec.
Qed.

(** The value of a buffer of eight words, the last the carry out of the seventh
    column. *)
Definition carry_words (c : nat -> Z) : list Z :=
  let v0 := c 0%nat in let v1 := v0 / 2 ^ 64 + c 1%nat in let v2 := v1 / 2 ^ 64 + c 2%nat in
  let v3 := v2 / 2 ^ 64 + c 3%nat in let v4 := v3 / 2 ^ 64 + c 4%nat in let v5 := v4 / 2 ^ 64 + c 5%nat in
  let v6 := v5 / 2 ^ 64 + c 6%nat in
  [v0 mod 2 ^ 64; v1 mod 2 ^ 64; v2 mod 2 ^ 64; v3 mod 2 ^ 64; v4 mod 2 ^ 64; v5 mod 2 ^ 64; v6 mod 2 ^ 64;
   (v6 / 2 ^ 64) mod 2 ^ 64].

(** The carry out of a column. *)
Local Ltac carry v := let q := fresh "q" in let D := fresh "D" in
  assert (0 <= v / 2 ^ 64) by (apply Z.div_pos; lia); pose proof (Z.div_mod v (2 ^ 64) ltac:(lia)) as D;
  pose proof (Z.mod_pos_bound v (2 ^ 64) ltac:(lia)); set (q := v / 2 ^ 64) in *; clearbody q;
  let r := fresh "r" in set (r := v mod 2 ^ 64) in *; clearbody r.

Lemma carry_words_spec c V : (forall k, (k < 7)%nat -> 0 <= c k) -> 0 <= V < base 8 ->
  c 0%nat + 2 ^ 64 * (c 1%nat + 2 ^ 64 * (c 2%nat + 2 ^ 64 * (c 3%nat + 2 ^ 64 * (c 4%nat + 2 ^ 64 * (c 5%nat + 2 ^ 64 * c 6%nat))))) = V ->
  words (carry_words c) /\ vval (carry_words c) = V.
Proof.
  intros Hc HV E. unfold carry_words. cbv zeta. change (base 8) with (2 ^ 512) in HV.
  pose proof (Hc 0%nat ltac:(lia)). pose proof (Hc 1%nat ltac:(lia)). pose proof (Hc 2%nat ltac:(lia)).
  pose proof (Hc 3%nat ltac:(lia)). pose proof (Hc 4%nat ltac:(lia)). pose proof (Hc 5%nat ltac:(lia)).
  pose proof (Hc 6%nat ltac:(lia)). clear Hc.
  split; [repeat constructor; unfold word; now apply Z.mod_pos_bound|]. cbn [vval].
  carry (c 0%nat). carry (q + c 1%nat). carry (q0 + c 2%nat). carry (q1 + c 3%nat). carry (q2 + c 4%nat). carry (q3 + c 5%nat).
  carry (q4 + c 6%nat). rewrite Z.mod_small; lia.
Qed.

Lemma for_split {St} lo mid hi (f : nat -> St -> St) st : (lo <= mid <= hi)%nat ->
  for_ mid hi f (for_ lo mid f st) = for_ lo hi f st.
Proof.
  intros [H1 H2]. induction hi as [|hi IH]; [now replace mid with 0%nat by lia; rewrite !(for_nil 0%nat 0%nat) by lia|].
  destruct (Nat.eq_dec mid (S hi)) as [->|N]; [now rewrite for_nil by lia|]. now rewrite !for_last, IH by lia.
Qed.

(** One column of the outer loop. *)
Local Ltac next Hf Hc B k v := let H := fresh "H" in pose proof (Hc k ltac:(lia)) as H;
  rewrite (Hf k) by lia; rewrite put_acc3 by lia; pose proof (B v ltac:(lia)).

(** The outer loop: seven columns, each closed by [put_word]. *)
Lemma columns_loop (c : nat -> Z) (f : nat -> list Z * (Z * Z * Z) -> list Z * (Z * Z * Z)) r : length r = 8%nat ->
  (forall k, (k < 7)%nat -> 0 <= c k <= 2 ^ 133) ->
  (forall k r v, (k < 7)%nat -> 0 <= v <= 2 ^ 180 -> f k (r, acc3 v) = put_word k r (acc3 (v + c k))) ->
  (let '(r', (r0, _, _)) := for_ 0 7 f (r, (0, 0, 0)) in r'.[7 <- r0]) = carry_words c.
Proof.
  intros Hr Hc Hf. destruct_list r. change (0, 0, 0) with (acc3 0). unfold for_. cbn [seq fold_left Nat.sub].
  assert (B : forall v, 0 <= v <= 2 ^ 134 -> 0 <= v / 2 ^ 64 <= 2 ^ 70) by
    (intros v Hv; split; [apply Z.div_pos; lia|apply Z.div_le_upper_bound; lia]).
  next Hf Hc B 0%nat (0 + c 0%nat). next Hf Hc B 1%nat ((0 + c 0%nat) / 2 ^ 64 + c 1%nat).
  set (v1 := (0 + c 0%nat) / 2 ^ 64 + c 1%nat) in *. next Hf Hc B 2%nat (v1 / 2 ^ 64 + c 2%nat).
  set (v2 := v1 / 2 ^ 64 + c 2%nat) in *. next Hf Hc B 3%nat (v2 / 2 ^ 64 + c 3%nat).
  set (v3 := v2 / 2 ^ 64 + c 3%nat) in *. next Hf Hc B 4%nat (v3 / 2 ^ 64 + c 4%nat).
  set (v4 := v3 / 2 ^ 64 + c 4%nat) in *. next Hf Hc B 5%nat (v4 / 2 ^ 64 + c 5%nat).
  set (v5 := v4 / 2 ^ 64 + c 5%nat) in *. next Hf Hc B 6%nat (v5 / 2 ^ 64 + c 6%nat).
  unfold acc3, carry_words. cbv zeta. subst v5 v4 v3 v2 v1. buf_simpl. rewrite Z.add_0_l. reflexivity.
Qed.

Lemma vli_mult_spec r V1 V2 l1 l2 : length r = 8%nat -> num 4 V1 l1 -> num 4 V2 l2 ->
  wrote 8 r (V1 * V2) (uECC_vli_mult r l1 l2 4).
Proof.
  intros Hr H1 H2. unfold uECC_vli_mult. cbn [Nat.mul Nat.add Nat.sub].
  set (lo k := if (k <? 4)%nat then 0%nat else (k + 1 - 4)%nat). set (hi k := if (k <? 4)%nat then (k + 1)%nat else 4%nat).
  set (c k := column (fun i => l1.[i] * l2.[k - i]) (lo k) (hi k)).
  set (f := fun (k : nat) (st : list Z * (Z * Z * Z)) => let '(result, r) := st in
    put_word k result (for_ (lo k) (hi k) (fun i r => muladd l1.[i] l2.[k - i] r) r)).
  assert (Hlo : forall k, (k < 7)%nat -> (lo k <= hi k)%nat /\ (hi k <= 4)%nat /\ (k - lo k < 4)%nat).
  { intros k Hk. unfold lo, hi. destruct (Nat.ltb_spec k 4); lia. }
  assert (Hc : forall k, (k < 7)%nat -> 0 <= c k <= 2 ^ 133).
  { intros k Hk. destruct (Hlo k Hk) as (A & B & C). pose proof (vli_column_bound (fun i => l1.[i] * l2.[k - i]) (lo k) (hi k)) as G.
    fold (c k) in G. assert (0 <= c k <= Z.of_nat (hi k - lo k) * 2 ^ 129); [|lia]. apply G. intros i Hi.
    pose proof (word_mul_bound _ _ (num_word 4 V1 l1 i H1 ltac:(lia)) (num_word 4 V2 l2 (k - i) H2 ltac:(lia))). lia. }
  rewrite (for_ext 0 4 _ f).
  2: { intros k [res acc] Hk. unfold f, lo, hi. now rewrite (proj2 (Nat.ltb_lt k 4)) by lia. }
  destruct (for_ 0 4 f (r, (0, 0, 0))) as [res acc] eqn:E0.
  rewrite (for_ext 4 7 _ f).
  2: { intros k [res' acc'] Hk. unfold f, lo, hi. now rewrite (proj2 (Nat.ltb_ge k 4)) by lia. }
  rewrite <- E0, for_split by lia.
  rewrite (columns_loop c f r Hr Hc).
  2: { intros k res' v Hk Hv. unfold f. destruct (Hlo k Hk) as (A & B & C). now rewrite (mult_column l1 l2 k _ _ v V1 V2). }
  pose proof (num_bound _ _ _ H1) as B1. pose proof (num_bound _ _ _ H2) as B2. change (base 4) with (2 ^ 256) in *.
  destruct (carry_words_spec c (V1 * V2)) as [W E].
  - intros k Hk. now apply Hc.
  - change (base 8) with (2 ^ 256 * 2 ^ 256). nia.
  - destruct H1 as (L1 & _ & <-), H2 as (L2 & _ & <-). rewrite !vval_take_S by lia. cbn [take vval].
    unfold c, lo, hi. cbn [Nat.ltb Nat.leb Nat.add Nat.sub]. unfold column, for_. cbn [seq fold_left Nat.sub].
    rewrite !take_0. cbn [vval]. change (base 0) with 1. change (base 1) with (2 ^ 64). change (base 2) with (2 ^ 128). change (base 3) with (2 ^ 192).
    change (2 ^ 192) with (2 ^ 64 * (2 ^ 64 * 2 ^ 64)). change (2 ^ 128) with (2 ^ 64 * 2 ^ 64). ring.
  - exists (carry_words c). split_and!; [done|done|done|]. now rewrite drop_ge, app_nil_r by lia.
Qed.

Lemma vli_square_spec r V l : length r = 8%nat -> num 4 V l -> wrote 8 r (V * V) (uECC_vli_square r l 4).
Proof.
  intros Hr H1. unfold uECC_vli_square. cbn [Nat.mul Nat.add Nat.sub].
  set (lo k := if (k <? 4)%nat then 0%nat else (k + 1 - 4)%nat).
  set (t k i := if (i <? k - i)%nat then 2 * (l.[i] * l.[k - i]) else l.[i] * l.[k - i]).
  set (c k := column (t k) (lo k) (k / 2 + 1)).
  assert (Hlo : forall k, (k < 7)%nat -> (lo k <= k / 2 + 1)%nat /\ forall i, (lo k <= i < k / 2 + 1)%nat -> (i < 4)%nat /\ (k - i < 4)%nat).
  { intros k Hk. unfold lo. pose proof (Nat.div_mod k 2 ltac:(lia)). pose proof (Nat.mod_upper_bound k 2 ltac:(lia)).
    destruct (Nat.ltb_spec k 4); (split; [|intros i]; lia). }
  assert (Ht : forall k i, (k < 7)%nat -> (lo k <= i < k / 2 + 1)%nat -> 0 <= t k i <= 2 ^ 129).
  { intros k i Hk Hi. destruct (proj2 (Hlo k Hk) i Hi) as [A B].
    pose proof (word_mul_bound _ _ (num_word 4 V l i H1 A) (num_word 4 V l (k - i) H1 B)). unfold t. destruct (Nat.ltb i (k - i)); lia. }
  assert (Hc : forall k, (k < 7)%nat -> 0 <= c k <= 2 ^ 133).
  { intros k Hk. destruct (Hlo k Hk) as [A B]. pose proof (vli_column_bound (t k) (lo k) (k / 2 + 1) ltac:(intros; now apply Ht)) as G.
    fold (c k) in G. assert (k / 2 < 4)%nat by (apply Nat.Div0.div_lt_upper_bound; lia). lia. }
  rewrite (columns_loop c _ r Hr Hc).
  2: { intros k res' v Hk Hv. destruct (Hlo k Hk) as [A B]. cbv zeta. fold (lo k). f_equal. fold (c k). unfold c.
    apply column_loop; [exact A| |done|intros; now apply Ht|].
    - assert (k / 2 < 4)%nat by (apply Nat.Div0.div_lt_upper_bound; lia). lia.
    - intros i w Hi Hw. destruct (B i Hi) as [Bi Bk]. unfold t. pose proof (num_word 4 V l i H1 Bi). pose proof (num_word 4 V l (k - i) H1 Bk).
      destruct (Nat.ltb i (k - i)); intros Hs; [now apply mul2add_spec|now apply muladd_spec]. }
  pose proof (num_bound _ _ _ H1) as B1. change (base 4) with (2 ^ 256) in *.
  destruct (carry_words_spec c (V * V)) as [W E].
  - intros k Hk. now apply Hc.
  - change (base 8) with (2 ^ 256 * 2 ^ 256). nia.
  - destruct H1 as (L1 & _ & <-). rewrite !vval_take_S by lia. cbn [take vval].
    unfold c, lo, column, for_, t. cbn. rewrite !take_0. cbn [vval].
    change (base 0) with 1. change (base 1) with (2 ^ 64). change (base 2) with (2 ^ 128). change (base 3) with (2 ^ 192).
    change (2 ^ 192) with (2 ^ 64 * (2 ^ 64 * 2 ^ 64)). change (2 ^ 128) with (2 ^ 64 * 2 ^ 64).
    ring.
  - exists (carry_words c). split_and!; [done|done|done|]. now rewrite drop_ge, app_nil_r by lia.
Qed.

(** ** Modular addition and subtraction *)

Lemma wrote_trans n r V r1 V' r2 : wrote n r V r1 -> wrote n r1 V' r2 -> wrote n r V' r2.
Proof. intros H1 (out & L & W & E & ->). exists out. rewrite (wrote_drop n r V r1 H1). auto. Qed.

(** One subtraction reduces the sum; the operands need only not overflow it. *)
Lemma vli_modAdd_once n r V1 V2 M l1 l2 lm : (n <= length r)%nat -> num n V1 l1 -> num n V2 l2 -> num n M lm ->
  V1 + V2 - M < base n ->
  wrote n r (if V1 + V2 <? M then V1 + V2 else V1 + V2 - M) (uECC_vli_modAdd r l1 l2 lm n).
Proof.
  intros Hr H1 H2 HM Hb. unfold uECC_vli_modAdd. destruct (vli_add_spec n r V1 V2 l1 l2 Hr H1 H2) as (S & c & HS & Ec & Hc & E).
  destruct (uECC_vli_add r l1 l2 n) as [r1 c1]. cbn [fst snd] in *. subst c1.
  pose proof (wrote_num _ _ _ _ HS) as NS. rewrite (vli_gt_spec n M S lm r1 HM NS).
  pose proof (num_bound _ _ _ NS). pose proof (num_bound _ _ _ HM). pose proof (wrote_length _ _ _ _ Hr HS) as L1.
  destruct (vli_sub_spec n r1 S M r1 lm ltac:(lia) NS HM) as (D & c' & HD & _ & Hc' & E').
  pose proof (num_bound _ _ _ (wrote_num _ _ _ _ HD)). pose proof (wrote_trans _ _ _ _ _ _ HS HD) as HD'.
  destruct Hc as [-> | ->], (Z.ltb_spec S M), (Z.ltb_spec (V1 + V2) M); cbn [negb orb Z.eqb] in *; try lia.
  - now replace (V1 + V2) with S by lia.
  - now replace (V1 + V2 - M) with D by lia.
  - now replace (V1 + V2 - M) with D by lia.
Qed.

Lemma vli_modAdd_spec n r V1 V2 M l1 l2 lm : (n <= length r)%nat -> num n V1 l1 -> num n V2 l2 -> num n M lm ->
  V1 < M -> V2 < M -> wrote n r ((V1 + V2) mod M) (uECC_vli_modAdd r l1 l2 lm n).
Proof.
  intros Hr H1 H2 HM B1 B2. pose proof (num_bound _ _ _ H1). pose proof (num_bound _ _ _ H2). pose proof (num_bound _ _ _ HM).
  pose proof (vli_modAdd_once n r V1 V2 M l1 l2 lm Hr H1 H2 HM ltac:(lia)) as H'.
  replace ((V1 + V2) mod M) with (if V1 + V2 <? M then V1 + V2 else V1 + V2 - M); [done|].
  destruct (Z.ltb_spec (V1 + V2) M); [now rewrite Z.mod_small by lia|]. apply (Z.mod_unique_pos _ _ 1); lia.
Qed.

Lemma vli_modSub_spec n r V1 V2 M l1 l2 lm : (n <= length r)%nat -> num n V1 l1 -> num n V2 l2 -> num n M lm ->
  V1 < M -> V2 < M -> wrote n r ((V1 - V2) mod M) (uECC_vli_modSub r l1 l2 lm n).
Proof.
  intros Hr H1 H2 HM B1 B2. unfold uECC_vli_modSub. destruct (vli_sub_spec n r V1 V2 l1 l2 Hr H1 H2) as (D & c & HD & Ec & Hc & E).
  destruct (uECC_vli_sub r l1 l2 n) as [r1 c1]. cbn [fst snd] in *. subst c1.
  pose proof (wrote_num _ _ _ _ HD) as ND. pose proof (num_bound _ _ _ ND). pose proof (num_bound _ _ _ HM).
  pose proof (num_bound _ _ _ H1). pose proof (num_bound _ _ _ H2). pose proof (wrote_length _ _ _ _ Hr HD) as L1.
  destruct (vli_add_spec n r1 D M r1 lm ltac:(lia) ND HM) as (S & c' & HS & _ & Hc' & E').
  pose proof (num_bound _ _ _ (wrote_num _ _ _ _ HS)). pose proof (wrote_trans _ _ _ _ _ _ HD HS) as HS'.
  destruct Hc as [-> | ->]; cbn [negb Z.eqb].
  - rewrite Z.mod_small by lia. now replace (V1 - V2) with D by lia.
  - replace ((V1 - V2) mod M) with S; [done|]. apply (Z.mod_unique_pos _ _ (-1)); lia.
Qed.

(** ** Reduction by shift and subtract *)

Lemma half_stitch lo hi : 0 <= lo < 2 ^ 256 -> 0 <= hi -> (lo + 2 ^ 256 * hi) / 2 = lo / 2 + 2 ^ 255 * (hi mod 2) + 2 ^ 256 * (hi / 2).
Proof.
  intros Hl Hh. replace (lo + 2 ^ 256 * hi) with (lo + (2 ^ 255 * hi) * 2) by lia. rewrite Z.div_add by lia.
  pose proof (Z.div_mod hi 2 ltac:(lia)). lia.
Qed.

(** Halving eight words in two halves, the low bit of the upper one moved over. *)
Lemma mod_multiple_half mm W : length mm = 8%nat -> num 8 W mm ->
  let mm1 := uECC_vli_rshift1 mm 4 in
  let mm2 := mm1.[4 - 1 <- (mm1.[4 - 1] .| (mm1.[4] << 63))%u64] in
  let mm3 := at_off mm2 4 (fun m => uECC_vli_rshift1 m 4) in
  length mm3 = 8%nat /\ num 8 (W / 2) mm3.
Proof.
  intros L HW. cbv zeta. destruct (num_exact _ _ _ HW L) as [Wm <-]. clear HW.
  destruct (vli_rshift1_wrote 4 (vval (take 4 mm)) mm) as (lo & Ll & Wl & Vl & El).
  { split; [lia|]. split; [now apply words_take|done]. }
  rewrite El. pose proof (take_drop 4 mm) as TD. set (hi := drop 4 mm) in *.
  assert (Lh : length hi = 4%nat) by (unfold hi; rewrite length_drop; lia).
  assert (Wh : words hi) by now apply words_drop. clearbody hi.
  assert (Lt : length (take 4 mm) = 4%nat) by (rewrite length_take; lia).
  assert (Wt : words (take 4 mm)) by now apply words_take. rewrite <- TD. set (lo0 := take 4 mm) in *. clearbody lo0. clear El TD Wm L mm.
  pose proof (vval_bound lo0 Wt) as Bt. rewrite Lt in Bt. pose proof (vval_bound hi Wh) as Bh. rewrite Lh in Bh.
  change (base 4) with (2 ^ 256) in *.
  rewrite vval_app, Lt. change (base 4) with (2 ^ 256). rewrite half_stitch, <- Vl by lia.
  destruct_list lo. destruct_list hi. cbn [app Nat.sub]. unfold at_off. buf_simpl. cbn [take drop].
  set (h := [x3; x4; x5; x6]) in *. destruct (vli_rshift1_wrote 4 (vval h) h (num_intro h Wh)) as (hi' & Lh' & Wh' & Vh' & ->).
  change (drop 4 h) with (@nil Z). rewrite app_nil_r.
  assert (B3 : 0 <= x2 < 2 ^ 63).
  { assert (vval [x; x0; x1; x2] < 2 ^ 255) by (rewrite Vl; apply Z.div_lt_upper_bound; lia).
    cbn [vval] in *. inversion_clear Wl as [|? ? A0 Wl1]. inversion_clear Wl1 as [|? ? A1 Wl2]. inversion_clear Wl2 as [|? ? A2 Wl3].
    inversion_clear Wl3 as [|? ? A3 _]. unfold word in *. lia. }
  assert (O : (x2 .| (x3 << 63))%u64 = x2 + 2 ^ 63 * (vval h mod 2)).
  { inversion_clear Wh as [|? ? A3 _]. unfold word in A3. rewrite wshl63. unfold wrap. rewrite Z.shiftl_mul_pow2 by lia.
    change (2 ^ 64) with (2 * 2 ^ 63). rewrite Z.mul_mod_distr_r, <- Z.shiftl_mul_pow2, Z_lor_add by lia.
    assert (vval h mod 2 = x3 mod 2); [|lia]. unfold h. cbn [vval].
    replace (x3 + _) with (x3 + (2 ^ 63 * (x4 + 2 ^ 64 * (x5 + 2 ^ 64 * (x6 + 2 ^ 64 * 0)))) * 2) by lia. apply Z_mod_plus_full. }
  rewrite O. pose proof (Z.mod_pos_bound (vval h) 2 ltac:(lia)).
  cbn [app length]. split; [lia|]. replace 8%nat with (length (x :: x0 :: x1 :: (x2 + 2 ^ 63 * (vval h mod 2)) :: hi')) by (cbn [length]; lia).
  replace (vval [x; x0; x1; x2] + _ + _) with (vval (x :: x0 :: x1 :: (x2 + 2 ^ 63 * (vval h mod 2)) :: hi')) by (cbn [vval]; lia).
  apply num_intro. inversion_clear Wl as [|? ? A0 Wl1]. inversion_clear Wl1 as [|? ? A1 Wl2]. inversion_clear Wl2 as [|? ? A2 Wl3].
  repeat (constructor; [assumption|]). constructor; [unfold word; lia|exact Wh'].
Qed.

(** The state of the reduction: the current of the two buffers holds [X], the
    multiple of the modulus is [W]. *)
Definition mmod_at (X W : Z) (st : list Z * list Z * list Z * Z) : Prop :=
  let '(tmp, product, mm, index) := st in
  length tmp = 8%nat /\ length product = 8%nat /\ length mm = 8%nat /\ (index = 0 \/ index = 1) /\
  num 8 X (if index =? 0 then tmp else product) /\ num 8 W mm.

Lemma mmod_step_spec X W st : mmod_at X W st -> mmod_at (if X <? W then X else X - W) (W / 2) (mmod_step 4 st).
Proof.
  destruct st as [[[tmp product] mm] index]. intros (L1 & L2 & L3 & Hi & HX & HW). unfold mmod_step.
  change (for_ 0 (4 * 2) _ ?s) with (uECC_vli_sub (fst s) (if index =? 0 then tmp else product) mm 8). cbn [fst].
  destruct (mod_multiple_half mm W L3 HW) as [M1 M2]. cbv zeta in M1, M2 |- *.
  set (mm' := at_off _ _ _) in *. clearbody mm'.
  destruct (vli_sub_spec 8 (if index =? 0 then product else tmp) X W (if index =? 0 then tmp else product) mm)
    as (D & c & HD & Ec & Hc & E); [destruct Hi as [-> | ->]; cbn; lia|done|done|].
  destruct (uECC_vli_sub _ _ mm 8) as [w borrow]. cbn [fst snd] in *. subst borrow.
  pose proof (num_bound _ _ _ HX). pose proof (num_bound _ _ _ HW). pose proof (wrote_num _ _ _ _ HD) as ND.
  pose proof (num_bound _ _ _ ND).
  assert (Lr : length (if index =? 0 then product else tmp) = 8%nat) by (destruct Hi as [-> | ->]; done).
  assert (Lw : length w = 8%nat) by (apply wrote_length in HD as ->; rewrite Lr; lia).
  destruct Hi as [-> | ->], Hc as [-> | ->]; cbn [Z.eqb Z.lxor] in *; unfold mmod_at; cbn [Z.eqb];
    destruct (Z.ltb_spec X W); try (exfalso; lia); split_and!; auto; try lia.
  - now replace (X - W) with D by lia.
  - now replace (X - W) with D by lia.
Qed.

Lemma mmod_iter M P st : 2 ^ 255 <= M < 2 ^ 256 -> mmod_at P (M * 2 ^ 256) st -> forall j, (j <= 257)%nat ->
  exists X, X mod M = P mod M /\ 0 <= X < M * 2 ^ (257 - Z.of_nat j) /\
    mmod_at X (M * 2 ^ 256 / 2 ^ Z.of_nat j) (Nat.iter j (mmod_step 4) st).
Proof.
  intros HM H0 j. induction j as [|j IH]; intros Hj.
  - exists P. change (2 ^ Z.of_nat 0) with 1. rewrite Z.div_1_r. split; [done|]. split; [|exact H0].
    destruct st as [[[tmp product] mm] index], H0 as (_ & _ & _ & _ & HX & _). apply num_bound in HX.
    change (base 8) with (2 ^ 512) in HX. change (2 ^ (257 - Z.of_nat 0)) with (2 ^ 257). nia.
  - destruct (IH ltac:(lia)) as (X & E & B & HX). rewrite iter_S. apply mmod_step_spec in HX.
    replace (M * 2 ^ 256 / 2 ^ Z.of_nat j) with (M * 2 ^ (256 - Z.of_nat j)) in HX.
    2: { replace (2 ^ 256) with (2 ^ (256 - Z.of_nat j) * 2 ^ Z.of_nat j) by (rewrite <- Z.pow_add_r by lia; f_equal; lia).
      rewrite Z.mul_assoc, Z.div_mul by (apply Z.pow_nonzero; lia). done. }
    replace (M * 2 ^ 256 / 2 ^ Z.of_nat (S j)) with (M * 2 ^ (256 - Z.of_nat j) / 2).
    2: { replace (2 ^ Z.of_nat (S j)) with (2 ^ Z.of_nat j * 2) by (rewrite Nat2Z.inj_succ, Z.pow_succ_r by lia; ring).
      rewrite <- Z.div_div by (try apply Z.pow_nonzero; lia). f_equal.
      replace (2 ^ 256) with (2 ^ (256 - Z.of_nat j) * 2 ^ Z.of_nat j) by (rewrite <- Z.pow_add_r by lia; f_equal; lia).
      now rewrite Z.mul_assoc, Z.div_mul by (apply Z.pow_nonzero; lia). }
    replace (257 - Z.of_nat j) with (Z.succ (256 - Z.of_nat j)) in B by lia. rewrite Z.pow_succ_r in B by lia.
    replace (257 - Z.of_nat (S j)) with (256 - Z.of_nat j) by lia. set (w := 2 ^ (256 - Z.of_nat j)) in *.
    exists (if X <? M * w then X else X - M * w). split_and!; [| | |exact HX]; destruct (Z.ltb_spec X (M * w)); try lia.
    replace (X - M * w) with (X + (- w) * M) by ring. now rewrite Z_mod_plus_full.
Qed.

Lemma bit_size_256 M : 2 ^ 255 <= M < 2 ^ 256 -> bit_size M = 256.
Proof.
  intros H. unfold bit_size. rewrite (proj2 (Z.eqb_neq M 0)) by lia. rewrite (Z.log2_unique M 255); lia.
Qed.

Lemma num_take n k V l : num n V l -> (k <= n)%nat -> V < base k -> num k V l.
Proof.
  intros (L & W & <-) Hk HV. split; [lia|]. split; [now apply (words_take_le n)|].
  rewrite <- (take_drop k (take n l)), take_take, Nat.min_l, vval_app in HV |- * by lia.
  assert (Lk : length (take k l) = k) by (rewrite length_take; lia). rewrite Lk in *.
  pose proof (vval_bound (drop k (take n l)) (words_drop _ _ W)) as B. pose proof (base_pos k).
  pose proof (vval_bound (take k l) (words_take_le n k l Hk W)). assert (vval (drop k (take n l)) = 0) by nia. nia.
Qed.

Lemma vli_mmod_spec r P M product lm : (4 <= length r)%nat -> length product = 8%nat -> num 8 P product ->
  num 4 M lm -> 2 ^ 255 <= M -> wrote 4 r (P mod M) (uECC_vli_mmod r product lm 4).
Proof.
  intros Hr L HP HM BM. pose proof (num_bound _ _ _ HM) as BM'. change (base 4) with (2 ^ 256) in BM'.
  unfold uECC_vli_mmod. rewrite (vli_numBits_spec 4 M lm HM), bit_size_256 by lia.
  change (Z.of_nat 4 * 2 * uECC_WORD_BITS - 256) with 256. change (Z.to_nat (256 / uECC_WORD_BITS)) with 4%nat.
  change (256 mod uECC_WORD_BITS) with 0. change (0 <? 0) with false. cbv iota. change (Z.to_nat (256 + 1)) with 257%nat.
  rewrite vli_clear_spec by (rewrite length_replicate; cbn; lia). cbv zeta.
  set (mm := at_off _ 4 _).
  assert (Emm : mm = replicate 4 0 ++ take 4 lm).
  { unfold mm, at_off. cbn [replicate uECC_MAX_WORDS Nat.mul Nat.add drop app take].
    rewrite vli_set_spec by (destruct HM; cbn; lia). cbn [drop]. now rewrite app_nil_r. }
  destruct (mmod_iter M P (replicate (2 * uECC_MAX_WORDS) 0, product, mm, 1) ltac:(lia)) with (j := 257%nat) as (X & E & B & HX).
  - destruct HM as (LM & WM & VM). assert (LT : length (take 4 lm) = 4%nat) by (rewrite length_take; lia).
    assert (Lm : length mm = 8%nat) by (rewrite Emm, length_app, length_replicate; lia).
    unfold mmod_at. cbn [Z.eqb]. split_and!; auto. rewrite <- Lm.
    replace (M * 2 ^ 256) with (vval mm); [apply num_intro; rewrite Emm; apply words_app; split; [apply words_replicate|done]|].
    rewrite Emm, vval_app, vval_zeros, length_replicate, VM. change (base 4) with (2 ^ 256). lia.
  - lia.
  - destruct (Nat.iter 257 (mmod_step 4) _) as [[[tmp' product'] mm'] index']. destruct HX as (_ & _ & _ & _ & HX & _).
    change (257 - Z.of_nat 257) with 0 in B. rewrite Z.pow_0_r, Z.mul_1_r in B.
    apply vli_set_wrote; [done|]. rewrite <- E, Z.mod_small by lia. apply (num_take 8); [done|lia|]. change (base 4) with (2 ^ 256). lia.
Qed.

Lemma vli_modMult_spec r V1 V2 M l1 l2 lm : (4 <= length r)%nat -> num 4 V1 l1 -> num 4 V2 l2 -> num 4 M lm -> 2 ^ 255 <= M ->
  wrote 4 r ((V1 * V2) mod M) (uECC_vli_modMult r l1 l2 lm 4).
Proof.
  intros Hr H1 H2 HM BM. unfold uECC_vli_modMult. cbv zeta.
  pose proof (vli_mult_spec (replicate (2 * uECC_MAX_WORDS) 0) V1 V2 l1 l2 eq_refl H1 H2) as HP.
  apply vli_mmod_spec; [done| |now apply wrote_num in HP|done|done]. apply wrote_length in HP; [exact HP|cbn; lia].
Qed.

(** ** Inversion *)

Definition quad (V : Z) (l : list Z) : Prop := length l = 4%nat /\ num 4 V l.

Lemma quad_bound V l : quad V l -> 0 <= V < 2 ^ 256.
Proof. intros [_ H]. now apply num_bound in H. Qed.

Lemma wrote_quad r V r' : length r = 4%nat -> wrote 4 r V r' -> quad V r'.
Proof. intros L H. split; [apply wrote_length in H; [now rewrite H|lia]|now apply wrote_num in H]. Qed.

Lemma EVEN_spec V l : quad V l -> EVEN l = Z.even V.
Proof.
  intros [L (_ & W & <-)]. rewrite take_ge by lia. destruct_list l. unfold EVEN. buf_simpl. cbn [vval].
  change (Z.land x 1) with (Z.land x (Z.ones 1)). rewrite Z.land_ones, Zmod_even by lia. rewrite Z.even_add_mul_even by (exists (2 ^ 63); lia).
  now destruct (Z.even x).
Qed.

Lemma rshift1_quad V l : quad V l -> quad (V / 2) (uECC_vli_rshift1 l 4).
Proof. intros [L H]. apply (wrote_quad l); [done|]. now apply vli_rshift1_wrote. Qed.

(** The carry of a sum as the top bit of its half. *)
Lemma high_bit_quad S c l : quad S l -> S < 2 ^ 255 -> c = 0 \/ c = 1 ->
  quad (S + 2 ^ 255 * c) (if c =? 0 then l else l.[4 - 1 <- (l.[4 - 1] .| HIGH_BIT_SET)%u64]).
Proof.
  intros Hl HS [-> | ->]; cbn [Z.eqb]; [now replace (S + 2 ^ 255 * 0) with S by lia|].
  destruct Hl as [L (_ & W & <-)]. rewrite take_ge in * by lia. destruct_list l. cbn [Nat.sub]. buf_simpl.
  inversion_clear W as [|? ? A0 W1]. inversion_clear W1 as [|? ? A1 W2]. inversion_clear W2 as [|? ? A2 W3].
  inversion_clear W3 as [|? ? A3 _]. cbn [vval] in *. unfold word in *.
  assert (O : (x2 .| HIGH_BIT_SET)%u64 = x2 + 2 ^ 63).
  { change HIGH_BIT_SET with (Z.shiftl 1 63). rewrite Z_lor_add; lia. }
  rewrite O. split; [done|]. replace (x + _ + _) with (vval [x; x0; x1; x2 + 2 ^ 63]) by (cbn [vval]; lia).
  apply (num_intro [x; x0; x1; x2 + 2 ^ 63]). repeat constructor; unfold word; lia.
Qed.

(** Halving modulo an odd [M]. *)
Definition halve_mod (M U : Z) : Z := if Z.even U then U / 2 else (U + M) / 2.

Lemma halve_mod_spec M U : Z.odd M = true -> 0 <= U < M -> 0 <= halve_mod M U < M /\ (2 * halve_mod M U) mod M = U mod M.
Proof.
  intros HM HU. unfold halve_mod. destruct (Z.even U) eqn:E.
  - apply Z.even_spec in E as [k ->]. rewrite Z.mul_comm, Z.div_mul by lia. split; [lia|]. f_equal. lia.
  - assert (E' : Z.even (U + M) = true) by (rewrite Z.even_add, E, <- Z.negb_odd, HM; done).
    apply Z.even_spec in E' as [k Ek]. rewrite Ek, Z.mul_comm, Z.div_mul by lia. split; [lia|].
    replace (2 * k) with (U + 1 * M) by lia. apply Z_mod_plus_full.
Qed.

Lemma add_in_place V1 V2 l1 l2 : quad V1 l1 -> num 4 V2 l2 ->
  exists S c, quad S (fst (uECC_vli_add l1 l1 l2 4)) /\ snd (uECC_vli_add l1 l1 l2 4) = c /\ (c = 0 \/ c = 1) /\
    S + 2 ^ 256 * c = V1 + V2.
Proof.
  intros [L H1] H2. destruct (vli_add_spec 4 l1 V1 V2 l1 l2 ltac:(lia) H1 H2) as (S & c & HS & Ec & Hc & E).
  exists S, c. split_and!; auto. now apply (wrote_quad l1).
Qed.

Lemma modInv_update_spec M U u lm : quad U u -> num 4 M lm -> Z.odd M = true -> U < M ->
  quad (halve_mod M U) (vli_modInv_update u lm 4).
Proof.
  intros HU HM Ho Hlt. unfold vli_modInv_update, halve_mod. rewrite (EVEN_spec U u HU). destruct (Z.even U).
  { cbn [Z.eqb]. now apply rshift1_quad. }
  destruct (add_in_place U M u lm HU HM) as (S & c & HS & Ec & Hc & E). destruct (uECC_vli_add u u lm 4) as [u1 c1].
  cbn [fst snd] in *. subst c1. pose proof (quad_bound _ _ HS). pose proof (quad_bound _ _ HU). pose proof (num_bound _ _ _ HM) as BM.
  change (base 4) with (2 ^ 256) in BM.
  replace ((U + M) / 2) with (S / 2 + 2 ^ 255 * c).
  2: { rewrite <- E. replace (S + 2 ^ 256 * c) with (S + 2 ^ 255 * c * 2) by lia. now rewrite Z.div_add by lia. }
  apply high_bit_quad; [now apply rshift1_quad|apply Z.div_lt_upper_bound; lia|done].
Qed.

(** [x - y] modulo [M], halved. *)
Lemma modInv_reduce_spec M U V u v lm : quad U u -> quad V v -> num 4 M lm -> Z.odd M = true -> U < M -> V < M ->
  quad (halve_mod M ((U - V) mod M)) (modInv_reduce u v lm 4).
Proof.
  intros HU HV HM Ho BU BV. unfold modInv_reduce. rewrite (vli_cmp_unsafe_spec 4 U V u v (proj2 HU) (proj2 HV)).
  pose proof (quad_bound _ _ HU). pose proof (quad_bound _ _ HV). pose proof (num_bound _ _ _ HM) as BM. change (base 4) with (2 ^ 256) in BM.
  set (u1 := if _ <? 0 then _ else u).
  assert (H1 : exists W, quad W u1 /\ exists k, W = (U - V) mod M + V - 2 ^ 256 * k).
  { destruct (Z.compare_spec U V) as [E|E|E]; cbn [sign_of Z.ltb Z.compare] in u1; subst u1.
    - exists U. split; [done|]. exists 0. rewrite Z.mod_small by lia. lia.
    - destruct (add_in_place U M u lm HU HM) as (S & c & HS & _ & _ & ES). exists S. split; [done|]. exists c.
      replace ((U - V) mod M) with (U - V + M) by (apply (Z.mod_unique_pos _ _ (-1)); lia). lia.
    - exists U. split; [done|]. exists 0. rewrite Z.mod_small by lia. lia. }
  destruct H1 as (W & HW & k & EW). clearbody u1. pose proof (Z.mod_pos_bound (U - V) M ltac:(lia)) as BR.
  apply modInv_update_spec; [|done|done|lia].
  destruct (vli_sub_spec 4 u1 W V u1 v ltac:(destruct HW; lia) (proj2 HW) (proj2 HV)) as (D & c & HD & _ & _ & ED).
  change (base 4) with (2 ^ 256) in ED. pose proof (num_bound _ _ _ (wrote_num _ _ _ _ HD)) as BD. change (base 4) with (2 ^ 256) in BD.
  replace ((U - V) mod M) with D; [now apply (wrote_quad u1); [destruct HW|]|].
  assert (D - (U - V) mod M = 2 ^ 256 * (c - k)) by lia. nia.
Qed.

(** *** The loop *)

Section ModInv.
Variables (M X : Z) (lm : list Z).
Hypothesis HM : num 4 M lm.
Hypothesis HMo : Z.odd M = true.

Definition inv_state (A B U V : Z) (a b u v : list Z) : Prop :=
  quad A a /\ quad B b /\ quad U u /\ quad V v /\ 0 < A /\ 0 < B /\ Z.gcd A B = 1 /\
  U < M /\ V < M /\ (U * X) mod M = A mod M /\ (V * X) mod M = B mod M.

Lemma gcd_odd_one A B : Z.gcd A B = 1 -> Z.even A = true -> Z.odd B = true.
Proof.
  intros G E. rewrite <- Z.negb_even. destruct (Z.even B) eqn:EB; [|done]. exfalso.
  apply Z.even_spec in E as [j ->], EB as [k ->]. rewrite Z.gcd_mul_mono_l_nonneg in G by lia. lia.
Qed.

Lemma gcd_half A B : Z.gcd A B = 1 -> Z.even A = true -> Z.gcd (A / 2) B = 1.
Proof.
  intros G E. apply Z.even_spec in E as [j ->]. rewrite Z.mul_comm, Z.div_mul by lia.
  assert (D : (Z.gcd j B | Z.gcd (2 * j) B)).
  { apply Z.gcd_greatest; [|apply Z.gcd_divide_r]. apply Z.divide_mul_r. apply Z.gcd_divide_l. }
  rewrite G in D. apply Z.divide_1_r_nonneg in D; [done|apply Z.gcd_nonneg].
Qed.

(** Doubling is injective modulo the odd [M]. *)
Lemma double_mod a b : (2 * a) mod M = (2 * b) mod M -> a mod M = b mod M.
Proof.
  intros E. assert (HM0 : M <> 0) by (intros ->; discriminate HMo).
  assert (D : (M | 2 * (a - b))).
  { apply Z.mod_divide; [done|]. replace (2 * (a - b)) with (2 * a - 2 * b) by ring. now rewrite Zminus_mod, E, Z.sub_diag. }
  apply Z.gauss in D.
  - destruct D as [k Ek]. replace a with (b + k * M) by lia. apply Z_mod_plus_full.
  - change (Z.gcd M 2 = 1). apply Z.odd_spec in HMo as [j Ej]. rewrite Ej, Z.gcd_comm, Z.add_comm, (Z.mul_comm 2 j).
    rewrite Z.gcd_add_mult_diag_r. reflexivity.
Qed.

Lemma halve_relation U A : 0 <= U < M -> (U * X) mod M = (2 * A) mod M -> (halve_mod M U * X) mod M = A mod M.
Proof.
  intros HU E. destruct (halve_mod_spec M U HMo HU) as [_ H]. apply double_mod.
  rewrite Z.mul_assoc, <- Zmult_mod_idemp_l, H, Zmult_mod_idemp_l. exact E.
Qed.

Lemma even_halves A : Z.even A = true -> 2 * (A / 2) = A.
Proof. intros E. apply Z.even_spec in E as [j ->]. rewrite (Z.mul_comm 2 j), Z.div_mul by lia. ring. Qed.

Lemma inv_state_swap A B U V a b u v : inv_state A B U V a b u v -> inv_state B A V U b a v u.
Proof. unfold inv_state. rewrite (Z.gcd_comm A B). tauto. Qed.

Lemma inv_even A B U V a b u v : inv_state A B U V a b u v -> Z.even A = true ->
  inv_state (A / 2) B (halve_mod M U) V (uECC_vli_rshift1 a 4) b (vli_modInv_update u lm 4) v.
Proof.
  intros (HA & HB & HU & HV & PA & PB & G & BU & BV & EU & EV) E. pose proof (quad_bound _ _ HU). pose proof (even_halves A E).
  destruct (halve_mod_spec M U HMo ltac:(lia)) as [Bh _].
  unfold inv_state. split_and!; auto using rshift1_quad, modInv_update_spec, gcd_half; try lia.
  apply halve_relation; [lia|]. now rewrite even_halves.
Qed.

Lemma inv_odd A B U V a b u v : inv_state A B U V a b u v -> Z.even A = false -> Z.even B = false -> B < A ->
  Z.even (A - B) = true /\
  inv_state ((A - B) / 2) B (halve_mod M ((U - V) mod M)) V
    (uECC_vli_rshift1 (fst (uECC_vli_sub a a b 4)) 4) b (modInv_reduce u v lm 4) v.
Proof.
  intros (HA & HB & HU & HV & PA & PB & G & BU & BV & EU & EV) E1 E2 Hlt.
  assert (E : Z.even (A - B) = true) by (now rewrite Z.even_sub, E1, E2). split; [exact E|]. pose proof (even_halves _ E).
  pose proof (quad_bound _ _ HU). pose proof (Z.mod_pos_bound (U - V) M ltac:(lia)).
  destruct (halve_mod_spec M ((U - V) mod M) HMo ltac:(lia)) as [Bh _].
  unfold inv_state. split_and!; auto using modInv_reduce_spec; try lia.
  - apply rshift1_quad. apply (wrote_quad a); [apply HA|]. apply vli_sub_exact; [destruct HA; lia|apply HA|apply HB|lia].
  - apply gcd_half; [|exact E]. rewrite Z.gcd_comm. rewrite Z.gcd_comm in G. now rewrite Z.gcd_sub_diag_r.
  - apply halve_relation; [lia|]. rewrite even_halves by done.
    rewrite Zmult_mod_idemp_l, Z.mul_sub_distr_r, Zminus_mod, EU, EV, <- Zminus_mod. done.
Qed.

Lemma modInv_loop_spec fuel : forall A B U V a b u v, inv_state A B U V a b u v -> A * B < 2 ^ Z.of_nat fuel ->
  exists U' u', modInv_loop fuel a b u v lm 4 = Some u' /\ quad U' u' /\ U' < M /\ (U' * X) mod M = 1 mod M.
Proof.
  induction fuel as [|fuel IH]; intros A B U V a b u v HI Hf; pose proof HI as (HA & HB & HU & HV & PA & PB & G & BU & BV & EU & EV).
  { change (2 ^ Z.of_nat 0) with 1 in Hf. nia. }
  rewrite Nat2Z.inj_succ, Z.pow_succ_r in Hf by lia.
  cbn [modInv_loop]. rewrite (vli_cmp_unsafe_spec 4 A B a b (proj2 HA) (proj2 HB)), (EVEN_spec A a HA), (EVEN_spec B b HB).
  destruct (Z.eqb_spec (sign_of (A ?= B)) 0) as [E|E].
  { exists U, u. assert (A = B) by (destruct (Z.compare_spec A B); done). subst B. rewrite Z.gcd_diag_nonneg in G by lia.
    rewrite EU, G. auto. }
  destruct (Z.even A) eqn:EA.
  { apply (IH (A / 2) B (halve_mod M U) V); [now apply inv_even|]. pose proof (even_halves A EA). nia. }
  destruct (Z.even B) eqn:EB.
  { apply (IH A (B / 2) U (halve_mod M V)); [apply inv_state_swap, inv_even; [now apply inv_state_swap|done]|].
    pose proof (even_halves B EB). nia. }
  destruct (Z.compare_spec A B) as [C|C|C]; cbn [sign_of Z.ltb Z.compare] in *; [done| |].
  - destruct (inv_odd B A V U b a v u (inv_state_swap _ _ _ _ _ _ _ _ HI) EB EA C) as [ED HI'].
    apply (IH A ((B - A) / 2) U (halve_mod M ((V - U) mod M))); [now apply inv_state_swap|]. pose proof (even_halves _ ED). nia.
  - destruct (inv_odd A B U V a b u v HI EA EB C) as [ED HI'].
    apply (IH ((A - B) / 2) B (halve_mod M ((U - V) mod M)) V); [done|]. pose proof (even_halves _ ED). nia.
Qed.

End ModInv.

(** The inverse, for every modulus that is odd and coprime to the input. *)
Lemma vli_modInv_spec r X M lx lm : length r = 4%nat -> num 4 X lx -> num 4 M lm -> Z.odd M = true -> 1 < M ->
  Z.gcd X M = 1 -> exists U, quad U (uECC_vli_modInv r lx lm 4) /\ U < M /\ (U * X) mod M = 1.
Proof.
  intros Hr HX HM Ho H1 G. pose proof (num_bound _ _ _ HX) as BX. pose proof (num_bound _ _ _ HM) as BM. change (base 4) with (2 ^ 256) in *.
  assert (X0 : X <> 0) by (intros ->; rewrite Z.gcd_0_l in G; lia).
  unfold uECC_vli_modInv. rewrite (vli_isZero_spec 4 X lx HX), (proj2 (Z.eqb_neq X 0) X0). cbn [Z.b2z Z.eqb negb]. cbv zeta.
  set (z4 := replicate uECC_MAX_WORDS 0).
  destruct (modInv_loop_spec M X lm HM Ho (128 * 4 + 1) X M 1 0 (uECC_vli_set z4 lx 4) (uECC_vli_set z4 lm 4)
    (uECC_vli_clear z4 4).[0 <- 1] (uECC_vli_clear z4 4)) as (U & u & E & HU & BU & EU).
  - unfold inv_state. split_and!; try lia; try done.
    + apply (wrote_quad z4); [done|]. now apply vli_set_wrote; [cbn; lia|].
    + apply (wrote_quad z4); [done|]. now apply vli_set_wrote; [cbn; lia|].
    + split; [done|]. apply (num_intro [1; 0; 0; 0]). repeat constructor; unfold word; lia.
    + split; [done|]. apply (num_intro [0; 0; 0; 0]). repeat constructor; unfold word; lia.
    + now rewrite Z.mul_1_l.
    + rewrite Z.mul_0_l, Z.mod_0_l, Z.mod_same by lia. done.
  - change (Z.of_nat (128 * 4 + 1)) with 513. nia.
  - rewrite E. exists U. split; [|rewrite EU, Z.mod_small; lia].
    apply (wrote_quad r); [done|]. apply vli_set_wrote; [lia|apply HU].
Qed.

Lemma vli_modInv_zero r lx lm : length r = 4%nat -> num 4 0 lx -> quad 0 (uECC_vli_modInv r lx lm 4).
Proof.
  intros Hr HX. unfold uECC_vli_modInv. rewrite (vli_isZero_spec 4 0 lx HX). cbn [Z.eqb Z.b2z negb].
  apply (wrote_quad r); [done|]. apply vli_clear_wrote. lia.
Qed.

(** ** Property *)

(** C30: The binary inversion [uECC_vli_modInv] terminates within two turns for
    every bit of its operands, and returns the inverse of its input below the
    modulus, for every input of four words that is coprime to an odd modulus;
    of zero it returns zero. *)
Theorem uecc_modInv_correct (result input mod_ : list Z) : length result = 4%nat -> length input = 4%nat -> length mod_ = 4%nat ->
  words input -> words mod_ -> Z.odd (vval mod_) = true -> 1 < vval mod_ ->
  Z.gcd (vval input) (vval mod_) = 1 \/ vval input = 0 ->
  let r := uECC_vli_modInv result input mod_ 4 in
  length r = 4%nat /\ words r /\ 0 <= vval r < vval mod_ /\
  (vval r * vval input) mod vval mod_ = (if vval input =? 0 then 0 else 1).
Proof.
  intros Lr Li Lm Wi Wm HO H1 HG. pose proof (num_intro input Wi) as NI. pose proof (num_intro mod_ Wm) as NM. rewrite Li in NI. rewrite Lm in NM.
  cbv zeta. destruct HG as [G|Z0].
  - destruct (vli_modInv_spec result _ _ input mod_ Lr NI NM HO H1 G) as (U & [LU NU] & BU & EU).
    pose proof (num_bound _ _ _ NU). destruct (num_exact _ _ _ NU LU) as [WU EV]. rewrite EV.
    rewrite (proj2 (Z.eqb_neq _ _)); [repeat split; (done || lia)|]. intros E. rewrite E, Z.gcd_0_l in G. lia.
  - rewrite Z0 in *. destruct (vli_modInv_zero result input mod_ Lr NI) as [LU NU]. destruct (num_exact _ _ _ NU LU) as [WU EV].
    rewrite EV, Z.mod_0_l by lia. repeat split; (done || lia).
Qed.

Lemma uecc_modInv_correct_witness : (vval (uECC_vli_modInv (replicate 4 0) [5; 0; 0; 0] [7; 0; 0; 1] 4) * 5) mod (7 + 2 ^ 192) = 1.
Proof.
  apply (uecc_modInv_correct (replicate 4 0) [5; 0; 0; 0] [7; 0; 0; 1]); try reflexivity.
  1, 2: repeat constructor; done.
  left. reflexivity.
Defined.
