(* ===== verification/UECCField.v ===== *)
(** * UECCField: the field of secp256r1

    The fast reduction of micro-ecc replaces the shift-and-subtract loop by nine
    sums of 32-bit digits and a few additions or subtractions of the prime; it
    computes the same residue.  With it the field operations of the point
    arithmetic act on canonical residues ([fe]), and the square root is the
    power (p + 1) / 4. *)

From stdpp Require Import base list numbers.
From Stdlib Require Import ZArith Lia.
From S2P Require Import Prelude Machine UECC UECCVli.
Import UECC.

Local Open Scope Z_scope.
Local Open Scope buf_scope.

Definition p256 : Z := 2 ^ 256 - 2 ^ 224 + 2 ^ 192 + 2 ^ 96 - 1.
Definition n256 : Z := 2 ^ 256 - 2 ^ 224 + 2 ^ 192 - 89188191075325690597107910205041859247.

Lemma quad_of_words l : length l = 4%nat -> words l -> quad (vval l) l.
Proof. intros L W. split; [done|]. rewrite <- L at 1. now apply num_intro. Qed.

(** Words, decided. *)
Definition wordsb (l : list Z) : bool := forallb (fun x => (0 <=? x) && (x <? 2 ^ 64)) l.

Lemma wordsb_sound l : wordsb l = true -> words l.
Proof.
  unfold wordsb. rewrite forallb_forall. intros H. apply List.Forall_forall. intros x Hx. apply H in Hx.
  apply andb_true_iff in Hx as [H1%Z.leb_le H2%Z.ltb_lt]. now split.
Qed.

Lemma secp256r1_p_quad : quad p256 secp256r1_p.
Proof. apply (quad_of_words secp256r1_p); [done|]. now apply wordsb_sound. Qed.
Lemma secp256r1_n_quad : quad n256 secp256r1_n.
Proof. apply (quad_of_words secp256r1_n); [done|]. now apply wordsb_sound. Qed.

(** ** Two 32-bit digits to a word *)

Lemma split32 c : word 64 c -> exists l h, 0 <= l < 2 ^ 32 /\ 0 <= h < 2 ^ 32 /\ c = l + 2 ^ 32 * h.
Proof.
  intros Hc. unfold word in Hc. exists (c mod 2 ^ 32), (c / 2 ^ 32). pose proof (Z.div_mod c (2 ^ 32) ltac:(lia)).
  split; [apply Z.mod_pos_bound; lia|]. split; [|lia]. split; [apply Z.div_pos|apply Z.div_lt_upper_bound]; lia.
Qed.

Section Digits.
Variables l h : Z.
Hypothesis Hl : 0 <= l < 2 ^ 32.
Hypothesis Hh : 0 <= h < 2 ^ 32.

Lemma digit_low : Z.land (l + 2 ^ 32 * h) 0xffffffff = l.
Proof. rewrite (Z_land_ones_lit _ _ 32) by done. rewrite Z.mul_comm, Z_mod_plus_full. now apply Z.mod_small. Qed.

Lemma digit_shr : (wshr (l + 2 ^ 32 * h) 32) = h.
Proof. rewrite wshr_div, Z.mul_comm, Z.div_add, Z.div_small by lia. lia. Qed.

Lemma digit_shl : wshl 64 (l + 2 ^ 32 * h) 32 = Z.shiftl l 32.
Proof.
  rewrite wshl_mul by lia. unfold wrap. replace ((l + 2 ^ 32 * h) * 2 ^ 32) with (l * 2 ^ 32 + h * 2 ^ 64) by lia.
  rewrite Z_mod_plus_full, Z.mod_small, Z.shiftl_mul_pow2 by lia. done.
Qed.

Lemma digit_high : Z.land (l + 2 ^ 32 * h) 0xffffffff00000000 = Z.shiftl h 32.
Proof.
  change 0xffffffff00000000 with (Z.shiftl (Z.ones 32) 32).
  replace (l + 2 ^ 32 * h) with (Z.lor l (Z.shiftl h 32)) by (rewrite Z_lor_add by lia; lia).
  rewrite Z.land_lor_distr_l, Z_land_disjoint, Z.lor_0_l, <- Z.shiftl_land, Z.land_ones, Z.mod_small by lia. done.
Qed.

Lemma digit_join k : 0 <= k < 2 ^ 32 -> Z.lor l (Z.shiftl k 32) = l + 2 ^ 32 * k.
Proof. intros. rewrite Z_lor_add by lia. lia. Qed.

End Digits.

Lemma shl_digit h : Z.shiftl h 32 = 0 + 2 ^ 32 * h.
Proof. rewrite Z.shiftl_mul_pow2 by lia. lia. Qed.

(** ** One term of the reduction *)

Lemma add_step R V r t : quad R r -> quad V t -> exists R' c r', uECC_vli_add r r t 4 = (r', c) /\ quad R' r' /\
  R' + 2 ^ 256 * c = R + V.
Proof.
  intros HR HV. destruct (add_in_place R V r t HR (proj2 HV)) as (S & c & HS & Ec & _ & E).
  destruct (uECC_vli_add r r t 4) as [r' c']. cbn [fst snd] in *. subst c'. eauto 10.
Qed.

Lemma sub_step R V r t : quad R r -> quad V t -> exists R' c r', uECC_vli_sub r r t 4 = (r', c) /\ quad R' r' /\
  R' - 2 ^ 256 * c = R - V.
Proof.
  intros [L HR] HV. destruct (vli_sub_spec 4 r R V r t ltac:(lia) HR (proj2 HV)) as (D & c & HD & Ec & _ & E).
  destruct (uECC_vli_sub r r t 4) as [r' c']. cbn [fst snd] in *. subst c'. exists D, c, r'. eauto using wrote_quad.
Qed.

(** Doubling a number whose lowest word is zero. *)
Lemma double_step V t : quad V t -> t.[0] = 0 -> exists S c y z w, uECC_vli_add t t t 4 = ([0; y; z; w], c) /\
  quad S [0; y; z; w] /\ S + 2 ^ 256 * c = 2 * V.
Proof.
  intros HV H0. destruct (add_step V V t t HV HV) as (S & c & r' & -> & [L N] & ES). destruct HV as [Lt Nt].
  destruct (num_exact 4 S r' N L) as [W ER]. destruct (num_exact 4 V t Nt Lt) as [_ ET]. clear N Nt.
  destruct_list r'. destruct_list t. change (x3 = 0) in H0. subst x3. cbn [vval] in ER, ET.
  inversion_clear W as [|? ? A0 W']. unfold word in A0. assert (x = 0) by lia. subst x.
  exists S, c, x0, x1, x2. split; [done|]. split; [|lia]. replace S with (vval [0; x0; x1; x2]) by (cbn [vval]; lia).
  apply quad_of_words; [done|]. now constructor.
Qed.

(** ** The final additions or subtractions of p *)

Lemma add_modulus B P R R' c k : R' + B * c = R + P -> (R + B * k) mod P = (R' + B * (k + c)) mod P.
Proof. intros E. replace (R' + B * (k + c)) with (R + B * k + 1 * P) by lia. symmetry. apply Z_mod_plus_full. Qed.

Lemma sub_modulus B P R R' c k : R' - B * c = R - P -> (R + B * k) mod P = (R' + B * (k - c)) mod P.
Proof. intros E. replace (R' + B * (k - c)) with (R + B * k + (-1) * P) by lia. symmetry. apply Z_mod_plus_full. Qed.

(** Bounds of p that the loops use. *)
Lemma p256_bounds : 2 ^ 255 <= p256 < 2 ^ 256.
Proof. unfold p256. lia. Qed.

Lemma mmod_add_p_spec fuel : forall R r carry, quad R r -> - (Z.of_nat fuel) * 2 ^ 255 <= R + 2 ^ 256 * carry < 0 ->
  quad ((R + 2 ^ 256 * carry) mod p256) (mmod_add_p fuel r carry).
Proof.
  pose proof p256_bounds as Bp.
  induction fuel as [|fuel IH]; intros R r carry HR HT; [lia|]. cbn [mmod_add_p].
  destruct (add_step R p256 r secp256r1_p HR secp256r1_p_quad) as (R' & c & r' & -> & HR' & E).
  pose proof (quad_bound _ _ HR') as B'. rewrite (add_modulus (2 ^ 256) p256 R R' c carry E).
  set (P := p256) in *. clearbody P. destruct (Z.ltb_spec (carry + c) 0) as [Hc|Hc].
  - apply IH; [done|]. lia.
  - assert (carry + c = 0) by lia. replace (R' + 2 ^ 256 * (carry + c)) with R' by lia.
    rewrite Z.mod_small by lia. exact HR'.
Qed.

Lemma mmod_sub_p_spec fuel : forall R r carry, quad R r -> 0 <= R + 2 ^ 256 * carry < Z.of_nat fuel * 2 ^ 255 ->
  quad ((R + 2 ^ 256 * carry) mod p256) (mmod_sub_p fuel r carry).
Proof.
  pose proof p256_bounds as Bp.
  induction fuel as [|fuel IH]; intros R r carry HR HT; [lia|]. cbn [mmod_sub_p]. pose proof (quad_bound _ _ HR) as B.
  rewrite (vli_gt_spec 4 p256 R _ r (proj2 secp256r1_p_quad) (proj2 HR)).
  destruct (sub_step R p256 r secp256r1_p HR secp256r1_p_quad) as (R' & c & r' & -> & HR' & E).
  pose proof (quad_bound _ _ HR') as B'. pose proof (sub_modulus (2 ^ 256) p256 R R' c carry E) as ET.
  set (P := p256) in *. clearbody P. destruct (Z.eqb_spec carry 0) as [E0|E0], (Z.ltb_spec R P) as [C|C]; cbn [negb orb].
  - subst carry. replace (R + 2 ^ 256 * 0) with R by lia. now rewrite Z.mod_small by lia.
  - rewrite ET. apply IH; [done|]. lia.
  - rewrite ET. apply IH; [done|]. lia.
  - rewrite ET. apply IH; [done|]. lia.
Qed.

(** ** The reduction *)

(** The sum of the nine terms, over the digits [l_i], [h_i] of the words 4 to 7. *)
Definition nist_sum (low l4 h4 l5 h5 l6 h6 l7 h7 : Z) : Z :=
  let w a b := a + 2 ^ 32 * b in
  low + 2 * vval [0; w 0 h5; w l6 h6; w l7 h7] + 2 * vval [0; w 0 l6; w h6 l7; h7] +
  vval [w l4 h4; l5; 0; w l7 h7] + vval [w h4 l5; w h5 h6; w l7 h7; w h6 l4] -
  vval [w h5 l6; h6; 0; w l4 l5] - vval [w l6 h6; w l7 h7; 0; w h4 h5] -
  vval [w h6 l7; w h7 l4; w h4 l5; w 0 l6] - vval [w l7 h7; w 0 h4; w l5 h5; w 0 h6].

Lemma nist_sum_mod low l4 h4 l5 h5 l6 h6 l7 h7 :
  nist_sum low l4 h4 l5 h5 l6 h6 l7 h7 mod p256 =
  (low + 2 ^ 256 * vval [l4 + 2 ^ 32 * h4; l5 + 2 ^ 32 * h5; l6 + 2 ^ 32 * h6; l7 + 2 ^ 32 * h7]) mod p256.
Proof.
  apply (mod_eq_by_multiple _ _ (- (l4 + 4294967297 * h4 + 18446744078004518912 * l5 + 79228162532711081667253501951 * h5 +
    340282367000166625977638945021017194495 * l6 + 1461501637671185285124623296161210883009696235519 * h6 +
    6277101736848182401166692341332123086285927382448418586623 * l7 +
    26959946673427741530053695850515137729844644212646842236464328081408 * h7))).
  unfold nist_sum, p256. cbn [vval]. ring.
Qed.

Lemma nist_sum_bound low l4 h4 l5 h5 l6 h6 l7 h7 : 0 <= low < 2 ^ 256 -> 0 <= l4 < 2 ^ 32 -> 0 <= h4 < 2 ^ 32 ->
  0 <= l5 < 2 ^ 32 -> 0 <= h5 < 2 ^ 32 -> 0 <= l6 < 2 ^ 32 -> 0 <= h6 < 2 ^ 32 -> 0 <= l7 < 2 ^ 32 -> 0 <= h7 < 2 ^ 32 ->
  - 8 * 2 ^ 255 <= nist_sum low l4 h4 l5 h5 l6 h6 l7 h7 < 14 * 2 ^ 255.
Proof. intros. unfold nist_sum. cbn [vval]. lia. Qed.

Lemma quad4 a b c d : word 64 a -> word 64 b -> word 64 c -> word 64 d -> quad (vval [a; b; c; d]) [a; b; c; d].
Proof. intros. apply quad_of_words; [done|]. repeat (constructor; [assumption|]). constructor. Qed.

(** The next term, whose buffer is four known words. *)
Local Ltac next_add R HR R' c r' HR' E :=
  lazymatch goal with |- context [uECC_vli_add ?r ?r ?t 4] =>
    destruct (add_step R (vval t) r t HR ltac:(apply quad4; auto)) as (R' & c & r' & -> & HR' & E); buf_simpl end.
Local Ltac next_sub R HR R' c r' HR' E :=
  lazymatch goal with |- context [uECC_vli_sub ?r ?r ?t 4] =>
    destruct (sub_step R (vval t) r t HR ltac:(apply quad4; auto)) as (R' & c & r' & -> & HR' & E); buf_simpl end.

Lemma vli_mmod_fast_spec r P product : length r = 4%nat -> length product = 8%nat -> num 8 P product ->
  quad (P mod p256) (vli_mmod_fast_secp256r1 r product).
Proof.
  intros Lr Lp HP. destruct (num_exact 8 P product HP Lp) as [W EP]. clear HP.
  destruct_list product. unfold words in W. repeat match goal with H : Forall _ (_ :: _) |- _ => inversion_clear H end.
  destruct (split32 x3) as (l4 & h4 & Bl4 & Bh4 & ->); [done|]. destruct (split32 x4) as (l5 & h5 & Bl5 & Bh5 & ->); [done|].
  destruct (split32 x5) as (l6 & h6 & Bl6 & Bh6 & ->); [done|]. destruct (split32 x6) as (l7 & h7 & Bl7 & Bh7 & ->); [done|].
  set (low := vval [x; x0; x1; x2]). assert (Hlow : 0 <= low < 2 ^ 256).
  { apply (quad_bound low [x; x0; x1; x2]). now apply quad4. }
  assert (ET : P mod p256 = nist_sum low l4 h4 l5 h5 l6 h6 l7 h7 mod p256).
  { rewrite nist_sum_mod. f_equal. rewrite <- EP. unfold low. cbn [vval]. lia. }
  rewrite ET. pose proof (nist_sum_bound low l4 h4 l5 h5 l6 h6 l7 h7 Hlow Bl4 Bh4 Bl5 Bh5 Bl6 Bh6 Bl7 Bh7) as BT.
  unfold vli_mmod_fast_secp256r1. rewrite vli_set_spec by (cbn [length]; lia). rewrite drop_ge, app_nil_r by lia.
  cbn [take]. cbn [replicate]. buf_simpl. rewrite ?digit_high, ?digit_shl, ?digit_shr, ?digit_low by done.
  rewrite ?digit_join by done. rewrite ?shl_digit.
  assert (Z0 : word 64 0) by done.
  assert (Wd : forall a b, 0 <= a < 2 ^ 32 -> 0 <= b < 2 ^ 32 -> word 64 (a + 2 ^ 32 * b)) by (intros; unfold word; lia).
  assert (Wl : forall a, 0 <= a < 2 ^ 32 -> word 64 a) by (intros; unfold word; lia).
  assert (Hz : 0 <= 0 < 2 ^ 32) by lia.
  destruct (double_step _ [0; 0 + 2 ^ 32 * h5; l6 + 2 ^ 32 * h6; l7 + 2 ^ 32 * h7] ltac:(apply quad4; auto) eq_refl)
    as (S1 & k1 & y1 & z1 & w1 & -> & HS1 & ES1).
  destruct (add_step low S1 [x; x0; x1; x2] _ ltac:(now apply quad4) HS1) as (R1 & c1 & r1 & -> & HR1 & ER1). buf_simpl.
  destruct (double_step _ [0; 0 + 2 ^ 32 * l6; h6 + 2 ^ 32 * l7; h7] ltac:(apply quad4; auto) eq_refl)
    as (S2 & k2 & y2 & z2 & w2 & -> & HS2 & ES2).
  destruct (add_step R1 S2 _ _ HR1 HS2) as (R2 & c2 & r2 & -> & HR2 & ER2). buf_simpl.
  next_add R2 HR2 R3 c3 r3 HR3 ER3. next_add R3 HR3 R4 c4 r4 HR4 ER4. next_sub R4 HR4 R5 c5 r5 HR5 ER5.
  next_sub R5 HR5 R6 c6 r6 HR6 ER6. next_sub R6 HR6 R7 c7 r7 HR7 ER7. next_sub R7 HR7 R8 c8 r8 HR8 ER8.
  set (carry := k1 + c1 + k2 + c2 + c3 + c4 - c5 - c6 - c7 - c8).
  assert (E : nist_sum low l4 h4 l5 h5 l6 h6 l7 h7 = R8 + 2 ^ 256 * carry) by (unfold nist_sum, carry; lia).
  rewrite E in *. clearbody carry. pose proof (quad_bound _ _ HR8). destruct (Z.ltb_spec carry 0).
  - apply mmod_add_p_spec; [done|]. change (Z.of_nat 16) with 16. lia.
  - apply mmod_sub_p_spec; [done|]. change (Z.of_nat 16) with 16. lia.
Qed.

(** ** Field operations *)

Definition fe (V : Z) (l : list Z) : Prop := quad V l /\ V < p256.

Lemma fe_bound V l : fe V l -> 0 <= V < p256.
Proof. intros [H1 H2]. apply quad_bound in H1. lia. Qed.

Lemma fe_mod V l : quad (V mod p256) l -> fe (V mod p256) l.
Proof. intros H. split; [done|]. apply Z.mod_pos_bound. done. Qed.

Lemma modMult_fast_spec r V1 V2 l1 l2 : length r = 4%nat -> num 4 V1 l1 -> num 4 V2 l2 ->
  fe ((V1 * V2) mod p256) (uECC_vli_modMult_fast r l1 l2 data_secp256r1).
Proof.
  intros Lr H1 H2. apply fe_mod. unfold uECC_vli_modMult_fast. cbn [num_words mmod_fast data_secp256r1].
  pose proof (vli_mult_spec (replicate (2 * uECC_MAX_WORDS) 0) V1 V2 l1 l2 eq_refl H1 H2) as HP.
  apply vli_mmod_fast_spec; [done| |now apply wrote_num in HP]. apply wrote_length in HP; [exact HP|cbn; lia].
Qed.

Lemma modSquare_fast_spec r V l : length r = 4%nat -> num 4 V l ->
  fe ((V * V) mod p256) (uECC_vli_modSquare_fast r l data_secp256r1).
Proof.
  intros Lr H. apply fe_mod. unfold uECC_vli_modSquare_fast. cbn [num_words mmod_fast data_secp256r1].
  pose proof (vli_square_spec (replicate (2 * uECC_MAX_WORDS) 0) V l eq_refl H) as HP.
  apply vli_mmod_fast_spec; [done| |now apply wrote_num in HP]. apply wrote_length in HP; [exact HP|cbn; lia].
Qed.

Lemma fe_num V l : fe V l -> num 4 V l.
Proof. intros [[_ H] _]. exact H. Qed.
Lemma fe_words_length V l : fe V l -> length l = 4%nat.
Proof. intros [[H _] _]. exact H. Qed.

Lemma modAdd_fe r V1 V2 l1 l2 : length r = 4%nat -> fe V1 l1 -> fe V2 l2 ->
  fe ((V1 + V2) mod p256) (uECC_vli_modAdd r l1 l2 secp256r1_p 4).
Proof.
  intros Lr H1 H2. apply fe_mod, (wrote_quad r); [done|].
  apply vli_modAdd_spec; [lia|now apply fe_num|now apply fe_num|apply secp256r1_p_quad|apply H1|apply H2].
Qed.

Lemma modSub_fe r V1 V2 l1 l2 : length r = 4%nat -> fe V1 l1 -> fe V2 l2 ->
  fe ((V1 - V2) mod p256) (uECC_vli_modSub r l1 l2 secp256r1_p 4).
Proof.
  intros Lr H1 H2. apply fe_mod, (wrote_quad r); [done|].
  apply vli_modSub_spec; [lia|now apply fe_num|now apply fe_num|apply secp256r1_p_quad|apply H1|apply H2].
Qed.

Lemma set_fe r V l : length r = 4%nat -> fe V l -> fe V (uECC_vli_set r l 4).
Proof. intros Lr [[L H] B]. split; [|done]. apply (wrote_quad r); [done|]. apply vli_set_wrote; [lia|done]. Qed.

#[export] Hint Resolve fe_num fe_words_length modMult_fast_spec modSquare_fast_spec modAdd_fe modSub_fe set_fe : uecc.

Lemma p256_odd : Z.odd p256 = true.
Proof. reflexivity. Qed.

Lemma testBit0 V l : quad V l -> (uECC_vli_testBit l 0 =? 0) = Z.even V.
Proof. intros H. rewrite (vli_testBit_spec 4 V l 0 (proj2 H)), Z.bit0_odd, Z.negb_odd by lia. done. Qed.

Lemma half_mod_spec V l : fe V l -> fe (halve_mod p256 V) (half_mod l data_secp256r1).
Proof.
  intros HV. pose proof (fe_bound _ _ HV) as B. destruct (halve_mod_spec p256 V p256_odd B) as [B' _]. split; [|lia].
  unfold half_mod, halve_mod. cbn [num_words curve_p data_secp256r1]. rewrite (testBit0 V l (proj1 HV)).
  destruct (Z.even V); cbn [negb]; [apply rshift1_quad, HV|].
  destruct (add_in_place V p256 l secp256r1_p (proj1 HV) (proj2 secp256r1_p_quad)) as (S & c & HS & Ec & Hc & E).
  destruct (uECC_vli_add l l secp256r1_p 4) as [l1 c1]. cbn [fst snd] in *. subst c1. pose proof (quad_bound _ _ HS).
  replace ((V + p256) / 2) with (S / 2 + 2 ^ 255 * c).
  2: { rewrite <- E. replace (S + 2 ^ 256 * c) with (S + 2 ^ 255 * c * 2) by lia. now rewrite Z.div_add by lia. }
  pose proof (high_bit_quad (S / 2) c (uECC_vli_rshift1 l1 4) (rshift1_quad _ _ HS) ltac:(apply Z.div_lt_upper_bound; lia) Hc) as Q.
  destruct Hc as [-> | ->]; cbn [Z.eqb] in Q; [|exact Q].
  rewrite wshl_mul, Z.mul_0_l by lia. change (wrap 64 0) with 0. rewrite Z.lor_0_r, list_insert_id; [exact Q|].
  apply list_lookup_lookup_total_lt. destruct Q as [-> _]. cbn. lia.
Qed.

(** ** The curve equation and the square root *)

Definition b256 : Z := Eval vm_compute in vval secp256r1_b.

Lemma secp256r1_b_fe : fe b256 secp256r1_b.
Proof. split; [|done]. apply (quad_of_words secp256r1_b); [done|]. now apply wordsb_sound. Qed.

(** The right-hand side x^3 - 3 x + b of the curve equation. *)
Definition curve_rhs (x : Z) : Z := (x ^ 3 - 3 * x + b256) mod p256.

Lemma x_side_spec r x lx : length r = 4%nat -> num 4 x lx -> fe (curve_rhs x) (x_side_default r lx data_secp256r1).
Proof.
  intros Lr Hx. unfold x_side_default. cbn [num_words curve_p curve_b data_secp256r1]. cbv zeta.
  assert (H3 : fe 3 ((replicate uECC_MAX_WORDS 0).[0 <- 3])).
  { split; [|done]. apply (quad_of_words [3; 0; 0; 0]); [done|]. now apply wordsb_sound. }
  set (r1 := uECC_vli_modSquare_fast _ _ _). assert (H1 : fe ((x * x) mod p256) r1) by (unfold r1; eauto with uecc). clearbody r1.
  set (r2 := uECC_vli_modSub _ _ _ _ _). assert (H2 : fe (((x * x) mod p256 - 3) mod p256) r2) by (unfold r2; eauto with uecc). clearbody r2.
  set (r3 := uECC_vli_modMult_fast _ _ _ _).
  assert (H4 : fe ((((x * x) mod p256 - 3) mod p256 * x) mod p256) r3) by (unfold r3; eauto with uecc). clearbody r3.
  assert (E : curve_rhs x = ((((x * x) mod p256 - 3) mod p256 * x) mod p256 + b256) mod p256).
  { unfold curve_rhs. rewrite Zplus_mod_idemp_l, <- (Zplus_mod_idemp_l (_ * x)), Zmult_mod_idemp_l, Zplus_mod_idemp_l.
    rewrite <- (Zplus_mod_idemp_l (_ * x)), <- Zmult_mod_idemp_l, Zminus_mod_idemp_l, Zmult_mod_idemp_l, Zplus_mod_idemp_l. f_equal. ring. }
  rewrite E. apply modAdd_fe; [eauto with uecc|done|exact secp256r1_b_fe].
Qed.

Lemma pow_step a e b : 0 <= e -> (((a ^ e) mod p256 * ((a ^ e) mod p256)) mod p256 * (if b : bool then a else 1)) mod p256 =
  a ^ (2 * e + Z.b2z b) mod p256.
Proof.
  intros He. rewrite Zmult_mod_idemp_l, <- Zmult_mod_idemp_l, <- Zmult_mod, Zmult_mod_idemp_l. f_equal.
  rewrite Z.pow_add_r, Z.pow_twice_r by (destruct b; cbn; lia). destruct b; cbn [Z.b2z]; rewrite ?Z.pow_1_r, ?Z.pow_0_r; ring.
Qed.

Lemma halve_bit P i : 0 <= i -> P / 2 ^ i = 2 * (P / 2 ^ (i + 1)) + Z.b2z (Z.testbit P i).
Proof.
  intros Hi. rewrite Z.testbit_spec' by done. rewrite Z.pow_add_r, <- Z.div_div by (try apply Z.pow_nonzero; lia).
  change (2 ^ 1) with 2. pose proof (Z.div_mod (P / 2 ^ i) 2 ltac:(lia)). lia.
Qed.

Lemma mod_sqrt_spec a la : fe a la -> fe (a ^ ((p256 + 1) / 4) mod p256) (mod_sqrt_default la data_secp256r1).
Proof.
  intros Ha. unfold mod_sqrt_default. cbn [num_words curve_p data_secp256r1]. cbv zeta.
  set (p1 := fst (uECC_vli_add _ _ _ 4)). assert (Hp1 : quad (p256 + 1) p1).
  { assert (E : p1 = [0; 4294967296; 0; 18446744069414584321]) by (vm_compute; reflexivity). rewrite E.
    apply (quad_of_words [0; 4294967296; 0; 18446744069414584321]); [done|]. now apply wordsb_sound. }
  rewrite (vli_numBits_spec 4 (p256 + 1) p1 (proj2 Hp1)). change (Z.to_nat (bit_size (p256 + 1) - 2)) with 254%nat.
  apply set_fe; [now apply fe_words_length in Ha|]. unfold for_down. clearbody p1.
  assert (L : forall t, (t <= 254)%nat -> fe (a ^ ((p256 + 1) / 2 ^ (256 - Z.of_nat t)) mod p256)
    (for_ 0 t (fun j l_result =>
       let l_result0 := uECC_vli_modSquare_fast l_result l_result data_secp256r1 in
       if negb (uECC_vli_testBit p1 (Z.of_nat (254 - 1 - j) + 2) =? 0)
       then uECC_vli_modMult_fast l_result0 l_result0 la data_secp256r1 else l_result0) (replicate uECC_MAX_WORDS 0).[0 <- 1])).
  2: { exact (L 254%nat (le_n _)). }
  induction t as [|t IH]; intros Ht.
  { rewrite for_nil by lia. change ((p256 + 1) / _) with 0. rewrite Z.pow_0_r. change (1 mod p256) with 1. split; [|done].
    apply (quad_of_words [1; 0; 0; 0]); [done|]. now apply wordsb_sound. }
  specialize (IH ltac:(lia)). rewrite for_last by lia. set (l0 := for_ 0 t _ _) in *. clearbody l0. cbv zeta.
  set (i := Z.of_nat (254 - 1 - t) + 2). assert (Ei : i = 256 - Z.of_nat (S t)) by lia.
  rewrite (vli_testBit_spec 4 (p256 + 1) p1 i (proj2 Hp1)), negb_involutive by lia.
  replace (256 - Z.of_nat t) with (i + 1) in IH by lia. rewrite <- Ei, (halve_bit (p256 + 1) i) by lia.
  set (e := (p256 + 1) / 2 ^ (i + 1)) in *. assert (He : 0 <= e) by (apply Z.div_pos; [done|apply Z.pow_pos_nonneg; lia]).
  rewrite <- pow_step by done. pose proof (modSquare_fast_spec l0 _ l0 (fe_words_length _ _ IH) (fe_num _ _ IH)) as Sq.
  destruct (Z.testbit (p256 + 1) i).
  - apply modMult_fast_spec; [now apply fe_words_length in Sq|now apply fe_num|now apply fe_num].
  - rewrite Z.mul_1_r, Z.mod_mod by done. exact Sq.
Qed.

(** ** Byte strings *)

Lemma vval_split l w : (w < length l)%nat -> vval l = vval (take w l) + base w * (l !!! w + 2 ^ 64 * vval (drop (S w) l)).
Proof.
  intros H. rewrite <- (take_drop w l) at 1. rewrite vval_app, length_take, Nat.min_l by lia. do 2 f_equal.
  rewrite (drop_S l (l !!! w) w) by now apply list_lookup_lookup_total_lt. reflexivity.
Qed.

Lemma vval_insert l w v : (w < length l)%nat -> vval l.[w <- v] = vval l + base w * (v - l !!! w).
Proof.
  intros H. rewrite (vval_split l w H), (vval_split l.[w <- v] w) by now rewrite length_insert.
  rewrite take_insert_ge, drop_insert_lt, list_lookup_total_insert_eq by lia. ring.
Qed.

(** A byte of the value. *)
Lemma word_byte V l b : words l -> vval l = V -> (b < 8 * length l)%nat ->
  wrap 8 (wshr l.[b / 8] (Z.of_nat (8 * (b mod 8)))) = (V / 256 ^ Z.of_nat b) mod 256.
Proof.
  intros W <- Hb. set (w := (b / 8)%nat). set (k := (b mod 8)%nat). pose proof (Nat.div_mod b 8 ltac:(lia)) as D.
  pose proof (Nat.mod_upper_bound b 8 ltac:(lia)) as Hk. fold w k in D, Hk. assert (Hw : (w < length l)%nat) by lia.
  rewrite (vval_split l w Hw). set (x := l !!! w). set (rest := vval (drop (S w) l)).
  pose proof (vval_bound _ (words_take w l W)) as B. rewrite length_take, Nat.min_l in B by lia.
  rewrite wshr_div by lia. unfold wrap. change (2 ^ 8) with 256.
  replace (256 ^ Z.of_nat b) with (base w * 2 ^ Z.of_nat (8 * k)) by (change 256 with (2 ^ 8); rewrite <- Z.pow_mul_r, <- Z.pow_add_r by lia; f_equal; lia).
  pose proof (base_pos w). assert (0 < 2 ^ Z.of_nat (8 * k)) by (apply Z.pow_pos_nonneg; lia).
  rewrite <- Z.div_div by lia. rewrite (Z.mul_comm (base w)), Z.div_add by lia. rewrite (Z.div_small (vval _)), Z.add_0_l by lia.
  replace (2 ^ 64 * rest) with (rest * 2 ^ (56 - Z.of_nat (8 * k)) * 256 * 2 ^ Z.of_nat (8 * k)).
  - now rewrite Z.div_add, Z_mod_plus_full by lia.
  - change 256 with (2 ^ 8). rewrite <- !Z.mul_assoc, <- !Z.pow_add_r by lia. replace (56 - _ + _) with 64 by lia. ring.
Qed.

Lemma le_split_seq n z : le_split n z = (fun i => (z / 256 ^ Z.of_nat i) mod 256) <$> seq 0 n.
Proof.
  revert z. induction n as [|n IH]; intros z; [done|]. cbn [le_split]. rewrite IH, <- cons_seq, <- fmap_S_seq, fmap_cons, <- list_fmap_compose.
  f_equal; [now rewrite Z.pow_0_r, Z.div_1_r|]. apply list_fmap_ext. intros i x _. cbn. f_equal.
  rewrite Nat2Z.inj_succ, Z.pow_succ_r, Z.div_div by (try apply Z.pow_nonzero; lia). done.
Qed.

Lemma rev_seq {A} (f : nat -> A) n : rev (f <$> seq 0 n) = (fun i => f (n - 1 - i)%nat) <$> seq 0 n.
Proof.
  revert f. induction n as [|n IH]; intros f; [done|]. rewrite <- cons_seq, fmap_cons at 1. cbn [rev].
  rewrite <- fmap_S_seq, <- list_fmap_compose, IH, (seq_S n 0), fmap_app. cbn [fmap list_fmap].
  f_equal; [|do 2 f_equal; lia]. apply list_fmap_ext. intros i x Hx. apply lookup_seq in Hx. cbn. f_equal. lia.
Qed.

Lemma nativeToBytes_spec out m V native : (m <= length out)%nat -> words native -> vval native = V -> (m <= 8 * length native)%nat ->
  uECC_vli_nativeToBytes out m native = be_split m V ++ drop m out.
Proof.
  intros Ho W E Hm. unfold uECC_vli_nativeToBytes. cbv zeta.
  rewrite (for_write (fun i => wrap 8 (wshr native.[(m - 1 - i) / 8] (Z.of_nat (8 * ((m - 1 - i) mod 8)))))) by done. f_equal.
  unfold be_split. rewrite le_split_seq, rev_seq. apply list_fmap_ext. intros i x Hx. apply lookup_seq in Hx.
  apply (word_byte V native); (done || lia).
Qed.

(** A word below a multiple of a power of two. *)
Lemma word_multiple l w s Q : words l -> (w < length l)%nat -> 0 <= s <= 64 -> vval l = Q * (base w * 2 ^ s) ->
  exists q, l !!! w = q * 2 ^ s.
Proof.
  intros W Hw Hs E. rewrite (vval_split l w Hw) in E. set (x := l !!! w) in *. set (rest := vval (drop (S w) l)) in *.
  pose proof (vval_bound _ (words_take w l W)) as B. rewrite length_take, Nat.min_l in B by lia. pose proof (base_pos w).
  assert (E2 : x + 2 ^ 64 * rest = Q * 2 ^ s) by nia.
  exists (Q - rest * 2 ^ (64 - s)). replace (2 ^ 64) with (2 ^ (64 - s) * 2 ^ s) in E2 by (rewrite <- Z.pow_add_r by lia; f_equal; lia). lia.
Qed.

Lemma bytes_lookup l i : bytes l -> (i < length l)%nat -> 0 <= l !!! i < 256.
Proof. intros H Hi. unfold bytes in H. rewrite Forall_lookup in H. exact (H i _ (list_lookup_lookup_total_lt l i Hi)). Qed.

Lemma be_combine_take_S l i : (i < length l)%nat -> be_combine (take (S i) l) = 256 * be_combine (take i l) + l !!! i.
Proof. intros Hi. unfold be_combine. rewrite (take_S_total l i Hi), rev_app_distr. cbn [rev app le_combine]. lia. Qed.

Lemma bytesToNative_spec native bs m : bytes bs -> (m <= length bs)%nat -> (m <= 8 * length native)%nat ->
  uECC_vli_clear native ((m + 7) / 8) = replicate (length native) 0 ->
  let r := uECC_vli_bytesToNative native bs m in
  length r = length native /\ words r /\ vval r = be_combine (take m bs).
Proof.
  intros Hb Lb Ln Hc. cbv zeta. unfold uECC_vli_bytesToNative. rewrite Hc. cbv zeta.
  assert (H : forall i, (i <= m)%nat -> let r := for_ 0 i (fun i native =>
      native.[(m - 1 - i) / 8 <- (native.[(m - 1 - i) / 8] .| (bs.[i] << Z.of_nat (8 * ((m - 1 - i) mod 8))))%u64])
      (replicate (length native) 0) in
    length r = length native /\ words r /\ vval r = be_combine (take i bs) * 256 ^ Z.of_nat (m - i)).
  2: { destruct (H m (le_n m)) as (L & W & E). rewrite Nat.sub_diag, Z.mul_1_r in E. auto. }
  clear Hc. induction i as [|i IH]; intros Hi; cbv zeta.
  { rewrite for_nil by lia. rewrite length_replicate, vval_zeros. auto using words_replicate. }
  destruct (IH ltac:(lia)) as (L & W & E). rewrite for_last by lia. set (r := for_ 0 i _ _) in *. clearbody r.
  set (b := (m - 1 - i)%nat). set (w := (b / 8)%nat). set (k := (b mod 8)%nat). pose proof (Nat.div_mod b 8 ltac:(lia)) as D.
  pose proof (Nat.mod_upper_bound b 8 ltac:(lia)) as Hk. fold w k in D, Hk. assert (Hw : (w < length r)%nat) by lia.
  pose proof (bytes_lookup bs i Hb ltac:(lia)) as Bx. set (x := bs !!! i) in *.
  assert (P : 256 ^ Z.of_nat (m - i) = base w * 2 ^ (Z.of_nat (8 * k) + 8)).
  { change 256 with (2 ^ 8). rewrite <- Z.pow_mul_r, <- Z.pow_add_r by lia. f_equal. lia. }
  rewrite P in E. destruct (word_multiple r w (Z.of_nat (8 * k) + 8) _ W Hw ltac:(lia) E) as [q Eq].
  pose proof (words_lookup r w W) as Ww. assert (P0 : 0 < 2 ^ Z.of_nat (8 * k)) by (apply Z.pow_pos_nonneg; lia).
  rewrite Z.pow_add_r in Eq by lia. change (2 ^ 8) with 256 in Eq.
  assert (P1 : x * 2 ^ Z.of_nat (8 * k) < 2 ^ 64).
  { assert (2 ^ Z.of_nat (8 * k) * 256 <= 2 ^ 64); [|nia]. change 256 with (2 ^ 8). rewrite <- Z.pow_add_r by lia. apply Z.pow_le_mono_r; lia. }
  assert (O : Z.lor (r !!! w) (wshl 64 x (Z.of_nat (8 * k))) = r !!! w + x * 2 ^ Z.of_nat (8 * k)).
  { rewrite wshl_small by lia. rewrite Eq, Z.lor_comm.
    replace (q * (2 ^ Z.of_nat (8 * k) * 256)) with (Z.shiftl q (Z.of_nat (8 * k) + 8))
      by (rewrite Z.shiftl_mul_pow2, Z.pow_add_r by lia; ring).
    rewrite Z_lor_add by (rewrite ?Z.pow_add_r; nia). rewrite Z.shiftl_mul_pow2 by lia. ring. }
  split; [now rewrite length_insert|]. split.
  - apply Forall_insert; [exact W|]. apply word_lor; [lia|exact Ww|]. apply wshl_word. lia.
  - rewrite vval_insert, O, E, be_combine_take_S by lia. fold x.
    replace (256 ^ Z.of_nat (m - S i)) with (base w * 2 ^ Z.of_nat (8 * k)).
    + rewrite Z.pow_add_r by lia. change (2 ^ 8) with 256. ring.
    + change 256 with (2 ^ 8). rewrite <- Z.pow_mul_r, <- Z.pow_add_r by lia. f_equal. lia.
Qed.

(** The two uses: a clean buffer, and any buffer whose words are all cleared. *)
Lemma bytesToNative_quad native bs : length native = 4%nat -> bytes bs -> (32 <= length bs)%nat ->
  quad (be_combine (take 32 bs)) (uECC_vli_bytesToNative native bs 32).
Proof.
  intros L Hb Lb. destruct (bytesToNative_spec native bs 32) as (L' & W & E); [done|lia|lia| |].
  - change ((32 + 7) / 8)%nat with 4%nat. rewrite vli_clear_spec, drop_ge, app_nil_r by lia. now rewrite L.
  - rewrite <- E. apply quad_of_words; [lia|done].
Qed.

Lemma nativeToBytes_quad out V native : (32 <= length out)%nat -> num 4 V native ->
  uECC_vli_nativeToBytes out 32 native = be_split 32 V ++ drop 32 out.
Proof.
  intros Ho (L & W & E). transitivity (uECC_vli_nativeToBytes out 32 (take 4 native)).
  - unfold uECC_vli_nativeToBytes. apply for_ext. intros i s Hi. cbv zeta. do 3 f_equal.
    rewrite !list_lookup_total_alt, lookup_take_lt; [done|]. apply Nat.Div0.div_lt_upper_bound. lia.
  - apply nativeToBytes_spec; [done|done|done|]. rewrite length_take. lia.
Qed.

(** ** Property *)

(** C29: The reduction of the NIST report, with its sums of shifted digits and
    its correcting loops, returns the same words as the general reduction by
    shifted subtraction, for every product of eight words: the remainder
    modulo p. *)
Theorem uecc_mmod_fast_equiv (result product : list Z) : length result = 4%nat -> length product = 8%nat -> words product ->
  vli_mmod_fast_secp256r1 result product = uECC_vli_mmod result product secp256r1_p 4 /\
  vval (vli_mmod_fast_secp256r1 result product) = vval product mod p256.
Proof.
  intros Lr Lp W. pose proof (num_intro product W) as HP. rewrite Lp in HP.
  pose proof (vli_mmod_fast_spec result _ product Lr Lp HP) as [L1 N1].
  pose proof (vli_mmod_spec result _ p256 product secp256r1_p ltac:(lia) Lp HP (proj2 secp256r1_p_quad) (proj1 p256_bounds)) as H2.
  apply wrote_exact in H2 as (L2 & W2 & E2); [|done]. destruct (num_exact _ _ _ N1 L1) as [W1 E1].
  split; [|done]. apply vval_inj; [done|done|lia|congruence].
Qed.

Lemma uecc_mmod_fast_equiv_witness :
  vli_mmod_fast_secp256r1 (replicate 4 0) (replicate 8 (2 ^ 64 - 1)) = uECC_vli_mmod (replicate 4 0) (replicate 8 (2 ^ 64 - 1)) secp256r1_p 4.
Proof.
  apply (uecc_mmod_fast_equiv (replicate 4 0) (replicate 8 (2 ^ 64 - 1)) eq_refl eq_refl). apply wordsb_sound. reflexivity.
Defined.
