(* ===== verification/Prime256.v ===== *)
(** * Prime256: the primes of secp256r1

    The modulus of the field of P-256 and the order of its base point are
    prime, by chains of Pocklington's criterion as in [Prime25519]. *)

From Stdlib Require Import ZArith Lia Zdivisibility.
From S2P Require Import Prime25519 UECCField.

Local Open Scope Z_scope.

Lemma prime_46076956964474543 : Z.prime 46076956964474543.
Proof.
  apply (pock_prime2 _ 704251 78283);
    [by_compute|by_compute|by_trial|by_trial|discriminate|by_compute..].
Qed.

Lemma prime_66417393611 : Z.prime 66417393611.
Proof.
  apply (pock_prime2 _ 3677 197);
    [by_compute|by_compute|by_trial|by_trial|discriminate|by_compute..].
Qed.

Lemma prime_11290956913871 : Z.prime 11290956913871.
Proof.
  apply (pock_prime _ 66417393611);
    [by_compute|by_compute|exact prime_66417393611|by_compute..].
Qed.

Lemma prime_774023187263532362759620327192479577272145303 : Z.prime 774023187263532362759620327192479577272145303.
Proof.
  apply (pock_prime2 _ 46076956964474543 11290956913871);
    [by_compute|by_compute|exact prime_46076956964474543|exact prime_11290956913871|discriminate|by_compute..].
Qed.

Lemma prime_835945042244614951780389953367877943453916927241 : Z.prime 835945042244614951780389953367877943453916927241.
Proof.
  apply (pock_prime _ 774023187263532362759620327192479577272145303);
    [by_compute|by_compute|exact prime_774023187263532362759620327192479577272145303|by_compute..].
Qed.

Lemma prime_p256 : Z.prime p256.
Proof.
  apply (pock_prime _ 835945042244614951780389953367877943453916927241);
    [by_compute|by_compute|exact prime_835945042244614951780389953367877943453916927241|by_compute..].
Qed.

Lemma prime_191039911 : Z.prime 191039911.
Proof.
  apply (pock_prime _ 155317);
    [by_compute|by_compute|by_trial|by_compute..].
Qed.

Lemma prime_208150935158385979 : Z.prime 208150935158385979.
Proof.
  apply (pock_prime2 _ 191039911 3023);
    [by_compute|by_compute|exact prime_191039911|by_trial|discriminate|by_compute..].
Qed.

Lemma prime_2624747550333869278416773953 : Z.prime 2624747550333869278416773953.
Proof.
  apply (pock_prime _ 208150935158385979);
    [by_compute|by_compute|exact prime_208150935158385979|by_compute..].
Qed.

Lemma prime_1002328039319 : Z.prime 1002328039319.
Proof.
  apply (pock_prime _ 3969899);
    [by_compute|by_compute|by_trial|by_compute..].
Qed.

Lemma prime_n256 : Z.prime n256.
Proof.
  apply (pock_prime2 _ 2624747550333869278416773953 1002328039319);
    [by_compute|by_compute|exact prime_2624747550333869278416773953|exact prime_1002328039319|discriminate|by_compute..].
Qed.
