(* ===== verification/UECCPoints.v ===== *)
(** * UECCPoints: the point arithmetic of micro-ecc

    Four words stand for an element of the field ([fel]).  The point formulas
    of uECC.c are those of [Jacobian], and [EccPoint_mult] computes the
    multiple of a point of the order of the base point, for all scalars but
    those that lead the ladder through the point at infinity. *)

From stdpp Require Import base list numbers.
From Stdlib Require Import ZArith Lia Zmod ZmodInv Zdivisibility Field.
From S2P Require Import Prelude Machine UECC UECCVli UECCField Prime25519 Prime256 Edwards Weierstrass Jacobian.
Import UECC.

Local Open Scope Z_scope.
Local Open Scope buf_scope.

(** ** The field of P-256 *)

Notation F256 := (Zmod p256).
Definition of256 (z : Z) : F256 := Zmod.of_Z p256 z.

Local Notation "x +f y" := (@Zmod.add p256 x y) (at level 50, left associativity).
Local Notation "x -f y" := (@Zmod.sub p256 x y) (at level 50, left associativity).
Local Notation "x *f y" := (@Zmod.mul p256 x y) (at level 40, left associativity).

Lemma p256_pos : 0 < p256.
Proof. done. Qed.

Lemma of256_eq a b : of256 a = of256 b <-> a mod p256 = b mod p256.
Proof. apply Zmod.of_Z_inj. Qed.
Lemma of256_mod a : of256 (a mod p256) = of256 a.
Proof. apply Zmod.of_Z_mod. Qed.
Lemma of256_to_Z (x : F256) : of256 (Zmod.to_Z x) = x.
Proof. apply Zmod.of_Z_to_Z. Qed.
Lemma to_Z_of256 a : Zmod.to_Z (of256 a) = a mod p256.
Proof. apply Zmod.to_Z_of_Z. Qed.
Lemma to_Z_bound256 (x : F256) : 0 <= Zmod.to_Z x < p256.
Proof. exact (Zmod.to_Z_pos_bound x p256_pos). Qed.
Lemma to_Z_of256_small a : 0 <= a < p256 -> Zmod.to_Z (of256 a) = a.
Proof. intros H. rewrite to_Z_of256. now apply Z.mod_small. Qed.

(** The words of a field element. *)
Definition fel (x : F256) (l : list Z) : Prop := quad (Zmod.to_Z x) l.

Lemma fel_intro V l : fe V l -> fel (of256 V) l.
Proof. intros H. unfold fel. rewrite to_Z_of256_small; [apply H|]. now apply fe_bound in H. Qed.

Lemma fel_fe x l : fel x l -> fe (Zmod.to_Z x) l.
Proof. intros H. split; [exact H|]. apply to_Z_bound256. Qed.

Lemma fel_eq x y l : fel x l -> x = y -> fel y l.
Proof. now intros H <-. Qed.

Lemma fel_length x l : fel x l -> length l = 4%nat.
Proof. intros H. apply H. Qed.

Lemma fel_num x l : fel x l -> num 4 (Zmod.to_Z x) l.
Proof. intros H. apply H. Qed.

Lemma fel_unique x l l' : fel x l -> fel x l' -> l = l'.
Proof.
  intros [L N] [L' N']. destruct (num_exact _ _ _ N L) as [W E]. destruct (num_exact _ _ _ N' L') as [W' E'].
  apply vval_inj; [done|done|lia|congruence].
Qed.

(** The operands of a product may be the first words of longer buffers. *)
Lemma fel_mul_num r (x y : F256) lx ly : length r = 4%nat -> num 4 (Zmod.to_Z x) lx -> num 4 (Zmod.to_Z y) ly ->
  fel (x *f y) (uECC_vli_modMult_fast r lx ly data_secp256r1).
Proof.
  intros L Hx Hy. pose proof (modMult_fast_spec r _ _ lx ly L Hx Hy) as H.
  apply (fel_eq _ _ _ (fel_intro _ _ H)). rewrite of256_mod. unfold of256. rewrite Zmod.of_Z_mul. now rewrite !Zmod.of_Z_to_Z.
Qed.

Lemma fel_mul r x y lx ly : length r = 4%nat -> fel x lx -> fel y ly -> fel (x *f y) (uECC_vli_modMult_fast r lx ly data_secp256r1).
Proof. intros L Hx Hy. apply fel_mul_num; [done|now apply fel_num..]. Qed.

Lemma fel_square r x lx : length r = 4%nat -> fel x lx -> fel (x *f x) (uECC_vli_modSquare_fast r lx data_secp256r1).
Proof.
  intros L Hx. pose proof (modSquare_fast_spec r _ lx L (fel_num _ _ Hx)) as H.
  apply (fel_eq _ _ _ (fel_intro _ _ H)). rewrite of256_mod. unfold of256. rewrite Zmod.of_Z_mul. now rewrite !Zmod.of_Z_to_Z.
Qed.

Lemma fel_add r x y lx ly : length r = 4%nat -> fel x lx -> fel y ly -> fel (x +f y) (uECC_vli_modAdd r lx ly secp256r1_p 4).
Proof.
  intros L Hx Hy. pose proof (modAdd_fe r _ _ lx ly L (fel_fe _ _ Hx) (fel_fe _ _ Hy)) as H.
  apply (fel_eq _ _ _ (fel_intro _ _ H)). rewrite of256_mod. unfold of256. rewrite Zmod.of_Z_add. now rewrite !Zmod.of_Z_to_Z.
Qed.

Lemma fel_sub r x y lx ly : length r = 4%nat -> fel x lx -> fel y ly -> fel (x -f y) (uECC_vli_modSub r lx ly secp256r1_p 4).
Proof.
  intros L Hx Hy. pose proof (modSub_fe r _ _ lx ly L (fel_fe _ _ Hx) (fel_fe _ _ Hy)) as H.
  apply (fel_eq _ _ _ (fel_intro _ _ H)). rewrite of256_mod. unfold of256. rewrite Zmod.of_Z_sub. now rewrite !Zmod.of_Z_to_Z.
Qed.

Lemma fel_set r x lx : length r = 4%nat -> fel x lx -> fel x (uECC_vli_set r lx 4).
Proof. intros L Hx. apply (wrote_quad r); [done|]. apply vli_set_wrote; [lia|]. apply Hx. Qed.

(** From the first words of a longer buffer. *)
Lemma fel_set_num r x lx : length r = 4%nat -> num 4 (Zmod.to_Z x) lx -> fel x (uECC_vli_set r lx 4).
Proof. intros L Hx. apply (wrote_quad r); [done|]. apply vli_set_wrote; [lia|done]. Qed.

Definition half256 : F256 := of256 ((p256 + 1) / 2).

Lemma half256_half : half256 +f half256 = Zmod.one.
Proof.
  unfold half256, of256. rewrite <- Zmod.of_Z_add, <- Zmod.of_Z_1. apply of256_eq. reflexivity.
Qed.

Add Ring ring256 : (Zmod.ring_theory p256).

Lemma half_unique (x y : F256) : y +f y = x -> y = x *f half256.
Proof. intros <-. replace ((y +f y) *f half256) with (y *f (half256 +f half256)) by ring. rewrite half256_half. ring. Qed.

Lemma fel_half x l : fel x l -> fel (x *f half256) (half_mod l data_secp256r1).
Proof.
  intros H. pose proof (half_mod_spec _ l (fel_fe _ _ H)) as H'. apply (fel_eq _ _ _ (fel_intro _ _ H')). apply half_unique.
  destruct (halve_mod_spec p256 (Zmod.to_Z x) p256_odd (to_Z_bound256 x)) as [_ E].
  transitivity (of256 (Zmod.to_Z x)); [|apply of256_to_Z]. unfold of256 at 1 2. rewrite <- Zmod.of_Z_add. apply of256_eq.
  rewrite <- E. f_equal. lia.
Qed.

Lemma fel_zero l : fel Zmod.zero l -> num 4 0 l.
Proof. intros H. apply fel_num in H. now rewrite Zmod.to_Z_0 in H. Qed.

Lemma to_Z_nonzero (x : F256) : x <> Zmod.zero -> 0 < Zmod.to_Z x < p256.
Proof.
  intros N. pose proof (to_Z_bound256 x) as B. destruct (Z.eq_dec (Zmod.to_Z x) 0) as [E|N']; [|lia].
  destruct N. rewrite <- (of256_to_Z x), E. apply Zmod.of_Z_0.
Qed.

Lemma fel_inv r x lx : length r = 4%nat -> fel x lx -> fel (Zmod.inv x) (uECC_vli_modInv r lx secp256r1_p 4).
Proof.
  intros L H. destruct (fld_eq_dec x Zmod.zero) as [->|N].
  - rewrite Zmod.inv_0. unfold fel. rewrite Zmod.to_Z_0. apply vli_modInv_zero; [done|now apply fel_zero].
  - pose proof (to_Z_nonzero x N) as B.
    destruct (vli_modInv_spec r _ p256 lx secp256r1_p L (fel_num _ _ H) (proj2 secp256r1_p_quad) p256_odd eq_refl) as (U & HU & BU & EU).
    { rewrite Z.gcd_comm. apply Z.coprime_prime_l; [exact prime_p256|]. intros D%Z.divide_pos_le; lia. }
    assert (BU0 : 0 <= U) by (apply quad_bound in HU; lia).
    apply (fel_eq _ _ _ (fel_intro U _ (conj HU BU))).
    assert (E : of256 U *f x = Zmod.one).
    { rewrite <- (of256_to_Z x) at 1. unfold of256. rewrite <- Zmod.of_Z_mul, <- Zmod.of_Z_1. apply of256_eq. rewrite EU. reflexivity. }
    replace (Zmod.inv x) with (of256 U *f x *f Zmod.inv x) by (rewrite E; ring).
    replace (of256 U *f x *f Zmod.inv x) with (of256 U *f (Zmod.inv x *f x)) by ring.
    rewrite (Zmod.mul_inv_same_l_prime x prime_p256 N). ring.
Qed.

Lemma fel_isZero x l : fel x l -> (uECC_vli_isZero l 4 =? 0) = negb (Zmod.eqb x Zmod.zero).
Proof.
  intros H. rewrite (vli_isZero_spec 4 _ l (fel_num _ _ H)). destruct (Zmod.eqb_spec x Zmod.zero) as [->|N].
  - now rewrite Zmod.to_Z_0.
  - apply to_Z_nonzero in N. now rewrite (proj2 (Z.eqb_neq (Zmod.to_Z x) 0)) by lia.
Qed.

Lemma fel_eq_one : fel Zmod.one [1; 0; 0; 0].
Proof. apply (fel_intro 1). split; [|done]. apply (quad_of_words [1; 0; 0; 0]); [done|]. now apply wordsb_sound. Qed.

(** The length of a buffer that the formulas write. *)
Ltac fel_len := solve [reflexivity | eapply fel_length; eassumption | assumption].

(** The rule of an operation, by its name. *)
Ltac fel_op :=
  lazymatch goal with
  | |- fel _ (uECC_vli_modMult_fast _ _ _ _) => eapply fel_mul
  | |- fel _ (uECC_vli_modSquare_fast _ _ _) => eapply fel_square
  | |- fel _ (uECC_vli_modAdd _ _ _ _ _) => eapply fel_add
  | |- fel _ (uECC_vli_modSub _ _ _ _ _) => eapply fel_sub
  | |- fel _ (uECC_vli_set _ _ _) => eapply fel_set
  | |- fel _ (half_mod _ _) => eapply fel_half
  | |- fel _ (uECC_vli_modInv _ _ _ _) => eapply fel_inv
  end; first [eassumption | fel_len].

(** One operation of a formula: its value is the operation of the field. *)
Ltac step_fel :=
  let x := fresh "v" in evar (x : F256); step_let (fel x); [subst x; fel_op|subst x].

Ltac done_fel := eapply fel_eq; [eassumption|cbn [fst snd apply_zF coz_add coz_addc jdouble]; ring].

(** The fields of the curve that the formulas read. *)
Ltac curve_simpl :=
  change (curve_data curve_secp256r1) with data_secp256r1; change (num_words data_secp256r1) with 4%nat;
  change (curve_p data_secp256r1) with secp256r1_p; change (double_jacobian curve_secp256r1) with double_jacobian_default.

(** ** The formulas *)

Definition fel2 (p : F256 * F256) (o : list Z * list Z) : Prop := fel p.1 o.1 /\ fel p.2 o.2.

Definition fel4 (p q : F256 * F256) (o : list Z * list Z * list Z * list Z) : Prop :=
  let '(X1, Y1, X2, Y2) := o in fel2 p (X1, Y1) /\ fel2 q (X2, Y2).

Lemma apply_z_spec X Y Z_ p z : fel2 p (X, Y) -> fel z Z_ -> fel2 (apply_zF z p) (apply_z X Y Z_ curve_secp256r1).
Proof.
  destruct p as [x y]. intros [HX HY] HZ. cbn [fst snd] in HX, HY. cbv beta delta [apply_z]. curve_simpl.
  subst_let. repeat step_fel. split; done_fel.
Qed.

Lemma XYcZ_add_spec X1 Y1 X2 Y2 p q : fel2 p (X1, Y1) -> fel2 q (X2, Y2) ->
  fel4 (fst (coz_add p q)) (snd (coz_add p q)) (XYcZ_add X1 Y1 X2 Y2 curve_secp256r1).
Proof.
  destruct p as [x1 y1], q as [x2 y2]. intros [HX1 HY1] [HX2 HY2]. cbn [fst snd] in HX1, HY1, HX2, HY2.
  cbv beta delta [XYcZ_add]. curve_simpl.
  do 3 subst_let. repeat step_fel. split; split; done_fel.
Qed.

Lemma XYcZ_addC_spec X1 Y1 X2 Y2 p q : fel2 p (X1, Y1) -> fel2 q (X2, Y2) ->
  fel4 (fst (coz_addc p q)) (snd (coz_addc p q)) (XYcZ_addC X1 Y1 X2 Y2 curve_secp256r1).
Proof.
  destruct p as [x1 y1], q as [x2 y2]. intros [HX1 HY1] [HX2 HY2]. cbn [fst snd] in HX1, HY1, HX2, HY2.
  cbv beta delta [XYcZ_addC]. curve_simpl.
  do 5 subst_let. repeat step_fel. split; split; done_fel.
Qed.

Definition fel3 (p : F256 * F256) (z : F256) (o : list Z * list Z * list Z) : Prop :=
  let '(X, Y, Z_) := o in fel2 p (X, Y) /\ fel z Z_.

Lemma double_jacobian_spec X Y Z_ p z : fel2 p (X, Y) -> fel z Z_ -> z <> Zmod.zero ->
  fel3 (fst (jdouble half256 p z)) (snd (jdouble half256 p z)) (double_jacobian_default X Y Z_ data_secp256r1).
Proof.
  destruct p as [x y]. intros [HX HY] HZ Nz. cbn [fst snd] in HX, HY.
  cbv beta delta [double_jacobian_default]. curve_simpl. do 4 subst_let. curve_simpl.
  rewrite (fel_isZero _ _ HZ). destruct (Zmod.eqb_spec z Zmod.zero) as [E|_]; [contradiction|]. cbv beta iota delta [negb].
  repeat step_fel. split; [split|]; done_fel.
Qed.

(** ** The curve *)

Definition aF : F256 := Zmod.sub Zmod.zero (Zmod.one +f Zmod.one +f Zmod.one).
Definition bF : F256 := of256 b256.

Notation point256 := (w_point (m := p256)).
Notation on256 := (w_on aF bF).
Notation add256 := (w_add aF).
Notation mul256 := (w_mul aF).

Lemma of256_two : of256 2 = Zmod.one +f Zmod.one.
Proof. apply (Zmod.of_Z_add 1 1). Qed.
Lemma of256_three : of256 3 = Zmod.one +f Zmod.one +f Zmod.one.
Proof. rewrite <- of256_two. apply (Zmod.of_Z_add 2 1). Qed.

Lemma two256 : Zmod.one +f Zmod.one <> Zmod.zero.
Proof. rewrite <- of256_two. intros E. apply (of256_eq 2 0) in E. discriminate E. Qed.

Lemma three256 : Zmod.one +f Zmod.one +f Zmod.one <> Zmod.zero.
Proof. rewrite <- of256_three. intros E. apply (of256_eq 3 0) in E. discriminate E. Qed.

Lemma smooth256 (x : F256) : x *f x *f x +f aF *f x +f bF = Zmod.zero -> (Zmod.one +f Zmod.one +f Zmod.one) *f (x *f x) +f aF <> Zmod.zero.
Proof.
  intros H E. unfold aF in *.
  destruct (fld_integral prime_p256 (Zmod.one +f Zmod.one +f Zmod.one) ((x -f Zmod.one) *f (x +f Zmod.one))) as [E3|E1].
  { rewrite <- E. ring. } { now apply three256. }
  apply (fld_integral prime_p256) in E1 as [E1|E1].
  - assert (x = Zmod.one) as -> by (apply (sub_zero prime_p256); exact E1).
    assert (B : bF = of256 2) by (apply (sub_zero prime_p256); rewrite of256_two, <- H; ring).
    apply (of256_eq b256 2) in B. vm_compute in B. discriminate B.
  - apply (add_zero prime_p256) in E1 as ->.
    assert (B : bF +f of256 2 = Zmod.zero) by (rewrite of256_two, <- H; ring). unfold bF, of256 in B. rewrite <- Zmod.of_Z_add in B.
    apply (of256_eq (b256 + 2) 0) in B. vm_compute in B. discriminate B.
Qed.

(** The laws of the group. *)
Notation add_assoc := (w_add_assoc prime_p256 aF bF two256 smooth256).
Notation add_comm := (w_add_comm prime_p256 aF bF two256).
Notation on_add := (w_on_add prime_p256 aF bF two256).
Notation on_mul := (w_on_mul prime_p256 aF bF two256).
Notation mul_add := (w_mul_add prime_p256 aF bF two256 smooth256).
Notation mul_sub := (w_mul_sub prime_p256 aF bF two256 smooth256).
Notation mul_mul := (w_mul_mul prime_p256 aF bF two256 smooth256).

(** ** Two points that share their z *)

Definition pair_at (z : F256) (p0 p1 : F256 * F256) (A0 A1 : point256) (R : list (list Z) * list (list Z)) : Prop :=
  jrep z p0 A0 /\ jrep z p1 A1 /\
  exists X0 Y0 X1 Y1, R = ([X0; X1], [Y0; Y1]) /\ fel2 p0 (X0, Y0) /\ fel2 p1 (X1, Y1).

Definition pair_rep (A0 A1 : point256) (R : list (list Z) * list (list Z)) : Prop :=
  exists z p0 p1, pair_at z p0 p1 A0 A1 R.

Lemma pair_apart z X0 Y0 X1 Y1 A0 A1 : jrep z (X0, Y0) A0 -> jrep z (X1, Y1) A1 -> on256 A0 -> on256 A1 -> A0 <> A1 -> A0 <> w_opp A1 ->
  X0 -f X1 <> Zmod.zero /\ X1 -f X0 <> Zmod.zero.
Proof.
  intros J0 J1 H0 H1 N1 N2. split.
  - apply (jrep_x prime_p256 aF bF z X1 Y1 X0 Y0 A1 A0); try assumption; [congruence|]. intros ->. apply N2. now rewrite (w_opp_opp prime_p256).
  - now apply (jrep_x prime_p256 aF bF z X0 Y0 X1 Y1 A0 A1).
Qed.

Section Pair.
Variables (z : F256) (p0 p1 : F256 * F256) (A0 A1 : point256) (R : list (list Z) * list (list Z)).
Hypothesis HR : pair_at z p0 p1 A0 A1 R.
Hypothesis H0 : on256 A0.
Hypothesis H1 : on256 A1.
Hypothesis N1 : A0 <> A1.
Hypothesis N2 : A0 <> w_opp A1.

(** The conjugate addition, for a bit of 1 ([nb] is 0) and of 0. *)
Lemma mult_addC_0 : pair_rep (add256 A1 A0) (add256 A1 (w_opp A0)) (mult_addC 0 R curve_secp256r1).
Proof.
  destruct HR as (J0 & J1 & X0 & Y0 & X1 & Y1 & -> & F0 & F1). destruct p0 as [x0 y0], p1 as [x1 y1].
  destruct (pair_apart z x0 y0 x1 y1 A0 A1 J0 J1 H0 H1 N1 N2) as [NX _].
  pose proof (XYcZ_addC_spec _ _ _ _ _ _ F1 F0) as HF. cbn [mult_addC]. buf_simpl.
  pose proof (coz_addc_correct prime_p256 aF z _ _ _ _ J1 J0 NX) as HJ.
  destruct (XYcZ_addC _ _ _ _ _) as [[[X1' Y1'] X0'] Y0']. destruct HF as [HF1 HF0]. destruct (coz_addc _ _) as [d s]. destruct HJ as [HJ1 HJ0].
  buf_simpl. eexists _, s, d. split; [exact HJ0|]. split; [exact HJ1|]. exists X0', Y0', X1', Y1'. auto.
Qed.

Lemma mult_addC_1 : pair_rep (add256 A0 (w_opp A1)) (add256 A0 A1) (mult_addC 1 R curve_secp256r1).
Proof.
  destruct HR as (J0 & J1 & X0 & Y0 & X1 & Y1 & -> & F0 & F1). destruct p0 as [x0 y0], p1 as [x1 y1].
  destruct (pair_apart z x0 y0 x1 y1 A0 A1 J0 J1 H0 H1 N1 N2) as [_ NX].
  pose proof (XYcZ_addC_spec _ _ _ _ _ _ F0 F1) as HF. cbn [mult_addC]. buf_simpl.
  pose proof (coz_addc_correct prime_p256 aF z _ _ _ _ J0 J1 NX) as HJ.
  destruct (XYcZ_addC _ _ _ _ _) as [[[X0' Y0'] X1'] Y1']. destruct HF as [HF0 HF1]. destruct (coz_addc _ _) as [d s]. destruct HJ as [HJ0 HJ1].
  buf_simpl. eexists _, d, s. split; [exact HJ0|]. split; [exact HJ1|]. exists X0', Y0', X1', Y1'. auto.
Qed.

(** The addition, with the z of its results. *)
Lemma mult_add_0 : exists p0' p1',
  pair_at (z *f (fst p1 -f fst p0)) p0' p1' A0 (add256 A0 A1) (mult_add 0 R curve_secp256r1).
Proof.
  destruct HR as (J0 & J1 & X0 & Y0 & X1 & Y1 & -> & F0 & F1). destruct p0 as [x0 y0], p1 as [x1 y1].
  destruct (pair_apart z x0 y0 x1 y1 A0 A1 J0 J1 H0 H1 N1 N2) as [_ NX].
  pose proof (XYcZ_add_spec _ _ _ _ _ _ F0 F1) as HF. cbn [mult_add]. buf_simpl.
  pose proof (coz_add_correct prime_p256 aF z _ _ _ _ J0 J1 NX) as HJ.
  destruct (XYcZ_add _ _ _ _ _) as [[[X0' Y0'] X1'] Y1']. destruct HF as [HF0 HF1]. destruct (coz_add _ _) as [p s]. destruct HJ as [HJ0 HJ1].
  buf_simpl. eexists p, s. split; [exact HJ0|]. split; [exact HJ1|]. exists X0', Y0', X1', Y1'. auto.
Qed.

Lemma mult_add_1 : exists p0' p1',
  pair_at (z *f (fst p0 -f fst p1)) p0' p1' (add256 A1 A0) A1 (mult_add 1 R curve_secp256r1).
Proof.
  destruct HR as (J0 & J1 & X0 & Y0 & X1 & Y1 & -> & F0 & F1). destruct p0 as [x0 y0], p1 as [x1 y1].
  destruct (pair_apart z x0 y0 x1 y1 A0 A1 J0 J1 H0 H1 N1 N2) as [NX _].
  pose proof (XYcZ_add_spec _ _ _ _ _ _ F1 F0) as HF. cbn [mult_add]. buf_simpl.
  pose proof (coz_add_correct prime_p256 aF z _ _ _ _ J1 J0 NX) as HJ.
  destruct (XYcZ_add _ _ _ _ _) as [[[X1' Y1'] X0'] Y0']. destruct HF as [HF1 HF0]. destruct (coz_add _ _) as [p s]. destruct HJ as [HJ1 HJ0].
  buf_simpl. eexists s, p. split; [exact HJ0|]. split; [exact HJ1|]. exists X0', Y0', X1', Y1'. auto.
Qed.

End Pair.

(** ** The initial double *)

Lemma initial_double_spec X1 Y1 X2 Y2 x y z initial_Z : fel2 (x, y) (X1, Y1) -> length X2 = 4%nat -> length Y2 = 4%nat ->
  match initial_Z with Some l => fel z l | None => z = Zmod.one end -> z <> Zmod.zero -> on256 (Some (x, y)) -> y <> Zmod.zero ->
  let '(X1', Y1', X2', Y2') := XYcZ_initial_double X1 Y1 X2 Y2 initial_Z curve_secp256r1 in
  pair_rep (Some (x, y)) (add256 (Some (x, y)) (Some (x, y))) ([X2'; X1'], [Y2'; Y1']).
Proof.
  intros HP L2 L2' HZ Nz HO Ny. unfold XYcZ_initial_double. curve_simpl. cbv zeta.
  set (zl := match initial_Z with Some _ => _ | None => _ end).
  assert (Hz : fel z zl).
  { unfold zl. destruct initial_Z; [apply fel_set; [reflexivity|exact HZ]|]. rewrite HZ. exact fel_eq_one. }
  clearbody zl. assert (HX2 : fel x (uECC_vli_set X2 X1 4)) by (apply fel_set; [done|apply HP]).
  assert (HY2 : fel y (uECC_vli_set Y2 Y1 4)) by (apply fel_set; [done|apply HP]).
  set (X2' := uECC_vli_set X2 X1 4) in *. set (Y2' := uECC_vli_set Y2 Y1 4) in *. clearbody X2' Y2'.
  pose proof (apply_z_spec X1 Y1 zl _ z HP Hz) as HA. pose proof (apply_z_jrep z (x, y) _ Nz eq_refl) as JA.
  destruct (apply_z X1 Y1 zl curve_secp256r1) as [X1a Y1a]. set (q := apply_zF z (x, y)) in *.
  assert (Nq : snd q <> Zmod.zero).
  { cbn. apply (fld_neq_mul prime_p256); [exact Ny|]. apply (fld_neq_mul prime_p256); [apply (fld_neq_mul prime_p256)|]; exact Nz. }
  pose proof (double_jacobian_spec X1a Y1a zl q z HA Hz Nz) as HD.
  pose proof (jdouble_correct prime_p256 aF bF two256 eq_refl half256 z q _ half256_half JA HO Nq) as JD.
  destruct (double_jacobian_default X1a Y1a zl data_secp256r1) as [[Xd Yd] zd]. destruct (jdouble half256 q z) as [q' z']. cbn [fst snd] in HD.
  destruct HD as [HD Hzd]. pose proof (apply_z_spec X2' Y2' zd (x, y) z' (conj HX2 HY2) Hzd) as HA2.
  pose proof (apply_z_jrep z' (x, y) _ (proj1 JD) eq_refl) as JA2.
  destruct (apply_z X2' Y2' zd curve_secp256r1) as [X2a Y2a]. exists z', (apply_zF z' (x, y)), q'. split; [exact JA2|]. split; [exact JD|].
  exists X2a, Y2a, Xd, Yd. auto.
Qed.
