(* ===== verification/UECCMult.v ===== *)
(** * UECCMult: the scalar multiplication of micro-ecc

    [EccPoint_mult] is a Montgomery ladder: before bit i it holds the multiples
    j P and (j + 1) P of the prefix j of the scalar above i.  The additions of
    the ladder have no case for equal or opposite points; a scalar is
    [regular] when none of its prefixes makes 2 j + 1 a multiple of the order.
    For a regular scalar the result is the multiple of the group. *)

From stdpp Require Import base list numbers.
From Stdlib Require Import ZArith Lia Zmod ZmodInv Zdivisibility Field.
From S2P Require Import Prelude Machine UECC UECCVli UECCField Prime25519 Prime256 Edwards Weierstrass Jacobian UECCPoints.
Import UECC.

Local Open Scope Z_scope.
Local Open Scope buf_scope.

Local Notation "x +f y" := (@Zmod.add p256 x y) (at level 50, left associativity).
Local Notation "x -f y" := (@Zmod.sub p256 x y) (at level 50, left associativity).
Local Notation "x *f y" := (@Zmod.mul p256 x y) (at level 40, left associativity).

Module Mult_Spec.

(** The scalar whose bits the ladder reads below its leading one. *)
Definition ladder_scalar (V : Z) : Z := 2 ^ 256 + V.

(** No prefix j of the scalar makes 2 j + 1 a multiple of the order. *)
Definition regular (K : Z) : Prop := forall i, 0 <= i < 256 -> ~ Z.divide n256 (2 * (K / 2 ^ (i + 1)) + 1).

End Mult_Spec.
Import Mult_Spec.

Section Ladder.
Variables x y : F256.
Let P : point256 := Some (x, y).
Hypothesis HP : on256 P.
Hypothesis order_P : mul256 n256 P = None.
Local Notation M k := (mul256 k P).

Lemma P_finite : P <> None.
Proof. discriminate. Qed.

Lemma M_eq j k : M j = M k <-> Z.divide n256 (j - k).
Proof. exact (w_mul_eq prime_p256 aF bF two256 smooth256 n256 P prime_n256 HP order_P P_finite j k). Qed.

Lemma M_opp k : M (- k) = w_opp (M k).
Proof. exact (w_mul_opp prime_p256 aF bF two256 smooth256 P HP k). Qed.

Lemma M_add j k : M (j + k) = add256 (M j) (M k).
Proof. exact (mul_add P HP j k). Qed.

Lemma M_on k : on256 (M k).
Proof. exact (on_mul P HP k). Qed.

Lemma n256_odd_prime k : Z.divide n256 (2 * k) -> Z.divide n256 k.
Proof.
  intros H. apply Z.divide_prime_mul in H; [|exact prime_n256]. destruct H as [H|H]; [|exact H].
  apply Z.divide_pos_le in H; [destruct (H eq_refl)|done].
Qed.

Lemma not_one : ~ Z.divide n256 1.
Proof. intros H%Z.divide_pos_le; [destruct (H eq_refl)|done]. Qed.

(** The prefixes whose two multiples are finite. *)
Definition inner (j : Z) : Prop := ~ Z.divide n256 j /\ ~ Z.divide n256 (j + 1).

Lemma inner_next j b : inner j -> ~ Z.divide n256 (2 * j + 1) -> inner (2 * j + Z.b2z b).
Proof.
  intros [H1 H2] H3. split; intros D; destruct b; cbn [Z.b2z] in D.
  - exact (H3 D).
  - apply H1, n256_odd_prime. rewrite Z.add_0_r in D. exact D.
  - apply H2, n256_odd_prime. replace (2 * (j + 1)) with (2 * j + 1 + 1) by lia. exact D.
  - apply H3. rewrite Z.add_0_r in D. exact D.
Qed.

(** Consecutive multiples, and the sum and the difference of the conjugate addition. *)
Lemma consecutive_apart j : ~ Z.divide n256 (2 * j + 1) -> M j <> M (j + 1) /\ M j <> w_opp (M (j + 1)).
Proof.
  intros H. rewrite <- M_opp. split; intros E%M_eq.
  - apply not_one. apply Z.divide_opp_r. replace (- (1)) with (j - (j + 1)) by lia. exact E.
  - apply H. replace (2 * j + 1) with (j - - (j + 1)) by lia. exact E.
Qed.

Lemma sum_apart j e : inner j -> e = 1 \/ e = -1 -> M (2 * j + 1) <> M e /\ M (2 * j + 1) <> w_opp (M e).
Proof.
  intros [H1 H2] He. rewrite <- M_opp. split; intros E%M_eq; destruct He as [-> | ->].
  - apply H1, n256_odd_prime. replace (2 * j) with (2 * j + 1 - 1) by lia. exact E.
  - apply H2, n256_odd_prime. replace (2 * (j + 1)) with (2 * j + 1 - -1) by lia. exact E.
  - apply H2, n256_odd_prime. replace (2 * (j + 1)) with (2 * j + 1 - - (1)) by lia. exact E.
  - apply H1, n256_odd_prime. replace (2 * j) with (2 * j + 1 - - (-1)) by lia. exact E.
Qed.

(** [nb] for a bit of the scalar. *)
Definition nb_of (b : bool) : nat := if b then 0%nat else 1%nat.

(** The conjugate addition leaves the sum 2 j + 1 and the difference plus or minus 1. *)
Lemma conjugate_step (b : bool) j R : ~ Z.divide n256 (2 * j + 1) -> pair_rep (M j) (M (j + 1)) R ->
  pair_rep (M (if b then 2 * j + 1 else -1)) (M (if b then 1 else 2 * j + 1)) (mult_addC (nb_of b) R curve_secp256r1).
Proof.
  intros H3 (z & p0 & p1 & HR). destruct (consecutive_apart j H3) as [N1 N2]. destruct b; cbn [nb_of].
  - pose proof (mult_addC_0 z p0 p1 _ _ R HR (M_on _) (M_on _) N1 N2) as H. rewrite <- M_opp, <- !M_add in H.
    replace (2 * j + 1) with (j + 1 + j) by lia. replace (M 1) with (M (j + 1 + - j)) by (f_equal; lia). exact H.
  - pose proof (mult_addC_1 z p0 p1 _ _ R HR (M_on _) (M_on _) N1 N2) as H. rewrite <- M_opp, <- !M_add in H.
    replace (2 * j + 1) with (j + (j + 1)) by lia. replace (M (-1)) with (M (j + - (j + 1))) by (f_equal; lia). exact H.
Qed.

(** The addition after it, with the z of its result. *)
Lemma addition_step (b : bool) j z p0 p1 R : inner j ->
  pair_at z p0 p1 (M (if b then 2 * j + 1 else -1)) (M (if b then 1 else 2 * j + 1)) R ->
  exists p0' p1', pair_at (z *f (if b then fst p1 -f fst p0 else fst p0 -f fst p1)) p0' p1'
    (M (2 * j + Z.b2z b)) (M (2 * j + Z.b2z b + 1)) (mult_add (nb_of b) R curve_secp256r1).
Proof.
  intros HI HR. destruct b; cbn [nb_of Z.b2z].
  - destruct (sum_apart j 1 HI (or_introl eq_refl)) as [N1 N2].
    pose proof (mult_add_0 z p0 p1 _ _ R HR (M_on _) (M_on _) N1 N2) as H. rewrite <- M_add in H. exact H.
  - destruct (sum_apart j (-1) HI (or_intror eq_refl)) as [N1 N2].
    pose proof (mult_add_1 z p0 p1 _ _ R HR (M_on _) (M_on _)) as H. rewrite <- M_add in H.
    rewrite Z.add_0_r. replace (2 * j + 1 + -1) with (2 * j) in H by lia. apply H; [congruence|].
    intros E. apply N2. rewrite E, (w_opp_opp prime_p256). reflexivity.
Qed.

Lemma ladder_step b j R : inner j -> ~ Z.divide n256 (2 * j + 1) -> pair_rep (M j) (M (j + 1)) R ->
  pair_rep (M (2 * j + Z.b2z b)) (M (2 * j + Z.b2z b + 1)) (mult_add (nb_of b) (mult_addC (nb_of b) R curve_secp256r1) curve_secp256r1).
Proof.
  intros HI H3 HR. destruct (conjugate_step b j R H3 HR) as (z & p0 & p1 & H).
  destruct (addition_step b j z p0 p1 _ HI H) as (p0' & p1' & H'). eexists _, _, _. exact H'.
Qed.

(** ** The loop *)

Variables (V : Z) (scalar : list Z).
Hypothesis HV : num 4 V scalar.
Local Notation K := (ladder_scalar V).
Lemma V_bound : 0 <= V < 2 ^ 256.
Proof. exact (num_bound 4 V scalar HV). Qed.

Lemma neg_bit_spec i : 0 <= i < 256 -> neg_bit scalar i = nb_of (Z.testbit K i).
Proof.
  intros Hi. unfold neg_bit. rewrite (vli_testBit_spec 4 V scalar i HV) by exact Hi.
  assert (E : Z.testbit K i = Z.testbit V i).
  { unfold ladder_scalar. rewrite <- (Z.mod_pow2_bits_low V 256), <- (Z.mod_pow2_bits_low (2 ^ 256 + V) 256) by lia. f_equal.
    replace (2 ^ 256 + V) with (V + 1 * 2 ^ 256) by lia. now rewrite Z_mod_plus_full. }
  rewrite E. now destruct (Z.testbit V i).
Qed.

Lemma prefix_step i : 0 <= i -> K / 2 ^ i = 2 * (K / 2 ^ (i + 1)) + Z.b2z (Z.testbit K i).
Proof. intros Hi. apply halve_bit. exact Hi. Qed.

Lemma prefix_top : K / 2 ^ 256 = 1.
Proof. pose proof V_bound. unfold ladder_scalar. symmetry. apply (Z.div_unique_pos _ _ 1 V); lia. Qed.

Lemma inner_1 : inner 1.
Proof. split; [exact not_one|]. intros H%Z.divide_pos_le; [destruct (H eq_refl)|done]. Qed.

Lemma ladder_loop R : pair_rep P (add256 P P) R -> forall t, (t <= 255)%nat ->
  (forall i, 256 - Z.of_nat t <= i < 256 -> ~ Z.divide n256 (2 * (K / 2 ^ (i + 1)) + 1)) ->
  let j := K / 2 ^ (256 - Z.of_nat t) in
  inner j /\ pair_rep (M j) (M (j + 1)) (for_ 0 t (fun s R =>
    let nb := neg_bit scalar (Z.of_nat (255 - 1 - s) + 1) in
    mult_add nb (mult_addC nb R curve_secp256r1) curve_secp256r1) R).
Proof.
  intros HR t Ht HK. induction t as [|t IH].
  - cbv zeta. rewrite for_nil by lia. change (256 - Z.of_nat 0) with 256. rewrite prefix_top. split; [exact inner_1|].
    rewrite (w_mul_1 aF), M_add, (w_mul_1 aF). exact HR.
  - destruct (IH ltac:(lia)) as [HI H]; [intros i Hi; apply HK; lia|]. rewrite for_last by lia. cbv zeta in *.
    set (i := 256 - Z.of_nat (S t)). replace (256 - Z.of_nat t) with (i + 1) in HI, H by lia.
    replace (Z.of_nat (255 - 1 - t) + 1) with i by lia. assert (Bi : 0 <= i < 256) by lia.
    rewrite neg_bit_spec by exact Bi. rewrite (prefix_step i) by lia. split.
    + apply inner_next; [exact HI|]. apply HK. lia.
    + apply ladder_step; [exact HI| |exact H]. apply HK. lia.
Qed.

(** ** The last step *)

Definition pair_fel (p0 p1 : F256 * F256) (R : list (list Z) * list (list Z)) : Prop :=
  exists X0 Y0 X1 Y1, R = ([X0; X1], [Y0; Y1]) /\ fel2 p0 (X0, Y0) /\ fel2 p1 (X1, Y1).

Lemma pair_at_fel z p0 p1 A0 A1 R : pair_at z p0 p1 A0 A1 R -> pair_fel p0 p1 R.
Proof. intros (_ & _ & H). exact H. Qed.

Lemma M_neg1 : M (-1) = w_opp P.
Proof. change (-1) with (- (1)). rewrite (M_opp 1), (w_mul_1 aF). reflexivity. Qed.

Lemma y_nonzero : y <> Zmod.zero.
Proof.
  intros E. assert (EP : M 1 = M (-1)).
  { rewrite M_neg1, (w_mul_1 aF). unfold P. rewrite E. cbn [w_opp]. do 2 f_equal. }
  apply M_eq in EP. change (1 - -1) with (2 * 1) in EP. apply n256_odd_prime in EP. exact (not_one EP).
Qed.

Hypothesis Nx : x <> Zmod.zero.

(** The final z, as the code computes it from the conjugate addition's results. *)
Definition final_zF (b : bool) (p0 p1 : F256 * F256) : F256 :=
  let '(X, Y) := if b then p1 else p0 in
  Zmod.inv ((fst p1 -f fst p0) *f Y *f x) *f y *f X.

Lemma final_zF_spec b j z p0 p1 R : inner j ->
  pair_at z p0 p1 (M (if b : bool then 2 * j + 1 else -1)) (M (if b then 1 else 2 * j + 1)) R ->
  final_zF b p0 p1 *f (z *f (if b then fst p1 -f fst p0 else fst p0 -f fst p1)) = Zmod.one.
Proof.
  intros HI (J0 & J1 & _). pose proof (proj1 J0) as Nz. pose proof y_nonzero as Ny. unfold final_zF. destruct p0 as [X0 Y0], p1 as [X1 Y1]. destruct b.
  - destruct (sum_apart j 1 HI (or_introl eq_refl)) as [N1 N2].
    destruct (pair_apart z X0 Y0 X1 Y1 _ _ J0 J1 (M_on _) (M_on _) N1 N2) as [_ ND].
    destruct J1 as (_ & u & v & E & EX). rewrite (w_mul_1 aF) in E. injection E as <- <-. injection EX as -> ->. cbn [fst snd] in *.
    exact (final_z prime_p256 x y z _ Nx Ny Nz ND).
  - destruct (sum_apart j (-1) HI (or_intror eq_refl)) as [N1 N2].
    assert (N1' : M (-1) <> M (2 * j + 1)) by congruence.
    assert (N2' : M (-1) <> w_opp (M (2 * j + 1))) by (intros E; apply N2; rewrite E, (w_opp_opp prime_p256); reflexivity).
    destruct (pair_apart z X0 Y0 X1 Y1 _ _ J0 J1 (M_on _) (M_on _) N1' N2') as [_ ND].
    destruct J0 as (_ & u & v & E & EX). rewrite M_neg1 in E. injection E as <- <-. injection EX as -> ->. cbn [fst snd] in *.
    rewrite <- (final_z_opp prime_p256 x y z (X1 -f x *f (z *f z)) Nx Ny Nz ND). do 2 f_equal. ring.
Qed.

(** The multiple, as the words of its coordinates. *)
Definition point_words (A : point256) (out : list Z) : Prop :=
  exists u v lx ly, A = Some (u, v) /\ fel u lx /\ fel v ly /\ out = lx ++ ly.

(** ** Pairs as field elements *)

Lemma mult_addC_fel b p0 p1 R : pair_fel p0 p1 R ->
  let o := if b : bool then coz_addc p1 p0 else coz_addc p0 p1 in
  pair_fel (if b then snd o else fst o) (if b then fst o else snd o) (mult_addC (nb_of b) R curve_secp256r1).
Proof.
  intros (X0 & Y0 & X1 & Y1 & -> & F0 & F1). destruct b; cbn [nb_of mult_addC]; buf_simpl.
  - pose proof (XYcZ_addC_spec _ _ _ _ _ _ F1 F0) as HF. destruct (XYcZ_addC _ _ _ _ _) as [[[Xa Ya] Xb] Yb]. destruct HF as [HF1 HF0].
    buf_simpl. exists Xb, Yb, Xa, Ya. auto.
  - pose proof (XYcZ_addC_spec _ _ _ _ _ _ F0 F1) as HF. destruct (XYcZ_addC _ _ _ _ _) as [[[Xa Ya] Xb] Yb]. destruct HF as [HF1 HF0].
    buf_simpl. exists Xa, Ya, Xb, Yb. auto.
Qed.

Lemma mult_add_fel b p0 p1 R : pair_fel p0 p1 R ->
  let o := if b : bool then coz_add p0 p1 else coz_add p1 p0 in
  pair_fel (if b then fst o else snd o) (if b then snd o else fst o) (mult_add (nb_of b) R curve_secp256r1).
Proof.
  intros (X0 & Y0 & X1 & Y1 & -> & F0 & F1). destruct b; cbn [nb_of mult_add]; buf_simpl.
  - pose proof (XYcZ_add_spec _ _ _ _ _ _ F0 F1) as HF. destruct (XYcZ_add _ _ _ _ _) as [[[Xa Ya] Xb] Yb]. destruct HF as [HF1 HF0].
    buf_simpl. exists Xa, Ya, Xb, Yb. auto.
  - pose proof (XYcZ_add_spec _ _ _ _ _ _ F1 F0) as HF. destruct (XYcZ_add _ _ _ _ _) as [[[Xa Ya] Xb] Yb]. destruct HF as [HF1 HF0].
    buf_simpl. exists Xb, Yb, Xa, Ya. auto.
Qed.

Local Notation O2 := (@Zmod.zero p256, @Zmod.zero p256).

Lemma opposite_pair j R : 2 * j + 1 = n256 -> pair_rep (M j) (M (j + 1)) R -> exists X Y, pair_fel (X, Y) (X, Zmod.opp Y) R.
Proof.
  intros Hj (z & [X Y] & [X' Y'] & HR). assert (E : M (j + 1) = w_opp (M j)).
  { rewrite <- M_opp. apply M_eq. exists 1. rewrite <- Hj. ring. }
  pose proof (pair_at_fel _ _ _ _ _ _ HR) as HF. destruct HR as (J0 & J1 & _). rewrite E in J1.
  destruct (jrep_opp prime_p256 z X Y X' Y' _ J0 J1) as [-> ->]. eauto.
Qed.

Lemma zero_step b X Y R : pair_fel (X, Y) (X, Zmod.opp Y) R -> exists e,
  pair_fel (if b : bool then (e *f e, e *f e *f e) else O2) (if b then O2 else (e *f e, e *f e *f e))
    (mult_add (nb_of b) (mult_addC (nb_of b) R curve_secp256r1) curve_secp256r1).
Proof.
  intros HR. pose proof (mult_addC_fel b _ _ R HR) as H1. cbv zeta in H1. set (R1 := mult_addC _ _ _) in *. clearbody R1. destruct b.
  - pose proof (coz_addc_opposite prime_p256 X (Zmod.opp Y)) as E. replace (Zmod.opp (Zmod.opp Y)) with Y in E by ring. cbv zeta in E. rewrite E in H1.
    cbn [fst snd] in H1. pose proof (mult_add_fel true _ _ _ H1) as H2. cbv zeta in H2. rewrite (coz_add_zero prime_p256) in H2. eexists. exact H2.
  - rewrite (coz_addc_opposite prime_p256 X Y) in H1. cbn [fst snd] in H1. pose proof (mult_add_fel false _ _ _ H1) as H2. cbv zeta in H2.
    rewrite (coz_add_zero prime_p256) in H2. eexists. exact H2.
Qed.

Lemma zero_conjugate b1 b0 e R : pair_fel (if b1 : bool then (e *f e, e *f e *f e) else O2) (if b1 then O2 else (e *f e, e *f e *f e)) R ->
  pair_fel O2 O2 (mult_addC (nb_of b0) R curve_secp256r1).
Proof.
  intros HR. pose proof (mult_addC_fel b0 _ _ R HR) as H. cbv zeta in H.
  destruct b1, b0; rewrite ?(coz_addc_zero_l prime_p256), ?(coz_addc_zero_r prime_p256) in H; exact H.
Qed.

Lemma zero_add (b : bool) : (if b then coz_add O2 O2 else coz_add O2 O2) = (O2, O2).
Proof. destruct b; cbn; f_equal; f_equal; ring. Qed.

Section Call.
Variables (point : list Z).
Hypothesis Hx : num 4 (Zmod.to_Z x) point.
Hypothesis Hy : num 4 (Zmod.to_Z y) (drop 4 point).

Lemma final_z_words b X0 Y0 X1 Y1 p0 p1 : fel2 p0 (X0, Y0) -> fel2 p1 (X1, Y1) ->
  let zeros := replicate uECC_MAX_WORDS 0 in
  let z := uECC_vli_modSub zeros X1 X0 secp256r1_p 4 in
  let z := uECC_vli_modMult_fast z z [Y0; Y1].[1 - nb_of b] data_secp256r1 in
  let z := uECC_vli_modMult_fast z z point data_secp256r1 in
  let z := uECC_vli_modInv z z secp256r1_p 4 in
  let z := uECC_vli_modMult_fast z z (drop 4 point) data_secp256r1 in
  fel (final_zF b p0 p1) (uECC_vli_modMult_fast z z [X0; X1].[1 - nb_of b] data_secp256r1).
Proof.
  destruct p0 as [x0 y0], p1 as [x1 y1]. intros [FX0 FY0] [FX1 FY1]. cbn [fst snd] in *. cbv zeta.
  set (z1 := uECC_vli_modSub _ X1 X0 _ _). assert (H1 : fel (x1 -f x0) z1) by (apply fel_sub; [reflexivity|assumption..]). clearbody z1.
  set (z2 := uECC_vli_modMult_fast z1 z1 _ _).
  assert (H2 : fel ((x1 -f x0) *f (if b then y1 else y0)) z2).
  { unfold z2. apply fel_mul; [now apply fel_length in H1|exact H1|]. destruct b; assumption. } clearbody z2.
  set (z3 := uECC_vli_modMult_fast z2 z2 _ _). assert (H3 : fel ((x1 -f x0) *f (if b then y1 else y0) *f x) z3).
  { apply fel_mul_num; [now apply fel_length in H2|apply H2|exact Hx]. } clearbody z3.
  set (z4 := uECC_vli_modInv z3 z3 _ _). assert (H4 : fel (Zmod.inv ((x1 -f x0) *f (if b then y1 else y0) *f x)) z4).
  { apply fel_inv; [now apply fel_length in H3|exact H3]. } clearbody z4.
  set (z5 := uECC_vli_modMult_fast z4 z4 _ _). assert (H5 : fel (Zmod.inv ((x1 -f x0) *f (if b then y1 else y0) *f x) *f y) z5).
  { apply fel_mul_num; [now apply fel_length in H4|apply H4|exact Hy]. } clearbody z5.
  unfold final_zF. destruct b; (apply fel_mul; [now apply fel_length in H5|exact H5|assumption]).
Qed.

(** The end of [EccPoint_mult], from the results of the last conjugate addition. *)
Lemma mult_tail b R p0 p1 q0 result : pair_fel p0 p1 R -> (exists q1, pair_fel q0 q1 (mult_add (nb_of b) R curve_secp256r1)) ->
  length result = 8%nat ->
  let zeros := replicate uECC_MAX_WORDS 0 in
  exists lx ly, fel2 (apply_zF (final_zF b p0 p1) q0) (lx, ly) /\
  (let '(Rx, Ry) := R in
   let z := uECC_vli_modSub zeros Rx.[1] Rx.[0] secp256r1_p 4 in
   let z := uECC_vli_modMult_fast z z Ry.[1 - nb_of b] data_secp256r1 in
   let z := uECC_vli_modMult_fast z z point data_secp256r1 in
   let z := uECC_vli_modInv z z secp256r1_p 4 in
   let z := uECC_vli_modMult_fast z z (drop 4 point) data_secp256r1 in
   let z := uECC_vli_modMult_fast z z Rx.[1 - nb_of b] data_secp256r1 in
   let '(Rx, Ry) := mult_add (nb_of b) (Rx, Ry) curve_secp256r1 in
   let '(X0, Y0) := apply_z Rx.[0] Ry.[0] z curve_secp256r1 in
   let result := uECC_vli_set result X0 4 in
   at_off result 4 (fun r => uECC_vli_set r Y0 4)) = lx ++ ly.
Proof.
  intros (X0 & Y0 & X1 & Y1 & -> & F0 & F1) (q1 & X0' & Y0' & X1' & Y1' & E & F0' & _) Lr zeros. cbv zeta.
  pose proof (final_z_words b X0 Y0 X1 Y1 p0 p1 F0 F1) as HF. cbv zeta in HF. fold zeros in HF.
  change ([X0; X1].[1]) with X1. change ([X0; X1].[0]) with X0. set (w := uECC_vli_modMult_fast _ _ ([X0; X1].[_]) _) in *. clearbody w.
  rewrite E. buf_simpl. pose proof (apply_z_spec X0' Y0' w q0 _ F0' HF) as HZ'.
  destruct (apply_z X0' Y0' w curve_secp256r1) as [Xr Yr]. exists Xr, Yr. split; [exact HZ'|]. destruct HZ' as [HXr HYr]. cbn [fst snd] in HXr, HYr.
  unfold at_off. rewrite vli_set_spec by (rewrite ?(fel_length _ _ HXr); lia). rewrite (take_ge Xr), take_app_length', drop_app_length' by (rewrite (fel_length _ _ HXr); lia).
  rewrite vli_set_spec by (rewrite ?length_drop, ?(fel_length _ _ HYr); lia). rewrite (take_ge Yr) by (rewrite (fel_length _ _ HYr); lia).
  rewrite drop_drop, drop_ge, app_nil_r by lia. reflexivity.
Qed.

Section Start.
Variables (result : list Z) (initial_Z : option (list Z)) (z : F256).
Hypothesis Lr : length result = 8%nat.
Hypothesis HZ : match initial_Z with Some l => fel z l | None => z = Zmod.one end.
Hypothesis Nz : z <> Zmod.zero.

Lemma mult_start : let zeros := replicate uECC_MAX_WORDS 0 in
  let '(Rx1, Ry1, Rx0, Ry0) := XYcZ_initial_double (uECC_vli_set zeros point 4) (uECC_vli_set zeros (drop 4 point) 4) zeros zeros
    initial_Z curve_secp256r1 in
  pair_rep P (add256 P P) ([Rx0; Rx1], [Ry0; Ry1]).
Proof.
  intros zeros. apply (initial_double_spec _ _ zeros zeros x y z initial_Z); try assumption; try reflexivity; [|exact y_nonzero].
  split; (apply fel_set_num; [reflexivity|assumption]).
Qed.

Lemma EccPoint_mult_spec : regular K -> point_words (M K) (EccPoint_mult result point scalar initial_Z 257 curve_secp256r1).
Proof.
  intros HK. unfold EccPoint_mult. curve_simpl. cbv zeta. pose proof mult_start as HI. cbv zeta in HI. set (zeros := replicate uECC_MAX_WORDS 0) in *.
  destruct (XYcZ_initial_double _ _ _ _ _ _) as [[[Rx1 Ry1] Rx0] Ry0].
  change (Z.to_nat (257 - 2)) with 255%nat. unfold for_down.
  destruct (ladder_loop _ HI 255 (le_n _)) as [Hin HL]; [intros i Hi; apply HK; lia|]. cbv zeta in HL. set (R := for_ 0 255 _ _) in *. clearbody R. clear HI.
  change (256 - Z.of_nat 255) with (0 + 1) in *. set (j := K / 2 ^ (0 + 1)) in *.
  assert (H3 : ~ Z.divide n256 (2 * j + 1)) by (apply (HK 0); lia).
  rewrite neg_bit_spec by lia. pose proof (prefix_step 0 ltac:(lia)) as EK. change (2 ^ 0) with 1 in EK. rewrite Z.div_1_r in EK. fold j in EK.
  set (b := Z.testbit K 0) in *. clearbody b. destruct (conjugate_step b j R H3 HL) as (z1 & p0 & p1 & HC).
  destruct (addition_step b j z1 p0 p1 _ Hin HC) as (p0' & p1' & HA). pose proof (final_zF_spec b j z1 p0 p1 _ Hin HC) as HW.
  destruct (mult_tail b _ p0 p1 p0' result (pair_at_fel _ _ _ _ _ _ HC) (ex_intro _ p1' (pair_at_fel _ _ _ _ _ _ HA)) Lr) as (lx & ly & FW & EW).
  destruct (mult_addC (nb_of b) R curve_secp256r1) as [Rx Ry]. fold zeros in EW. cbv zeta in EW. rewrite EW.
  rewrite <- EK in HA. destruct (apply_z_affine prime_p256 _ _ _ _ (proj1 HA) (or_introl HW)) as (u & v & EM & EA). rewrite EA, HW in FW.
  exists u, v, lx, ly. split; [exact EM|]. split; [apply FW|]. split; [|reflexivity]. apply (fel_eq _ _ _ (proj2 FW)). cbn [snd]. ring.
Qed.

(** ** The scalars that are not regular

    When 2 j + 1 is the order before the last two bits, the multiples are
    opposite; the additions turn them into zeros, which stay. *)

Lemma EccPoint_mult_irregular : 2 * (K / 2 ^ 2) + 1 = n256 ->
  (forall i, 2 <= i < 256 -> ~ Z.divide n256 (2 * (K / 2 ^ (i + 1)) + 1)) ->
  exists lx ly, fel2 (Zmod.zero, Zmod.zero) (lx, ly) /\ EccPoint_mult result point scalar initial_Z 257 curve_secp256r1 = lx ++ ly.
Proof.
  intros Hj HK. unfold EccPoint_mult. curve_simpl. cbv zeta. pose proof mult_start as HI. cbv zeta in HI. set (zeros := replicate uECC_MAX_WORDS 0) in *.
  destruct (XYcZ_initial_double _ _ _ _ _ _) as [[[Rx1 Ry1] Rx0] Ry0].
  change (Z.to_nat (257 - 2)) with 255%nat. unfold for_down. rewrite (for_last 0 254) by lia.
  destruct (ladder_loop _ HI 254 ltac:(lia)) as [_ HL]; [intros i Hi; apply HK; lia|]. cbv zeta in HL. set (R := for_ 0 254 _ _) in *. clearbody R. clear HI.
  change (256 - Z.of_nat 254) with 2 in HL. set (j := K / 2 ^ 2) in *. change (Z.of_nat (255 - 1 - 254) + 1) with 1.
  rewrite (neg_bit_spec 1), (neg_bit_spec 0) by lia. set (b1 := Z.testbit K 1). set (b0 := Z.testbit K 0). clearbody b1 b0.
  destruct (opposite_pair j R Hj HL) as (X & Y & HR). destruct (zero_step b1 X Y R HR) as (e & H1).
  lazymatch type of H1 with pair_fel _ _ ?r => set (R1 := r) in * end. clearbody R1. pose proof (zero_conjugate b1 b0 e R1 H1) as H2.
  destruct (mult_tail b0 _ _ _ (Zmod.zero, Zmod.zero) result H2) as (lx & ly & FW & EW); [|exact Lr|].
  { exists (Zmod.zero, Zmod.zero). pose proof (mult_add_fel b0 _ _ _ H2) as H3. rewrite zero_add in H3. cbn [fst snd] in H3. now destruct b0. }
  destruct (mult_addC (nb_of b0) R1 curve_secp256r1) as [Rx Ry]. fold zeros in EW. cbv zeta in EW. exists lx, ly. split; [|exact EW].
  destruct FW as [FX FY]. split; [apply (fel_eq _ _ _ FX)|apply (fel_eq _ _ _ FY)]; cbn; ring.
Qed.

(** ** The points with abscissa 0

    The final z has the inverse of the abscissa as a factor, and 0 has the
    inverse 0: the multiple comes out as the pair of zeros. *)

Lemma final_zF_zero b p0 p1 : x = Zmod.zero -> final_zF b p0 p1 = Zmod.zero.
Proof.
  intros E. unfold final_zF. destruct (if b then p1 else p0) as [X Y]. rewrite E, Zmod.mul_0_r, Zmod.inv_0, !Zmod.mul_0_l. reflexivity.
Qed.

Lemma EccPoint_mult_zero : x = Zmod.zero -> regular K ->
  exists lx ly, fel2 (Zmod.zero, Zmod.zero) (lx, ly) /\ EccPoint_mult result point scalar initial_Z 257 curve_secp256r1 = lx ++ ly.
Proof.
  intros E0 HK. unfold EccPoint_mult. curve_simpl. cbv zeta. pose proof mult_start as HI. cbv zeta in HI. set (zeros := replicate uECC_MAX_WORDS 0) in *.
  destruct (XYcZ_initial_double _ _ _ _ _ _) as [[[Rx1 Ry1] Rx0] Ry0].
  change (Z.to_nat (257 - 2)) with 255%nat. unfold for_down.
  destruct (ladder_loop _ HI 255 (le_n _)) as [_ (z1 & p0 & p1 & HL)]; [intros i Hi; apply HK; lia|]. set (R := for_ 0 255 _ _) in *. clearbody R. clear HI.
  rewrite neg_bit_spec by lia. set (b := Z.testbit K 0) in *. clearbody b.
  pose proof (mult_addC_fel b _ _ R (pair_at_fel _ _ _ _ _ _ HL)) as HC. cbv zeta in HC.
  lazymatch type of HC with pair_fel ?u ?v _ => set (q0 := u) in *; set (q1 := v) in * end. clearbody q0 q1.
  pose proof (mult_add_fel b q0 q1 _ HC) as HA. cbv zeta in HA.
  lazymatch type of HA with pair_fel ?u ?v _ => set (r0 := u) in *; set (r1 := v) in * end. clearbody r0 r1.
  destruct (mult_tail b _ q0 q1 r0 result HC (ex_intro _ r1 HA) Lr) as (lx & ly & FW & EW). rewrite (final_zF_zero _ _ _ E0) in FW.
  destruct (mult_addC (nb_of b) R curve_secp256r1) as [Rx Ry]. fold zeros in EW. cbv zeta in EW. exists lx, ly. split; [|exact EW].
  destruct r0 as [u v]. destruct FW as [FX FY]. split; [apply (fel_eq _ _ _ FX)|apply (fel_eq _ _ _ FY)]; cbn; ring.
Qed.

End Start.
End Call.
End Ladder.
