(* ===== verification/BaseOrder.v ===== *)
(** * BaseOrder: the order of the base point of P-256

    n times the base point is the point at infinity: a chain of doublings and
    additions of the base point, with the slope of each line given, leads from
    it to its opposite, which is n - 1 times it. *)

From stdpp Require Import base list numbers.
From Stdlib Require Import ZArith Lia Zmod ZmodInv Zdivisibility.
From S2P Require Import UECC UECCVli UECCField Prime256 Edwards Weierstrass Jacobian UECCPoints.

Local Open Scope Z_scope.

(** ** The base point *)

Definition gx : Z := Eval vm_compute in vval (take 4 UECC.secp256r1_G).
Definition gy : Z := Eval vm_compute in vval (drop 4 UECC.secp256r1_G).

Definition G256 : point256 := Some (of256 gx, of256 gy).

(** ** Chains *)

(** Double; double and add, or subtract, the base point: with the slopes. *)
Inductive chain_op : Type :=
| Dbl (l : Z)
| DblAdd (l m : Z)
| DblSub (l m : Z).

Definition third_Z (l x1 y1 x2 : Z) : Z * Z :=
  let x3 := (l * l - x1 - x2) mod p256 in (x3, (l * (x1 - x3) - y1) mod p256).

Definition double_Z (l : Z) '((k, (x, y)) : Z * (Z * Z)) : option (Z * (Z * Z)) :=
  if (y mod p256 =? 0) || negb ((2 * y * l - 3 * (x * x) + 3) mod p256 =? 0) then None
  else Some (2 * k, third_Z l x y x).

Definition add_Z (e l : Z) '((k, (x, y)) : Z * (Z * Z)) : option (Z * (Z * Z)) :=
  if ((gx - x) mod p256 =? 0) || negb ((e * gy - y - l * (gx - x)) mod p256 =? 0) then None
  else Some (k + e, third_Z l x y gx).

Definition op_Z (o : chain_op) (s : Z * (Z * Z)) : option (Z * (Z * Z)) :=
  match o with
  | Dbl l => double_Z l s
  | DblAdd l m => double_Z l s ≫= add_Z 1 m
  | DblSub l m => double_Z l s ≫= add_Z (-1) m
  end.

Fixpoint run_chain (ops : list chain_op) (s : Z * (Z * Z)) : option (Z * (Z * Z)) :=
  match ops with
  | [] => Some s
  | o :: ops => op_Z o s ≫= run_chain ops
  end.

Definition base_chain : list chain_op :=
  [Dbl 0xa249bcb3191802d3cb56fc75a8731f848e7b2caf080f3477a4e4d904a671af9d;
   Dbl 0xc2489a9eef61dfa06d3741ff3b405300988bd0db42a937859069b9cefb576e35;
   Dbl 0x3d3f7094389059fb29d62c12aea203c23c53ca0f84ba9265d34346d498d0ce10;
   Dbl 0x6fa44fab12ab52ac931dd31283af3f747d8609c5f053383c43a73240f7256e8a;
   Dbl 0xe9a817f547273aa32a7361a18e9620f2b838a409be826cf083fed49b3c858688;
   Dbl 0xcbf7b81fbdea68d4221b26a8e5a24b1cb5e9aaad01ecd82899cd638e1942f764;
   Dbl 0xfc4b4bd92566c2ad98242459501cf92d7207904e764ab66789942b0325b9a3e8;
   Dbl 0x93fe002b120dc226d15b0f98b056d3392bfd56b35499e60a5f7ad1ff70675535;
   Dbl 0x59faa582c6b4f84cf05a7f0a2f866f67a3845d45e19ba871c83298597acc6389;
   Dbl 0xd2b8741587a7b2e52655fc308e92e0b0e32ee6e6b41d84eb93aab4a3a4141961;
   Dbl 0x1c063129ba7b4a48b2e70f43844011c46be00e0e9073b990aa60efa9cee08d40;
   Dbl 0xa2e3cb03c0248e9badcbbcc1c7028566de6e61b104009831a5104754ca52749d;
   Dbl 0x960ff72703b0a682d458e8c237f82e7c160c43f0388887300239f5caf2144511;
   Dbl 0x928ac84a888eeece1f740cddb2fe2c3ad23b782d364f2f64e69fb00ff124a44a;
   Dbl 0x2f62106edd7774f71f1f577bb87c80a69291fa99d469a7d590bb7efe497f0e98;
   Dbl 0xdff9619f1fed418640882fc607fbef4ab0b4bb2ee9eb5ea61d7f347eaadfeb72;
   Dbl 0x2bb34155d1c3e85258cd7587c389773ca8761dc07d32d1bc095f476c05a7c13e;
   Dbl 0xedfc2e37fb69a62e021b6261a99df3018dc9eee2e4229d1cbff1ba56b4f8e3d6;
   Dbl 0xb79e006a59b12e979226f397f11da4e07f4c0c6e00d804571e0be779c48ea25c;
   Dbl 0x45fc98da6728684cf421d291dbdaa5438a2bbde9eedf856c54e1d2577a0d15a;
   Dbl 0x3f71d35f5943c9d82c6297d4739ca141ce18dd97535b82f9b6cbf6a3a3bc338f;
   Dbl 0xb063b021ea8c4d521a86be70cefe8cfca350e9ba8c166c8838fe6446dfaba3e7;
   Dbl 0xc96ce208d5d84115b06c8101fbdfc996fc19127fb826057aa9a56a342393343f;
   Dbl 0x58cc0685f3b5bd459e0a56513cc139f2ef4c79222658880c7b9e910437232a37;
   Dbl 0xc714a5ff1e67f35e138db56e27766a8f370df7a9aac6afe2a684adb2f9318a34;
   Dbl 0x244464508464873517783cc6e016573c75cc1d40a0821ca2006ccaba14e5ae68;
   Dbl 0x19942949a63311386dd5eb50ae3bd81d89fda56a29528618285086a145bbc75c;
   Dbl 0x89fcec8c449f2a8727481510ba958d286a3ed95b2b77e593d4a8e3bc100d5f1f;
   Dbl 0xf6c406113ca7142ab7578bbd87c1fcac561785320d44621ae23c0bec57db9931;
   Dbl 0x1c544e23cefcf6bdc7e2661841017cf1352b6cdad766837a00109b5b701a002a;
   Dbl 0xe7af93b02913d49f7ff08817eb8b2a9186ce83f590aacc4a439598e38234c827;
   DblSub 0xe353b7ead6b8630cc720fc9e590a4b3bfde6404ec154ad7d5f0e3fc795fe64a8 0x69f17b1d38890b71161e936f785871f30e6e559941dffb77232c79d5399a6f6;
   Dbl 0xe7289190fbb5a7d7d62b51d40f3571670d41439c83a980a6ebf0c77129c5ea30;
   Dbl 0xc0c0f69007425dc498074987e7b1b2cc32e5edf753f84c8d1e31e83a7f4c1fef;
   Dbl 0xe2266a64fc9e96910bfcc391499f69e6e3862cdee724bf5f53e52619a78d636b;
   Dbl 0xf7be988964ec4116f418581f98955a9ca415e34883c7a464aefb4b965b9e49f7;
   Dbl 0x4eb34c79827117c2632524e9f4d02fecf1eede4cdbedd17bc9b364e5ee04dd99;
   Dbl 0x53b963e0e2a551f86b7527b4da6ce25b70cc5b23592b9b7b4a6768e1eb9eab20;
   Dbl 0xb8f8d77f98b07b91a739fe888ef94517d1e11ec5ae46114d5d9fcc91b1494e2f;
   Dbl 0x856480bf6645295b7cc166fcbf9ccb4213ca02b689e6a51515b002a54653b436;
   Dbl 0xe5bd602b7c75efe5dd4bfee34f6d5f15c12502dc3d6a454e8416bf7262efd14d;
   Dbl 0x901938d044075d035fec1e3dcc28585a76a2c4f101473d40d33faf2d07a666ef;
   Dbl 0x225568746c8026c61a929d9ee21cc8b663b8b70852d3eab403172b36db27773a;
   Dbl 0x730e7f0e730508b34af19c004afc304711f461a3ad85aa214506bbb2d38216bc;
   Dbl 0x61bcdb4b66643b59a748a3260de0d150ba66d53835998a7618465429d353b8bc;
   Dbl 0xc9651e62d6774d6d434978a729e20c44dbdf244c051785d459e9d397faf72d77;
   Dbl 0xd5c0e76343a81b2fccebfe410ee5f059d6813035f76b381d8a4c32004e356535;
   Dbl 0x33ca08f7f6caf3b2bc2dd0597e53765ce9a3a459a2d6ec8c14fd62b9829c8036;
   Dbl 0xe3d88474bf049aa8c92e117118d8ae2192be22c3afc88bbb6d45984b246b29a7;
   Dbl 0x48e767de0f22738d95a0cde900e2811f059cc9b0b4d8f7c6662c971f6dd8540e;
   Dbl 0x40ce2d624ccbdda2181d7203eceba6f86c74ffecf1099f60709afd4e366ad7fc;
   Dbl 0x7ca5a95dbd0f238188c92bc10fe3120ca5cdc8c94f5543f619e7b4a285fac63;
   Dbl 0x1695cb9add979f9b44bba53cddc3af6ec9a9ada1fcecce7cc21c53ebfe9bf13f;
   Dbl 0xb52ef301be713cd3721fb2eb26e9651c62dbd5611dbf05a2a082290ba0205c5b;
   Dbl 0x477a8d7b28feffaee439432c1cb34e620d2b28f77d7a02dd8f8b7b25da055f0a;
   Dbl 0x3df23d02be64203da86b3586f55929b44d3b721a7d42d1f74c2790f568dedb19;
   Dbl 0xc4edab784cc66e9dc3ddc0a1bb35098abbebb6da1bd0379f4f35495b1810da1b;
   Dbl 0x88fd5e6ed410c082c3ce11a91fb70b3f67e4a7765d05e18d7f947b38ca97f419;
   Dbl 0xf20a57ee70df07d6ce91f0bd0a46160e3a6c07e71c958c66141e21069158d350;
   Dbl 0xf1fbc80729ab01a5ccb119d4f3c345cb8f969116d59a28f5bc535098ecc8e08c;
   Dbl 0xb6f56f88616f73e59cd055fedf26a4e7e9b7d3805a7210f8280ce5f968813bdb;
   Dbl 0x95293b8c9d1b7cbee1c6a40dddbfa08124cd4c445226188841a5ce723091ed70;
   Dbl 0x5fc30199770d63f9306b8eb5b70c590e7a78844d7f32b7599bffe25242913afc;
   DblAdd 0xe6f5915845524817c9b060c18d8b717cac8fca080e26cbcd288bf75a7faab605 0x6ff87c4d20eb575c61afe131e9ca41e649c11844767ade32265ee0d691fca701;
   Dbl 0xc8c05126f210e5ac3b2e06f9445780c7483f1f68c8066e1cdade66342d681731;
   Dbl 0xaba2e0cd638f25c821212dae55f48218b83662612099000031da86dc1c3ff004;
   Dbl 0xc4b5e18b28c6a61547dd3f01eb1f9a17a8dfb6f78d17c1e6577fbd9aceb589;
   Dbl 0x6f2855c180af082979aea4e86420b127b1161f2f3834138e8ff6965eccd7cea6;
   Dbl 0x6d6d505a36e2e7ab1552a9f257f30a5217baf8581bf1afd0db3e120234a41394;
   Dbl 0xd8d6e38d9d432ffb72ab57725ba7b3709d7a72f3b00ef74f6808cd7e7c2057db;
   Dbl 0x7839685e3b1710944770f3dde006bdcfeb593e07e9d906f999c4bc6a5d471d1c;
   Dbl 0x5a63731c3530d5689d028d4389fceab8dcb7913198edcb70d54afd32a3998a5c;
   Dbl 0x5f0746e3249f77a6c0f353fb7921586053340458cd476f05c3c73846dd2df25b;
   Dbl 0x3426eb5453959b33d60a25ea4bb6ac7119c73426243e5747a3b1a00edcc69e9b;
   Dbl 0x5f26b7ffd19fb2190ab8d9a5b0e28d140608d2c726f36eb3675fc16178456157;
   Dbl 0x8a35f537f0f4cd77efa66b95d0c488491921725f2f3af70e2debdbc0b57f5bca;
   Dbl 0x9c98b2d4ffe66ed507d394aac70806a5ae617c41aff6a55a8af84fbc43a5dc8;
   Dbl 0xf0bbc9d46a45e65178a790836b90227d984a59e17c96875e1b0cfe764f78b95f;
   Dbl 0x3f0e4d74ad29a313ed4d3f32206cf2702b6c37b35c1f8fa0c820f147f780be74;
   Dbl 0x3fc402de064323959f37290378c396b57f37ade8898957cbf9dcc1aaad4c2201;
   Dbl 0x8f4bcfe22068ddd31ab5815386dd44acd48226df8d5b8203528c0b0dd5d5b42a;
   Dbl 0x4412e3fae69f1c831c33f495810c93f5c79425437ddbf83f3ddbf01eb8dcd15d;
   Dbl 0xaa436c0918fb7e5399db07bffaa2ba11c9317b1773731b942bfc99a99c781b51;
   Dbl 0x710d2cfebc880bfb929ed48b1e6216ee1905e373c2bebdc88fc132126bb1171f;
   Dbl 0xdfb76d4678e8d1a6204a65cc56557ea03fc4b7a1a19b9c36a16d76e2f3c0331f;
   Dbl 0xe057424a2439be06fe809e18450c785aa452e42a6512e71a1f789dc8cb99379d;
   Dbl 0xca8ddcce6399df139cd1fa6e25a9b37309badab54d8e860ab02c05475fb31711;
   Dbl 0x744e3d567b6492c41d88350b331250e63d1f1033409481cfad084ab38325d7b8;
   Dbl 0x2ad14b226204ea3e2e6675b10251d894d8b94a2e6e37854e1426f330b19013f7;
   Dbl 0x4d18fc51db456dcb1777a095c491f770a5bf1e2b284abeda384ac93c62dc19eb;
   Dbl 0xddb54f93c91ef6f425a3f002d39d5614f545b482c582deccbd61da7aceec7272;
   Dbl 0xdf3721981c40f7e752ade7577d5ad3c059039724aca4842100933ba835809903;
   Dbl 0x2e66da5cd594372587952a453715d89703f6cdc0771764a32656ba172f1a108f;
   Dbl 0x6b1509fd5faa51d7276ca18752cb78f5318b3830db96f8be5ff60fdb9157589c;
   Dbl 0xc1b0b9ed9de010ed00d97013814a531d0fc77c1840a7b19aa0841c8cda594699;
   Dbl 0xc2ee99012a740e84052e865f33d3110e9cd383b18abf5d18b30a287bea6c065a;
   Dbl 0xf5d559eb2562f066aad3a948347f6ca232be32862e90a055ee1bb74490142c3a;
   Dbl 0x3a170b35d81701aa904b0883d669d3b4ad494dd2720a8b9070d24057aa2195da;
   Dbl 0x34716a27aef726c461f71c4c9498f25d0ace1de68c852de77677816fa2b4ffda;
   Dbl 0x7f0f1191a73bb7f2bc8537e1f6d9b0dab3138ec933019f8a3e8f58c501c38862;
   Dbl 0xef884e9262cb17dab5de3cfdb30b3ec98157910d49d6f8c884b4ee55a475849c;
   Dbl 0xdc00183f5144f7bb77b62e0cdbb32980488c523cd540e08c5a4ca9f94ecddd85;
   Dbl 0xff5ed67a7b88772b5a12abde3559cdfc65bd1644b9f8d39b2234d47c3f98e647;
   Dbl 0x831d55af0cd9d778ae74a57a101f39a91a991c641d718696641542ffe094adb4;
   Dbl 0x4d80feec84f2f1f45e8d2e6532c8b02fe1401173e12aefba1171a42300565009;
   Dbl 0xdaa5e843944273a1b96ff0fa22ef08dae093f9ee72d3a8a5d4d659fbd1ad45d4;
   Dbl 0x5b21e7fa6587358f4a0719b7f24a0be632a0c4926147f67a6b964359bd9b1426;
   Dbl 0x8173b5515b18f456c36d07a589d0809b78057d35363b00fbe45be2c058ddfc01;
   Dbl 0x4120ee45f0dfbffc5406f318ffb6992a6d5fd742d30354e96dc60da44d0ebf5d;
   Dbl 0x1139097d931db542104c09c5dd572dd846ed6e13fff8713f446eb978518dd588;
   Dbl 0x47056b6840ac33347b2f11cf8d35ffdb0e1a2b43c465e485071ba0206c46f3a2;
   Dbl 0x9fb98acc9585b373c8a90ec8524baded69ceb436cb0791bf8969ac3fe4628deb;
   Dbl 0x89b1463a1befd83c14ced75e01358695401389e53ae8ae55863db8cb7dd6a47b;
   Dbl 0xe19f1a7e5853ff6c51e5a935fb01665a29a3f474ce6354382056553577c560be;
   Dbl 0x987f13515ecdda315424c5dab8f71290f34f338d008df6e4ed5289afab30b7fb;
   Dbl 0xe28a5738d81eed433a6faca9c96b9c56216b4e8a6cf2eadb366710a4e02f2ec5;
   Dbl 0x57329a53b80b26a25567325516b703bbf98edc4fd1c413a46f922d9a7e33d1f0;
   Dbl 0x31f4642ea5dcd28766551a9afbfb9808b6c2b7092ba9d93b89f08f4559ce5bc8;
   Dbl 0x60835709c1e53090a3e88139238956acbed1d747b6b5191f37088858a778063c;
   Dbl 0x24b605a8127cd0ba15669a0685e90c4492929bd4bd7e85379fd0cfb7537ce808;
   Dbl 0xe13682b309f8cb0691ef7388591660292c8a5a5affdb52650c5a712a43b864d0;
   Dbl 0x71ae07f07c9178adc4e8b1b9bbc13f80834b46598a8f2f105c544263ed6c5f62;
   Dbl 0x715b7e81ce4236f5ef4837b4b86e13d1a9b57437818b6aab8ae55ed9f3297408;
   Dbl 0x547ae472aa91fc803de755e3e1f408d44ce30b5ec0e6d9a4247cf83701db7d68;
   Dbl 0x3df3e6b77a4431723a77d513db2a5789242848efec7686876fef2ca6385ef625;
   Dbl 0xf495f958ef16be4ac876c8b1254a767b14fd376816faadf6241fd68cdcda5c45;
   Dbl 0xb7fb27bdde87ff61b2afd9bbd0930767cbc1cd4f403a9dac55450d80f5b7aa7b;
   Dbl 0xc45ad7c85fa6a58b7d12729bdfae488ba64087dab9669071ed1a32bb519126ac;
   Dbl 0xf3053226903bb6dacfc2acd5102bdc7183bf033d615613a3ac1eda74b6a260c3;
   DblSub 0x31f3958d0f3dbd7bed040cf4cce518631539eaada6d39faf18c4f5491428096 0xb97bcbf7aedf4947885841a27a61cb41cb81d48d2951362ae4211da362d49c0c;
   Dbl 0x680225869b890aaa7fade33f923a1dae04d82efc3010f0bbdf1abccd22dad2f6;
   Dbl 0xc013308a652d79ae6cb3bc05ab034834341e5c8606b5f7de83046bb0719fbf74;
   Dbl 0x2f4d9cf0ce71c87cb54553acabd9fb072ed4f211cfe1e6451735b1e58f3bdd64;
   DblSub 0xc93a881b0672ffb3fc7284049dc7ad842a3b5b17ac88e348306823ac9d78fd33 0xce5b3a57f73d725eea0b164122f890acab27c67234b204b3d15474d2e06ed38;
   Dbl 0x674be996a79b1ffa91230f8457289247595753941f964900da839dfeaa64d097;
   DblAdd 0xee5e7e6600de627f082365e48c6f6688ca2c9ead6d077753c293089bd937b41e 0x373d4c333ce2ceeed8bfb1c5c322c1643ee0622651b5110f03a3d647da8f469e;
   Dbl 0x9c51917ebf299f889a4a60b8fbe795bd7e95b1e228af3fd9f4b02543f26861be;
   Dbl 0xb9ae35e128e79b0fb8380b9f2479bc17ef6b7a7f20b6d197d2c8bcc0e99b7806;
   DblSub 0xa27c68f4b474e31e759b15cc347692181895b9fa84e85a91b39cc301a685deae 0xe780342a011707273edb3254ef9b1bc892845f587efc57ac5d77f0c62873947;
   Dbl 0xaf4aebf985cfa16ba0a6d619d9a6e023514f5bb08c62d76b0420577c88407f52;
   DblAdd 0xad5555a05bce9b2281eabcab4e0aaaf83beca658b0c6b730bf3e204f948e8da0 0xb243199fe49f5c091f241dd5f73074d6f9defcbf4f4c92720719ed4f8bc9c6a;
   Dbl 0x4f9b3dcba0acf0c1d8abffbcefb58ed9f156172e5cfbca860d1269d97086babe;
   Dbl 0x6dea7184272f86133d335e471117e0d969d6372b15bf0842745292bd7c605513;
   DblSub 0xa2ef83f07ba7f08de49ff3f13e7b737dbba4d9dcda145e03a91454516046ddba 0x96bb79865975b582b7f5c69ce6e4c6e61981dea2dd72bf2a9dd4fe6f19602d95;
   Dbl 0x5c5bca7884fb48cd2047ebd2f3775e188741ddd03981d460b046946c7c38a40;
   Dbl 0xfde6f471b8bf1468f3ef182ed4ba9cba68f628abe10add4d3a3c85f3a054ce8c;
   Dbl 0xac8641eb2e98c496715985c39d898462a9ab59308e4c41b6cc0cd288ef139f2e;
   Dbl 0xa8a36021ce348096cf87a37cef42efbece54c0aba78dffcc039366bc31b92e9a;
   Dbl 0xf9aff106e25d2c8ecc87ba590eac4b975ad6e6162db71c2402d1c26d8220923a;
   DblSub 0x4cd7a986012b570b6caa53613e566d02b2400633c1e50e38aae7b261f36c37e0 0xc096c06fbc4b3b55209f7c34c9071fc6325c997b22b7de7eb9f5381efd6e4063;
   Dbl 0xf0220ef4c024c40dd8d00b572d94878d2cd3ad5f95d68d4a4af8f6faf75a724b;
   DblSub 0xe4922d5846656857c33bd1c038c9a3ffe346ad01fbd9af8f05832fface530157 0x7202c7affc7a50bd711145abf2fa229cfb4fdbda1d739a1de9c41cffd56e1d91;
   Dbl 0xd57c3228383fee3bd35d0e7e333622b0b4d3bdcb8adb02d46115c5f1700bab27;
   DblSub 0x7fb02d5ad6b5769931f71f77184dbf760e8efe1d2218b3c9bed2e38f2a20d744 0x9c79847a323c07fef93227cc226f7dbe65faf0fa1d91ff0cb47026b0d968576b;
   Dbl 0xd7cd460258dbe17f6fafb7235f8b793160e6dc23d1b81ffc9b5ce47c76825e8;
   DblSub 0xd60ceab94be498101daac78a48bb92f6819a557da91ee10bfb44c7cc1bc5b148 0xaa00181ea0a7d6c2b8d6504496d275de8e9e35a851015839b5a886780f457f06;
   Dbl 0xeaebe2565498e786f845ee6d0ec7dd6e79bcf4df8b62e0004c5c1b46c5808850;
   Dbl 0x9961ea94f4a8698e7727df90818947886e5e631e5fbc7bc11129c4c7c12eeb59;
   DblSub 0xb32d34e92e8d64a5cea57e780479690f4c41f4cf32cff51dbb23909133be787a 0xb7b274a006f00d968e9ee496ec5d28c49e5b47f8aad291049d52bf94a4326beb;
   Dbl 0xaaf7c995942e22201475109594191f23bf3d4b4f63b69f5f9684b423b179126d;
   DblSub 0x7fb01affaf5d0f5eb8e5fd457da10d40bcec18a352476a981882fddf286fb3b0 0x7e1e4a7f2ef33843cbed77e41310287065eba83ecfe771d992f8c91891289f3b;
   Dbl 0x4a370ec9fecf54b22643110841d65d9b9a30cfe56c3ab2a83ebd00265554fcda;
   DblAdd 0x26021cd70550e8cdba42f3e607e8d47fc17e9f01548cf8991eb7ea0920d2a1e2 0x2def9b7a035fca5c5ca4d2629525aa72cd247734826468a96100c57d13b620f3;
   Dbl 0x1687868d0c3c942a86f6a2f6bc2b0b0014da5b25d28de6968dd58ec932777ea8;
   DblAdd 0x2e1d6d99905ca613107ae06ad50b69ee23145b1a91e4afb8a2ca74b9207129a5 0x27017d11d4c6232f17f307bcb17cfcdddb5277532c1db5d7a26b069642824801;
   Dbl 0xe7ed2ac716b9238ca020ad0ecaeda589291da236d6727446b8783a9cf49e8c9c;
   Dbl 0x179440185a766506da237bf7ded17e28e244c6fe2950c5666c0ca76bf14bfa09;
   DblSub 0x68527f6feb1c85b31c9f32a00511b66694abc9192097ff368b5274950771c2e3 0x96599d4ae2b7b0b6d0017cc5930b01086e530f9534b085c63a8d2f63520a33d9;
   Dbl 0x328311006166da0e2d955527c15989dcadf4e3fd67e2fa1041c595d4d5bb5318;
   Dbl 0x7e087002e55cae077c9697c99e58a03e348c2cf038320cdadba6fdbdc2abda18;
   DblAdd 0x874749fef062abebe4fcd8d6de89523c51b44716b020f206d464b45cebd0227d 0xce6a70e77f583ad3529c9611f8a2e617769ddb2b2e549bd7eeeb66e814bda627;
   Dbl 0xe3a00db65a6f050408d9317baa0f1567e829afba97621d77148591927af2e326;
   DblSub 0x8051f6daf0a28faabd7202a70ca45f29a9c8ce0564bda201469512ed15bfa3fa 0x3e82d8bf2a6c08009c38da5feb60152b3525ee4bd09702fcbc81d8b3dcaf9e73;
   Dbl 0x741f8aa350503ea01341866f871b5a14e908c03520268bec4be17eb8b459909c;
   Dbl 0xa9b85f87e96dc150a3f67e20c15e9cdbae0d48f1c0640a0e47cc786e207d180;
   Dbl 0xf9b85f84f2bdf0fb5ec317013d34c36dd67afcc916d987094044b47e712b59ae;
   DblSub 0xae90d49c8db0b27291c1df9999828cb52d475e6236eaf9e9544f90369bf6ca03 0x1ed6a0ce44d804465bd4398d36d3b62be6037f00bad3f94352abece442ca274c;
   Dbl 0x3050f99b1337c62004e120e368b9c0f76b837cba50537ff5e210843b7f72c84;
   DblAdd 0x359cb63dd575fe116d4334b14409ac9b98abc4fbae71c5208e980e73c5464763 0xa7ef8597f774242922e244582e1d4f0d9e1a17537942d7472744430563766750;
   Dbl 0x6a2510347f3909d4ae791700d1c75d9e6d7d86873f7c2ba63c705e1f38df9186;
   Dbl 0x66a8a2869b273c4fb21f8ec51837f2a7b32d7533e6343e4f04e7c2e4c9b3384d;
   Dbl 0xbaf1770b0ee37a8638600be1bd6dacbceb39716b474509e4450dad36d5eb4211;
   DblSub 0x39d68fad14979e32e1c1742f8994bfa462196ad6f889cbfa5fc513709630ae06 0x3bf3d12f552c47336d86acc6ccbd8c9cfce3c888ba2e4f45c4b33169ac639ebe;
   Dbl 0xa062b7b604d46e0eec641b05bea0471db15e82688f5826c1c34637bbd3edec1a;
   DblAdd 0x9fabde1ceaeb992e80017b12d617ae37f2035299330091887021ceb827ccbb36 0x230d7a4a3dcda864775eb4ffe8f319d14834441848fc304ad231797811c1302b;
   Dbl 0x5470a5c84b32e321637d2e208201a340a01ffeca339bd0aa80979c4f1170ec87;
   Dbl 0x7e0a3376d947900a7a41aa6d2f81b1952d4c5c95a3d6fbf1603466442e7f0620;
   Dbl 0xe05d1f4553924fe6c8c2d7e3065b67bde5d0c944415fef1de4ee9e5bb461835;
   Dbl 0xd6be9e6daef03da7f6225309237433fd6749d3ba48e55744d1086a32681a48b5;
   DblAdd 0x232359521f0e0a6d5ebdb8edfec99aa6083f85ee92d280a53cf82f10076328a7 0x5a5329acaed2ae0b821c3ff92a8374a4f3815e42d8d135e1aa12f39b7c454904;
   Dbl 0x38ddab01e96df9b5601daeee9c80b49ed240c47e2ecc960852018922aba272f1;
   DblAdd 0x95b7fab8a622fff06ad5e5702363a19dae3220b75d3ae3ba3a0b13ee14053131 0xfc4d96ecea839fef3458afc42dd2aebbe8df8127d87932bb6a0166b464f0a6e0;
   Dbl 0xd61aaa1d2fa2f18ed3ae5954ba603aac5f3335e1a9f5dfd0ce48bf670b6cc41;
   Dbl 0x81cf2f0da04a9a8d5e2b8aaf129425555dd3450f63c48f5298a3172117c9bbe5;
   Dbl 0xf89eff93cd1946c771ec51aee6652fbc4be5bd27ecb8a5f9582e29d31d54ca7f;
   DblSub 0x3a4b5e9eedb02dd5b649eb3d51b50b6baf8c4a66aa3a21b5af35118aa4ffa512 0xdfd04accf49a9f6d30c54f3acc46d1d8fad2365f367ab18c6e37175b86258a73;
   Dbl 0xd8833940fe6bd86636ea00d04162f80381a184a21c5014203d4cf7987edfe17b;
   DblAdd 0x34e0318ef4cceb053031caf723efabaa1bc24c69e63a9d8f8719e91cde261341 0xee0303e26b8a5a74df66d02b058e0d9f4a9e0d6f22924ca506b2323d5fb93c30;
   Dbl 0xd95f37764b743c597565d7a009db30e5502af684e94da9d625d479a4da676426;
   Dbl 0x36a248d4b2142e8d6cb762d846055b230335bf0185fd6c14ebf656324aa5edd8;
   Dbl 0x2002ed545f4921c8fbf9a5f6f5fa2c8edef4a2331a1403d7aae2f2cc3cf48b85;
   DblSub 0xa1d08d14aa5fa9ca5041d4b64b39c48ef9c3911ddf9b783db72b07de10bb2e11 0xda7b5fffac2d087471887fd57d6ed53f305eb2590043feb932b21ce6bcbe4f1;
   Dbl 0xd09ce7f0934d504499e52d3e5d9f7ab890e49f60d9724291073339595ee46115;
   Dbl 0x26bfc29828a0c811598d9ad4dc75cc28a845b4e413816c4e030fd2f578a6340d;
   DblSub 0x83bdabd78ebb9258673ad87e51c29145a54066eeb2dd307f2a7046814c863870 0xf8c950629a6ae0064ab65809d196bb7c77b83bec6fefa964ab0cad46938d7d0f;
   Dbl 0x1e24e23be43ebbe98edbe61394c3a6ed01a7f4444ac3d5e4cce9f95f1f1b30db;
   DblAdd 0xaf7b1bedf0c2915b1da8d0b4b2c1a7744f9b9aea67bf3dcd991f35c737a3050b 0x13fc0ac0cceecbfcef5b641a46ebb694322a1e2ce1795f62409055263ab9751e;
   Dbl 0x5a5373071c8410c59f30302988b7937d96d93d0326acdfadefdcd8af26e1ccfc;
   Dbl 0x3fe3b0951f395eb073e1f22902d9293b6a9263fe3218d9f309bb55820cc0f697;
   DblSub 0x12cf251aa4cfee094ccf2904f7f6ba0dd636e60fa7d239baa9ad8e7a31f1de29 0x508a4103aa4fb9b44ed1b547e7191e548c4de6f104a4ea3dfb5f1e0d0cb781ae;
   Dbl 0xf99a98c677df5fa909f310e9c1e4d2e4d7661c86650dd382f74d78255dbb4d17;
   DblAdd 0x1f7bfca8004798e8724c6e51d327af0c8b9dcfced075624ea910059c69819217 0xea61ebd2d3942e8ebbf5cd314577b42b656c17a07624ec80f29d95b705bc8078;
   Dbl 0xa3de9069471faa342b1f94816143e859488a3c6c1ef406ca679068b552e10a7d;
   DblSub 0x6ac99a648f4e996286abbb092d030359e86bc32762e924230fffb328ce2a3d2f 0xc83cad68877db0d60ee2b039e3e4f06ac590d19df1513ea7499b8dcad22b4137;
   Dbl 0x322a3dbff95330d8cc3e4d62a6a23ad2df649aa57716ba592858da4a01f6a9fa;
   DblSub 0xdb71ed36608df6cecd3b847f64e0c9d9e954eaf9bb12d5196e7cfefce9505bab 0xe094f9e6a5d2f3f42ca288838583bca6da59f333d1745928a3c7db55c049f0cc;
   Dbl 0x2dc0c0c579ac7183eaf439248fdbd6eb07ee6afc5cf1e930cb52448f2d0bd9a8;
   DblSub 0x7f0dc23e5824f6e6a2e10a108d993c07168fa07ac98771adf36f5313fcb1459e 0x64877c7b1fc2bc5b49b492d268d93e1da5dcfedecf0f1fa4cec9ba4437c5ab78;
   Dbl 0xd179f413ae3bfd5ab16b4fa72c59c7cff3de907e09f0fe2e6784aa84fdd8df5b;
   Dbl 0xf3651f1948b6da881c2419f75d7cf4b68afc8df485801ac4b19c7755233c6f0c;
   Dbl 0xbe23251d063af957b0c233d8caaad3245a71d35cee8041a4da77eb003fc49840;
   DblAdd 0xd6773521eb6e218ad74d5d85cc0a9a6f3f123dbe6a34ec9433b8a7639848538d 0x74fbcc00f83f05c522b19a41d601f5976a98acdeb88ec6db4fb9793db14a41fc;
   Dbl 0xf0d694dc7be1553458e68efffc38c561ebb91b25c1907f1c5bcfe499ce2cf812;
   DblSub 0x3c04b10e2030d40c3cce02cad7a27f18d87cf02a6e1cfe5919e9bc8fe7d30f3b 0x98b369cf6954a89376e40788db863a6783c9fd10121c4cb038ca75fe0dcf9a1b;
   Dbl 0xafe96cd8f3779a7ae32b41413a9c0718e3d373a5ad02482a4e50c9908d8d88f2;
   Dbl 0xa7cde4c843eede7aac73d8f7e8803d2ad47aad6fe34630e67f888a76c379a59;
   Dbl 0xec7ac66029540de800244440f67577a50ad5dc9dcb0f81e1bd5ee9d37e69ab90;
   Dbl 0x28f2a049df395feaf34a1ac4b9d14ed79fe51c1cd49d6a4aec93e92289096e63;
   Dbl 0x76fcc3b8dec52cbe1c6584dd2b12ceb245a036a856487d1c9a43c0c93d0b5328;
   DblSub 0xa0383d13acbd2cc4c34932bee13b5e59cf96d1d3468bc0c96bd504bd709a3a28 0x5f2548556bc3a96feb64124921e0c0534ea9075b91fd7520e5c5bfb3165a819a;
   Dbl 0xe04398830685690df5e208459a98defd8832b5196e2be0b8df82c16c77f7f5;
   Dbl 0xfcd96ffebeb7a47ee4590684b7c9a2e0b8fa03beabd83654d7d76cdbbcd60335;
   DblAdd 0xa740a7573695f572d3c174ed4560cbd69eee3a8e77be3734bca252c05a6933a0 0x7878b68ad2a204d83440137779a31f0de81af36b23833099eb30db2cf80e1b27;
   Dbl 0x6b17744891c14fed2d65c73839d7005e1a4c8ec075408cf501561f9450e72b86;
   DblSub 0x4c99796ae98e55b9258b388a7b380f8a3fee10ea8da2f32ec08dd753aa34776f 0xc19659ff5a6e8747ab72c561f93b058b92ac88c37a5f9079206663b510adad0;
   Dbl 0x9c82adc5593be14823416d07f9f833db891a9f58ca31315a0dca08778edd591c;
   Dbl 0xff5fa2b8eaa15963bcf8f4d08ad28483801b21e4ab054838b84b2c1b7eec2911;
   DblAdd 0x32057cfec2c8b40d8810f0fd0f1bc108f4d4bf6fbc21b9a5e7e521a26d065898 0xfaa423937f8c1bf47c309e43f7fbf1010c092e445135e079e111eea484eae5f;
   Dbl 0x8ef7af95992811d27114c308bc6fdb9f604cedeceaa0afac88469b7533a97871;
   DblSub 0x6693eb8873b08036c280692a62d8326e3d8102cb893da346d647b54a158a61ef 0xe091a1846abc8fe2c94233d1a2df3f348d91e0197790b8a5037a3edda2b3b1c2;
   Dbl 0x4439830783f364ff8326337036fd5b26868085c15009f456a82a1b0880ff7d67;
   Dbl 0x2f41d190d91e77680712007969891e3ca1deeeaa9415496a1d4e302a4df1e551;
   DblAdd 0xe60a0cb18c966612d38cc039609f7ff3a2de07efeaf428b0a465c13b23621739 0xc75a30555e78aad072191476bba91d8369aa498d01b13b2b7b4707e205f20a94;
   Dbl 0xda1583e3ad79ae5ecff6ebda1b774dc7dc00d278dd25680f869cc30585dcf0f;
   Dbl 0xd3718f57d9db98eb139f5f4e3a41e28d035f899d9e91a8107efe15b79a27c629;
   DblAdd 0xcebb240edc61826baaa5297c41e7a8137af81c8113dc9c20ee1933583e3f7494 0x8b391b2d59c8e63ab3fa0a40b860337b5aaff347b3228e323104d498da3b6418;
   Dbl 0x3d46e9ef5aed4aa9fea6810de4d5e822316732bcbdfbff222b7ea641d0f4c236;
   DblAdd 0x2d45701fda7e3d7f4ecb15fd4fefebe30788a1a6861a4f6ca1431cd8c329e135 0x6d1ab84b6bfc3dd20fe5eb07933ff7ac3f81ac780b4e9c3ec8f773b97dda779f;
   Dbl 0xf5c92d577891d8d5e9308b7380703c776943d20df29457a43a089efed2324e08;
   DblAdd 0xe88b7de3f5fa482be7b122800f456e1688c08618ee100504d19da17644a084fc 0xfe3b635c4752201380648dd222ea1a37a8b56b31539ffdeffff0bab1e20a6457;
   Dbl 0x13e1aace41718a701cfc777d12d8d44229a07d9deb4b28c637ee82e18b6b8866;
   DblAdd 0x56436ab347a1162845d4c6b9cbe939adea2c4f90c169d40a97e58c7fbaec7a9b 0x9b77ec69617f51069699bec6f62797e61fda164d9ad2f53842780fb17e45fa62;
   Dbl 0x510d851c47baf8984835e68c845e2bb545d52977fc75a523d9580f6237793779;
   Dbl 0xb9fded35e510eaf5658921bfe5042746076d1426453aa249dcb6bd3495e18ec8;
   Dbl 0x755d14d98ff4cbf80f733a8570b5b20dd2d2e8c0fecc7ebe2d31bba5e4b33192;
   Dbl 0x83362c631c75685e3615425a3bf2d24ad3517a0496f1d94b79cc3fdabf3fe22a].

(** ** Soundness *)

Definition stands_for (s : Z * (Z * Z)) : Prop := let '(k, (x, y)) := s in mul256 k G256 = Some (of256 x, of256 y).

Local Notation "x +f y" := (@Zmod.add p256 x y) (at level 50, left associativity).
Local Notation "x -f y" := (@Zmod.sub p256 x y) (at level 50, left associativity).
Local Notation "x *f y" := (@Zmod.mul p256 x y) (at level 40, left associativity).

Lemma of256_add a b : of256 (a + b) = of256 a +f of256 b.
Proof. apply Zmod.of_Z_add. Qed.
Lemma of256_sub a b : of256 (a - b) = of256 a -f of256 b.
Proof. apply Zmod.of_Z_sub. Qed.
Lemma of256_mul a b : of256 (a * b) = of256 a *f of256 b.
Proof. apply Zmod.of_Z_mul. Qed.

Lemma zero256 : @Zmod.zero p256 = of256 0.
Proof. symmetry. apply Zmod.of_Z_0. Qed.

Lemma of256_zero a : a mod p256 = 0 <-> of256 a = Zmod.zero.
Proof. rewrite zero256, of256_eq. change (0 mod p256) with 0. reflexivity. Qed.

Lemma third_Z_spec l x1 y1 x2 : third (of256 l) (of256 x1) (of256 y1) (of256 x2) =
  (of256 (fst (third_Z l x1 y1 x2)), of256 (snd (third_Z l x1 y1 x2))).
Proof.
  unfold third, third_Z. cbn [fst snd]. rewrite !of256_mod. f_equal.
  - now rewrite !of256_sub, of256_mul.
  - rewrite of256_sub, of256_mul, of256_sub, of256_mod. now rewrite !of256_sub, of256_mul.
Qed.

Add Ring ring256b : (Zmod.ring_theory p256).

Lemma G256_on : on256 G256.
Proof.
  unfold G256. cbn [w_on]. unfold aF, bF. rewrite zero256, <- of256_three.
  rewrite <- of256_sub, <- !of256_mul, <- !of256_add. apply of256_eq. vm_compute. reflexivity.
Qed.

Lemma double_Z_spec l s s' : double_Z l s = Some s' -> stands_for s -> stands_for s'.
Proof.
  destruct s as [k [x y]]. unfold double_Z. destruct (Z.eqb_spec (y mod p256) 0) as [|Ny]; [discriminate|].
  destruct (Z.eqb_spec ((2 * y * l - 3 * (x * x) + 3) mod p256) 0) as [E|]; [|discriminate]. cbn [orb negb]. intros [= <-] HS.
  cbn [stands_for] in *. replace (2 * k) with (k + k) by lia. rewrite (mul_add G256 G256_on), HS.
  rewrite of256_zero in Ny. apply of256_zero in E. rewrite of256_add, of256_sub, !of256_mul, of256_three, of256_two in E.
  assert (Hl : line aF (of256 x) (of256 y) (of256 x) (of256 y) (of256 l)).
  { split; [ring|]. apply (sub_zero prime_p256). rewrite <- E. unfold aF. ring. }
  rewrite (line_add prime_p256 aF _ _ _ _ _ (fun E => Ny (double_zero prime_p256 two256 _ (proj2 E))) Hl), third_Z_spec. reflexivity.
Qed.

Lemma add_Z_spec e l s s' : e = 1 \/ e = -1 -> add_Z e l s = Some s' -> stands_for s -> stands_for s'.
Proof.
  intros He. destruct s as [k [x y]]. unfold add_Z. destruct (Z.eqb_spec ((gx - x) mod p256) 0) as [|Nx]; [discriminate|].
  destruct (Z.eqb_spec ((e * gy - y - l * (gx - x)) mod p256) 0) as [E|]; [|discriminate]. cbn [orb negb]. intros [= <-] HS.
  cbn [stands_for] in *. rewrite (mul_add G256 G256_on), HS.
  assert (EG : mul256 e G256 = Some (of256 gx, of256 (e * gy))).
  { destruct He as [-> | ->].
    - rewrite (w_mul_1 aF), Z.mul_1_l. reflexivity.
    - change (-1) with (- (1)) at 1. rewrite (w_mul_opp prime_p256 aF bF two256 smooth256 G256 G256_on), (w_mul_1 aF). cbn [w_opp G256].
      do 2 f_equal. }
  rewrite EG. rewrite of256_zero, of256_sub in Nx. apply of256_zero in E. rewrite !of256_sub, (of256_mul l), of256_sub in E.
  rewrite (chord_add prime_p256 aF _ _ _ _ Nx).
  replace (Zmod.mdiv (of256 (e * gy) -f of256 y) (of256 gx -f of256 x)) with (of256 l); [now rewrite third_Z_spec|].
  apply (sub_zero prime_p256) in E. rewrite E. symmetry. now apply (div_mul prime_p256).
Qed.

Lemma run_chain_spec ops : forall s s', run_chain ops s = Some s' -> stands_for s -> stands_for s'.
Proof.
  induction ops as [|o ops IH]; intros s s'; [now intros [= <-]|]. cbn [run_chain]. destruct (op_Z o s) as [s1|] eqn:E; [|discriminate].
  cbn. intros HR HS. apply (IH _ _ HR). destruct o as [l|l m|l m]; cbn [op_Z] in E; [now apply (double_Z_spec l s)|..].
  all: destruct (double_Z l s) as [s0|] eqn:E0; [|discriminate]; apply (double_Z_spec l s _ E0) in HS; cbn in E.
  - now apply (add_Z_spec 1 m s0); [left| |].
  - now apply (add_Z_spec (-1) m s0); [right| |].
Qed.

Lemma base_chain_end : run_chain base_chain (1, (gx, gy)) = Some (n256 - 1, (gx, p256 - gy)).
Proof. vm_compute. reflexivity. Qed.

Lemma G256_order : mul256 n256 G256 = None.
Proof.
  pose proof (run_chain_spec base_chain _ _ base_chain_end (w_mul_1 aF G256)) as H. cbn [stands_for] in H.
  replace n256 with (n256 - 1 + 1) by lia. rewrite (mul_add G256 G256_on), H, (w_mul_1 aF).
  replace (of256 (p256 - gy)) with (Zmod.opp (of256 gy)); [exact (w_opp_l prime_p256 aF G256)|].
  rewrite of256_sub. replace (of256 p256) with (@Zmod.zero p256); [ring|]. symmetry. apply of256_zero. reflexivity.
Qed.
