(* ===== verification/UECCOdd.v ===== *)
(** * UECCOdd: P-256 has no point of order two

    The cubic x^3 - 3 x + b has no root modulo p: a root would be fixed by the
    power p, but x^p - x has an inverse modulo the cubic.  So no finite point of
    the curve has ordinate 0, and doubling never leads to infinity. *)

From stdpp Require Import base list numbers.
From Stdlib Require Import ZArith Lia Zmod ZmodInv Zdivisibility Zpow_facts.
From S2P Require Import Prelude Machine UECC UECCVli UECCField Prime25519 Prime256 Edwards Weierstrass Jacobian UECCPoints BaseOrder.

Local Open Scope Z_scope.

(** ** Polynomials modulo the cubic *)

(** c0 + c1 x + c2 x^2 *)
Notation poly3 := (Z * Z * Z)%type.

Definition eval3 (u : poly3) (r : Z) : Z := let '(u0, u1, u2) := u in u0 + u1 * r + u2 * (r * r).

Definition cubic (r : Z) : Z := r * r * r - 3 * r + b256.

(** Reduction by the shape of p: 2^256 = 2^224 - 2^192 - 2^96 + 1.  Whatever the
    number of turns, multiples of p are taken off. *)
Fixpoint reduce (turns : nat) (a : Z) : Z :=
  match turns with
  | O => a
  | S turns =>
      let hi := Z.shiftr a 256 in
      if hi =? 0 then a
      else reduce turns (a - (Z.shiftl hi 256 - Z.shiftl hi 224 + Z.shiftl hi 192 + Z.shiftl hi 96 - hi))
  end.

Local Notation red := (reduce 16).

(** x^3 is 3 x - b. *)
Definition fold3 (w0 w1 w2 w3 w4 : Z) : poly3 :=
  let w3 := red w3 in
  let w4 := red w4 in
  (red (w0 - b256 * w3), red (w1 + 3 * w3 - b256 * w4), red (w2 + 3 * w4)).

Definition mul3 (u v : poly3) : poly3 :=
  let '(u0, u1, u2) := u in let '(v0, v1, v2) := v in
  fold3 (u0 * v0) (u0 * v1 + u1 * v0) (u0 * v2 + u1 * v1 + u2 * v0) (u1 * v2 + u2 * v1) (u2 * v2).

Definition square3 (u : poly3) : poly3 :=
  let '(u0, u1, u2) := u in
  fold3 (u0 * u0) (2 * (u0 * u1)) (2 * (u0 * u2) + u1 * u1) (2 * (u1 * u2)) (u2 * u2).

Definition times_x (u : poly3) : poly3 :=
  let '(u0, u1, u2) := u in fold3 0 u0 u1 u2 0.

(** x^n *)
Fixpoint pow3 (n : positive) : poly3 :=
  match n with
  | xH => (0, 1, 0)
  | xO n => square3 (pow3 n)
  | xI n => times_x (square3 (pow3 n))
  end.

Lemma p256_shape hi : Z.shiftl hi 256 - Z.shiftl hi 224 + Z.shiftl hi 192 + Z.shiftl hi 96 - hi = hi * p256.
Proof.
  assert (E : p256 = 2 ^ 256 - 2 ^ 224 + 2 ^ 192 + 2 ^ 96 - 1) by reflexivity. rewrite E, !Z.shiftl_mul_pow2 by (now apply Z.leb_le).
  generalize (2 ^ 256) (2 ^ 224) (2 ^ 192) (2 ^ 96). intros. ring.
Qed.

Lemma cubic_reduce_spec turns : forall a, exists k, reduce turns a = a - k * p256.
Proof.
  induction turns as [|turns IH]; intros a; cbn [reduce]; [exists 0; lia|].
  destruct (Z.shiftr a 256 =? 0); [exists 0; lia|]. rewrite p256_shape. generalize (Z.shiftr a 256). intros hi.
  destruct (IH (a - hi * p256)) as [k ->]. exists (hi + k). generalize p256. intros. ring.
Qed.

Local Opaque reduce p256.

(** The congruence behind [fold3], for any modulus and reduction. *)
Lemma fold3_identity P B r q w0 w1 w2 w3 w4 k0 k1 k2 k3 k4 : r * r * r - 3 * r + B = q * P ->
  Z.divide P ((w0 - B * (w3 - k3 * P) - k0 * P) + (w1 + 3 * (w3 - k3 * P) - B * (w4 - k4 * P) - k1 * P) * r +
    (w2 + 3 * (w4 - k4 * P) - k2 * P) * (r * r) - (w0 + w1 * r + w2 * (r * r) + w3 * (r * r * r) + w4 * (r * r * r * r))).
Proof.
  intros E. assert (EB : B = q * P - r * r * r + 3 * r) by lia. subst B.
  exists (- k0 - k1 * r - k2 * (r * r) - q * (w3 - P * k3) - q * (w4 - P * k4) * r - k3 * (r * r * r) - k4 * (r * r * r * r)).
  ring.
Qed.

Lemma p256_nonzero : p256 <> 0.
Proof. discriminate. Qed.

Lemma divide_mod_eq P a b : P <> 0 -> Z.divide P (a - b) -> a mod P = b mod P.
Proof. intros HP [k E]. replace a with (b + k * P) by lia. now apply Z.mod_add. Qed.

Section Root.
Variables r q : Z.
Hypothesis Hr : cubic r = q * p256.

Lemma eval_fold3 w0 w1 w2 w3 w4 :
  eval3 (fold3 w0 w1 w2 w3 w4) r mod p256 = (w0 + w1 * r + w2 * (r * r) + w3 * (r * r * r) + w4 * (r * r * r * r)) mod p256.
Proof.
  apply (divide_mod_eq _ _ _ p256_nonzero). unfold fold3, eval3. cbv zeta.
  destruct (cubic_reduce_spec 16 w3) as [k3 ->], (cubic_reduce_spec 16 w4) as [k4 ->].
  destruct (cubic_reduce_spec 16 (w0 - b256 * (w3 - k3 * p256))) as [k0 ->].
  destruct (cubic_reduce_spec 16 (w1 + 3 * (w3 - k3 * p256) - b256 * (w4 - k4 * p256))) as [k1 ->].
  destruct (cubic_reduce_spec 16 (w2 + 3 * (w4 - k4 * p256))) as [k2 ->]. now apply (fold3_identity p256 b256 r q).
Qed.

Lemma eval_mul3 u v : eval3 (mul3 u v) r mod p256 = (eval3 u r * eval3 v r) mod p256.
Proof. destruct u as [[u0 u1] u2], v as [[v0 v1] v2]. unfold mul3. rewrite eval_fold3. f_equal. unfold eval3. ring. Qed.

Lemma eval_times_x u : eval3 (times_x u) r mod p256 = (eval3 u r * r) mod p256.
Proof. destruct u as [[u0 u1] u2]. unfold times_x. rewrite eval_fold3. f_equal. unfold eval3. ring. Qed.

Lemma eval_square u e : eval3 u r mod p256 = r ^ e mod p256 -> eval3 (square3 u) r mod p256 = r ^ (2 * e) mod p256.
Proof.
  intros E. rewrite Z.pow_twice_r, Zmult_mod, <- E, <- Zmult_mod. clear E. destruct u as [[u0 u1] u2]. unfold square3. rewrite eval_fold3.
  unfold eval3. apply (f_equal (fun a => a mod p256)). ring.
Qed.

Lemma eval_pow3 n : eval3 (pow3 n) r mod p256 = r ^ Zpos n mod p256.
Proof.
  induction n as [n IH|n IH|]; cbn [pow3].
  - rewrite eval_times_x, <- Zmult_mod_idemp_l, (eval_square _ _ IH), Zmult_mod_idemp_l.
    rewrite Pos2Z.inj_xI, Z.pow_add_r, Z.pow_1_r by lia. reflexivity.
  - rewrite (eval_square _ _ IH), Pos2Z.inj_xO. reflexivity.
  - unfold eval3. rewrite Z.pow_1_r. f_equal. ring.
Qed.

End Root.

(** ** No root *)

(** The inverse of x^p - x modulo the cubic. *)
Definition frobenius_inverse : poly3 :=
  (0xa969487079f1744798bf0de6fded091b66e9d328eb0645fe5d979d1339b7f47f,
   0xa4a08891884100c13323460107a8d28eede4387fa3e6e9bfebec9f6d72d0b5cc,
   0x4cde11cf86cb876cd59cf0115813c55af0ecd3cda667d98bb9a347a56aa74a6d).

Definition minus_x (u : poly3) : poly3 := let '(u0, u1, u2) := u in (u0, u1 - 1, u2).

Definition canonical (u : poly3) : poly3 := let '(u0, u1, u2) := u in (u0 mod p256, u1 mod p256, u2 mod p256).

Lemma frobenius_apart : canonical (mul3 frobenius_inverse (minus_x (pow3 (Z.to_pos p256)))) = (1, 0, 0).
Proof. vm_compute. reflexivity. Qed.

Lemma eval_canonical u r : eval3 (canonical u) r mod p256 = eval3 u r mod p256.
Proof.
  destruct u as [[u0 u1] u2]. apply (divide_mod_eq _ _ _ p256_nonzero). unfold canonical, eval3. rewrite !Z.mod_eq by exact p256_nonzero.
  generalize (u0 / p256) (u1 / p256) (u2 / p256). intros k0 k1 k2. generalize p256. intros P. exists (- k0 - k1 * r - k2 * (r * r)). ring.
Qed.

Lemma fermat P r : Z.prime P -> r ^ P mod P = r mod P.
Proof.
  intros HP. pose proof (Z.prime_ge_2 P HP) as H2. destruct (Z.eq_dec (r mod P) 0) as [E|N].
  - rewrite <- Z.mod_pow_l, E. rewrite Z.pow_0_l by lia. apply Z.mod_0_l. lia.
  - replace P with (P - 1 + 1) at 1 by lia. rewrite Z.pow_add_r, Z.pow_1_r by lia.
    rewrite <- Zmult_mod_idemp_l, (Z.fermat_nz P r HP N), Z.mul_1_l. reflexivity.
Qed.

Lemma cubic_no_root r : cubic r mod p256 <> 0.
Proof.
  intros E. apply Z.mod_divide in E as [q Hq]; [|exact p256_nonzero].
  pose proof (eval_pow3 r q Hq (Z.to_pos p256)) as EP. rewrite Z2Pos.id, (fermat p256 r prime_p256) in EP by reflexivity.
  pose proof (eval_mul3 r q Hq frobenius_inverse (minus_x (pow3 (Z.to_pos p256)))) as EM. pose proof frobenius_apart as EA.
  set (f := pow3 (Z.to_pos p256)) in *. clearbody f. rewrite <- eval_canonical, EA in EM.
  assert (E0 : eval3 (minus_x f) r mod p256 = 0).
  { destruct f as [[u0 u1] u2]. cbn [eval3 minus_x] in *.
    replace (u0 + (u1 - 1) * r + u2 * (r * r)) with (u0 + u1 * r + u2 * (r * r) - r) by ring.
    rewrite Zminus_mod, EP, <- Zminus_mod, Z.sub_diag. apply Z.mod_0_l. exact p256_nonzero. }
  rewrite <- Zmult_mod_idemp_r, E0, Z.mul_0_r in EM. cbn [eval3] in EM. replace (1 + 0 * r + 0 * (r * r)) with 1 in EM by ring.
  discriminate EM.
Qed.

(** A finite point has an ordinate other than 0. *)
Lemma ordinate_nonzero x y : on256 (Some (x, y)) -> y <> Zmod.zero.
Proof.
  intros HO ->. cbn [w_on] in HO. rewrite Zmod.mul_0_l in HO.
  assert (E : of256 (cubic (Zmod.to_Z x)) = of256 0).
  { unfold cubic. replace (Zmod.to_Z x * Zmod.to_Z x * Zmod.to_Z x - 3 * Zmod.to_Z x + b256)
      with (Zmod.to_Z x * Zmod.to_Z x * Zmod.to_Z x + (0 - 3) * Zmod.to_Z x + b256) by ring.
    rewrite !of256_add, !of256_mul, of256_sub, of256_three, of256_to_Z. unfold aF, bF in HO. rewrite zero256 in *. symmetry. exact HO. }
  apply of256_eq in E. exact (cubic_no_root (Zmod.to_Z x) E).
Qed.
