(* ===== verification/UECCKeys.v ===== *)
(** * UECCKeys: the public keys of micro-ecc on secp256r1

    Validation decides membership of the curve, and decompression undoes
    compression on valid keys. *)

From stdpp Require Import base list numbers.
From Stdlib Require Import ZArith Lia Zdivisibility Zpow_facts ZmodInv.
From S2P Require Import Prelude Machine UInt128 UECC UECCVli UECCField Prime25519 Prime256.
Import UECC.

Local Open Scope Z_scope.
Local Open Scope buf_scope.

(** ** Specification *)

Module P256_Spec.

(** The affine points of P-256, as pairs of residues. *)
Definition on_curve (x y : Z) : bool :=
  (0 <=? x) && (x <? p256) && (0 <=? y) && (y <? p256) && ((y * y) mod p256 =? curve_rhs x).

(** A public key: x and y, 32 bytes each, most significant byte first. *)
Definition key_x (pk : list Z) : Z := be_combine (take 32 pk).
Definition key_y (pk : list Z) : Z := be_combine (drop 32 pk).

End P256_Spec.

(** ** Square roots

    For a prime that is 3 modulo 4 the power (P + 1) / 4 of a square is one of
    its two roots. *)

Section SquareRoot.
Variables P e : Z.
Hypothesis Prime_P : Z.prime P.
Hypothesis P_e : 4 * e = P + 1.

Lemma root_squared y : ((y * y) ^ e * (y * y) ^ e) mod P = (y * y) mod P.
Proof.
  assert (HP : 1 < P) by apply Prime_P. rewrite <- Z.pow_mul_l. replace (y * y * (y * y)) with (y ^ 4) by ring.
  rewrite <- Z.pow_mul_r, P_e by lia. replace (P + 1) with (P - 1 + 2) by ring. rewrite Z.pow_add_r, Z.pow_2_r by lia.
  destruct (Z.eq_dec (y mod P) 0) as [E|N].
  - rewrite <- (Zmult_mod_idemp_r (y * y)), (Zmult_mod y y), E. cbn. now rewrite Z.mod_0_l, Z.mul_0_r, Z.mod_0_l by lia.
  - now rewrite <- Zmult_mod_idemp_l, (Z.fermat_nz P y Prime_P N), Z.mul_1_l.
Qed.

Lemma equal_squares s y : 0 <= s < P -> 0 <= y < P -> (s * s) mod P = (y * y) mod P -> s = y \/ s = (P - y) mod P.
Proof.
  intros Hs Hy E. assert (D : (P | (s - y) * (s + y))).
  { apply Z.mod_divide; [lia|]. replace ((s - y) * (s + y)) with (s * s - y * y) by ring. now rewrite Zminus_mod, E, Z.sub_diag. }
  apply Z.divide_prime_mul in D; [|exact Prime_P]. destruct D as [[k Ek]|[k Ek]].
  - left. assert (k = 0) by nia. lia.
  - right. assert (k = 0 \/ k = 1) as [-> | ->] by nia.
    + replace y with 0 by lia. rewrite Z.sub_0_r, Z.mod_same; lia.
    + rewrite Z.mod_small by lia. lia.
Qed.

Lemma sqrt_of_square y : 0 <= y < P -> let s := ((y * y) mod P) ^ e mod P in s = y \/ s = (P - y) mod P.
Proof.
  intros Hy s. apply equal_squares; [unfold s; apply Z.mod_pos_bound; lia|done|]. unfold s.
  now rewrite <- Zpower_mod, <- Zmult_mod, root_squared by lia.
Qed.

End SquareRoot.

(** ** Loading keys *)

Lemma be_combine_bound l : bytes l -> 0 <= be_combine l < 256 ^ Z.of_nat (length l).
Proof.
  intros H. unfold be_combine. rewrite <- length_rev. apply le_combine_bound. unfold bytes in *.
  rewrite List.Forall_forall in *. intros x Hx. apply H. now apply in_rev.
Qed.

Lemma be_split_combine l : bytes l -> be_split (length l) (be_combine l) = l.
Proof.
  intros H. unfold be_split, be_combine. rewrite <- (length_rev l), le_split_combine; [apply rev_involutive|].
  unfold bytes in *. rewrite List.Forall_forall in *. intros x Hx. apply H. now apply in_rev.
Qed.

Lemma num_app_l n V l1 l2 : length l1 = n -> num n V l1 -> num n V (l1 ++ l2).
Proof.
  intros L (_ & W & E). split; [rewrite length_app; lia|]. rewrite take_app_length' by done. rewrite take_ge in W, E by lia. done.
Qed.

Section Keys.
Variable pk : list Z.
Hypothesis Lpk : length pk = 64%nat.
Hypothesis Bpk : bytes pk.
Let X := P256_Spec.key_x pk.
Let Y := P256_Spec.key_y pk.

Lemma key_y_take : be_combine (take 32 (drop 32 pk)) = Y.
Proof. unfold Y, P256_Spec.key_y. now rewrite take_ge by (rewrite length_drop; lia). Qed.

Lemma load_public_spec : exists lx ly, load_public pk curve_secp256r1 = lx ++ ly /\ quad X lx /\ quad Y ly.
Proof.
  unfold load_public. cbn [num_bytes num_words curve_data curve_secp256r1 data_secp256r1 uECC_MAX_WORDS Nat.mul Nat.add]. cbv zeta.
  destruct (bytesToNative_spec (replicate 8 0) pk 32) as (L & W & E); [done|lia|rewrite length_replicate; lia|reflexivity|].
  set (n1 := uECC_vli_bytesToNative _ pk 32) in *. clearbody n1. rewrite length_replicate in L. change (vval n1 = X) in E.
  assert (BX : 0 <= X < 2 ^ 256).
  { unfold X, P256_Spec.key_x. pose proof (be_combine_bound (take 32 pk) ltac:(now apply bytes_take)) as B.
    rewrite length_take, Nat.min_l in B by lia. exact B. }
  assert (N8 : num 8 X n1) by (rewrite <- L, <- E; now apply num_intro).
  pose proof (num_take 8 4 X n1 N8 ltac:(lia) ltac:(apply BX)) as N4.
  assert (L4 : length (take 4 n1) = 4%nat) by (rewrite length_take; lia).
  exists (take 4 n1), (uECC_vli_bytesToNative (drop 4 n1) (drop 32 pk) 32). split; [reflexivity|]. split.
  - destruct N4 as (_ & W4 & E4). rewrite <- E4. now apply quad_of_words.
  - rewrite <- key_y_take. apply bytesToNative_quad; [rewrite length_drop; lia|now apply bytes_drop|rewrite length_drop; lia].
Qed.

(** ** Validation *)

Lemma valid_public_key_spec :
  uECC_valid_public_key pk curve_secp256r1 = Z.b2z (negb ((X =? 0) && (Y =? 0)) && P256_Spec.on_curve X Y).
Proof.
  unfold uECC_valid_public_key. destruct load_public_spec as (lx & ly & -> & HX & HY). unfold uECC_valid_point, EccPoint_isZero.
  cbn [num_words curve_p curve_data curve_secp256r1 data_secp256r1 Nat.mul Nat.add x_side]. cbv zeta.
  pose proof (quad_bound _ _ HX) as BX. pose proof (quad_bound _ _ HY) as BY. destruct HX as [LX NX]. pose proof (proj2 HY) as NY.
  assert (D4 : drop 4 (lx ++ ly) = ly) by (rewrite <- LX; apply drop_app_length). rewrite D4.
  pose proof (num_app_l 4 X lx ly LX NX) as NX'.
  assert (N8 : num 8 (X + 2 ^ 256 * Y) (lx ++ ly)).
  { destruct (num_exact 4 X lx NX LX) as [WX EX]. destruct (num_exact 4 Y ly NY (proj1 HY)) as [WY EY].
    replace 8%nat with (length (lx ++ ly)) by (rewrite length_app, LX; destruct HY; lia).
    replace (X + 2 ^ 256 * Y) with (vval (lx ++ ly)) by (rewrite vval_app, EX, EY, LX; reflexivity). apply num_intro, words_app. auto. }
  rewrite (vli_isZero_spec 8 _ _ N8).
  replace (X + 2 ^ 256 * Y =? 0) with ((X =? 0) && (Y =? 0)).
  2: { destruct (Z.eqb_spec X 0), (Z.eqb_spec Y 0), (Z.eqb_spec (X + 2 ^ 256 * Y) 0); cbn; try done; lia. }
  destruct ((X =? 0) && (Y =? 0)); [reflexivity|]. cbn [Z.b2z Z.eqb negb andb].
  rewrite (vli_gt_spec 4 p256 X _ _ (proj2 secp256r1_p_quad) NX'), (vli_gt_spec 4 p256 Y _ _ (proj2 secp256r1_p_quad) NY).
  unfold P256_Spec.on_curve. rewrite (proj2 (Z.leb_le 0 X)), (proj2 (Z.leb_le 0 Y)) by lia. cbn [andb].
  destruct (X <? p256); [|reflexivity]. destruct (Y <? p256); [|reflexivity]. cbn [negb orb andb].
  pose proof (modSquare_fast_spec (replicate uECC_MAX_WORDS 0) Y ly eq_refl NY) as S1.
  pose proof (x_side_spec (replicate uECC_MAX_WORDS 0) X (lx ++ ly) eq_refl NX') as S2.
  apply (vli_equal_spec 4 _ _ _ _ (fe_num _ _ S1) (fe_num _ _ S2)).
Qed.

(** ** Compression *)

Lemma compress_key_spec c : length c = 33%nat ->
  uECC_compress pk c curve_secp256r1 = (2 + Y mod 2) :: take 32 pk.
Proof.
  intros Lc. unfold uECC_compress. cbn [num_bytes curve_data curve_secp256r1 data_secp256r1 Nat.mul Nat.add Nat.sub].
  destruct c as [|c0 c]; [discriminate|]. cbn [length] in Lc.
  assert (F : for_ 0 32 (fun i compressed => compressed.[i + 1 <- pk.[i]]) (c0 :: c) = c0 :: take 32 pk).
  { assert (H : forall n, (n <= 32)%nat -> for_ 0 n (fun i compressed => compressed.[i + 1 <- pk.[i]]) (c0 :: c) =
      c0 :: (take n pk ++ drop n c)).
    { induction n as [|n IH]; intros Hn; [now rewrite for_nil by lia|]. rewrite for_last, IH by lia.
      rewrite Nat.add_1_r. cbn [insert list_insert]. f_equal. rewrite (take_S_total pk n) by lia.
      apply insert_prefix; [rewrite length_take; lia|lia]. }
    rewrite (H 32%nat) by lia. now rewrite drop_ge, app_nil_r by lia. }
  rewrite F. buf_simpl. f_equal.
  assert (E : pk !!! 63%nat mod 2 = Y mod 2).
  { unfold Y, P256_Spec.key_y. rewrite <- (take_ge (drop 32 pk) 32) by (rewrite length_drop; lia).
    rewrite be_combine_take_S by (rewrite length_drop; lia). rewrite lookup_total_drop.
    replace (256 * be_combine (take 31 (drop 32 pk)) + pk !!! (32 + 31)%nat)
      with (pk !!! 63%nat + (128 * be_combine (take 31 (drop 32 pk))) * 2) by (cbn [Nat.add]; lia).
    now rewrite Z_mod_plus_full. }
  change 1 with (Z.ones 1). rewrite Z.land_ones by lia. change (2 ^ 1) with 2. rewrite E.
  pose proof (Z.mod_pos_bound Y 2 ltac:(lia)). apply wadd_small. lia.
Qed.

(** ** Decompression *)

Lemma X_bound : 0 <= X < 2 ^ 256.
Proof.
  unfold X, P256_Spec.key_x. pose proof (be_combine_bound (take 32 pk) ltac:(now apply bytes_take)) as B.
  rewrite length_take, Nat.min_l in B by lia. exact B.
Qed.

Lemma key_halves : be_split 32 X ++ be_split 32 Y = pk.
Proof.
  rewrite <- (take_drop 32 pk) at 1. unfold X, Y, P256_Spec.key_x, P256_Spec.key_y. f_equal.
  - rewrite <- (be_split_combine (take 32 pk)) at 2 by now apply bytes_take. now rewrite length_take, Nat.min_l by lia.
  - rewrite <- (be_split_combine (drop 32 pk)) at 2 by now apply bytes_drop. now rewrite length_drop, Lpk.
Qed.

End Keys.

(** The root of the right parity. *)
Lemma choose_root s ls Y : fe s ls -> 0 <= Y < p256 -> s = Y \/ s = (p256 - Y) mod p256 ->
  quad Y (if negb (Z.land ls.[0] 1 =? Z.land (2 + Y mod 2) 1) then fst (uECC_vli_sub ls secp256r1_p ls 4) else ls).
Proof.
  intros Hs HY E. pose proof (fe_bound _ _ Hs) as Bs. pose proof p256_odd as Op.
  pose proof (EVEN_spec s ls (proj1 Hs)) as EV. unfold EVEN in EV.
  assert (P1 : Z.land (2 + Y mod 2) 1 = Y mod 2).
  { change 1 with (Z.ones 1). rewrite Z.land_ones by lia. change (2 ^ 1) with 2. replace (2 + Y mod 2) with (Y mod 2 + 1 * 2) by lia.
    rewrite Z_mod_plus_full, Z.mod_mod by lia. done. }
  assert (P2 : Z.land ls.[0] 1 = s mod 2).
  { change 1 with (Z.ones 1) in EV |- *. rewrite Z.land_ones in EV |- * by lia. change (2 ^ 1) with 2 in *.
    pose proof (Z.mod_pos_bound ls.[0] 2 ltac:(lia)). rewrite (Zmod_even s), <- EV. destruct (Z.eqb_spec (ls.[0] mod 2) 0); lia. }
  rewrite P1, P2. pose proof (vli_sub_exact 4 ls p256 s secp256r1_p ls) as SUB.
  assert (Ls : (4 <= length ls)%nat) by (rewrite (fe_words_length _ _ Hs); lia). specialize (SUB Ls (proj2 secp256r1_p_quad) (fe_num _ _ Hs)).
  destruct Hs as [Hs _]. set (P := p256) in *. clearbody P. destruct (Z.eqb_spec (s mod 2) (Y mod 2)) as [Q|Q]; cbn [negb].
  - assert (s = Y) as <-; [|exact Hs]. destruct E as [E|E]; [done|]. destruct (Z.eq_dec Y 0) as [->|N].
    { rewrite Z.sub_0_r, Z.mod_same in E; lia. }
    rewrite Z.mod_small in E by lia. subst s. rewrite Zminus_mod, !Zmod_odd, Op in Q. destruct (Z.odd Y); discriminate Q.
  - assert (s = P - Y) as ->.
    { destruct E as [E|E]; [congruence|]. destruct (Z.eq_dec Y 0) as [->|N]; [|rewrite Z.mod_small in E; lia].
      rewrite Z.sub_0_r, Z.mod_same in E by lia. now subst s. }
    replace Y with (P - (P - Y)) at 1 by lia. apply (wrote_quad ls); [apply Hs|].
    apply SUB. lia.
Qed.

Lemma on_curve_elim x y : P256_Spec.on_curve x y = true ->
  0 <= x < p256 /\ 0 <= y < p256 /\ (y * y) mod p256 = curve_rhs x.
Proof.
  unfold P256_Spec.on_curve. intros H. repeat (apply andb_true_iff in H as [H ?]).
  repeat match goal with E : (_ <=? _) = true |- _ => apply Z.leb_le in E | E : (_ <? _) = true |- _ => apply Z.ltb_lt in E end.
  repeat split; try assumption. now apply Z.eqb_eq.
Qed.

Lemma sqrt_exponent : 4 * ((p256 + 1) / 4) = p256 + 1.
Proof. reflexivity. Qed.

Lemma decompress_spec pk out : length pk = 64%nat -> bytes pk -> length out = 64%nat ->
  P256_Spec.on_curve (P256_Spec.key_x pk) (P256_Spec.key_y pk) = true ->
  uECC_decompress ((2 + P256_Spec.key_y pk mod 2) :: take 32 pk) out curve_secp256r1 = pk.
Proof.
  intros Lpk Bpk Lout H. apply on_curve_elim in H as (HX & HY & HE).
  pose proof (X_bound pk Lpk Bpk) as BX. pose proof (key_halves pk Lpk Bpk) as EK.
  set (X := P256_Spec.key_x pk) in *. set (Y := P256_Spec.key_y pk) in *.
  unfold uECC_decompress. cbn [num_bytes num_words curve_data curve_secp256r1 data_secp256r1 uECC_MAX_WORDS Nat.mul Nat.add x_side mod_sqrt drop curve_p].
  destruct (bytesToNative_spec (replicate 8 0) (take 32 pk) 32) as (L & W & E);
    [now apply bytes_take|rewrite length_take; lia|rewrite length_replicate; lia|reflexivity|].
  rewrite take_take, Nat.min_id in E. change (be_combine (take 32 pk)) with X in E. rewrite length_replicate in L.
  set (pt := uECC_vli_bytesToNative _ _ _) in *. clearbody pt. cbv zeta.
  assert (N8 : num 8 X pt) by (rewrite <- L, <- E; now apply num_intro).
  pose proof (num_take 8 4 X pt N8 ltac:(lia) ltac:(apply BX)) as N4.
  set (rhs := x_side_default _ _ _). assert (HR : fe (curve_rhs X) rhs) by (apply x_side_spec; [rewrite length_drop; lia|done]).
  clearbody rhs. rewrite <- HE in HR. set (s := mod_sqrt_default _ _). pose proof (mod_sqrt_spec _ _ HR) as HS. fold s in HS. clearbody s.
  pose proof (choose_root _ s Y HS HY (sqrt_of_square p256 ((p256 + 1) / 4) prime_p256 sqrt_exponent Y HY)) as HQ. change (Z.land 1) with (Z.land 0x01) in HQ.
  cbn [lookup_total list_lookup_total] in *. set (y := if negb _ then _ else s) in *. clearbody y.
  rewrite (nativeToBytes_quad out X pt) by (done || lia). unfold at_off.
  rewrite take_app_length', drop_app_length' by reflexivity.
  rewrite (nativeToBytes_quad _ Y y) by (rewrite ?length_drop; (lia || apply HQ)).
  now rewrite drop_drop, drop_ge, app_nil_r by (rewrite Lout; lia).
Qed.

(** ** Properties *)

Lemma origin_off_curve : P256_Spec.on_curve 0 0 = false.
Proof. vm_compute. reflexivity. Qed.

(** C28: [uECC_valid_public_key] answers 1 exactly for the 64-byte strings whose
    halves are the coordinates, below p, of a point of y^2 = x^3 - 3 x + b:
    the word-level comparison, squaring and reduction decide membership of
    P-256, for every input. *)
Theorem uecc_valid_public_key_correct (pk : list Z) : length pk = 64%nat -> bytes pk ->
  uECC_valid_public_key pk curve_secp256r1 =
    (if P256_Spec.on_curve (P256_Spec.key_x pk) (P256_Spec.key_y pk) then 1 else 0).
Proof.
  intros L B. rewrite (valid_public_key_spec pk L B).
  destruct (Z.eqb_spec (P256_Spec.key_x pk) 0) as [->|]; [destruct (Z.eqb_spec (P256_Spec.key_y pk) 0) as [->|]|]; cbn [negb andb].
  - now rewrite origin_off_curve.
  - now destruct (P256_Spec.on_curve _ _).
  - now destruct (P256_Spec.on_curve _ _).
Qed.

(** C27: Decompressing a compressed key gives the key back, for every public key
    that [uECC_valid_public_key] accepts: the square root of the code is one
    of the two roots, and the parity bit selects the right one. *)
Theorem uecc_compress_roundtrip (pk compressed out : list Z) : length pk = 64%nat -> bytes pk ->
  length compressed = 33%nat -> length out = 64%nat -> uECC_valid_public_key pk curve_secp256r1 = 1 ->
  uECC_decompress (uECC_compress pk compressed curve_secp256r1) out curve_secp256r1 = pk.
Proof.
  intros L B Lc Lo V. rewrite (compress_key_spec pk L) by done. apply decompress_spec; [done|done|done|].
  rewrite (valid_public_key_spec pk L B) in V. destruct (P256_Spec.on_curve _ _); [done|]. now rewrite andb_false_r in V.
Qed.

(** ** Witnesses *)

(** The base point as a key. *)
Definition base_key : list Z := be_split 32 (vval (take 4 secp256r1_G)) ++ be_split 32 (vval (drop 4 secp256r1_G)).

Lemma bytes_base_key : bytes base_key.
Proof. apply bytes_app. split; apply bytes_be_split. Qed.

Lemma uecc_valid_public_key_correct_witness : uECC_valid_public_key base_key curve_secp256r1 = 1.
Proof.
  rewrite (uecc_valid_public_key_correct base_key eq_refl bytes_base_key). vm_compute. reflexivity.
Defined.

Lemma uecc_compress_roundtrip_witness :
  uECC_decompress (uECC_compress base_key (replicate 33 0) curve_secp256r1) (replicate 64 0) curve_secp256r1 = base_key.
Proof.
  apply (uecc_compress_roundtrip base_key (replicate 33 0) (replicate 64 0) eq_refl bytes_base_key eq_refl eq_refl).
  vm_compute. reflexivity.
Defined.
