(* ===== verification/UECCSign.v ===== *)
(** * UECCSign: the scalars of ECDSA in micro-ecc

    Random scalars lie below the order of the base point, a signature solves
    the equation of ECDSA, and verification recovers the nonce from it. *)

From stdpp Require Import base list numbers.
From Stdlib Require Import ZArith Lia Zdivisibility.
From S2P Require Import Prelude Machine UECC UECCVli UECCField Prime25519 Prime256 UECCKeys.
Import UECC.

Local Open Scope Z_scope.
Local Open Scope buf_scope.

(** ** Specification *)

Module ECDSA_Spec.

(** The number of a hash: its first 32 bytes, most significant first. *)
Definition hash_int (message_hash : list Z) (hash_size : nat) : Z := be_combine (take (Nat.min 32 hash_size) message_hash).

Definition private_int (private_key : list Z) : Z := be_combine (take 32 private_key).

(** A scalar of the group, other than zero. *)
Definition scalar (v : Z) : bool := (0 <? v) && (v <? n256).

Definition sig_r (signature : list Z) : Z := be_combine (take 32 signature).
Definition sig_s (signature : list Z) : Z := be_combine (take 32 (drop 32 signature)).

(** What a random number generator fills: as many bytes as it is asked for. *)
Definition fills {R} (rng : R -> nat -> list Z * Z * R) : Prop :=
  forall st n, let '(bs, _, _) := rng st n in length bs = n /\ bytes bs.

End ECDSA_Spec.
Import ECDSA_Spec.

Lemma scalar_spec v : scalar v = true <-> 0 < v < n256.
Proof. unfold scalar. rewrite andb_true_iff, Z.ltb_lt, Z.ltb_lt. done. Qed.

(** ** Arithmetic modulo the order *)

Lemma n256_bounds : 2 ^ 255 <= n256 < 2 ^ 256.
Proof. done. Qed.

Lemma n256_odd : Z.odd n256 = true.
Proof. reflexivity. Qed.

Lemma n256_pos : 1 < n256.
Proof. done. Qed.

Lemma prime_gcd P v : Z.prime P -> 0 < v < P -> Z.gcd v P = 1.
Proof.
  intros HP Hv. rewrite Z.gcd_comm. apply Z.coprime_prime_l; [done|]. intros D%Z.divide_pos_le; lia.
Qed.

Lemma prime_mul_mod P a b : Z.prime P -> 0 < a < P -> 0 < b < P -> 0 < (a * b) mod P < P.
Proof.
  intros HP Ha Hb. pose proof (Z.mod_pos_bound (a * b) P ltac:(lia)) as B.
  assert ((a * b) mod P <> 0); [|lia]. intros E. apply Z.mod_divide in E; [|lia].
  apply Z.divide_prime_mul in E; [|done]. destruct E as [E|E]; apply Z.divide_pos_le in E; lia.
Qed.

Lemma modMult_n r V1 V2 l1 l2 : length r = 4%nat -> num 4 V1 l1 -> num 4 V2 l2 ->
  quad ((V1 * V2) mod n256) (uECC_vli_modMult r l1 l2 secp256r1_n 4).
Proof.
  intros Lr H1 H2. apply (wrote_quad r); [done|]. apply vli_modMult_spec; [lia|done|done|apply secp256r1_n_quad|apply n256_bounds].
Qed.

Lemma modInv_n r V l : length r = 4%nat -> num 4 V l -> 0 < V < n256 ->
  exists U, quad U (uECC_vli_modInv r l secp256r1_n 4) /\ U < n256 /\ (U * V) mod n256 = 1.
Proof.
  intros Lr H HV. apply vli_modInv_spec; [done|done|apply secp256r1_n_quad|exact n256_odd|exact n256_pos|].
  now apply (prime_gcd n256 V prime_n256).
Qed.

Lemma quad_num V l : quad V l -> num 4 V l.
Proof. intros H. apply H. Qed.

Lemma quad_length V l : quad V l -> length l = 4%nat.
Proof. intros H. apply H. Qed.

#[export] Hint Resolve quad_num quad_length : uecc.
Local Hint Resolve modMult_n : uecc.

(** An inverse of a product, times one factor, is an inverse of the other. *)
Lemma blinded_inverse P K T V : 0 < P -> (V * ((K * T) mod P)) mod P = 1 mod P -> (((V * T) mod P) * K) mod P = 1 mod P.
Proof. intros HP E. rewrite Zmult_mod_idemp_l. rewrite Zmult_mod_idemp_r in E. rewrite <- E. f_equal. ring. Qed.

Lemma sign_invert_spec K T k tmp : quad K k -> num 4 T tmp -> 0 < K < n256 -> 0 < T < n256 ->
  exists I, quad I (sign_invert k tmp curve_secp256r1) /\ I < n256 /\ (I * K) mod n256 = 1.
Proof.
  intros HK HT BK BT. unfold sign_invert. cbn [num_n_bits curve_n curve_data curve_secp256r1 data_secp256r1].
  change (BITS_TO_WORDS 256) with 4%nat. cbv zeta.
  set (k1 := uECC_vli_modMult k k tmp _ _). assert (H1 : quad ((K * T) mod n256) k1) by (unfold k1; eauto with uecc). clearbody k1.
  pose proof (prime_mul_mod n256 K T prime_n256 BK BT) as B1.
  destruct (modInv_n k1 _ k1 (quad_length _ _ H1) (quad_num _ _ H1) B1) as (V & HV & _ & EV).
  set (k2 := uECC_vli_modInv k1 k1 _ _) in *. clearbody k2.
  exists ((V * T) mod n256). split; [eauto with uecc|]. split; [exact (proj2 (Z.mod_pos_bound _ n256 eq_refl))|].
  exact (blinded_inverse n256 K T V eq_refl EV).
Qed.

(** ** The hash *)

Lemma bits2int_spec native bits bits_size : length native = 4%nat -> bytes bits -> (bits_size <= length bits)%nat ->
  quad (hash_int bits bits_size) (bits2int native bits bits_size curve_secp256r1).
Proof.
  intros Ln Hb Ls. unfold bits2int. cbn [num_n_bits curve_n curve_data curve_secp256r1 data_secp256r1].
  change (BITS_TO_WORDS 256) with 4%nat. change (BITS_TO_BYTES 256) with 32%nat. cbv zeta.
  set (m := if (32 <? bits_size)%nat then 32%nat else bits_size).
  assert (Em : m = Nat.min 32 bits_size) by (unfold m; destruct (Nat.ltb_spec 32 bits_size); lia). clearbody m.
  rewrite (proj2 (Z.leb_le (Z.of_nat m * 8) 256)) by lia.
  rewrite vli_clear_spec, drop_ge, app_nil_r by lia.
  destruct (bytesToNative_spec (replicate 4 0) bits m) as (L & W & E); [done|lia|rewrite length_replicate; lia| |].
  - rewrite vli_clear_spec, length_replicate; [|rewrite length_replicate; transitivity ((32 + 7) / 8)%nat; [apply Nat.Div0.div_le_mono; lia|cbn; lia]].
    assert (H : ((m + 7) / 8 <= 4)%nat) by (transitivity ((32 + 7) / 8)%nat; [apply Nat.Div0.div_le_mono; lia|cbn; lia]).
    set (q := ((m + 7) / 8)%nat) in *. clearbody q. rewrite drop_replicate, <- replicate_add. f_equal. lia.
  - rewrite length_replicate in L. unfold hash_int. rewrite <- Em, <- E. now apply quad_of_words.
Qed.

Lemma hash_int_bound bits m : bytes bits -> (m <= length bits)%nat -> 0 <= hash_int bits m < 2 ^ 256.
Proof. intros Hb Hm. exact (quad_bound _ _ (bits2int_spec (replicate 4 0) bits m eq_refl Hb Hm)). Qed.

(** ** The second half of a signature *)

(** One subtraction reduces the sum enough for the product that follows. *)
Lemma modAdd_n r V1 V2 l1 l2 : length r = 4%nat -> num 4 V1 l1 -> num 4 V2 l2 -> V2 < n256 ->
  exists S, quad S (uECC_vli_modAdd r l1 l2 secp256r1_n 4) /\ S mod n256 = (V1 + V2) mod n256.
Proof.
  intros Lr H1 H2 B2. pose proof (num_bound _ _ _ H1) as B1. change (base 4) with (2 ^ 256) in B1. eexists. split.
  - apply (wrote_quad r); [done|]. apply vli_modAdd_once; [lia|exact H1|exact H2|apply secp256r1_n_quad|]. change (base 4) with (2 ^ 256). lia.
  - destruct (V1 + V2 <? n256); [done|]. replace (V1 + V2 - n256) with (V1 + V2 + -1 * n256) by lia. apply Z_mod_plus_full.
Qed.

Lemma sign_scalar_spec s tmp p k R I private_key message_hash hash_size : length s = 4%nat -> length tmp = 4%nat ->
  num 4 R p -> quad I k -> length private_key = 32%nat -> bytes private_key -> bytes message_hash ->
  (hash_size <= length message_hash)%nat ->
  quad (((hash_int message_hash hash_size + R * private_int private_key) * I) mod n256)
    (sign_scalar s tmp p k private_key message_hash hash_size curve_secp256r1).
Proof.
  intros Ls Lt HR HI Lk Bk Bh Lh. unfold sign_scalar. cbn [num_words num_n_bits curve_n curve_data curve_secp256r1 data_secp256r1].
  change (BITS_TO_WORDS 256) with 4%nat. change (BITS_TO_BYTES 256) with 32%nat. cbv zeta.
  set (t1 := uECC_vli_bytesToNative tmp private_key 32).
  assert (H1 : quad (private_int private_key) t1) by (apply bytesToNative_quad; (done || lia)). clearbody t1.
  set (s0 := uECC_vli_set _ p 4). assert (H0 : quad R s0).
  { apply (wrote_quad (s.[4 - 1 <- 0])); [now rewrite length_insert|]. apply vli_set_wrote; [rewrite length_insert; lia|done]. } clearbody s0.
  set (s1 := uECC_vli_modMult s0 t1 s0 _ 4). assert (H2 : quad ((private_int private_key * R) mod n256) s1) by (unfold s1; eauto with uecc). clearbody s1.
  set (t2 := bits2int t1 _ _ _). assert (H3 : quad (hash_int message_hash hash_size) t2) by (apply bits2int_spec; eauto with uecc). clearbody t2.
  destruct (modAdd_n s1 _ _ t2 s1 (quad_length _ _ H2) (quad_num _ _ H3) (quad_num _ _ H2)) as (S & HS & ES).
  { exact (proj2 (Z.mod_pos_bound _ n256 eq_refl)). }
  set (s2 := uECC_vli_modAdd _ _ _ _ _) in *. clearbody s2.
  replace (((hash_int message_hash hash_size + R * private_int private_key) * I) mod n256) with ((S * I) mod n256).
  - eauto with uecc.
  - rewrite <- Zmult_mod_idemp_l, ES, Zplus_mod_idemp_r, Zmult_mod_idemp_l, (Z.mul_comm R). done.
Qed.

(** ** Random scalars *)

Lemma words_of_bytes_length bs n : length bs = (8 * n)%nat -> length (words_of_bytes bs) = n.
Proof.
  revert bs. induction n as [|n IH]; intros bs L; [destruct bs; [done|discriminate L]|]. unfold words_of_bytes in *.
  rewrite chunks_unfold by (try lia; intros ->; discriminate L). cbn [fmap list_fmap length]. f_equal.
  apply IH. rewrite length_drop. lia.
Qed.

Lemma words_of_bytes_words bs : bytes bs -> words (words_of_bytes bs).
Proof.
  remember (length bs) as n eqn:En. revert bs En. induction (lt_wf n) as [n _ IH]. intros bs -> B.
  destruct (decide (bs = [])) as [->|N]; [constructor|]. unfold words_of_bytes. rewrite chunks_unfold by (lia || done).
  assert (L : (0 < length bs)%nat) by (destruct bs; [done|cbn; lia]).
  constructor; [|apply (IH (length (drop 8 bs))); [rewrite length_drop; lia|done|now apply bytes_drop]].
  pose proof (le_combine_bound (take 8 bs) ltac:(now apply bytes_take)) as H. unfold word. split; [apply H|].
  eapply Z.lt_le_trans; [apply H|]. change (2 ^ 64) with (256 ^ 8). apply Z.pow_le_mono_r; [lia|]. rewrite length_take. lia.
Qed.

Lemma blit_full {A} (dst src : list A) : length src = length dst -> blit dst 0 src = src.
Proof. intros L. unfold blit. rewrite drop_ge by lia. now rewrite app_nil_r. Qed.

Section Rng.
Context {R : Type} (g_rng_function : option (R -> nat -> list Z * Z * R)).
Hypothesis Rng : forall rng, g_rng_function = Some rng -> fills rng.

(** A random number that was accepted. *)
Definition drawn (M : Z) (random : list Z) (ok : Z) : Prop :=
  length random = 4%nat /\ (ok <> 0 -> exists V, quad V random /\ 0 < V < M).

Lemma random_tries_spec (rng : R -> nat -> list Z * Z * R) top M : fills rng -> num 4 M top -> forall tries random (st : R), length random = 4%nat ->
  let '(random', ok, _) := random_tries tries rng random top 4 256 st in drawn M random' ok.
Proof.
  intros HF HM. induction tries as [|tries IH]; intros random st L; [done|]. cbn [random_tries].
  pose proof (HF st (4 * uECC_WORD_SIZE)%nat) as F. destruct (rng st _) as [[bs ok] st']. destruct F as [Lb Bb].
  pose proof (words_of_bytes_length bs 4 Lb) as LW. pose proof (words_of_bytes_words bs Bb) as WW.
  cbv zeta. rewrite blit_full by lia. set (w := words_of_bytes bs) in *. clearbody w.
  destruct (ok =? 0); [done|]. rewrite list_insert_id'.
  2: { intros _. rewrite list_lookup_lookup_total_lt by lia. f_equal. unfold wshr. change (Z.of_nat 4 * 64 - 256) with 0. rewrite Z.shiftr_0_r.
       change 0xffffffffffffffff with (Z.ones 64). rewrite Z.land_ones by lia. pose proof (words_lookup w 3 WW) as W3.
       symmetry. apply Z.mod_small. exact W3. }
  destruct ((uECC_vli_isZero w 4 =? 0) && (uECC_vli_cmp top w 4 =? 1)) eqn:E; [|now apply IH].
  split; [done|]. intros _. exists (vval w). pose proof (quad_of_words w LW WW) as Q. split; [done|].
  apply andb_true_iff in E as [E1 E2]. rewrite (vli_isZero_spec 4 _ w (proj2 Q)) in E1.
  rewrite (vli_cmp_spec 4 M _ top w (le_n 4) HM (proj2 Q)) in E2. pose proof (quad_bound _ _ Q).
  destruct (Z.eqb_spec (vval w) 0); [discriminate|]. destruct (Z.compare_spec M (vval w)); try discriminate. lia.
Qed.

Lemma generate_random_int_spec top M random st : num 4 M top -> 2 ^ 255 <= M -> length random = 4%nat ->
  let '(random', ok, _) := uECC_generate_random_int g_rng_function random top 4 st in drawn M random' ok.
Proof.
  intros HM BM L. unfold uECC_generate_random_int. cbv zeta. pose proof (num_bound _ _ _ HM) as B. change (base 4) with (2 ^ 256) in B.
  rewrite (vli_numBits_spec 4 M top HM), bit_size_256 by lia. destruct g_rng_function as [rng|] eqn:E; [|done].
  now apply random_tries_spec; [apply Rng|..].
Qed.
End Rng.
