(* ===== verification/UECCKeygen.v ===== *)
(** * UECCKeygen: public keys and shared secrets of micro-ecc

    The scalar that the code adds to make the ladder's length fixed is regular
    for all private keys but 1, n - 2 and n - 1, so that
    [uECC_compute_public_key] returns the multiple of the base point, and two
    parties share a secret. *)

From stdpp Require Import base list numbers.
From Stdlib Require Import ZArith Lia Zmod ZmodInv Zdivisibility.
From S2P Require Import Prelude Machine UInt128 UECC UECCVli UECCField Prime25519 Prime256 Edwards Weierstrass Jacobian UECCPoints UECCMult BaseOrder UECCKeys UECCSign.
Import UECC Mult_Spec ECDSA_Spec.

Local Open Scope Z_scope.
Local Open Scope buf_scope.

(** ** Regular scalars *)

Section Regular.
Variables N H : Z.
Hypothesis N_odd : N = 2 * H + 1.
Hypothesis N_low : 2 ^ 255 < N.
Hypothesis N_high : N < 2 ^ 256.

(** The scalars of the ladder are below 3 N, so that 2 j + 1 could only be N. *)
Lemma prefix_multiple K j : 2 ^ 256 <= K -> K + 1 < 3 * N -> 0 <= j -> 2 * j <= K -> Z.divide N (2 * j + 1) -> j = H.
Proof. intros B1 B2 Hj Hk [c Hc]. assert (c = 1 \/ c = 2) as [-> | ->] by nia; lia. Qed.

Lemma regular_prefix K i : 2 ^ 256 <= K -> K + 1 < 3 * N -> (K < 2 * N - 2 \/ 2 * N + 1 < K) -> 0 <= i ->
  ~ Z.divide N (2 * (K / 2 ^ (i + 1)) + 1).
Proof.
  intros B1 B2 Hne Hi D. pose proof (Z.pow_pos_nonneg 2 (i + 1) ltac:(lia) ltac:(lia)) as P2.
  set (j := K / 2 ^ (i + 1)) in *. assert (Hj : 0 <= j) by (apply Z.div_pos; lia).
  pose proof (Z.mul_div_le K (2 ^ (i + 1)) P2) as L1. pose proof (Z.mul_succ_div_gt K (2 ^ (i + 1)) P2) as L2. fold j in L1, L2.
  rewrite Z.pow_add_r in * by lia. change (2 ^ 1) with 2 in *. assert (P1 : 0 < 2 ^ i) by (apply Z.pow_pos_nonneg; lia).
  assert (E : j = H) by (apply (prefix_multiple K j); (nia || assumption)). clearbody j. subst j. clear D.
  destruct (Z.eq_dec i 0) as [->|N0]; [change (2 ^ 0) with 1 in *; lia|].
  destruct (Z.eq_dec i 1) as [->|N1]; [change (2 ^ 1) with 2 in *; lia|].
  assert (P4 : 4 <= 2 ^ i) by (change 4 with (2 ^ 2); apply Z.pow_le_mono_r; lia). nia.
Qed.

(** The other scalars meet H before their last two bits, and only there. *)
Lemma irregular_prefix K : 2 * N - 2 <= K <= 2 * N + 1 ->
  2 * (K / 2 ^ 2) + 1 = N /\ forall i, 2 <= i -> ~ Z.divide N (2 * (K / 2 ^ (i + 1)) + 1).
Proof.
  intros HK. split; [change (2 ^ 2) with 4; pose proof (Z.div_mod K 4 ltac:(lia)); pose proof (Z.mod_pos_bound K 4 ltac:(lia)); lia|].
  intros i Hi D. pose proof (Z.pow_pos_nonneg 2 (i + 1) ltac:(lia) ltac:(lia)) as P2.
  assert (P8 : 8 <= 2 ^ (i + 1)) by (change 8 with (2 ^ 3); apply Z.pow_le_mono_r; lia).
  set (j := K / 2 ^ (i + 1)) in *. assert (Hj : 0 <= j) by (apply Z.div_pos; lia).
  pose proof (Z.mul_div_le K (2 ^ (i + 1)) P2) as L1. fold j in L1. apply Z.divide_pos_le in D; nia.
Qed.

End Regular.

Lemma n256_half : n256 = 2 * ((n256 - 1) / 2) + 1.
Proof. reflexivity. Qed.

(** What [regularize_k] makes of a scalar. *)
Definition regularized (D : Z) : Z := if D + n256 <? 2 ^ 256 then D + 2 * n256 else D + n256.

Lemma regularized_bounds D : 0 <= D < n256 -> 2 ^ 256 <= regularized D < 2 ^ 257 /\ regularized D + 1 < 3 * n256.
Proof.
  intros HD. pose proof n256_bounds. assert (2 ^ 256 + 10 < 2 * n256) by reflexivity. unfold regularized. change (2 ^ 257) with (2 * 2 ^ 256).
  set (N := n256) in *. clearbody N. destruct (Z.ltb_spec (D + N) (2 ^ 256)); lia.
Qed.

Lemma regularized_regular D : 2 <= D <= n256 - 3 -> regular (regularized D).
Proof.
  intros HD i Hi. destruct (regularized_bounds D) as [B1 B2]; [lia|].
  assert (Hne : regularized D < 2 * n256 - 2 \/ 2 * n256 + 1 < regularized D).
  { unfold regularized. set (N := n256) in *. clearbody N. destruct (D + N <? 2 ^ 256); lia. }
  assert (HL : 2 ^ 255 < n256) by reflexivity. pose proof n256_half as HH. pose proof (proj2 n256_bounds) as HU.
  exact (regular_prefix n256 ((n256 - 1) / 2) HH HL HU _ i (proj1 B1) B2 Hne (proj1 Hi)).
Qed.

Lemma regularized_mod D : Z.divide n256 (regularized D - D).
Proof. unfold regularized. destruct (D + n256 <? 2 ^ 256); [exists 2|exists 1]; lia. Qed.

Lemma regularize_k_spec k k0 k1 D : num 4 D k -> 0 <= D < n256 -> length k0 = 4%nat -> length k1 = 4%nat ->
  let '(k0', k1', carry) := regularize_k k k0 k1 curve_secp256r1 in
  quad (regularized D - 2 ^ 256) (if carry then k0' else k1') /\ length k0' = 4%nat /\ length k1' = 4%nat.
Proof.
  intros HD BD L0 L1. unfold regularize_k. cbn [num_n_bits curve_n curve_data curve_secp256r1 data_secp256r1].
  change (BITS_TO_WORDS 256) with 4%nat. cbv zeta.
  destruct (vli_add_spec 4 k0 D n256 k secp256r1_n ltac:(lia) HD (proj2 secp256r1_n_quad)) as (S & c & HS & Ec & Hc & E).
  destruct (uECC_vli_add k0 k secp256r1_n 4) as [k0' c']. cbn [fst snd] in *. subst c'. change (256 <? Z.of_nat 4 * 64) with false. cbn [andb]. rewrite orb_false_r.
  apply wrote_quad in HS; [|done]. pose proof (quad_bound _ _ HS) as BS.
  destruct (vli_add_spec 4 k1 S n256 k0' secp256r1_n ltac:(lia) (proj2 HS) (proj2 secp256r1_n_quad)) as (T & c1 & HT & _ & Hc1 & E1).
  destruct (uECC_vli_add k1 k0' secp256r1_n 4) as [k1' c']. cbn [fst snd] in *.
  apply wrote_quad in HT; [|done]. pose proof (quad_bound _ _ HT) as BT. destruct (regularized_bounds D BD) as [B1 B2].
  split; [|split; [apply HS|apply HT]]. unfold regularized in *. change (2 ^ (64 * Z.of_nat 4)) with (2 ^ 256) in *. change (2 ^ 257) with (2 * 2 ^ 256) in *.
  assert (2 ^ 256 < 2 * n256) by reflexivity. set (N := n256) in *. clearbody N.
  destruct Hc as [-> | ->]; cbn [Z.eqb negb]; destruct (Z.ltb_spec (D + N) (2 ^ 256)) as [HL|HL]; try lia.
  - replace (D + 2 * N - 2 ^ 256) with T by (destruct Hc1; lia). exact HT.
  - replace (D + N - 2 ^ 256) with S by lia. exact HS.
Qed.

(** ** Keys and points *)

Module Key_Spec.

(** The bytes of a finite point. *)
Definition encode (A : point256) : list Z :=
  match A with
  | Some (x, y) => be_split 32 (Zmod.to_Z x) ++ be_split 32 (Zmod.to_Z y)
  | None => []
  end.

(** The bytes of its abscissa. *)
Definition encode_x (A : point256) : list Z := take 32 (encode A).

Definition decode (pk : list Z) : point256 := Some (of256 (P256_Spec.key_x pk), of256 (P256_Spec.key_y pk)).

(** The draw of the random z for the ladder succeeds: always so without a
    generator, when there is no draw. *)
Definition draws {R} (g_rng_function : option (R -> nat -> list Z * Z * R)) (st : R) : Prop :=
  g_rng_function <> None -> forall random, length random = 4%nat ->
    snd (fst (uECC_generate_random_int g_rng_function random secp256r1_p 4 st)) <> 0.

(** What the owner of a private key gets with the public key [pk]: the secret,
    unless the abscissa of [pk] is 0 or the draw fails. *)
Definition received {R} (g_rng_function : option (R -> nat -> list Z * Z * R)) (st : R) (pk buffer secret out : list Z) (ok : Z) : Prop :=
  ok = 1 /\ P256_Spec.key_x pk <> 0 /\ out = secret \/
  ok = 0 /\ (P256_Spec.key_x pk = 0 \/ ~ draws g_rng_function st /\ out = buffer).

End Key_Spec.
Import Key_Spec.

Lemma bF_nonzero : bF <> Zmod.zero.
Proof. intros E%of256_zero. vm_compute in E. discriminate E. Qed.

(** No point of the curve is the pair of zeros. *)
Lemma not_origin x y : on256 (Some (x, y)) -> ~ (x = Zmod.zero /\ y = Zmod.zero).
Proof. intros H [-> ->]. cbn in H. apply bF_nonzero. rewrite !Zmod.mul_0_l, !Zmod.mul_0_r, !Zmod.add_0_l in H. now symmetry. Qed.

Lemma num_split V1 V2 l1 l2 : quad V1 l1 -> quad V2 l2 -> num 4 V1 (l1 ++ l2) /\ num 4 V2 (drop 4 (l1 ++ l2)) /\ num 8 (V1 + 2 ^ 256 * V2) (l1 ++ l2).
Proof.
  intros [L1 N1] [L2 N2]. split; [now apply num_app_l|]. rewrite drop_app_length' by done. split; [exact N2|].
  destruct (num_exact 4 V1 l1 N1 L1) as [W1 E1]. destruct (num_exact 4 V2 l2 N2 L2) as [W2 E2].
  replace 8%nat with (length (l1 ++ l2)) by (rewrite length_app; lia).
  replace (V1 + 2 ^ 256 * V2) with (vval (l1 ++ l2)) by (rewrite vval_app, E1, E2, L1; reflexivity). apply num_intro, words_app. auto.
Qed.

Lemma point_words_on A out : on256 A -> point_words A out -> EccPoint_isZero out curve_secp256r1 = 0.
Proof.
  intros HA (u & v & lx & ly & -> & Hu & Hv & ->). unfold EccPoint_isZero. cbn [num_words curve_data curve_secp256r1 data_secp256r1 Nat.mul Nat.add].
  destruct (num_split _ _ lx ly Hu Hv) as (_ & _ & N8). rewrite (vli_isZero_spec 8 _ _ N8).
  pose proof (to_Z_bound256 u). pose proof (to_Z_bound256 v). pose proof (not_origin u v HA) as NO.
  destruct (Z.eqb_spec (Zmod.to_Z u + 2 ^ 256 * Zmod.to_Z v) 0) as [E|]; [|reflexivity]. destruct NO.
  assert (Zmod.to_Z u = 0 /\ Zmod.to_Z v = 0) as [Eu Ev] by lia.
  split; apply Zmod.to_Z_inj; rewrite Zmod.to_Z_0; assumption.
Qed.

Lemma store_public_words A out pk : point_words A out -> length pk = 64%nat -> store_public pk out curve_secp256r1 = encode A.
Proof.
  intros (u & v & lx & ly & -> & Hu & Hv & ->) L. unfold store_public. cbn [num_bytes num_words curve_data curve_secp256r1 data_secp256r1].
  destruct (num_split _ _ lx ly Hu Hv) as (NX & NY & _). cbv zeta. rewrite (nativeToBytes_quad pk _ _ ltac:(lia) NX). unfold at_off.
  rewrite take_app_length', drop_app_length' by (now rewrite length_be_split). rewrite (fun L => nativeToBytes_quad (drop 32 pk) _ _ L NY) by (rewrite length_drop; lia).
  rewrite drop_drop, (drop_ge pk), app_nil_r by lia. reflexivity.
Qed.

(** A scalar below the order, of a point of that order. *)
Lemma mult_regularized x y point D scalar initial_Z z result : on256 (Some (x, y)) -> mul256 n256 (Some (x, y)) = None -> x <> Zmod.zero ->
  num 4 (Zmod.to_Z x) point -> num 4 (Zmod.to_Z y) (drop 4 point) -> 2 <= D <= n256 - 3 -> quad (regularized D - 2 ^ 256) scalar ->
  length result = 8%nat -> match initial_Z with Some l => fel z l | None => z = Zmod.one end -> z <> Zmod.zero ->
  point_words (mul256 D (Some (x, y))) (EccPoint_mult result point scalar initial_Z 257 curve_secp256r1).
Proof.
  intros HP HO Nx Hx Hy BD HS Lr HZ Nz.
  assert (EK : ladder_scalar (regularized D - 2 ^ 256) = regularized D) by (unfold ladder_scalar; lia).
  pose proof (EccPoint_mult_spec x y HP HO _ scalar (proj2 HS) Nx point Hx Hy result initial_Z z Lr HZ Nz) as H. rewrite EK in H.
  specialize (H (regularized_regular D BD)).
  replace (mul256 D (Some (x, y))) with (mul256 (regularized D) (Some (x, y))); [exact H|]. apply (M_eq x y HP HO). apply regularized_mod.
Qed.

Lemma mult_regularized_zero x y point D scalar initial_Z z result : on256 (Some (x, y)) -> mul256 n256 (Some (x, y)) = None -> x = Zmod.zero ->
  num 4 (Zmod.to_Z x) point -> num 4 (Zmod.to_Z y) (drop 4 point) -> 2 <= D <= n256 - 3 -> quad (regularized D - 2 ^ 256) scalar ->
  length result = 8%nat -> match initial_Z with Some l => fel z l | None => z = Zmod.one end -> z <> Zmod.zero ->
  exists lx ly, fel2 (Zmod.zero, Zmod.zero) (lx, ly) /\ EccPoint_mult result point scalar initial_Z 257 curve_secp256r1 = lx ++ ly.
Proof.
  intros HP HO E0 Hx Hy BD HS Lr HZ Nz.
  assert (EK : ladder_scalar (regularized D - 2 ^ 256) = regularized D) by (unfold ladder_scalar; lia).
  pose proof (EccPoint_mult_zero x y HP HO _ scalar (proj2 HS) point Hx Hy result initial_Z z Lr HZ Nz E0) as H. rewrite EK in H.
  exact (H (regularized_regular D BD)).
Qed.

Lemma zeros_isZero lx ly : fel2 (Zmod.zero, Zmod.zero) (lx, ly) -> EccPoint_isZero (lx ++ ly) curve_secp256r1 = 1.
Proof.
  intros [F1 F2]. cbn [fst snd] in F1, F2. unfold EccPoint_isZero. cbn [num_words curve_data curve_secp256r1 data_secp256r1 Nat.mul Nat.add].
  destruct (num_split _ _ lx ly F1 F2) as (_ & _ & N8). rewrite (vli_isZero_spec 8 _ _ N8), !Zmod.to_Z_0. reflexivity.
Qed.

(** ** The base point *)

Lemma gx_bounds : 0 < gx < p256.
Proof. split; reflexivity. Qed.
Lemma gy_bounds : 0 < gy < p256.
Proof. split; reflexivity. Qed.

Lemma gx_nonzero : of256 gx <> Zmod.zero.
Proof. intros E%of256_zero. vm_compute in E. discriminate E. Qed.

Lemma one_nonzero256 : @Zmod.one p256 <> Zmod.zero.
Proof. intros E. apply gx_nonzero. rewrite <- (Zmod.mul_1_l (of256 gx)), E. apply Zmod.mul_0_l. Qed.

Lemma G_words : num 4 (Zmod.to_Z (of256 gx)) secp256r1_G /\ num 4 (Zmod.to_Z (of256 gy)) (drop 4 secp256r1_G).
Proof.
  rewrite (to_Z_of256_small gx), (to_Z_of256_small gy) by (pose proof gx_bounds; pose proof gy_bounds; lia).
  assert (W : words secp256r1_G) by (apply wordsb_sound; reflexivity). split; (split; [cbn; lia|]); split.
  - now apply words_take.
  - reflexivity.
  - now apply words_take, words_drop.
  - reflexivity.
Qed.

(** A multiple of the base point. *)
Lemma base_mult D scalar result : 2 <= D <= n256 - 3 -> quad (regularized D - 2 ^ 256) scalar -> length result = 8%nat ->
  point_words (mul256 D G256) (EccPoint_mult result secp256r1_G scalar None 257 curve_secp256r1).
Proof.
  intros HD HS L. destruct G_words as [GX GY].
  apply (mult_regularized _ _ secp256r1_G D scalar None Zmod.one result G256_on G256_order gx_nonzero GX GY HD HS L eq_refl one_nonzero256).
Qed.

(** The private keys that the ladder cannot treat. *)
Definition irregular_key (D : Z) : Prop := D = 1 \/ D = n256 - 2 \/ D = n256 - 1.

Lemma base_mult_irregular D scalar result : irregular_key D -> quad (regularized D - 2 ^ 256) scalar -> length result = 8%nat ->
  exists lx ly, fel2 (Zmod.zero, Zmod.zero) (lx, ly) /\ EccPoint_mult result secp256r1_G scalar None 257 curve_secp256r1 = lx ++ ly.
Proof.
  intros HD HS L. destruct G_words as [GX GY].
  assert (EK : ladder_scalar (regularized D - 2 ^ 256) = regularized D) by (unfold ladder_scalar; lia).
  assert (HL : 2 ^ 255 < n256) by reflexivity. pose proof n256_half as HH. pose proof (proj2 n256_bounds) as HU.
  assert (BK : 2 * n256 - 2 <= regularized D <= 2 * n256 + 1).
  { assert (2 ^ 256 < 2 * n256 - 2) by reflexivity. assert (1 + n256 < 2 ^ 256) by reflexivity. unfold regularized, irregular_key in *.
    set (N := n256) in *. clearbody N. destruct (Z.ltb_spec (D + N) (2 ^ 256)); lia. }
  destruct (irregular_prefix n256 ((n256 - 1) / 2) HH HL _ BK) as [Hj Hi].
  apply (EccPoint_mult_irregular (of256 gx) (of256 gy) G256_on G256_order _ scalar (proj2 HS) secp256r1_G GX GY result None Zmod.one L eq_refl one_nonzero256);
    rewrite EK; [exact Hj|]. intros i Bi. apply Hi. lia.
Qed.

Lemma EccPoint_compute_public_key_spec result k D : num 4 D k -> 2 <= D <= n256 - 3 -> length result = 8%nat ->
  exists out, EccPoint_compute_public_key result k curve_secp256r1 = (out, 1) /\ point_words (mul256 D G256) out.
Proof.
  intros HD BD L. unfold EccPoint_compute_public_key. cbv zeta. cbn [num_n_bits curve_G curve_data curve_secp256r1 data_secp256r1].
  pose proof (regularize_k_spec k (replicate uECC_MAX_WORDS 0) (replicate uECC_MAX_WORDS 0) D HD ltac:(lia) eq_refl eq_refl) as HR.
  fold data_secp256r1 curve_secp256r1.
  destruct (regularize_k k _ _ curve_secp256r1) as [[k0 k1] carry]. destruct HR as (HR & _). change (256 + 1) with 257.
  pose proof (base_mult D _ result BD HR L) as HW. rewrite (point_words_on _ _ (on_mul G256 G256_on D) HW). cbn. eauto.
Qed.

Lemma EccPoint_compute_public_key_irregular result k D : num 4 D k -> irregular_key D -> length result = 8%nat ->
  exists out, EccPoint_compute_public_key result k curve_secp256r1 = (out, 0).
Proof.
  intros HD BD L. unfold EccPoint_compute_public_key. cbv zeta. cbn [num_n_bits curve_G curve_data curve_secp256r1 data_secp256r1].
  assert (BD' : 0 <= D < n256) by (pose proof n256_bounds; unfold irregular_key in BD; lia).
  pose proof (regularize_k_spec k (replicate uECC_MAX_WORDS 0) (replicate uECC_MAX_WORDS 0) D HD BD' eq_refl eq_refl) as HR.
  fold data_secp256r1 curve_secp256r1.
  destruct (regularize_k k _ _ curve_secp256r1) as [[k0 k1] carry]. destruct HR as (HR & _). change (256 + 1) with 257.
  destruct (base_mult_irregular D _ result BD HR L) as (lx & ly & HF & ->). rewrite (zeros_isZero lx ly HF). cbn. eauto.
Qed.

(** ** The public key *)

Lemma private_quad private_key : length private_key = 32%nat -> bytes private_key ->
  quad (private_int private_key) (uECC_vli_bytesToNative (replicate uECC_MAX_WORDS 0) private_key 32).
Proof. intros L B. unfold private_int. apply bytesToNative_quad; [reflexivity|done|lia]. Qed.

(** A private key in range goes to the ladder. *)
Lemma compute_public_key_in_range private_key public_key : length private_key = 32%nat -> bytes private_key ->
  0 < private_int private_key < n256 -> exists k, num 4 (private_int private_key) k /\
  uECC_compute_public_key private_key public_key curve_secp256r1 =
    (let '(_public, ok) := EccPoint_compute_public_key (replicate (2 * uECC_MAX_WORDS) 0) k curve_secp256r1 in
     if ok =? 0 then (public_key, 0) else (store_public public_key _public curve_secp256r1, 1)).
Proof.
  intros L B BD. unfold uECC_compute_public_key. cbn [num_n_bits curve_n curve_data curve_secp256r1 data_secp256r1].
  change (BITS_TO_WORDS 256) with 4%nat. change (BITS_TO_BYTES 256) with 32%nat. cbv zeta. fold data_secp256r1 curve_secp256r1.
  pose proof (private_quad private_key L B) as HD. set (k := uECC_vli_bytesToNative _ private_key 32) in *. clearbody k.
  set (D := private_int private_key) in *. clearbody D. exists k. split; [apply HD|].
  rewrite (vli_isZero_spec 4 D k (proj2 HD)), (vli_cmp_spec 4 n256 D _ k (le_n 4) (proj2 secp256r1_n_quad) (proj2 HD)).
  rewrite (proj2 (Z.eqb_neq D 0)) by lia. rewrite (proj2 (Z.compare_gt_iff n256 D)) by lia. reflexivity.
Qed.

Lemma compute_public_key_spec private_key public_key : length private_key = 32%nat -> bytes private_key -> length public_key = 64%nat ->
  2 <= private_int private_key <= n256 - 3 ->
  uECC_compute_public_key private_key public_key curve_secp256r1 = (encode (mul256 (private_int private_key) G256), 1).
Proof.
  intros L B Lp BD. destruct (compute_public_key_in_range private_key public_key L B ltac:(lia)) as (k & Hk & ->).
  destruct (EccPoint_compute_public_key_spec (replicate (2 * uECC_MAX_WORDS) 0) k _ Hk BD eq_refl) as (out & -> & HW).
  cbn [Z.eqb]. now rewrite (store_public_words _ out public_key HW Lp).
Qed.

Lemma compute_public_key_irregular private_key public_key : length private_key = 32%nat -> bytes private_key ->
  irregular_key (private_int private_key) -> uECC_compute_public_key private_key public_key curve_secp256r1 = (public_key, 0).
Proof.
  intros L B BD. assert (BD' : 0 < private_int private_key < n256).
  { assert (2 < n256) by reflexivity. unfold irregular_key in BD. lia. }
  destruct (compute_public_key_in_range private_key public_key L B BD') as (k & Hk & ->).
  destruct (EccPoint_compute_public_key_irregular (replicate (2 * uECC_MAX_WORDS) 0) k _ Hk BD eq_refl) as (out & ->). reflexivity.
Qed.

(** A private key out of range leaves the buffer as it is. *)
Lemma compute_public_key_rejects private_key public_key : length private_key = 32%nat -> bytes private_key ->
  scalar (private_int private_key) = false ->
  uECC_compute_public_key private_key public_key curve_secp256r1 = (public_key, 0).
Proof.
  intros L B BD. unfold uECC_compute_public_key. cbn [num_n_bits curve_n curve_data curve_secp256r1 data_secp256r1].
  change (BITS_TO_WORDS 256) with 4%nat. change (BITS_TO_BYTES 256) with 32%nat. cbv zeta. fold data_secp256r1 curve_secp256r1.
  pose proof (private_quad private_key L B) as HD. set (k := uECC_vli_bytesToNative _ private_key 32) in *. clearbody k.
  set (D := private_int private_key) in *. clearbody D. pose proof (quad_bound _ _ HD).
  rewrite (vli_isZero_spec 4 D k (proj2 HD)), (vli_cmp_spec 4 n256 D _ k (le_n 4) (proj2 secp256r1_n_quad) (proj2 HD)).
  destruct (Z.eqb_spec D 0) as [->|N0]; [reflexivity|]. cbn [Z.b2z Z.eqb negb].
  unfold scalar in BD. rewrite (proj2 (Z.ltb_lt 0 D)) in BD by lia. cbn [andb] in BD. apply Z.ltb_ge in BD.
  destruct (Z.compare_spec n256 D); [reflexivity|reflexivity|lia].
Qed.

(** ** The keys of points *)

Lemma be_combine_split_256 v : 0 <= v < 2 ^ 256 -> be_combine (be_split 32 v) = v.
Proof.
  intros Hv. unfold be_combine, be_split. rewrite rev_involutive, le_combine_split. apply Z.mod_small. exact Hv.
Qed.

Section Encoded.
Variables x y : F256.
Let Q : point256 := Some (x, y).

Lemma to_Z_256 (v : F256) : 0 <= Zmod.to_Z v < 2 ^ 256.
Proof. pose proof (to_Z_bound256 v) as B. pose proof p256_bounds. lia. Qed.

Lemma length_encode : length (encode Q) = 64%nat.
Proof. unfold encode, Q. now rewrite length_app, !length_be_split. Qed.

Lemma bytes_encode : bytes (encode Q).
Proof. unfold encode, Q. apply bytes_app. split; apply bytes_be_split. Qed.

Lemma key_x_encode : P256_Spec.key_x (encode Q) = Zmod.to_Z x.
Proof.
  unfold P256_Spec.key_x, encode, Q. rewrite take_app_length' by (now rewrite length_be_split). apply be_combine_split_256, to_Z_256.
Qed.

Lemma key_y_encode : P256_Spec.key_y (encode Q) = Zmod.to_Z y.
Proof.
  unfold P256_Spec.key_y, encode, Q. rewrite drop_app_length' by (now rewrite length_be_split). apply be_combine_split_256, to_Z_256.
Qed.

Lemma load_encode : exists lx ly, load_public (encode Q) curve_secp256r1 = lx ++ ly /\ fel x lx /\ fel y ly.
Proof.
  destruct (load_public_spec (encode Q) length_encode bytes_encode) as (lx & ly & E & HX & HY).
  rewrite key_x_encode in HX. rewrite key_y_encode in HY. exists lx, ly. auto.
Qed.

End Encoded.

Lemma on_curve_of256 X Y : 0 <= X < p256 -> 0 <= Y < p256 ->
  (P256_Spec.on_curve X Y = true <-> on256 (Some (of256 X, of256 Y))).
Proof.
  intros HX HY. unfold P256_Spec.on_curve.
  rewrite (proj2 (Z.leb_le 0 X)), (proj2 (Z.leb_le 0 Y)), (proj2 (Z.ltb_lt X p256)), (proj2 (Z.ltb_lt Y p256)) by lia. cbn [andb].
  rewrite Z.eqb_eq. unfold curve_rhs. rewrite <- of256_eq. cbn [w_on]. unfold aF, bF. rewrite zero256, <- of256_three.
  rewrite <- of256_sub, <- !of256_mul, <- !of256_add. replace (X ^ 3 - 3 * X + b256) with (X * X * X + (0 - 3) * X + b256) by ring. done.
Qed.

Lemma valid_encode x y : on256 (Some (x, y)) -> uECC_valid_public_key (encode (Some (x, y))) curve_secp256r1 = 1.
Proof.
  intros H. rewrite (valid_public_key_spec _ (length_encode x y) (bytes_encode x y)), key_x_encode, key_y_encode.
  assert (HC : P256_Spec.on_curve (Zmod.to_Z x) (Zmod.to_Z y) = true).
  { apply on_curve_of256; [apply to_Z_bound256..|]. now rewrite !of256_to_Z. }
  rewrite HC. destruct (Z.eqb_spec (Zmod.to_Z x) 0) as [Ex|]; [|reflexivity]. destruct (Z.eqb_spec (Zmod.to_Z y) 0) as [Ey|]; [|reflexivity].
  rewrite Ex, Ey, origin_off_curve in HC. discriminate HC.
Qed.

(** The multiples of the base point below the order are finite. *)
Lemma base_multiple D : 0 < D < n256 -> exists x y, mul256 D G256 = Some (x, y) /\ on256 (Some (x, y)) /\ mul256 n256 (Some (x, y)) = None.
Proof.
  intros HD. destruct (mul256 D G256) as [[x y]|] eqn:E.
  - exists x, y. split; [done|]. split; [rewrite <- E; apply (on_mul G256 G256_on)|].
    rewrite <- E, <- (mul_mul n256 D G256 G256_on), Z.mul_comm, (mul_mul D n256 G256 G256_on), G256_order. apply (w_mul_None prime_p256 aF bF two256 smooth256).
  - apply (w_mul_zero prime_p256 aF bF two256 smooth256 n256 G256 prime_n256 G256_on G256_order) in E; [|discriminate].
    apply Z.divide_pos_le in E; lia.
Qed.

(** ** The shared secret *)

Lemma secret_length d1 d2 : 2 <= d1 <= n256 - 3 -> 2 <= d2 <= n256 - 3 -> length (encode_x (mul256 (d1 * d2) G256)) = 32%nat.
Proof.
  intros H1 H2. destruct (mul256 (d1 * d2) G256) as [[u v]|] eqn:E.
  - unfold encode_x. rewrite length_take, (length_encode u v). reflexivity.
  - apply (w_mul_zero prime_p256 aF bF two256 smooth256 n256 G256 prime_n256 G256_on G256_order) in E; [|discriminate].
    apply Z.divide_prime_mul in E; [|exact prime_n256]. destruct E as [E|E]; apply Z.divide_pos_le in E; lia.
Qed.

Section Secret.
Context {R : Type} (g_rng_function : option (R -> nat -> list Z * Z * R)).
Hypothesis Rng : forall rng, g_rng_function = Some rng -> fills rng.

Lemma drawn_fel random ok : drawn p256 random ok -> ok <> 0 -> exists z, fel z random /\ z <> Zmod.zero.
Proof.
  intros [_ H] Hok. destruct (H Hok) as (V & HV & BV). exists (of256 V).
  split; [apply fel_intro; split; [exact HV|apply BV]|]. rewrite <- of256_zero, Z.mod_small by lia. lia.
Qed.

Section Call.
Variables (x y : F256) (private_key secret : list Z).
Hypothesis HQ : on256 (Some (x, y)).
Hypothesis HO : mul256 n256 (Some (x, y)) = None.
Hypothesis Lk : length private_key = 32%nat.
Hypothesis Bk : bytes private_key.
Hypothesis BD : 2 <= private_int private_key <= n256 - 3.
Hypothesis Ls : length secret = 32%nat.
Local Notation secret' := (encode_x (mul256 (private_int private_key) (Some (x, y)))).

(** The ladder and what is made of its result, for either initial z. *)
Lemma secret_finish lx ly scalar initial_Z z : fel x lx -> fel y ly -> quad (regularized (private_int private_key) - 2 ^ 256) scalar ->
  match initial_Z with Some l => fel z l | None => z = Zmod.one end -> z <> Zmod.zero ->
  let out := EccPoint_mult (lx ++ ly) (lx ++ ly) scalar initial_Z 257 curve_secp256r1 in
  if Zmod.eqb x Zmod.zero then EccPoint_isZero out curve_secp256r1 = 1
  else EccPoint_isZero out curve_secp256r1 = 0 /\ uECC_vli_nativeToBytes secret 32 out = secret'.
Proof.
  intros HX HY HR HZ Nz. cbv zeta. destruct (num_split _ _ lx ly HX HY) as (NX & NY & _).
  assert (L8 : length (lx ++ ly) = 8%nat) by (rewrite length_app, (fel_length _ _ HX), (fel_length _ _ HY); reflexivity).
  destruct (Zmod.eqb_spec x Zmod.zero) as [E0|Nx].
  - destruct (mult_regularized_zero x y (lx ++ ly) _ _ initial_Z z (lx ++ ly) HQ HO E0 NX NY BD HR L8 HZ Nz) as (zx & zy & HF & ->).
    exact (zeros_isZero zx zy HF).
  - pose proof (mult_regularized x y (lx ++ ly) _ _ initial_Z z (lx ++ ly) HQ HO Nx NX NY BD HR L8 HZ Nz) as HW.
    split; [exact (point_words_on _ _ (on_mul _ HQ _) HW)|]. destruct HW as (u & v & l1 & l2 & -> & H1 & H2 & ->).
    rewrite (fun L => nativeToBytes_quad secret _ _ L (proj1 (num_split _ _ l1 l2 H1 H2))) by lia. rewrite drop_ge, app_nil_r by lia.
    unfold encode_x, encode. now rewrite take_app_length' by (now rewrite length_be_split).
Qed.

Lemma abscissa_zero : P256_Spec.key_x (encode (Some (x, y))) = 0 <-> x = Zmod.zero.
Proof. rewrite key_x_encode. split; [intros E; apply Zmod.to_Z_inj; rewrite Zmod.to_Z_0; exact E|intros ->; apply Zmod.to_Z_0]. Qed.

(** The outcome of a call is that of the specification. *)
Lemma shared_secret_spec (st : R) :
  let '(out, ok, _) := uECC_shared_secret g_rng_function (encode (Some (x, y))) private_key secret curve_secp256r1 st in
  received g_rng_function st (encode (Some (x, y))) secret secret' out ok.
Proof.
  unfold uECC_shared_secret, received. cbn [num_words num_bytes num_n_bits curve_p curve_data curve_secp256r1 data_secp256r1].
  change (BITS_TO_BYTES 256) with 32%nat. cbv zeta. fold data_secp256r1 curve_secp256r1. change (256 + 1) with 257.
  destruct (load_encode x y) as (lx & ly & -> & HX & HY). pose proof (private_quad private_key Lk Bk) as HD.
  pose proof (secret_finish lx ly) as fin. set (k := uECC_vli_bytesToNative _ private_key 32) in *. clearbody k.
  pose proof (regularize_k_spec k k (replicate uECC_MAX_WORDS 0) _ (proj2 HD) ltac:(lia) (proj1 HD) eq_refl) as HR.
  destruct (regularize_k k k _ curve_secp256r1) as [[k0 k1] carry]. destruct HR as (HR & L0 & L1).
  assert (fin' : forall initial_Z z, match initial_Z with Some l => fel z l | None => z = Zmod.one end -> z <> Zmod.zero ->
    let out := EccPoint_mult (lx ++ ly) (lx ++ ly) (if carry then k0 else k1) initial_Z 257 curve_secp256r1 in
    if Zmod.eqb x Zmod.zero then EccPoint_isZero out curve_secp256r1 = 1
    else EccPoint_isZero out curve_secp256r1 = 0 /\ uECC_vli_nativeToBytes secret 32 out = secret') by (intros; now apply (fin _ _ z)).
  clear fin. destruct (Zmod.eqb_spec x Zmod.zero) as [E0|Nx].
  all: destruct g_rng_function as [rng|] eqn:Eg.
  1, 3: assert (Lb : length (if carry then k1 else k0) = 4%nat) by (destruct carry; assumption);
    pose proof (generate_random_int_spec (Some rng) (fun r E => Rng r E) secp256r1_p p256 _ st (proj2 secp256r1_p_quad) (proj1 p256_bounds) Lb) as HG;
    assert (ND : snd (fst (uECC_generate_random_int (Some rng) (if carry then k1 else k0) secp256r1_p 4 st)) = 0 -> ~ draws (Some rng) st)
      by (intros E D; exact (D ltac:(discriminate) _ Lb E));
    destruct (uECC_generate_random_int _ _ _ _ _) as [[zl ok] st']; cbn [fst snd] in ND; destruct (Z.eqb_spec ok 0) as [Eo|No].
  - right. split; [reflexivity|]. left. exact (proj2 abscissa_zero E0).
  - destruct (drawn_fel zl ok HG No) as (z & Fz & Nz). rewrite (fin' (Some zl) z Fz Nz). right. split; [reflexivity|]. left. exact (proj2 abscissa_zero E0).
  - right. split; [reflexivity|]. right. split; [exact (ND Eo)|reflexivity].
  - destruct (drawn_fel zl ok HG No) as (z & Fz & Nz). destruct (fin' (Some zl) z Fz Nz) as [-> ->]. left. split; [reflexivity|]. split; [exact (fun E => Nx (proj1 abscissa_zero E))|reflexivity].
  - rewrite (fin' None Zmod.one eq_refl one_nonzero256). right. split; [reflexivity|]. left. exact (proj2 abscissa_zero E0).
  - destruct (fin' None Zmod.one eq_refl one_nonzero256) as [-> ->]. left. split; [reflexivity|]. split; [exact (fun E => Nx (proj1 abscissa_zero E))|reflexivity].
Qed.

End Call.
End Secret.

(** ** Properties *)

(** C11: [uECC_compute_public_key] on every private key of 32 bytes: for
    2 <= d <= n - 3 it returns 1 and the coordinates of d times the base point
    of P-256, in the group of chord and tangent; otherwise it returns 0 and
    writes nothing.  Of the valid keys 1 to n - 1 it refuses 1, n - 2 and
    n - 1, whose ladder adds opposite points. *)
Theorem uecc_compute_public_key_correct (private_key public_key : list Z) :
  length private_key = 32%nat -> bytes private_key -> length public_key = 64%nat ->
  uECC_compute_public_key private_key public_key curve_secp256r1 =
    let d := private_int private_key in
    if (2 <=? d) && (d <=? n256 - 3) then (encode (mul256 d G256), 1) else (public_key, 0).
Proof.
  intros L B Lp. cbv zeta. destruct (Z.leb_spec 2 (private_int private_key)) as [H1|H1]; [destruct (Z.leb_spec (private_int private_key) (n256 - 3)) as [H2|H2]|].
  - now apply compute_public_key_spec.
  - cbn [andb]. destruct (Z.lt_ge_cases (private_int private_key) n256) as [H3|H3].
    + apply compute_public_key_irregular; [exact L|exact B|]. unfold irregular_key. lia.
    + apply compute_public_key_rejects; [exact L|exact B|]. unfold scalar. apply andb_false_iff. right. apply Z.ltb_ge. exact H3.
  - cbn [andb]. destruct (Z.eq_dec (private_int private_key) 1) as [E|N]; [apply compute_public_key_irregular; [exact L|exact B|left; exact E]|].
    apply compute_public_key_rejects; [exact L|exact B|]. unfold scalar. apply andb_false_iff. left. apply Z.ltb_ge. lia.
Qed.

(** What a successful call says of its key. *)
Lemma computed_key private_key public_key pk : length private_key = 32%nat -> bytes private_key -> length public_key = 64%nat ->
  uECC_compute_public_key private_key public_key curve_secp256r1 = (pk, 1) ->
  2 <= private_int private_key <= n256 - 3 /\ exists x y, mul256 (private_int private_key) G256 = Some (x, y) /\ pk = encode (Some (x, y)) /\
    on256 (Some (x, y)) /\ mul256 n256 (Some (x, y)) = None.
Proof.
  intros L B Lp E. assert (BD : 2 <= private_int private_key <= n256 - 3).
  { destruct (scalar (private_int private_key)) eqn:ES; [apply scalar_spec in ES|now rewrite (compute_public_key_rejects _ _ L B ES) in E].
    destruct (Z.eq_dec (private_int private_key) 1) as [E1|]; [rewrite compute_public_key_irregular in E; [discriminate E|exact L|exact B|left; exact E1]|].
    destruct (Z.le_gt_cases (private_int private_key) (n256 - 3)); [lia|].
    rewrite compute_public_key_irregular in E; [discriminate E|exact L|exact B|unfold irregular_key; lia]. }
  split; [exact BD|]. rewrite (compute_public_key_spec _ _ L B Lp BD) in E. injection E as <-.
  destruct (base_multiple (private_int private_key) ltac:(lia)) as (x & y & EM & HO & HN). exists x, y. rewrite EM. auto.
Qed.

(** C12: Elliptic-curve Diffie-Hellman, for the public keys that
    [uECC_compute_public_key] makes of two private keys d1 and d2, which
    [uECC_valid_public_key] accepts, and any generator that fills its buffers:
    each call of [uECC_shared_secret] returns 1 and the abscissa of d1 d2 G,
    the same 32 bytes for both parties whatever the random z, or it returns 0,
    and then the abscissa of the public key is 0, or the draw of z failed and
    nothing was written.  Without a generator there is no draw to fail. *)
Theorem uecc_ecdh_agreement {R : Type} (g_rng_function : option (R -> nat -> list Z * Z * R))
    (sk1 sk2 buf1 buf2 pk1 pk2 out1 out2 : list Z) (st1 st2 : R) :
  (forall rng, g_rng_function = Some rng -> fills rng) ->
  length sk1 = 32%nat -> bytes sk1 -> length sk2 = 32%nat -> bytes sk2 -> length buf1 = 64%nat -> length buf2 = 64%nat ->
  length out1 = 32%nat -> length out2 = 32%nat ->
  uECC_compute_public_key sk1 buf1 curve_secp256r1 = (pk1, 1) -> uECC_compute_public_key sk2 buf2 curve_secp256r1 = (pk2, 1) ->
  let secret := encode_x (mul256 (private_int sk1 * private_int sk2) G256) in
  let '(s1, ok1, _) := uECC_shared_secret g_rng_function pk2 sk1 out1 curve_secp256r1 st1 in
  let '(s2, ok2, _) := uECC_shared_secret g_rng_function pk1 sk2 out2 curve_secp256r1 st2 in
  uECC_valid_public_key pk1 curve_secp256r1 = 1 /\ uECC_valid_public_key pk2 curve_secp256r1 = 1 /\ length secret = 32%nat /\
  received g_rng_function st1 pk2 out1 secret s1 ok1 /\ received g_rng_function st2 pk1 out2 secret s2 ok2.
Proof.
  intros Rng L1 B1 L2 B2 Lb1 Lb2 Lo1 Lo2 E1 E2 secret.
  destruct (computed_key _ _ _ L1 B1 Lb1 E1) as (D1 & x1 & y1 & M1 & -> & O1 & R1).
  destruct (computed_key _ _ _ L2 B2 Lb2 E2) as (D2 & x2 & y2 & M2 & -> & O2 & R2).
  pose proof (shared_secret_spec g_rng_function Rng x2 y2 sk1 out1 O2 R2 L1 B1 D1 Lo1 st1) as S1.
  pose proof (shared_secret_spec g_rng_function Rng x1 y1 sk2 out2 O1 R1 L2 B2 D2 Lo2 st2) as S2.
  assert (M12 : mul256 (private_int sk1) (Some (x2, y2)) = mul256 (private_int sk1 * private_int sk2) G256) by now rewrite <- M2, (mul_mul _ _ G256 G256_on).
  assert (M21 : mul256 (private_int sk2) (Some (x1, y1)) = mul256 (private_int sk1 * private_int sk2) G256).
  { rewrite <- M1, Z.mul_comm, (mul_mul _ _ G256 G256_on). reflexivity. }
  destruct (uECC_shared_secret _ _ _ _ _ _) as [[s1 ok1] st1']. destruct (uECC_shared_secret _ _ _ _ _ _) as [[s2 ok2] st2'].
  rewrite M12 in S1. rewrite M21 in S2.
  split; [now apply valid_encode|]. split; [now apply valid_encode|]. split; [exact (secret_length _ _ D1 D2)|split; assumption].
Qed.

(** ** Witnesses *)

Definition key_bytes (d : Z) : list Z := be_split 32 d.

Lemma small_multiple k x y : run_chain (take (Z.to_nat (Z.log2 k)) base_chain) (1, (gx, gy)) = Some (k, (x, y)) ->
  mul256 k G256 = Some (of256 x, of256 y).
Proof. intros H. exact (run_chain_spec _ _ _ H (w_mul_1 aF G256)). Qed.

Lemma uecc_compute_public_key_correct_witness :
  uECC_compute_public_key (key_bytes 2) (replicate 64 0) curve_secp256r1 = (encode (mul256 2 G256), 1).
Proof.
  rewrite (uecc_compute_public_key_correct (key_bytes 2) (replicate 64 0) eq_refl (bytes_be_split 32 2) eq_refl).
  assert (E : private_int (key_bytes 2) = 2) by reflexivity. rewrite E. reflexivity.
Defined.

(** The key of a power of 2. *)
Lemma power_key k x y : run_chain (take (Z.to_nat (Z.log2 k)) base_chain) (1, (gx, gy)) = Some (k, (x, y)) -> private_int (key_bytes k) = k ->
  2 <= k <= n256 - 3 -> 0 < x < p256 ->
  uECC_compute_public_key (key_bytes k) (replicate 64 0) curve_secp256r1 = (encode (Some (of256 x, of256 y)), 1) /\
  P256_Spec.key_x (encode (Some (of256 x, of256 y))) <> 0.
Proof.
  intros H E B BX. rewrite compute_public_key_spec; [|reflexivity|apply bytes_be_split|reflexivity|now rewrite E].
  rewrite E, (small_multiple k x y H). split; [reflexivity|]. rewrite key_x_encode, to_Z_of256_small by lia. lia.
Qed.

Lemma key_2 : exists pk, uECC_compute_public_key (key_bytes 2) (replicate 64 0) curve_secp256r1 = (pk, 1) /\ P256_Spec.key_x pk <> 0.
Proof.
  eexists. eapply (power_key 2); [vm_compute; reflexivity|reflexivity|split; discriminate|split; reflexivity].
Qed.

Lemma key_4 : exists pk, uECC_compute_public_key (key_bytes 4) (replicate 64 0) curve_secp256r1 = (pk, 1) /\ P256_Spec.key_x pk <> 0.
Proof.
  eexists. eapply (power_key 4); [vm_compute; reflexivity|reflexivity|split; discriminate|split; reflexivity].
Qed.

(** A generator whose numbers are all 8. *)
Definition rng8 (st : unit) (n : nat) : list Z * Z * unit := (take n (8 :: replicate n 0), 1, st).

Lemma rng8_fills : fills rng8.
Proof.
  intros st n. cbn [rng8]. split.
  - rewrite length_take. cbn [length]. rewrite length_replicate. lia.
  - unfold bytes. apply Forall_take. constructor; [split; reflexivity || discriminate|]. apply Forall_replicate. split; reflexivity || discriminate.
Qed.

Lemma rng8_draws st : draws (Some rng8) st.
Proof. intros _ random L. destruct random as [|a [|b [|c [|d [|]]]]]; try discriminate L. vm_compute. discriminate. Qed.

Lemma received_draws {R} (g : option (R -> nat -> list Z * Z * R)) st pk buffer secret out ok :
  received g st pk buffer secret out ok -> draws g st -> P256_Spec.key_x pk <> 0 -> out = secret /\ ok = 1.
Proof. intros [(-> & _ & ->)|(_ & [E|[N _]])] D Nx; [split; reflexivity|destruct (Nx E)|destruct (N D)]. Qed.

(** Both parties succeed, with a generator and without. *)
Lemma uecc_ecdh_agreement_witness : exists pk2 pk4 secret, length secret = 32%nat /\ forall g, g = None \/ g = Some rng8 ->
  fst (uECC_shared_secret g pk4 (key_bytes 2) (replicate 32 0) curve_secp256r1 tt) = (secret, 1) /\
  fst (uECC_shared_secret g pk2 (key_bytes 4) (replicate 32 0) curve_secp256r1 tt) = (secret, 1).
Proof.
  destruct key_2 as (pk2 & E2 & N2). destruct key_4 as (pk4 & E4 & N4).
  exists pk2, pk4, (encode_x (mul256 (private_int (key_bytes 2) * private_int (key_bytes 4)) G256)).
  pose proof (fun g HG => uecc_ecdh_agreement g (key_bytes 2) (key_bytes 4) (replicate 64 0) (replicate 64 0) pk2 pk4 (replicate 32 0) (replicate 32 0) tt tt
    HG eq_refl (bytes_be_split 32 2) eq_refl (bytes_be_split 32 4) eq_refl eq_refl eq_refl eq_refl E2 E4) as H. cbv zeta in H.
  set (secret := encode_x _) in *. clearbody secret. split.
  - specialize (H None ltac:(discriminate)). destruct (uECC_shared_secret None pk4 _ _ _ _) as [[s1 ok1] u1].
    destruct (uECC_shared_secret None pk2 _ _ _ _) as [[s2 ok2] u2]. apply H.
  - intros g Hg. assert (HG : forall rng, g = Some rng -> fills rng) by (intros rng E; destruct Hg as [-> | ->]; [discriminate E|injection E as <-; exact rng8_fills]).
    assert (HD : draws g tt) by (destruct Hg as [-> | ->]; [intros N; destruct (N eq_refl)|exact (rng8_draws tt)]).
    specialize (H g HG). destruct (uECC_shared_secret g pk4 _ _ _ _) as [[s1 ok1] u1].
    destruct (uECC_shared_secret g pk2 _ _ _ _) as [[s2 ok2] u2]. destruct H as (_ & _ & _ & H1 & H2).
    destruct (received_draws _ _ _ _ _ _ _ H1 HD N4) as [-> ->]. destruct (received_draws _ _ _ _ _ _ _ H2 HD N2) as [-> ->]. split; reflexivity.
Defined.
