(* ===== verification/UECCVerify.v ===== *)
(** * UECCVerify: the signatures of micro-ecc

    [uECC_sign_with_k] signs with the abscissa of k times the base point and
    solves the equation of ECDSA.  [uECC_verify] never follows its null
    pointer, rejects scalars out of range, and decides the equation of ECDSA
    for every valid key when its additions, which have no case for equal or
    opposite points, do not meet such points ([regular_points]; for a key whose
    private key is known, [verify_regular] says it with numbers). *)

From stdpp Require Import base list numbers.
From Stdlib Require Import ZArith Lia Zmod ZmodInv Zdivisibility.
From S2P Require Import Prelude Machine UInt128 UECC UECCVli UECCField Prime25519 Prime256 Edwards Weierstrass Jacobian UECCPoints UECCMult BaseOrder UECCOdd UECCKeys UECCSign UECCKeygen.
Import UECC Mult_Spec ECDSA_Spec Key_Spec.

Local Open Scope Z_scope.
Local Open Scope buf_scope.

(** ** Signing *)

Module Sign_Spec.

(** The nonces whose point has the abscissa that ECDSA asks for. *)
Definition signable (K : Z) : Prop := exists x y, 2 <= K <= n256 - 3 /\ mul256 K G256 = Some (x, y) /\ x <> Zmod.zero.

(** The signature of the number e with the key d and the nonce K: the abscissa
    of K times the base point and a solution s of s K = e + r d modulo n. *)
Definition signed (e d K : Z) (sig : list Z) : Prop :=
  exists x y s, 2 <= K <= n256 - 3 /\ mul256 K G256 = Some (x, y) /\ x <> Zmod.zero /\
    sig = be_split 32 (Zmod.to_Z x) ++ be_split 32 s /\ 0 <= s < n256 /\ (s * K) mod n256 = (e + Zmod.to_Z x * d) mod n256.

End Sign_Spec.
Import Sign_Spec.

Section Sign.
Context {R : Type} (g_rng_function : option (R -> nat -> list Z * Z * R)).
Hypothesis Rng : forall rng, g_rng_function = Some rng -> fills rng.

(** The draw of the blinding factor succeeds. *)
Definition blinds (st : R) : Prop := forall tmp, length tmp = 4%nat ->
  let '(_, ok, _) := sign_blind g_rng_function tmp curve_secp256r1 st in ok <> 0.

Lemma sign_blind_spec tmp (st : R) : length tmp = 4%nat ->
  let '(tmp', ok, _) := sign_blind g_rng_function tmp curve_secp256r1 st in drawn n256 tmp' ok.
Proof.
  intros L. unfold sign_blind. cbn [num_n_bits curve_n curve_data curve_secp256r1 data_secp256r1]. change (BITS_TO_WORDS 256) with 4%nat. cbv zeta.
  destruct g_rng_function as [rng|] eqn:Eg.
  - apply (generate_random_int_spec (Some rng) (fun r E => Rng r E)); [apply secp256r1_n_quad|apply n256_bounds|done].
  - rewrite vli_clear_spec, drop_ge, app_nil_r by lia. split; [reflexivity|]. intros _. exists 1. split; [|done].
    apply (quad_of_words [1; 0; 0; 0]); [done|]. now apply wordsb_sound.
Qed.

Lemma sign_equation P s K I E : 0 < P -> s = (E * I) mod P -> (I * K) mod P = 1 -> (s * K) mod P = E mod P.
Proof.
  intros HP -> HI. rewrite Zmult_mod_idemp_l, <- Z.mul_assoc, <- Zmult_mod_idemp_r, HI, Z.mul_1_r. reflexivity.
Qed.

Lemma irregular_or D : 0 < D < n256 -> irregular_key D \/ 2 <= D <= n256 - 3.
Proof. intros HD. unfold irregular_key. lia. Qed.

Lemma blinds_None st : g_rng_function = None -> blinds st.
Proof. intros E tmp _. unfold sign_blind. now rewrite E. Qed.

Local Ltac refuse := split; [reflexivity|]; split; [reflexivity|]; split; [reflexivity|].

Lemma sign_with_k_spec private_key message_hash hash_size k K signature (st : R) : quad K k ->
  length private_key = 32%nat -> bytes private_key -> bytes message_hash -> (hash_size <= length message_hash)%nat -> length signature = 64%nat ->
  let '(k', sig, ok, _) := uECC_sign_with_k g_rng_function private_key message_hash hash_size k signature curve_secp256r1 st in
  (ok = 0 /\ k' = k /\ sig = signature /\ ~ (signable K /\ blinds st)) \/
  (ok = 1 /\ signed (hash_int message_hash hash_size) (private_int private_key) K sig).
Proof.
  intros HK Lk Bk Bh Lh Ls. unfold uECC_sign_with_k.
  cbn [num_words num_bytes num_n_bits curve_n curve_G curve_data curve_secp256r1 data_secp256r1].
  change (BITS_TO_WORDS 256) with 4%nat. cbv zeta. fold data_secp256r1 curve_secp256r1. change (256 + 1) with 257.
  rewrite (vli_isZero_spec 4 K k (proj2 HK)), (vli_cmp_spec 4 n256 K _ k (le_n 4) (proj2 secp256r1_n_quad) (proj2 HK)).
  pose proof (quad_bound _ _ HK) as BK. destruct (Z.eqb_spec K 0) as [E0|N0]; [left; refuse; intros [(_ & _ & B & _) _]; lia|].
  destruct (Z.compare_spec n256 K) as [E|Hlt|Hgt]; [left; refuse; intros [(_ & _ & B & _) _]; lia..|]. cbn [Z.b2z sign_of Z.eqb negb orb]. change (1 =? 1) with true. cbn [negb].
  pose proof (regularize_k_spec k (replicate uECC_MAX_WORDS 0) (replicate uECC_MAX_WORDS 0) K (proj2 HK) ltac:(lia) eq_refl eq_refl) as HR.
  destruct (regularize_k k _ _ curve_secp256r1) as [[k0 k1] carry]. destruct HR as (HR & L0 & L1).
  destruct (irregular_or K ltac:(lia)) as [HI|BK2].
  { destruct (base_mult_irregular K _ (replicate (2 * uECC_MAX_WORDS) 0) HI HR eq_refl) as (lx & ly & [F1 F2] & ->). cbn [fst snd] in F1, F2.
    rewrite (vli_isZero_spec 4 _ _ (proj1 (num_split _ _ lx ly F1 F2))), Zmod.to_Z_0. left. refuse.
    intros [(_ & _ & B & _) _]. unfold irregular_key in HI. lia. }
  pose proof (base_mult K _ (replicate (2 * uECC_MAX_WORDS) 0) BK2 HR eq_refl) as HW.
  set (p := EccPoint_mult _ _ _ _ _ _) in *. clearbody p.
  destruct HW as (x & y & lx & ly & EM & FX & FY & ->). destruct (num_split _ _ lx ly FX FY) as (NX & _ & _).
  rewrite (vli_isZero_spec 4 _ _ NX). destruct (Z.eqb_spec (Zmod.to_Z x) 0) as [Ex|Nx0].
  { left. refuse. intros [(x' & y' & _ & E' & N') _]. rewrite EM in E'. injection E' as <- <-. apply N'.
    apply Zmod.to_Z_inj. now rewrite Zmod.to_Z_0. }
  assert (Nx : x <> Zmod.zero) by (intros ->; now rewrite Zmod.to_Z_0 in Nx0). cbn [Z.b2z Z.eqb negb].
  pose proof (sign_blind_spec k0 st L0) as HB. pose proof (fun H : blinds st => H k0 L0) as HN.
  destruct (sign_blind g_rng_function k0 curve_secp256r1 st) as [[tmp ok] st'].
  destruct (Z.eqb_spec ok 0) as [E0|Nok]; [left; refuse; intros [_ EN]; now destruct (HN EN)|]. destruct HB as [Lt HB]. destruct (HB Nok) as (T & HT & BT).
  destruct (sign_invert_spec K T k tmp HK (proj2 HT) ltac:(lia) BT) as (I & HI & _ & EI). set (k' := sign_invert k tmp curve_secp256r1) in *. clearbody k'.
  pose proof (sign_scalar_spec k1 tmp (lx ++ ly) k' _ I private_key message_hash hash_size L1 Lt NX HI Lk Bk Bh Lh) as HS.
  set (sw := sign_scalar _ _ _ _ _ _ _ _) in *. clearbody sw. set (s := (_ * I) mod n256) in *.
  rewrite (vli_numBits_spec 4 s sw (proj2 HS)). pose proof (quad_bound _ _ HS) as BS.
  assert (Bn : bit_size s <= 256).
  { unfold bit_size. destruct (Z.eqb_spec s 0); [lia|]. pose proof (Z.log2_lt_pow2 s 256 ltac:(lia)) as [HL _]. specialize (HL ltac:(lia)). lia. }
  change (Z.of_nat 32 * 8) with 256. rewrite (proj2 (Z.ltb_ge 256 (bit_size s))) by exact Bn.
  right. split; [reflexivity|]. exists x, y, s. split; [exact BK2|]. split; [exact EM|]. split; [exact Nx|].
  split; [|split; [exact (Z.mod_pos_bound _ n256 eq_refl)|exact (sign_equation n256 s K I _ eq_refl eq_refl EI)]].
  rewrite (nativeToBytes_quad signature _ _ ltac:(lia) NX). unfold at_off.
  rewrite take_app_length', drop_app_length' by (now rewrite length_be_split).
  rewrite (fun L => nativeToBytes_quad (drop 32 signature) s sw L (proj2 HS)) by (rewrite length_drop; lia).
  rewrite drop_drop, (drop_ge signature), app_nil_r by lia. reflexivity.
Qed.

(** A first try that succeeds. *)
Lemma sign_first tries private_key message_hash hash_size k signature (curve : uECC_Curve_t) (st : R) k' st' :
  uECC_generate_random_int g_rng_function k (curve_n curve) (BITS_TO_WORDS (num_n_bits curve)) st = (k', 1, st') ->
  let '(_, sig, ok, _) := uECC_sign_with_k g_rng_function private_key message_hash hash_size k' signature curve st' in
  ok = 1 -> fst (sign_tries g_rng_function (S tries) private_key message_hash hash_size k signature curve st) = (sig, 1).
Proof.
  intros E. cbn [sign_tries]. rewrite E. cbn [Z.eqb]. destruct (uECC_sign_with_k _ _ _ _ _ _ _ _) as [[[k2 sig] ok] st2]. intros ->. reflexivity.
Qed.

(** The signature of a loop of tries is one with some nonce. *)
Lemma sign_tries_spec tries private_key message_hash hash_size k signature (st : R) :
  length private_key = 32%nat -> bytes private_key -> bytes message_hash -> (hash_size <= length message_hash)%nat ->
  length signature = 64%nat -> length k = 4%nat ->
  let '(sig, ok, _) := sign_tries g_rng_function tries private_key message_hash hash_size k signature curve_secp256r1 st in
  (ok = 0 /\ sig = signature) \/ (ok = 1 /\ exists K, signed (hash_int message_hash hash_size) (private_int private_key) K sig).
Proof.
  intros Lk Bk Bh Lh Ls. revert k st. induction tries as [|tries IH]; intros k st Lw; cbn [sign_tries]; [left; split; reflexivity|].
  cbn [num_n_bits curve_n curve_data curve_secp256r1 data_secp256r1]. change (BITS_TO_WORDS 256) with 4%nat. fold data_secp256r1 curve_secp256r1.
  pose proof (generate_random_int_spec g_rng_function Rng secp256r1_n n256 k st (proj2 secp256r1_n_quad) (proj1 n256_bounds) Lw) as HG.
  destruct (uECC_generate_random_int _ _ _ _ _) as [[k' ok] st']. destruct (Z.eqb_spec ok 0) as [E0|N0]; [left; split; reflexivity|].
  destruct HG as [Lk' HG]. destruct (HG N0) as (K & HK & _).
  pose proof (sign_with_k_spec private_key message_hash hash_size k' K signature st' HK Lk Bk Bh Lh Ls) as HS.
  destruct (uECC_sign_with_k _ _ _ _ _ _ _ _) as [[[k2 sig] ok2] st2]. destruct HS as [(-> & -> & -> & _)|[-> HS]]; cbn [Z.eqb negb].
  - now apply IH.
  - right. split; [reflexivity|]. exists K. exact HS.
Qed.

End Sign.

(** ** The scalars of verification *)

Module Verify_Spec.

(** The inverse modulo n, and the scalars of verification. *)
Definition inv_n (v : Z) : Z := Zmod.to_Z (Zmod.inv (Zmod.of_Z n256 v)).
Definition scalar1 (e s : Z) : Z := (e * inv_n s) mod n256.
Definition scalar2 (r s : Z) : Z := (r * inv_n s) mod n256.

(** The number of turns of Shamir's trick. *)
Definition turns (U1 U2 : Z) : Z := Z.max (bit_size U1) (bit_size U2).

(** The multiple of the base point that bit i of the scalars selects, for the
    key d, and the one that the bits above i have accumulated. *)
Definition selected (U1 U2 d i : Z) : Z := Z.b2z (Z.testbit U1 i) + Z.b2z (Z.testbit U2 i) * d.
Definition prefix (U1 U2 d i : Z) : Z := U1 / 2 ^ i + U2 / 2 ^ i * d.

(** No addition of the trick meets equal or opposite points. *)
Definition verify_regular (U1 U2 d : Z) : Prop := forall i, 0 <= i < turns U1 U2 - 1 ->
  selected U1 U2 d i <> 0 ->
  ~ Z.divide n256 (2 * prefix U1 U2 d (i + 1) - selected U1 U2 d i) /\
  ~ Z.divide n256 (2 * prefix U1 U2 d (i + 1) + selected U1 U2 d i).

(** The same for any key Q, with the points themselves: the point that bit i of
    the scalars selects, the one accumulated from the bits above, and the
    condition on the additions, that of G and Q included. *)
Definition selected_point (U1 U2 : Z) (Q : point256) (i : Z) : point256 :=
  add256 (if Z.testbit U1 i then G256 else None) (if Z.testbit U2 i then Q else None).
Definition prefix_point (U1 U2 : Z) (Q : point256) (i : Z) : point256 :=
  add256 (mul256 (U1 / 2 ^ i) G256) (mul256 (U2 / 2 ^ i) Q).
Definition regular_points (U1 U2 : Z) (Q : point256) : Prop :=
  G256 <> Q /\ G256 <> w_opp Q /\
  forall i, 0 <= i < turns U1 U2 - 1 ->
    let D := add256 (prefix_point U1 U2 Q (i + 1)) (prefix_point U1 U2 Q (i + 1)) in
    selected_point U1 U2 Q i <> None -> selected_point U1 U2 Q i <> D /\ selected_point U1 U2 Q i <> w_opp D.

End Verify_Spec.
Import Verify_Spec.

(** The condition is not void: with the key 2, the scalars 2 and 1 double the
    base point and add the key to it, which is the same point. *)
Lemma verify_irregular_2 : ~ verify_regular 2 1 2.
Proof. intros H. destruct (H 0) as [H1 _]; [split; reflexivity || discriminate|discriminate|]. apply H1. exists 0. reflexivity. Qed.

Lemma verify_scalars_spec r s RV SV message_hash hash_size : quad RV r -> quad SV s -> 0 < SV < n256 -> bytes message_hash ->
  (hash_size <= length message_hash)%nat ->
  let '(u1, u2) := verify_scalars r s message_hash hash_size curve_secp256r1 in
  exists I, (I * SV) mod n256 = 1 /\ quad ((hash_int message_hash hash_size * I) mod n256) u1 /\ quad ((RV * I) mod n256) u2.
Proof.
  intros HR HS BS Bh Lh. unfold verify_scalars. cbn [num_n_bits curve_n curve_data curve_secp256r1 data_secp256r1].
  change (BITS_TO_WORDS 256) with 4%nat. cbv zeta. fold data_secp256r1 curve_secp256r1.
  destruct (modInv_n (replicate uECC_MAX_WORDS 0) SV s eq_refl (proj2 HS) BS) as (I & HI & _ & EI).
  set (z := uECC_vli_modInv _ s _ _) in *. clearbody z. exists I. split; [exact EI|].
  pose proof (bits2int_spec (replicate uECC_MAX_WORDS 0).[4 - 1 <- 0] message_hash hash_size eq_refl Bh Lh) as HE.
  split; [apply modMult_n; [now apply quad_length in HE|apply HE|apply HI]|]. apply modMult_n; [reflexivity|apply HR|apply HI].
Qed.

(** The scalars recover the nonce of a signature. *)
Lemma verify_equation P E R S I K d : 0 < P -> (I * S) mod P = 1 -> (S * K) mod P = (E + R * d) mod P ->
  ((E * I) mod P + (R * I) mod P * d) mod P = K mod P.
Proof.
  intros HP HI HS. rewrite Zplus_mod_idemp_l, <- (Zplus_mod_idemp_r ((R * I) mod P * d)), Zmult_mod_idemp_l, Zplus_mod_idemp_r.
  replace (E * I + R * I * d) with (I * (E + R * d)) by ring. rewrite <- Zmult_mod_idemp_r, <- HS, Zmult_mod_idemp_r.
  rewrite Z.mul_assoc, <- Zmult_mod_idemp_l, HI, Z.mul_1_l. reflexivity.
Qed.

Lemma mod_eq_divide P a b : P <> 0 -> a mod P = b mod P -> Z.divide P (a - b).
Proof. intros HP E. apply Z.mod_divide; [exact HP|]. now rewrite Zminus_mod, E, Z.sub_diag. Qed.

(** The index of the points, from the bits. *)
Lemma bit_index_spec U1 U2 u1 u2 i : num 4 U1 u1 -> num 4 U2 u2 -> 0 <= i < 256 ->
  bit_index u1 u2 i = ((if Z.testbit U1 i then 1 else 0) + (if Z.testbit U2 i then 2 else 0))%nat.
Proof.
  intros H1 H2 Hi. unfold bit_index. rewrite (vli_testBit_spec 4 U1 u1 i H1 Hi), (vli_testBit_spec 4 U2 u2 i H2 Hi).
  now destruct (Z.testbit U1 i), (Z.testbit U2 i).
Qed.

Lemma size_top_bit U : 0 < U -> Z.testbit U (bit_size U - 1) = true.
Proof. intros H. unfold bit_size. rewrite (proj2 (Z.eqb_neq U 0)) by lia. replace (Z.log2 U + 1 - 1) with (Z.log2 U) by lia. now apply Z.bit_log2. Qed.

Lemma smax_max a b : smax a b = Z.max a b.
Proof. unfold smax. destruct (Z.ltb_spec b a); lia. Qed.

Lemma bit_size_bound U : 0 <= U < 2 ^ 256 -> 0 <= bit_size U <= 256.
Proof.
  intros H. unfold bit_size. destruct (Z.eqb_spec U 0); [lia|]. pose proof (Z.log2_nonneg U).
  assert (Z.log2 U < 256) by (apply Z.log2_lt_pow2; lia). lia.
Qed.

(** The first bits select a point. *)
Lemma first_index U1 U2 u1 u2 : num 4 U1 u1 -> num 4 U2 u2 -> 0 < U2 -> 0 < turns U1 U2 <= 256 /\
  (1 <= bit_index u1 u2 (turns U1 U2 - 1) <= 3)%nat /\
  (Z.testbit U1 (turns U1 U2 - 1) = true \/ Z.testbit U2 (turns U1 U2 - 1) = true).
Proof.
  intros H1 H2 P2. pose proof (num_bound _ _ _ H1) as B1. pose proof (num_bound _ _ _ H2) as B2. change (base 4) with (2 ^ 256) in B1, B2.
  pose proof (bit_size_bound U1 B1) as S1. pose proof (bit_size_bound U2 B2) as S2.
  assert (T2 : 0 < bit_size U2) by (unfold bit_size; rewrite (proj2 (Z.eqb_neq U2 0)) by lia; pose proof (Z.log2_nonneg U2); lia).
  assert (HT : 0 < turns U1 U2 <= 256) by (unfold turns; lia). split; [exact HT|]. rewrite (bit_index_spec U1 U2) by (assumption || lia).
  assert (O : Z.testbit U1 (turns U1 U2 - 1) = true \/ Z.testbit U2 (turns U1 U2 - 1) = true).
  { unfold turns. destruct (Z.max_spec (bit_size U1) (bit_size U2)) as [[L ->]|[L ->]]; [right; now apply size_top_bit|]. left. apply size_top_bit.
    unfold bit_size in L, T2 |- *. destruct (Z.eqb_spec U1 0) as [->|]; lia. }
  split; [|exact O]. destruct (Z.testbit U1 _), (Z.testbit U2 _); destruct O; (discriminate || lia).
Qed.

(** ** Shamir's trick *)

Local Notation "x -f y" := (@Zmod.sub p256 x y) (at level 50, left associativity).
Local Notation "x *f y" := (@Zmod.mul p256 x y) (at level 40, left associativity).
Local Notation M k := (mul256 k G256).

Lemma base_eq j k : M j = M k <-> Z.divide n256 (j - k).
Proof. exact (M_eq _ _ G256_on G256_order j k). Qed.

Lemma base_add j k : M (j + k) = add256 (M j) (M k).
Proof. exact (M_add _ _ G256_on j k). Qed.

Lemma base_opp k : M (- k) = w_opp (M k).
Proof. exact (M_opp _ _ G256_on k). Qed.

Lemma base_on k : on256 (M k).
Proof. exact (M_on _ _ G256_on k). Qed.

(** Eight words of a finite point of the curve. *)
Definition holds (A : point256) (l : list Z) : Prop :=
  on256 A /\ exists x y, A = Some (x, y) /\ num 4 (Zmod.to_Z x) l /\ num 4 (Zmod.to_Z y) (drop 4 l).

(** The running point. *)
Definition running (A : point256) (o : list Z * list Z * list Z) : Prop := on256 A /\ exists p z, fel3 p z o /\ jrep z p A.

Lemma running_start A l : holds A l ->
  running A (uECC_vli_set (replicate uECC_MAX_WORDS 0) l 4, uECC_vli_set (replicate uECC_MAX_WORDS 0) (drop 4 l) 4,
    (uECC_vli_clear (replicate uECC_MAX_WORDS 0) 4).[0 <- 1]).
Proof.
  intros (HA & x & y & E & NX & NY). split; [exact HA|]. exists (apply_zF Zmod.one (x, y)), Zmod.one.
  split; [|rewrite E; apply (apply_z_jrep _ _ _ one_nonzero256 eq_refl)].
  split; [|exact fel_eq_one]. cbn [apply_zF]. rewrite !Zmod.mul_1_l, !Zmod.mul_1_r. split; (apply fel_set_num; [reflexivity|assumption]).
Qed.

Lemma running_double A rx ry z : running A (rx, ry, z) -> running (add256 A A) (double_jacobian_default rx ry z data_secp256r1).
Proof.
  intros (HA & p & zF & [FP FZ] & J). split; [now apply on_add|]. pose proof (double_jacobian_spec rx ry z p zF FP FZ (proj1 J)) as HD.
  assert (NY : snd p <> Zmod.zero).
  { destruct J as (Nz & x & y & E & ->). subst A. cbn [snd]. apply (fld_neq_mul prime_p256); [exact (ordinate_nonzero x y HA)|].
    apply (fld_neq_mul prime_p256); [apply (fld_neq_mul prime_p256)|]; exact Nz. }
  pose proof (jdouble_correct prime_p256 aF bF two256 eq_refl half256 zF p _ half256_half J HA NY) as JD.
  destruct (jdouble half256 p zF) as [p' z']. eexists _, _. split; [exact HD|exact JD].
Qed.

Lemma pair_let {A B} (o : A * B) (P : A -> Prop) (Q : B -> Prop) : (let '(a, b) := o in P a /\ Q b) -> P (fst o) /\ Q (snd o).
Proof. now destruct o. Qed.

(** The addition of a point of the table. *)
Lemma running_add A W l rx ry z : running A (rx, ry, z) -> holds W l -> W <> A -> W <> w_opp A ->
  running (add256 W A)
    (let tx := uECC_vli_set (replicate uECC_MAX_WORDS 0) l 4 in
     let ty := uECC_vli_set (replicate uECC_MAX_WORDS 0) (drop 4 l) 4 in
     let '(tx, ty) := apply_z tx ty z curve_secp256r1 in
     let tz := uECC_vli_modSub (replicate uECC_MAX_WORDS 0) rx tx secp256r1_p 4 in
     let '(tx, ty, rx, ry) := XYcZ_add tx ty rx ry curve_secp256r1 in
     let z := uECC_vli_modMult_fast z z tz data_secp256r1 in (rx, ry, z)).
Proof.
  intros (HA & [X Y] & zF & [FP FZ] & J) (HW & x & y & E & NX & NY) NE NO. split; [now apply on_add|]. cbv zeta.
  set (tx := uECC_vli_set _ l 4). set (ty := uECC_vli_set _ (drop 4 l) 4).
  assert (FT : fel2 (x, y) (tx, ty)) by (split; (apply fel_set_num; [reflexivity|assumption])). clearbody tx ty.
  pose proof (apply_z_spec tx ty z (x, y) zF FT FZ) as FA. pose proof (apply_z_jrep zF (x, y) W (proj1 J) E) as JA.
  destruct (apply_z tx ty z curve_secp256r1) as [tx' ty']. destruct (apply_zF zF (x, y)) as [XT YT].
  pose proof (jrep_x prime_p256 aF bF zF XT YT X Y W A JA J HW HA NE NO) as NX'.
  pose proof (coz_add_correct prime_p256 aF zF _ _ _ _ JA J NX') as [_ JS]%pair_let.
  pose proof (XYcZ_add_spec tx' ty' rx ry _ _ FA FP) as FS.
  set (tz := uECC_vli_modSub _ rx tx' _ _). assert (FTZ : fel (X -f XT) tz) by (apply fel_sub; [reflexivity|apply FP|apply FA]). clearbody tz.
  destruct (XYcZ_add tx' ty' rx ry curve_secp256r1) as [[[a1 a2] rx'] ry']. destruct FS as [_ FS].
  eexists _, (zF *f (X -f XT)). split; [split; [exact FS|apply fel_mul; [now apply fel_length in FZ|exact FZ|exact FTZ]]|exact JS].
Qed.

(** ** The table of points *)

Lemma holds_base : holds G256 secp256r1_G.
Proof. destruct G_words as [GX GY]. split; [exact G256_on|]. exists (of256 gx), (of256 gy). auto. Qed.

Lemma holds_words A lx ly x y : on256 A -> A = Some (x, y) -> fel x lx -> fel y ly -> holds A (lx ++ ly).
Proof. intros HA E HX HY. destruct (num_split _ _ lx ly HX HY) as (NX & NY & _). split; [exact HA|]. exists x, y. auto. Qed.

Lemma verify_sum_spec Q l : G256 <> Q -> G256 <> w_opp Q -> holds Q l -> holds (add256 G256 Q) (verify_sum l curve_secp256r1).
Proof.
  intros NE NO (HQ & x & y & E & NX & NY). destruct G_words as [GX GY]. unfold verify_sum. curve_simpl. change (curve_G data_secp256r1) with secp256r1_G. cbv zeta.
  set (zeros := replicate uECC_MAX_WORDS 0).
  assert (FQ : fel2 (x, y) (uECC_vli_set zeros l 4, uECC_vli_set zeros (drop 4 l) 4)) by (split; (apply fel_set_num; [reflexivity|assumption])).
  assert (FG : fel2 (of256 gx, of256 gy) (uECC_vli_set zeros secp256r1_G 4, uECC_vli_set zeros (drop 4 secp256r1_G) 4)).
  { split; (apply fel_set_num; [reflexivity|assumption]). }
  set (sx := uECC_vli_set zeros l 4) in *. set (sy := uECC_vli_set zeros (drop 4 l) 4) in *.
  set (tx := uECC_vli_set zeros secp256r1_G 4) in *. set (ty := uECC_vli_set zeros (drop 4 secp256r1_G) 4) in *. clearbody sx sy tx ty.
  pose proof (apply_z_jrep Zmod.one _ _ one_nonzero256 E) as JQ. pose proof (apply_z_jrep Zmod.one _ G256 one_nonzero256 eq_refl) as JG.
  cbn [apply_zF] in JQ, JG. rewrite !Zmod.mul_1_l, !Zmod.mul_1_r in JQ, JG.
  pose proof (jrep_x prime_p256 aF bF Zmod.one _ _ x y G256 Q JG JQ G256_on HQ NE NO) as NX'.
  pose proof (coz_add_correct prime_p256 aF Zmod.one _ _ _ _ JG JQ NX') as [_ JS]%pair_let. cbn [fst] in JS. rewrite Zmod.mul_1_l in JS.
  pose proof (XYcZ_add_spec tx ty sx sy _ _ FG FQ) as FS.
  set (z := uECC_vli_modSub zeros sx tx _ _). assert (FZ : fel (x -f of256 gx) z) by (apply fel_sub; [reflexivity|apply FQ|apply FG]). clearbody z.
  destruct (XYcZ_add tx ty sx sy curve_secp256r1) as [[[a1 a2] sx'] sy']. destruct FS as [_ FS].
  set (zi := uECC_vli_modInv z z _ _). assert (FI : fel (Zmod.inv (x -f of256 gx)) zi) by (apply fel_inv; [now apply fel_length in FZ|exact FZ]). clearbody zi.
  pose proof (apply_z_spec sx' sy' zi _ _ FS FI) as FA. destruct (apply_z sx' sy' zi curve_secp256r1) as [ax ay].
  assert (HW : Zmod.inv (x -f of256 gx) *f (x -f of256 gx) = Zmod.one) by exact (Zmod.mul_inv_same_l_prime _ prime_p256 NX').
  destruct (apply_z_affine prime_p256 _ _ _ _ JS (or_introl HW)) as (u & v & EM & EA). rewrite EA, HW in FA.
  apply (holds_words _ ax ay u v); [apply on_add; [exact G256_on|exact HQ]|exact EM|apply FA|]. apply (fel_eq _ _ _ (proj2 FA)). apply Zmod.mul_1_r.
Qed.

(** What the table holds at the index of two bits. *)
Lemma table_spec Q l (b1 b2 : bool) : G256 <> Q -> G256 <> w_opp Q -> holds Q l ->
  let points := [None; Some secp256r1_G; Some l; Some (verify_sum l curve_secp256r1)] in
  match points.[(if b1 then 1 else 0) + (if b2 then 2 else 0)] with
  | Some point => holds (add256 (if b1 then G256 else None) (if b2 then Q else None)) point
  | None => b1 = false /\ b2 = false
  end.
Proof.
  intros NE NO HL. destruct b1, b2; cbn [Nat.add lookup_total list_lookup_total].
  - now apply verify_sum_spec.
  - exact holds_base.
  - exact HL.
  - split; reflexivity.
Qed.

Lemma holds_finite A l : holds A l -> A <> None.
Proof. intros (_ & x & y & -> & _). discriminate. Qed.

Section Loop.
Variables (Q : point256) (U1 U2 : Z) (l u1 u2 : list Z).
Hypothesis HL : holds Q l.
Hypothesis H1 : num 4 U1 u1.
Hypothesis H2 : num 4 U2 u2.
Hypothesis P2 : 0 < U2.
Hypothesis HV : regular_points U1 U2 Q.
Let points := [None; Some secp256r1_G; Some l; Some (verify_sum l curve_secp256r1)].

Lemma bit_multiple A (b : bool) : on256 A -> mul256 (Z.b2z b) A = if b then A else None.
Proof. intros HA. destruct b; [apply (w_mul_1 aF)|reflexivity]. Qed.

(** A sum of four points. *)
Lemma add_four A B C D : on256 A -> on256 B -> on256 C -> on256 D ->
  add256 (add256 A B) (add256 C D) = add256 (add256 A C) (add256 B D).
Proof.
  intros HA HB HC HD. rewrite !add_assoc; try (apply on_add; assumption); try assumption.
  f_equal. rewrite <- !add_assoc by assumption. f_equal. now apply add_comm.
Qed.

Lemma prefix_next i : 0 <= i ->
  prefix_point U1 U2 Q i = add256 (selected_point U1 U2 Q i) (add256 (prefix_point U1 U2 Q (i + 1)) (prefix_point U1 U2 Q (i + 1))).
Proof.
  intros Hi. unfold prefix_point, selected_point. pose proof (proj1 HL) as HQ.
  rewrite (halve_bit U1 i Hi), (halve_bit U2 i Hi). set (a := U1 / 2 ^ (i + 1)). set (b := U2 / 2 ^ (i + 1)).
  rewrite (Z.add_comm (2 * a)), (Z.add_comm (2 * b)). replace (2 * a) with (a + a) by lia. replace (2 * b) with (b + b) by lia.
  rewrite !mul_add by (exact G256_on || exact HQ). rewrite (bit_multiple G256 _ G256_on), (bit_multiple Q _ HQ).
  assert (HG : forall k, on256 (mul256 k G256)) by (intros k; apply on_mul; exact G256_on).
  assert (HM : forall k, on256 (mul256 k Q)) by (intros k; apply on_mul; exact HQ).
  assert (HB : on256 (if Z.testbit U1 i then G256 else None)) by (destruct (Z.testbit U1 i); [exact G256_on|exact I]).
  assert (HC : on256 (if Z.testbit U2 i then Q else None)) by (destruct (Z.testbit U2 i); [exact HQ|exact I]).
  rewrite add_four by (assumption || (apply on_add; auto)). f_equal. apply add_four; auto.
Qed.

Lemma verify_step_spec i st : 0 <= i < turns U1 U2 - 1 -> turns U1 U2 <= 256 -> running (prefix_point U1 U2 Q (i + 1)) st ->
  running (prefix_point U1 U2 Q i) (verify_step points u1 u2 i curve_secp256r1 st).
Proof.
  intros Hi HT HR. destruct st as [[rx ry] z]. unfold verify_step. curve_simpl. pose proof (running_double _ _ _ _ HR) as HD.
  destruct (double_jacobian_default rx ry z data_secp256r1) as [[rx' ry'] z']. rewrite (bit_index_spec U1 U2 u1 u2 i H1 H2) by lia.
  rewrite prefix_next by lia. destruct HV as (NE & NO & HV'). specialize (HV' i Hi). cbv zeta in HV'. unfold selected_point in *.
  pose proof (table_spec Q l (Z.testbit U1 i) (Z.testbit U2 i) NE NO HL) as HT'. cbv zeta in HT'. fold points in HT'.
  destruct (points.[_]) as [point|].
  - destruct (HV' (holds_finite _ _ HT')) as [D1 D2]. exact (running_add _ _ point rx' ry' z' HD HT' D1 D2).
  - destruct HT' as [E1 E2]. rewrite E1, E2. exact HD.
Qed.

Lemma prefix_all : prefix_point U1 U2 Q 0 = add256 (mul256 U1 G256) (mul256 U2 Q).
Proof. unfold prefix_point. change (2 ^ 0) with 1. now rewrite !Z.div_1_r. Qed.

Lemma verify_loop st : 0 < turns U1 U2 <= 256 -> running (prefix_point U1 U2 Q (turns U1 U2 - 1)) st ->
  running (add256 (mul256 U1 G256) (mul256 U2 Q))
    (for_down (Z.to_nat (turns U1 U2 - 1)) (fun j r => verify_step points u1 u2 (Z.of_nat j) curve_secp256r1 r) st).
Proof.
  intros HT HR. rewrite <- prefix_all. unfold for_down. set (n := Z.to_nat (turns U1 U2 - 1)).
  assert (H : forall t, (t <= n)%nat -> running (prefix_point U1 U2 Q (Z.of_nat n - Z.of_nat t))
    (for_ 0 t (fun j s => verify_step points u1 u2 (Z.of_nat (n - 1 - j)) curve_secp256r1 s) st)).
  { induction t as [|t IH]; intros Ht.
    - rewrite for_nil by lia. replace (Z.of_nat n - Z.of_nat 0) with (turns U1 U2 - 1) by lia. exact HR.
    - rewrite for_last by lia. replace (Z.of_nat n - Z.of_nat (S t)) with (Z.of_nat (n - 1 - t)) by lia. apply verify_step_spec; [lia|lia|].
      replace (Z.of_nat (n - 1 - t) + 1) with (Z.of_nat n - Z.of_nat t) by lia. apply IH. lia. }
  specialize (H n (le_n _)). rewrite Z.sub_diag in H. exact H.
Qed.

End Loop.

(** ** Verification *)

(** The part of [uECC_verify] after the scalars are known. *)
Definition verify_rest (l r u1 u2 : list Z) : option Z :=
  let zeros := replicate uECC_MAX_WORDS 0 in
  let points := [None; Some secp256r1_G; Some l; Some (verify_sum l curve_secp256r1)] in
  let num_bits := smax (uECC_vli_numBits u1 4) (uECC_vli_numBits u2 4) in
  match points.[bit_index u1 u2 (num_bits - 1)] with
  | None => None
  | Some point =>
      let rx := uECC_vli_set zeros point 4 in
      let ry := uECC_vli_set zeros (drop 4 point) 4 in
      let z := (uECC_vli_clear zeros 4).[0 <- 1] in
      let '(rx, ry, z) := for_down (Z.to_nat (num_bits - 1)) (fun j r =>
        verify_step points u1 u2 (Z.of_nat j) curve_secp256r1 r) (rx, ry, z) in
      let z := uECC_vli_modInv z z secp256r1_p 4 in
      let '(rx, ry) := apply_z rx ry z curve_secp256r1 in
      let rx :=
        if negb (uECC_vli_cmp_unsafe secp256r1_n rx 4 =? 1) then fst (uECC_vli_sub rx rx secp256r1_n 4) else rx in
      Some (uECC_vli_equal rx r 4)
  end.

Section Verify.
Variables (public_key message_hash signature : list Z) (hash_size : nat).
Hypothesis Bh : bytes message_hash.
Hypothesis Lh : (hash_size <= length message_hash)%nat.
Hypothesis Ls : length signature = 64%nat.
Hypothesis Bs : bytes signature.
Local Notation RV := (sig_r signature).
Local Notation SV := (sig_s signature).
Local Notation verify := (uECC_verify public_key message_hash hash_size signature curve_secp256r1).

Lemma scalar_quad V l : quad V l -> negb (uECC_vli_isZero l 4 =? 0) || negb (uECC_vli_cmp_unsafe secp256r1_n l 4 =? 1) = negb (scalar V).
Proof.
  intros H. pose proof (quad_bound _ _ H). rewrite (vli_isZero_spec 4 V l (proj2 H)), (vli_gt_spec 4 n256 V _ l (proj2 secp256r1_n_quad) (proj2 H)).
  unfold scalar. destruct (Z.eqb_spec V 0) as [->|N]; [reflexivity|]. rewrite (proj2 (Z.ltb_lt 0 V)) by lia. reflexivity.
Qed.

(** The words of the scalars, and the tests they meet. *)
Lemma verify_entry : exists r s, quad RV r /\ quad SV s /\
  verify = if negb (uECC_vli_isZero r 4 =? 0) || negb (uECC_vli_isZero s 4 =? 0) then Some 0
    else if negb (uECC_vli_cmp_unsafe secp256r1_n r 4 =? 1) || negb (uECC_vli_cmp_unsafe secp256r1_n s 4 =? 1) then Some 0
    else let '(u1, u2) := verify_scalars r s message_hash hash_size curve_secp256r1 in
      verify_rest (load_public public_key curve_secp256r1) r u1 u2.
Proof.
  eexists _, _. split; [|split].
  - exact (bytesToNative_quad (replicate uECC_MAX_WORDS 0).[4 - 1 <- 0] signature eq_refl Bs ltac:(lia)).
  - exact (bytesToNative_quad (replicate uECC_MAX_WORDS 0).[4 - 1 <- 0] (drop 32 signature) eq_refl ltac:(now apply bytes_drop) ltac:(rewrite length_drop; lia)).
  - reflexivity.
Qed.

Lemma tests_pass (r1 r2 s1 s2 : bool) (v w : option Z) :
  (if r1 || s1 then v else if r2 || s2 then v else w) = if (r1 || r2) || (s1 || s2) then v else w.
Proof. now destruct r1, r2, s1, s2. Qed.

Lemma verify_tests : exists r s, quad RV r /\ quad SV s /\
  verify = if scalar RV && scalar SV then
      let '(u1, u2) := verify_scalars r s message_hash hash_size curve_secp256r1 in verify_rest (load_public public_key curve_secp256r1) r u1 u2
    else Some 0.
Proof.
  destruct verify_entry as (r & s & HR & HS & ->). exists r, s. split; [exact HR|]. split; [exact HS|].
  rewrite tests_pass, (scalar_quad RV r HR), (scalar_quad SV s HS), <- negb_andb. now destruct (scalar RV && scalar SV).
Qed.

Lemma verify_reject : scalar RV && scalar SV = false -> verify = Some 0.
Proof. intros HF. destruct verify_tests as (r & s & _ & _ & ->). now rewrite HF. Qed.

Lemma verify_scalar : 0 < RV < n256 -> 0 < SV < n256 -> exists r u1 u2 I,
  quad RV r /\ (I * SV) mod n256 = 1 /\ quad ((hash_int message_hash hash_size * I) mod n256) u1 /\ quad ((RV * I) mod n256) u2 /\
  verify = verify_rest (load_public public_key curve_secp256r1) r u1 u2.
Proof.
  intros BR BS. destruct verify_tests as (r & s & HR & HS & ->). rewrite (proj2 (scalar_spec RV) BR), (proj2 (scalar_spec SV) BS). cbn [andb].
  pose proof (verify_scalars_spec r s RV SV message_hash hash_size HR HS BS Bh Lh) as HU.
  destruct (verify_scalars r s message_hash hash_size curve_secp256r1) as [u1 u2]. destruct HU as (I & EI & HU1 & HU2).
  exists r, u1, u2, I. repeat (split; [assumption|]). reflexivity.
Qed.

End Verify.

Lemma product_nonzero P R I S : 1 < P -> 0 < R < P -> (I * S) mod P = 1 -> 0 < (R * I) mod P.
Proof.
  intros HP HR HI. pose proof (Z.mod_pos_bound (R * I) P ltac:(lia)) as B. destruct (Z.eq_dec ((R * I) mod P) 0) as [E|]; [|lia].
  exfalso. assert (H : (R * (I * S)) mod P = 0) by (rewrite Z.mul_assoc, <- Zmult_mod_idemp_l, E; reflexivity).
  rewrite <- Zmult_mod_idemp_r, HI, Z.mul_1_r, Z.mod_small in H; lia.
Qed.

Lemma turns_div U t : 0 <= U -> bit_size U <= t -> U / 2 ^ t = 0.
Proof.
  intros HU Ht. unfold bit_size in Ht. destruct (Z.eqb_spec U 0) as [->|N]; [reflexivity|]. apply Z.div_small. split; [lia|].
  apply Z.lt_le_trans with (2 ^ (Z.log2 U + 1)); [apply Z.log2_spec; lia|]. apply Z.pow_le_mono_r; lia.
Qed.

Section Rest.
Variables (U1 U2 : Z) (l r u1 u2 : list Z).
Hypothesis H1 : num 4 U1 u1.
Hypothesis H2 : num 4 U2 u2.
Hypothesis P2 : 0 < U2.

Lemma rest_bits : smax (uECC_vli_numBits u1 4) (uECC_vli_numBits u2 4) = turns U1 U2.
Proof. rewrite (vli_numBits_spec 4 U1 u1 H1), (vli_numBits_spec 4 U2 u2 H2). apply smax_max. Qed.

(** The null entry of the table is never read. *)
Lemma verify_rest_total : exists v, verify_rest l r u1 u2 = Some v.
Proof.
  destruct (first_index U1 U2 u1 u2 H1 H2 P2) as (_ & HI & _). unfold verify_rest. cbv zeta. rewrite rest_bits.
  set (i := bit_index u1 u2 (turns U1 U2 - 1)) in *. clearbody i.
  assert (HP : exists p, [None; Some secp256r1_G; Some l; Some (verify_sum l curve_secp256r1)].[i] = Some p).
  { destruct i as [|[|[|[|i]]]]; [lia|eexists; reflexivity..|lia]. }
  destruct HP as [p ->]. destruct (for_down _ _ _) as [[a b] c]. destruct (apply_z _ _ _ _) as [e f]. eauto.
Qed.

Lemma running_affine A rx ry z : running A (rx, ry, z) -> exists x y, A = Some (x, y) /\
  fel x (fst (apply_z rx ry (uECC_vli_modInv z z secp256r1_p 4) curve_secp256r1)).
Proof.
  intros (_ & p & zF & [FP FZ] & J).
  pose proof (fel_inv z zF z (fel_length _ _ FZ) FZ) as FI. pose proof (apply_z_spec rx ry _ p _ FP FI) as FA.
  assert (HW : Zmod.inv zF *f zF = Zmod.one) by exact (Zmod.mul_inv_same_l_prime _ prime_p256 (proj1 J)).
  destruct (apply_z_affine prime_p256 _ _ _ _ J (or_introl HW)) as (u & v & EM & EA). rewrite EA in FA. exists u, v. split; [exact EM|apply FA].
Qed.

(** The abscissa, reduced by one subtraction. *)
Lemma reduce_x V rx : quad V rx -> V < p256 ->
  quad (V mod n256) (if negb (uECC_vli_cmp_unsafe secp256r1_n rx 4 =? 1) then fst (uECC_vli_sub rx rx secp256r1_n 4) else rx).
Proof.
  intros H B. pose proof (quad_bound _ _ H) as BV. rewrite (vli_gt_spec 4 n256 V _ rx (proj2 secp256r1_n_quad) (proj2 H)).
  assert (B2 : p256 < 2 * n256) by reflexivity. pose proof (vli_sub_exact 4 rx V n256 rx secp256r1_n) as HS. pose proof (proj2 secp256r1_n_quad) as HN.
  set (N := n256) in *. set (P := p256) in *. clearbody N P.
  destruct (Z.ltb_spec V N) as [Hlt|Hge]; cbn [negb]; [now rewrite Z.mod_small by lia|].
  replace (V mod N) with (V - N) by (apply (Z.mod_unique_pos _ _ 1); lia). apply (wrote_quad rx); [apply H|]. apply HS; [rewrite (proj1 H); lia|apply H|exact HN|lia].
Qed.

(** The first point is the one that the highest bits select. *)
Lemma first_point Q : holds Q l -> 0 < turns U1 U2 ->
  prefix_point U1 U2 Q (turns U1 U2 - 1) = selected_point U1 U2 Q (turns U1 U2 - 1).
Proof.
  intros HL HT. rewrite (prefix_next Q U1 U2 l HL) by lia. replace (turns U1 U2 - 1 + 1) with (turns U1 U2) by lia.
  replace (prefix_point U1 U2 Q (turns U1 U2)) with (@None (F256 * F256)); [apply w_add_0_r|]. unfold prefix_point.
  rewrite !turns_div; [reflexivity|..]; unfold turns; [apply (num_bound _ _ _ H2)|lia|apply (num_bound _ _ _ H1)|lia].
Qed.

Lemma verify_rest_spec Q RV : holds Q l -> quad RV r -> regular_points U1 U2 Q ->
  exists x y, add256 (mul256 U1 G256) (mul256 U2 Q) = Some (x, y) /\
    verify_rest l r u1 u2 = Some (Z.b2z (Zmod.to_Z x mod n256 =? RV)).
Proof.
  intros HL HR HV. destruct (first_index U1 U2 u1 u2 H1 H2 P2) as (HT & _ & HB). unfold verify_rest. cbv zeta. rewrite rest_bits.
  rewrite (bit_index_spec U1 U2 u1 u2 _ H1 H2) by lia.
  pose proof (table_spec Q l (Z.testbit U1 (turns U1 U2 - 1)) (Z.testbit U2 (turns U1 U2 - 1)) (proj1 HV) (proj1 (proj2 HV)) HL) as HP. cbv zeta in HP.
  destruct ([None; Some secp256r1_G; Some l; Some (verify_sum l curve_secp256r1)].[_]) as [point|].
  2: { destruct HP as [E1 E2]. rewrite E1, E2 in HB. destruct HB; discriminate. }
  pose proof (running_start _ _ HP) as HS. fold (selected_point U1 U2 Q (turns U1 U2 - 1)) in HS.
  rewrite <- (first_point Q HL (proj1 HT)) in HS. pose proof (verify_loop Q U1 U2 l u1 u2 HL H1 H2 HV _ HT HS) as HE.
  destruct (for_down _ _ _) as [[rx ry] z]. destruct (running_affine _ _ _ _ HE) as (x & y & EM & FX).
  destruct (apply_z rx ry _ curve_secp256r1) as [ax ay]. cbn [fst] in FX. exists x, y. split; [exact EM|]. f_equal.
  apply (vli_equal_spec 4); [|apply HR]. apply (reduce_x _ ax FX). apply to_Z_bound256.
Qed.

End Rest.

(** ** The scalars, from the inverse *)

Lemma inv_n_spec S : 0 < S < n256 -> (inv_n S * S) mod n256 = 1.
Proof.
  intros HS. assert (NZ : Zmod.of_Z n256 S <> Zmod.zero).
  { intros E. apply (f_equal Zmod.to_Z) in E. rewrite Zmod.to_Z_of_Z, Zmod.to_Z_0, Z.mod_small in E; lia. }
  pose proof (Zmod.mul_inv_same_l_prime _ prime_n256 NZ) as H. apply (f_equal Zmod.to_Z) in H.
  rewrite Zmod.to_Z_mul, Zmod.to_Z_of_Z, Zmult_mod_idemp_r in H. exact H.
Qed.

(** All inverses give the same scalars. *)
Lemma inverse_scalar P V I J S : (I * S) mod P = 1 -> (J * S) mod P = 1 -> (V * I) mod P = (V * J) mod P.
Proof.
  intros HI HJ. transitivity ((V * (I * S) * J) mod P).
  - replace (V * (I * S) * J) with (V * I * (J * S)) by ring. rewrite <- (Zmult_mod_idemp_r (J * S)), HJ. f_equal. ring.
  - replace (V * (I * S) * J) with (V * J * (I * S)) by ring. rewrite <- (Zmult_mod_idemp_r (I * S)), HI. f_equal. ring.
Qed.

(** A multiple of s has its factor as scalar. *)
Lemma scalar_factor U V S : 0 < S < n256 -> 0 <= U < n256 -> V mod n256 = (U * S) mod n256 -> (V * inv_n S) mod n256 = U.
Proof.
  intros HS HU E. rewrite <- Zmult_mod_idemp_l, E, Zmult_mod_idemp_l, <- Z.mul_assoc, (Z.mul_comm S), <- Zmult_mod_idemp_r, inv_n_spec by exact HS.
  rewrite Z.mul_1_r. now apply Z.mod_small.
Qed.

Lemma decode_encode x y : decode (encode (Some (x, y))) = Some (x, y).
Proof. unfold decode. now rewrite key_x_encode, key_y_encode, !of256_to_Z. Qed.

(** ** Every valid key *)

Lemma valid_key pk : length pk = 64%nat -> bytes pk -> uECC_valid_public_key pk curve_secp256r1 = 1 ->
  holds (decode pk) (load_public pk curve_secp256r1).
Proof.
  intros L B V. rewrite (valid_public_key_spec pk L B) in V. destruct (P256_Spec.on_curve _ _) eqn:HC; [|rewrite andb_false_r in V; discriminate V].
  destruct (load_public_spec pk L B) as (lx & ly & -> & HX & HY).
  set (X := P256_Spec.key_x pk) in *. set (Y := P256_Spec.key_y pk) in *.
  assert (BXY : 0 <= X < p256 /\ 0 <= Y < p256).
  { unfold P256_Spec.on_curve in HC. rewrite !andb_true_iff, !Z.leb_le, !Z.ltb_lt in HC. tauto. }
  destruct BXY as [BX BY]. apply (holds_words _ lx ly (of256 X) (of256 Y)); [apply on_curve_of256; assumption|reflexivity|..];
    (unfold fel; rewrite to_Z_of256_small by assumption; assumption).
Qed.

Section Decide.
Variables (public_key message_hash signature : list Z) (hash_size : nat).
Hypothesis HQ : holds (decode public_key) (load_public public_key curve_secp256r1).
Hypothesis Bh : bytes message_hash.
Hypothesis Lh : (hash_size <= length message_hash)%nat.
Hypothesis Ls : length signature = 64%nat.
Hypothesis Bs : bytes signature.
Hypothesis HR : 0 < sig_r signature < n256.
Hypothesis HS : 0 < sig_s signature < n256.
Local Notation U1 := (scalar1 (hash_int message_hash hash_size) (sig_s signature)).
Local Notation U2 := (scalar2 (sig_r signature) (sig_s signature)).
Hypothesis HV : regular_points U1 U2 (decode public_key).

(** Verification compares r with the abscissa of the sum. *)
Lemma verify_compares : exists u v, add256 (mul256 U1 G256) (mul256 U2 (decode public_key)) = Some (u, v) /\
  uECC_verify public_key message_hash hash_size signature curve_secp256r1 = Some (Z.b2z (Zmod.to_Z u mod n256 =? sig_r signature)).
Proof.
  destruct (verify_scalar public_key message_hash signature hash_size Bh Lh Ls Bs HR HS) as (r & u1 & u2 & I & Hr & EI & H1 & H2 & ->).
  pose proof (inv_n_spec _ HS) as EN. rewrite (inverse_scalar n256 _ I _ _ EI EN) in H1. rewrite (inverse_scalar n256 _ I _ _ EI EN) in H2.
  pose proof (product_nonzero n256 _ _ _ n256_pos HR EN) as P2.
  exact (verify_rest_spec U1 U2 _ r u1 u2 (proj2 H1) (proj2 H2) P2 _ _ HQ Hr HV).
Qed.

End Decide.

(** ** The keys that are multiples of the base point *)

Section Multiple.
Variables (U1 U2 d : Z).

Lemma selected_of_multiple i : selected_point U1 U2 (M d) i = M (selected U1 U2 d i).
Proof.
  unfold selected_point, selected. rewrite base_add, (mul_mul _ _ G256 G256_on), (bit_multiple G256 _ G256_on), (bit_multiple (M d) _ (base_on d)). reflexivity.
Qed.

Lemma prefix_of_multiple i : prefix_point U1 U2 (M d) i = M (prefix U1 U2 d i).
Proof. unfold prefix_point, prefix. rewrite base_add, (mul_mul _ _ G256 G256_on). reflexivity. Qed.

Lemma sum_multiple x y : M d = Some (x, y) -> add256 (M U1) (mul256 U2 (decode (encode (Some (x, y))))) = M (U1 + U2 * d).
Proof. intros E. rewrite decode_encode, <- E, <- (mul_mul _ _ G256 G256_on), <- base_add. reflexivity. Qed.

Lemma base_1 : M 1 = G256.
Proof. exact (w_mul_1 aF G256). Qed.

Lemma regular_multiple : 2 <= d <= n256 - 3 -> verify_regular U1 U2 d -> regular_points U1 U2 (M d).
Proof.
  intros Hd HV. split; [|split].
  - intros E. rewrite <- base_1 in E at 1. apply base_eq in E. apply Z.divide_opp_r, Z.divide_pos_le in E; lia.
  - intros E. rewrite <- base_1 in E at 1. rewrite <- base_opp in E. apply base_eq in E. apply Z.divide_pos_le in E; lia.
  - intros i Hi. cbv zeta. rewrite selected_of_multiple, prefix_of_multiple, <- base_add, <- base_opp. set (S := selected U1 U2 d i).
    replace (prefix U1 U2 d (i + 1) + prefix U1 U2 d (i + 1)) with (2 * prefix U1 U2 d (i + 1)) by ring.
    intros NS. destruct (HV i Hi) as [D1 D2]; [intros E; apply NS; fold S in E; rewrite E; reflexivity|]. fold S in D1, D2.
    rewrite !base_eq. split; intros E; [apply D1|apply D2].
    + apply Z.divide_opp_r in E. replace (2 * _ - S) with (- (S - 2 * prefix U1 U2 d (i + 1))) by ring. exact E.
    + replace (2 * prefix U1 U2 d (i + 1) + S) with (S - - (2 * prefix U1 U2 d (i + 1))) by ring. exact E.
Qed.

End Multiple.

Lemma signed_scalars e d K sig : signed e d K sig -> exists x y, mul256 K G256 = Some (x, y) /\ length sig = 64%nat /\ bytes sig /\
  sig_r sig = Zmod.to_Z x /\ (sig_s sig * K) mod n256 = (e + sig_r sig * d) mod n256.
Proof.
  intros (x & y & s & _ & EM & _ & -> & Bs & E). exists x, y. split; [exact EM|]. pose proof (to_Z_256 x) as BX.
  assert (B2 : 0 <= s < 2 ^ 256) by (pose proof (proj2 n256_bounds); lia).
  split; [now rewrite length_app, !length_be_split|]. split; [apply bytes_app; split; apply bytes_be_split|].
  assert (ER : sig_r (be_split 32 (Zmod.to_Z x) ++ be_split 32 s) = Zmod.to_Z x).
  { unfold sig_r. rewrite take_app_length' by (now rewrite length_be_split). now apply be_combine_split_256. }
  assert (ES : sig_s (be_split 32 (Zmod.to_Z x) ++ be_split 32 s) = s).
  { unfold sig_s. rewrite drop_app_length', take_ge by (now rewrite ?length_be_split). now apply be_combine_split_256. }
  rewrite ER, ES. split; [reflexivity|exact E].
Qed.

(** ** Properties *)

(** C25: [uECC_sign_with_k] on every nonce of four words, with any random
    number generator that fills its buffer: it returns 0 and leaves the
    signature as it was, or returns 1 and the signature of ECDSA, the abscissa
    r of k times the base point and an s with s k = e + r d modulo n.  Without
    a generator it fails only for the nonces out of 2 to n - 3 or with
    abscissa 0. *)
Theorem uecc_sign_equation {R : Type} (g_rng_function : option (R -> nat -> list Z * Z * R))
    (private_key message_hash k signature : list Z) (hash_size : nat) (st : R) :
  (forall rng, g_rng_function = Some rng -> fills rng) ->
  length private_key = 32%nat -> bytes private_key -> bytes message_hash -> (hash_size <= length message_hash)%nat ->
  length k = 4%nat -> words k -> length signature = 64%nat ->
  let '(_, sig, ok, _) := uECC_sign_with_k g_rng_function private_key message_hash hash_size k signature curve_secp256r1 st in
  (ok = 0 /\ sig = signature \/ ok = 1 /\ signed (hash_int message_hash hash_size) (private_int private_key) (vval k) sig) /\
  (g_rng_function = None -> ok = 1 <-> signable (vval k)).
Proof.
  intros Rng Lk Bk Bh Lh Lw Ww Ls.
  pose proof (sign_with_k_spec g_rng_function Rng private_key message_hash hash_size k _ signature st (quad_of_words k Lw Ww) Lk Bk Bh Lh Ls) as HS.
  destruct (uECC_sign_with_k _ _ _ _ _ _ _ _) as [[[k' sig] ok] st']. destruct HS as [(-> & _ & -> & N)|[-> HS]].
  - split; [left; split; reflexivity|]. intros EN. split; [discriminate|]. intros HK. destruct (N (conj HK (blinds_None _ st EN))).
  - split; [right; split; [reflexivity|exact HS]|]. intros _. split; [|reflexivity]. intros _.
    destruct HS as (x & y & s & BK & EM & Nx & _). exists x, y. auto.
Qed.

(** C26: [uECC_verify] is safe for every public key and signature: the first
    entry of its table of points, a null pointer, is never followed, and a
    signature with r or s out of 1 to n - 1 is rejected. *)
Theorem uecc_verify_safe (public_key message_hash signature : list Z) (hash_size : nat) :
  bytes message_hash -> (hash_size <= length message_hash)%nat -> length signature = 64%nat -> bytes signature ->
  (exists v, uECC_verify public_key message_hash hash_size signature curve_secp256r1 = Some v) /\
  (scalar (sig_r signature) && scalar (sig_s signature) = false ->
    uECC_verify public_key message_hash hash_size signature curve_secp256r1 = Some 0).
Proof.
  intros Bh Lh Ls Bs. pose proof (verify_reject public_key message_hash signature hash_size Lh Ls Bs) as HF. split; [|exact HF].
  destruct (scalar (sig_r signature) && scalar (sig_s signature)) eqn:E; [|exists 0; exact (HF eq_refl)].
  apply andb_true_iff in E as [HR%scalar_spec HS%scalar_spec].
  destruct (verify_scalar public_key message_hash signature hash_size Bh Lh Ls Bs HR HS) as (r & u1 & u2 & I & Hr & EI & H1 & H2 & ->).
  exact (verify_rest_total _ _ _ r u1 u2 (proj2 H1) (proj2 H2) (product_nonzero n256 _ _ _ n256_pos HR EI)).
Qed.

(** C24: [uECC_verify] decides ECDSA for every public key Q that
    [uECC_valid_public_key] accepts, every hash and every signature of 64
    bytes: with u1 = e / s and u2 = r / s modulo n it returns 1 exactly when r
    and s lie in 1 to n - 1 and the abscissa of u1 G + u2 Q is r modulo n, and
    0 otherwise, provided that for such r and s none of its additions, which
    have no case for it, meets equal or opposite points. *)
Theorem uecc_verify_decides (public_key message_hash signature : list Z) (hash_size : nat) :
  length public_key = 64%nat -> bytes public_key -> uECC_valid_public_key public_key curve_secp256r1 = 1 ->
  bytes message_hash -> (hash_size <= length message_hash)%nat -> length signature = 64%nat -> bytes signature ->
  let u1 := scalar1 (hash_int message_hash hash_size) (sig_s signature) in
  let u2 := scalar2 (sig_r signature) (sig_s signature) in
  (scalar (sig_r signature) && scalar (sig_s signature) = true -> regular_points u1 u2 (decode public_key)) ->
  uECC_verify public_key message_hash hash_size signature curve_secp256r1 =
    Some (Z.b2z (scalar (sig_r signature) && scalar (sig_s signature) &&
      match add256 (mul256 u1 G256) (mul256 u2 (decode public_key)) with
      | Some (x, _) => Zmod.to_Z x mod n256 =? sig_r signature
      | None => false
      end)).
Proof.
  intros Lp Bp V Bh Lh Ls Bs u1 u2 HV. destruct (scalar (sig_r signature) && scalar (sig_s signature)) eqn:E.
  - apply andb_true_iff in E as [HR%scalar_spec HS%scalar_spec].
    destruct (verify_compares _ message_hash signature hash_size (valid_key _ Lp Bp V) Bh Lh Ls Bs HR HS (HV eq_refl)) as (u & v & EU & ->).
    fold u1 u2 in EU. rewrite EU. reflexivity.
  - exact (verify_reject public_key message_hash signature hash_size Lh Ls Bs E).
Qed.

(** C6: What [uECC_sign] signs, [uECC_verify] accepts, with the public key
    that [uECC_compute_public_key] makes of the private key, for every hash
    and every generator that fills its buffer: when r and s lie in 1 to n - 1,
    which [uECC_sign] does not check, and the additions of verification do not
    meet equal or opposite points. *)
Theorem uecc_signatures_verify {R : Type} (g_rng_function : option (R -> nat -> list Z * Z * R))
    (private_key buffer public_key message_hash signature sig : list Z) (hash_size : nat) (st : R) :
  (forall rng, g_rng_function = Some rng -> fills rng) ->
  length private_key = 32%nat -> bytes private_key -> length buffer = 64%nat ->
  bytes message_hash -> (hash_size <= length message_hash)%nat -> length signature = 64%nat ->
  uECC_compute_public_key private_key buffer curve_secp256r1 = (public_key, 1) ->
  fst (uECC_sign g_rng_function private_key message_hash hash_size signature curve_secp256r1 st) = (sig, 1) ->
  scalar (sig_r sig) && scalar (sig_s sig) = true ->
  verify_regular (scalar1 (hash_int message_hash hash_size) (sig_s sig)) (scalar2 (sig_r sig) (sig_s sig)) (private_int private_key) ->
  uECC_verify public_key message_hash hash_size sig curve_secp256r1 = Some 1.
Proof.
  intros Rng Lk Bk Lb Bh Lh Ls E ES HRS HV. apply andb_true_iff in HRS as [HR%scalar_spec HS%scalar_spec].
  pose proof (sign_tries_spec g_rng_function Rng uECC_RNG_MAX_TRIES private_key message_hash hash_size (replicate uECC_MAX_WORDS 0) signature st Lk Bk Bh Lh Ls eq_refl) as HT.
  unfold uECC_sign in ES. destruct (sign_tries _ _ _ _ _ _ _ _ _) as [[sig' ok] st']. cbn [fst] in ES. injection ES as -> ->.
  destruct HT as [[HT _]|[_ [K HT]]]; [discriminate HT|]. destruct (signed_scalars _ _ _ _ HT) as (xk & yk & EK & Lg & Bg & Er & Eq).
  destruct (computed_key _ _ _ Lk Bk Lb E) as (Hd & x & y & EM & -> & HO & _).
  pose proof (valid_key _ (length_encode x y) (bytes_encode x y) (valid_encode x y HO)) as HQ.
  pose proof (regular_multiple _ _ _ Hd HV) as HP. rewrite EM, <- (decode_encode x y) in HP.
  destruct (verify_compares _ message_hash sig hash_size HQ Bh Lh Lg Bg HR HS HP) as (u & v & EU & ->).
  pose proof (verify_equation n256 _ _ _ _ K (private_int private_key) eq_refl (inv_n_spec _ HS) Eq) as HE.
  assert (HM : M (scalar1 (hash_int message_hash hash_size) (sig_s sig) + scalar2 (sig_r sig) (sig_s sig) * private_int private_key) = M K).
  { apply base_eq, mod_eq_divide; [discriminate|exact HE]. }
  rewrite (sum_multiple _ _ _ x y EM), HM, EK in EU. injection EU as <- <-. rewrite Er in *. rewrite Z.mod_small, Z.eqb_refl by lia. reflexivity.
Qed.

(** ** Witnesses *)

(** The key 2 and the nonce 8, with a hash that makes the scalars 2 and 3. *)
Definition x8 : Z := 44710890534849379681007195543719586089737754824560621976448707498688874787731.
Definition y8 : Z := 78410552107786285403689301656392479612049391334024095564584156230482213311870.
Definition s8 : Z := 53500993248401876147901547497709053206578236682898794106290322186585795610700.
Definition hash8 : list Z := be_split 32 107001986496803752295803094995418106413156473365797588212580644373171591221400.

Lemma multiple_8 : mul256 8 G256 = Some (of256 x8, of256 y8).
Proof. apply (small_multiple 8 x8 y8). vm_compute. reflexivity. Qed.

Lemma x8_to_Z : Zmod.to_Z (of256 x8) = x8.
Proof. apply to_Z_of256_small. split; [discriminate|reflexivity]. Qed.

Lemma signable_8 : signable 8.
Proof.
  exists (of256 x8), (of256 y8). split; [split; discriminate|]. split; [exact multiple_8|].
  intros E. apply (f_equal Zmod.to_Z) in E. rewrite x8_to_Z, Zmod.to_Z_0 in E. discriminate E.
Qed.

Lemma quad_8 : quad 8 [8; 0; 0; 0].
Proof. apply (quad_of_words [8; 0; 0; 0]); [reflexivity|]. apply wordsb_sound. reflexivity. Qed.

Lemma draw_8 tmp st : length tmp = 4%nat -> 
  uECC_generate_random_int (Some rng8) tmp (curve_n curve_secp256r1) (BITS_TO_WORDS (num_n_bits curve_secp256r1)) st = ([8; 0; 0; 0], 1, st).
Proof. intros L. destruct tmp as [|a [|b [|c [|d [|]]]]]; try discriminate L. vm_compute. reflexivity. Qed.

Lemma blinds_8 st : blinds (Some rng8) st.
Proof.
  intros tmp L. unfold sign_blind. cbv zeta. rewrite (draw_8 tmp st L). discriminate.
Qed.

(** Only s8 signs that hash. *)
Lemma signed_8 sig : signed (hash_int hash8 32) (private_int (key_bytes 2)) 8 sig -> sig_r sig = x8 /\ sig_s sig = s8.
Proof.
  intros (x & y & s & _ & EM & _ & -> & Bs & E). rewrite multiple_8 in EM. injection EM as <- <-. rewrite x8_to_Z in *.
  assert (B2 : 0 <= s < 2 ^ 256) by (pose proof (proj2 n256_bounds); lia). split.
  - unfold sig_r. rewrite take_app_length' by (now rewrite length_be_split). reflexivity.
  - unfold sig_s. rewrite drop_app_length', take_ge by (now rewrite ?length_be_split). rewrite be_combine_split_256 by exact B2.
    assert (E' : (s * 8) mod n256 = (s8 * 8) mod n256) by (rewrite E; reflexivity). apply mod_eq_divide in E'; [|discriminate].
    replace (s * 8 - s8 * 8) with (8 * (s - s8)) in E' by ring. apply Z.divide_prime_mul in E'; [|exact prime_n256].
    assert (B8 : 0 <= s8 < n256) by (split; [discriminate|reflexivity]). assert (B9 : 8 < n256) by reflexivity.
    set (N := n256) in *. set (v := s8) in *. clearbody N v. destruct E' as [E'|[c E']]; [apply Z.divide_pos_le in E'; lia|].
    assert (H0 : c = 0) by nia. rewrite H0 in E'. lia.
Qed.

Lemma sign_8 signature : length signature = 64%nat -> exists sig,
  fst (uECC_sign (Some rng8) (key_bytes 2) hash8 32 signature curve_secp256r1 tt) = (sig, 1) /\
  signed (hash_int hash8 32) (private_int (key_bytes 2)) 8 sig.
Proof.
  intros L. assert (Rng : forall rng, Some rng8 = Some rng -> fills rng) by (intros rng [= <-]; exact rng8_fills).
  pose proof (sign_with_k_spec (Some rng8) Rng (key_bytes 2) hash8 32 _ _ signature tt quad_8 eq_refl (bytes_be_split 32 2)
    (bytes_be_split 32 _) (le_n 32) L) as HS.
  pose proof (sign_first (Some rng8) (pred uECC_RNG_MAX_TRIES) (key_bytes 2) hash8 32 _ signature curve_secp256r1 tt _ _
    (draw_8 (replicate uECC_MAX_WORDS 0) tt eq_refl)) as HF.
  destruct (uECC_sign_with_k (Some rng8) _ _ _ _ _ _ _) as [[[k' sig] ok] st']. destruct HS as [(_ & _ & _ & N)|[E HS]].
  - destruct (N (conj signable_8 (blinds_8 tt))).
  - exists sig. split; [exact (HF E)|exact HS].
Qed.

Lemma scalars_8 : scalar1 (hash_int hash8 32) s8 = 2 /\ scalar2 x8 s8 = 3.
Proof.
  assert (B8 : 0 < s8 < n256) by (split; reflexivity). split; [apply (scalar_factor 2 (hash_int hash8 32) s8 B8)|apply (scalar_factor 3 x8 s8 B8)];
    (reflexivity || (split; [discriminate|reflexivity])).
Qed.

(** The sum that verification computes. *)
Lemma sum_8 : M (scalar1 (hash_int hash8 32) s8 + scalar2 x8 s8 * private_int (key_bytes 2)) = Some (of256 x8, of256 y8).
Proof. destruct scalars_8 as [-> ->]. exact multiple_8. Qed.

Lemma regular_8 sig : sig_r sig = x8 -> sig_s sig = s8 ->
  scalar (sig_r sig) && scalar (sig_s sig) = true /\
  verify_regular (scalar1 (hash_int hash8 32) (sig_s sig)) (scalar2 (sig_r sig) (sig_s sig)) (private_int (key_bytes 2)).
Proof.
  intros -> ->. split; [reflexivity|]. destruct scalars_8 as [-> ->].
  change (private_int (key_bytes 2)) with 2. intros i Hi _. change (turns 2 3 - 1) with 1 in Hi. assert (i = 0) as -> by lia.
  change (prefix 2 3 2 (0 + 1)) with 3. change (selected 2 3 2 0) with 2. split; intros D%Z.divide_pos_le; lia || (apply D; reflexivity).
Qed.

Lemma uecc_sign_equation_witness : exists sig,
  snd (fst (fst (uECC_sign_with_k None (key_bytes 2) hash8 32 [8; 0; 0; 0] (replicate 64 0) curve_secp256r1 tt))) = sig /\
  signed (hash_int hash8 32) (private_int (key_bytes 2)) 8 sig.
Proof.
  pose proof (uecc_sign_equation None (key_bytes 2) hash8 [8; 0; 0; 0] (replicate 64 0) 32 tt ltac:(discriminate) eq_refl (bytes_be_split 32 2)
    (bytes_be_split 32 _) (le_n 32) eq_refl (wordsb_sound [8; 0; 0; 0] eq_refl) eq_refl) as H.
  destruct (uECC_sign_with_k None _ _ _ _ _ _ _) as [[[k' sig] ok] st']. destruct H as [H HN]. exists sig. split; [reflexivity|].
  change (vval [8; 0; 0; 0]) with 8 in H, HN. destruct H as [[E _]|[_ H]]; [|exact H]. rewrite (proj2 (HN eq_refl) signable_8) in E. discriminate E.
Defined.

Lemma uecc_verify_safe_witness : uECC_verify (replicate 64 0) hash8 32 (replicate 64 0) curve_secp256r1 = Some 0.
Proof.
  apply (uecc_verify_safe (replicate 64 0) hash8 (replicate 64 0) 32 (bytes_be_split 32 _) (le_n 32) eq_refl); [|reflexivity].
  apply Forall_replicate. split; reflexivity || discriminate.
Defined.

(** The signature is accepted with the key of 2, and with its last scalar
    replaced by 0 it is rejected. *)
Lemma uecc_verify_decides_witness : exists pk, uECC_valid_public_key pk curve_secp256r1 = 1 /\
  uECC_verify pk hash8 32 (be_split 32 x8 ++ be_split 32 s8) curve_secp256r1 = Some 1 /\
  uECC_verify pk hash8 32 (be_split 32 x8 ++ be_split 32 0) curve_secp256r1 = Some 0.
Proof.
  destruct key_2 as (pk & E & _). destruct (computed_key (key_bytes 2) (replicate 64 0) pk eq_refl (bytes_be_split 32 2) eq_refl E) as (Hd & x & y & EM & -> & HO & _).
  pose proof (valid_encode x y HO) as HV. exists (encode (Some (x, y))). split; [exact HV|].
  pose proof (fun s => uecc_verify_decides (encode (Some (x, y))) hash8 (be_split 32 x8 ++ be_split 32 s) 32 (length_encode x y) (bytes_encode x y) HV
    (bytes_be_split 32 _) (le_n 32) ltac:(now rewrite length_app, !length_be_split) ltac:(apply bytes_app; split; apply bytes_be_split)) as HD.
  cbv zeta in HD. split.
  - specialize (HD s8). assert (Er : sig_r (be_split 32 x8 ++ be_split 32 s8) = x8) by reflexivity.
    assert (Es : sig_s (be_split 32 x8 ++ be_split 32 s8) = s8) by reflexivity. destruct (regular_8 _ Er Es) as [HS HG].
    rewrite Er, Es in HG. rewrite Er, Es in HS. rewrite Er, Es in HD. rewrite HD; clear HD.
    + pose proof (sum_multiple (scalar1 (hash_int hash8 32) s8) (scalar2 x8 s8) _ x y EM) as EA. rewrite sum_8 in EA. rewrite HS, EA, x8_to_Z. reflexivity.
    + intros _. rewrite decode_encode, <- EM. exact (regular_multiple _ _ _ Hd HG).
  - assert (Z0 : scalar (sig_s (be_split 32 x8 ++ be_split 32 0)) = false) by reflexivity.
    specialize (HD 0). rewrite Z0, andb_false_r in HD. apply HD. discriminate.
Defined.

Lemma uecc_signatures_verify_witness : exists pk sig,
  uECC_compute_public_key (key_bytes 2) (replicate 64 0) curve_secp256r1 = (pk, 1) /\
  fst (uECC_sign (Some rng8) (key_bytes 2) hash8 32 (replicate 64 0) curve_secp256r1 tt) = (sig, 1) /\
  uECC_verify pk hash8 32 sig curve_secp256r1 = Some 1.
Proof.
  destruct key_2 as (pk & E & _). destruct (sign_8 (replicate 64 0) eq_refl) as (sig & ES & HS). exists pk, sig.
  split; [exact E|]. split; [exact ES|]. destruct (signed_8 sig HS) as [Er Es]. destruct (regular_8 sig Er Es) as [HRS HV].
  refine (uecc_signatures_verify (Some rng8) (key_bytes 2) (replicate 64 0) pk hash8 (replicate 64 0) sig 32 tt _ eq_refl (bytes_be_split 32 2) eq_refl
    (bytes_be_split 32 _) (le_n 32) eq_refl E ES HRS HV). intros rng [= <-]. exact rng8_fills.
Defined.
